(* ===== verification/_CoqProject ===== *)
-Q . S2P
Prelude.v
GoErrors.v
UnicodeCase.v
GoStrings.v
Model.v
StoreSpec.v
StoreOps.v
Memory.v
Paging.v
MemoryProps.v
Notifier.v
NotifierProps.v
Wire.v
Realtime.v
RealtimeProps.v
Hub.v
Retry.v
RetryProps.v
Stream.v
StreamProps.v
Auth.v
Handlers.v
HandlersProps.v
Duration.v
Config.v
ConfigProps.v
ConfigExact.v
Server.v
ServerProps.v
Entdb.v
EntdbProps.v
Postgres.v
PostgresProps.v
PostgresSample.v
Main.v
MainProps.v
Http.v
Email.v
Twilio.v
Fcm.v
Webpush.v
ChannelProps.v
Conformance.v
ConformanceProps.v
ConformanceRace.v
ConformanceSuite.v
StoreEquiv.v
StoreEquivProps.v
Mux.v
Connect.v
Surface.v
SurfaceProps.v
System.v
SystemProps.v
Deployment.v
Failures.v
StreamLive.v
Delivery.v
Prog.v
Linear.v
Concurrent.v
Rely.v
Drivers.v
LinearProps.v
ConcurrentProps.v
Service.v
DriverRace.v
