(* ===== verification/Prelude.v ===== *)
(** * A verification library for elloloop/notify

    notify is a multi-tenant notification service in Go: a producer calls Notify
    over an internal RPC, the orchestrator stores one row per recipient and
    dispatches it to channel providers, and clients read their inbox, acknowledge
    rows and receive live events over a public RPC.  This library embeds the
    service shallowly: pure functions are Rocq functions, a call that changes
    state is a function on an explicit world (the monad [M W A] of this file),
    concurrent parts are step relations, errors are values (GoErrors.v).

    ** The parts and where they are

    - Data and interfaces (model.go, channel.go, store.go): Model.v.  [Store] and
      [Provider] are records of operations over a world type, so every driver and
      every channel is one value of them.
    - The store contract: StoreSpec.v states it twice, as laws on one call (the
      class [StoreLaws], against which the orchestrator and the handlers are
      proved) and as an abstract machine [spec_step] on two sets of rows;
      StoreOps.v runs histories of calls and derives the second from the first.
      Three drivers implement it: Memory.v (store/memory), Entdb.v (store/entdb)
      and Postgres.v (store/postgres).  Paging.v is the client that follows page
      cursors (store/conformance/queryedge.go).
    - The conformance suite (store/conformance): Conformance.v, all its subtests as
      programs over any store in a monad of test states, its goroutines as
      processes that a schedule interleaves call by call.
    - The orchestrator (notifier.go): Notifier.v, over any store that satisfies
      the laws and any registry of providers.
    - Channel providers: Http.v (requests, form encoding, the provider contract
      of channel.go), Email.v, Twilio.v (SMS and WhatsApp), Fcm.v, Webpush.v under
      channels/, and the in-app provider of internal/server/inapp.go in Stream.v.
    - The realtime engine: Realtime.v (realtime/conn.go, registry.go), Retry.v
      (realtime/retry.go) and Stream.v (internal/server/stream.go): connections
      on a heap, goroutines as processes of a step relation whose steps are the
      accesses to shared state.  Hub.v is the registry without its lists and
      addresses, a map of sessions.
    - The RPC surface: Wire.v (the protobuf messages and internal/server/mapping.go),
      Auth.v (auth.go, the recovery interceptor) and Handlers.v (handlers.go).
    - The HTTP surface: Mux.v (net/http's ServeMux: path cleaning, redirects, which pattern
      serves a path), Connect.v (the generated stubs: procedures, paths, clients,
      interceptor chains) and Surface.v (middleware.go's logging, recovery and
      stream shim, the muxes of server.go and observability.go).
    - The process: Duration.v and Config.v (internal/server/config.go), Server.v
      (server.go, observability.go's health state) and Main.v (cmd/notifyd).
    - The whole: System.v makes a wired server one machine whose inputs are RPCs
      ([serve_all]), with the class [LawfulServer] of what its theorems need of the
      wiring; Deployment.v shows that what NewWithDeps builds is one, and Service.v
      that what main.go starts, on whichever driver, is what parallel RPCs need, from the
      opening and the migration of the database on.
    - In parallel: Prog.v has programs as trees of calls, which a schedule
      interleaves, and stores whose operations are programs; Drivers.v the database
      drivers round trip by round trip, Concurrent.v every handler over any such
      store; alone each is the operation it came from.  Linear.v has clients in real time
      (invocations, round trips, returns) and is the simulation by which LinearProps.v and DriverRace.v say what concurrent clients of a
      driver may observe, with the class [Driver] of what RPCs need of a driver;
      Rely.v is the rely-guarantee by which ConcurrentProps.v uses it.
    - Go itself: this file (integers, the state monad, runs of steps, lists),
      UnicodeCase.v (the lower-case table of package unicode), GoStrings.v (strings with
      their UTF-8, strconv, sort) and GoErrors.v (errors, errors.Is).
      Map iteration order is a parameter, the class [MapOrder].

    They meet as in the code: Server.v wires a store, a validator, the live engine
    and the handlers into one [Process]; Handlers.v calls Notifier.v and the
    store; Notifier.v calls the providers; the in-app provider pushes into the
    registry that the stream handlers drain; Main.v opens the store the
    configuration names and closes it.

    ** What the theorems show

    - Stores (MemoryProps.v, EntdbProps.v, PostgresProps.v): every history of
      calls on each driver is a run of the same abstract machine; of concurrent
      creators of one key exactly one creates, also when the round trips of the
      database drivers interleave (DriverRace.v); the page walk ends and returns every
      row once when the creation times are distinct (and loses rows when they are
      not); composite keys are injective; migrations run once and in order.
    - Drivers under concurrency (LinearProps.v): whatever the schedule of their round
      trips, parallel clients of the EntDB and Postgres drivers see one run of the
      abstract machine, every abstract call of it at an instant between the invocation and
      the return of the call it is made for; which calls are linearizable, and of which
      abstract calls the answers of the others are made, with schedules that show the difference.
    - Drivers against each other (StoreEquiv.v, StoreEquivProps.v): a client that
      names rows by key instead of by id observes on every driver exactly what a
      pure reference store answers; ConformanceProps.v, ConformanceRace.v and
      ConformanceSuite.v: every lawful store passes the whole suite, under every
      schedule of its goroutines.
    - Orchestrator (Notifier.v, NotifierProps.v, ChannelProps.v): one row per user
      and notification id, nothing else changed; which providers are called and
      with what, on a retry as well; the counters; where a fan-out aborts and what it has
      counted by then; the statuses rows end with.
    - Channels (ChannelProps.v): each provider keeps the contract; a malformed
      number never reaches Twilio; what is posted; which answers deliver; when a
      token or subscription is reported gone.
    - Realtime (RealtimeProps.v, Hub.v, StreamProps.v, RetryProps.v, StreamLive.v): invariants under
      any interleaving, every history of registry calls answered as by a map of sessions, first-in first-out delivery, registration for exactly the life
      of a stream, session ids, progress from every reachable state, the retry
      budget, who serves an entry of the tracker, termination of retry goroutines, and four races.
    - RPC (Wire.v, Auth.v, HandlersProps.v, Failures.v): the mappings lose nothing, inboxes show
      and acknowledge only the caller's rows, refusals touch nothing, the inbox
      walk over the RPC is complete; over a store that may fail at any call, every
      RPC fails with the right code (Failures.v).
    - Service (SystemProps.v, ConcurrentProps.v, Service.v, Delivery.v, SurfaceProps.v): over any history of RPCs
      nobody else's calls reach a user's rows, devices or inbox; rows, devices and
      answers stay well-formed; a client that reads and acknowledges gets to the
      end of its inbox; a notification for a connected user reaches that user's
      stream; a client stub's URL is served by exactly its RPC, with one log line, and any other
      path by none; no channel but the in-app one is served by what cmd/notifyd builds; and under every
      interleaving of the round trips and calls of RPCs in parallel, on each of the three
      drivers, by rely-guarantee, rows are stored once, counters add up, own rows can be acknowledged and nobody
      else's are touched.
    - Process (ConfigProps.v, ConfigExact.v, ServerProps.v, MainProps.v): exactly the
      valid configurations can be loaded, production refuses every unauthenticated call, listeners are bound all
      or nothing, Run and Shutdown go all the way and report the first error, the closer's
      included, and the store that was opened is closed once on every way out.

    Props files hold theorems and the small instances on which each theorem with
    hypotheses is applied (its [_witness]).

    ** Bounds and fuel

    Integers are [Z]; where Go's width matters (strconv, durations, the int32
    counters on the wire, ids) the range or the wrap-around is written out.  The
    only fuel is that of clients: of the page walks and of the inbox reader of
    System.v one unit per page, for which any number above the number of matching
    rows suffices, which the theorems prove; the suite's page loop has the bound
    of the source.  All other recursion is structural.  Retry goroutines terminate by a measure.

    ** Outside code

    The EntDB SDK, pgx and Postgres, the JWT parser, the JSON codec, the web-push
    library, net/http's round trips, net.Listen and the clock are parameters.
    What a theorem needs of them is a class of documented laws ([EntdbLaws],
    [PgLaws], [MigrationLaws], [DatabaseLaws], [NotifyEnv], [PoolHandles], ...), each instantiated
    by a concrete function in a witness.

    ** Granularity

    In the memory driver the mutex makes a store call one step.  For the database
    drivers a round trip is one, and Drivers.v interleaves them; their sequential
    theorems take a whole call as a step, and so do those about histories of RPCs.
    The live engine, the retry tracker, the stream goroutines and the conformance
    suite's goroutines interleave at every access to shared state, RPCs in parallel
    at every round trip to the store, on each driver, and every call to the clock and the
    providers.  The theorems about histories of RPCs that ask for [StoreLaws] hold of
    the memory and EntDB drivers, which take every text; Postgres refuses some texts
    and reads ids as uuids, so its part of the service is the theorem on parallel
    RPCs, whose histories are those of an empty schedule, for texts it can hold.

    ** Not modelled

    Paths of requests that need percent-escapes and CONNECT requests, which ServeMux treats
    otherwise; the JSON that slog writes for a log line, and the stack text of a panic's; the
    protobuf runtime (descriptors, reflection, codecs) and what the Connect
    library does between the bytes of a request and a procedure; timeouts, h2c
    and TLS of the HTTP servers; contexts and deadlines, except where a
    cancellation is an event of a process; nil row pointers handed to a store; the
    text of most errors below their format and operands. *)

From stdpp Require Export prelude strings gmap sorting list.
From Stdlib Require Export ZArith Lia.
From Stdlib Require Strings.Ascii.
Export Stdlib.Strings.Ascii (ascii(..)).
Export (notations) Stdlib.Strings.Ascii.

#[global] Open Scope Z_scope.
#[global] Open Scope list_scope.

(** ** Go machine integers *)

(** The range of Go's [int64] (and of [int], which is 64 bits wide on every
    platform the container is built for). *)
Definition min_int64 : Z := - 2 ^ 63.
Definition max_int64 : Z := 2 ^ 63 - 1.
Definition max_uint64 : Z := 2 ^ 64 - 1.
Definition is_int64 (z : Z) : Prop := min_int64 <= z <= max_int64.

(** The Go conversion [int32(z)]: two's-complement truncation. *)
Definition int32_of (z : Z) : Z := (z + 2 ^ 31) mod 2 ^ 32 - 2 ^ 31.

(** ** A state monad for code that threads the world through its calls *)

Definition M (W A : Type) : Type := W -> W * A.

#[global] Instance M_ret {W} : MRet (M W) := fun A a w => (w, a).
#[global] Instance M_bind {W} : MBind (M W) :=
  fun A B f m w => let '(w', a) := m w in f a w'.

(** A computation on a part of the world, lifted to the whole world. *)
Definition lift {W P : Type} (get : W -> P) (put : P -> W -> W) {A} (m : M P A) : M W A :=
  fun w => let '(p', a) := m (get w) in (put p' w, a).

(** Go's two-valued results with a discarded zero value on error. *)
Inductive result (E A : Type) : Type :=
| Ok (a : A)
| Err (e : E).
Arguments Ok {E A} _.
Arguments Err {E A} _.

Definition is_ok {E A} (r : result E A) : bool :=
  match r with Ok _ => true | Err _ => false end.

(** ** Sequences of steps *)

Section steps.
Context {S L : Type} (step : S -> L -> S -> Prop).

(** A finite run, with the labels of its steps in order. *)
Inductive steps : S -> list L -> S -> Prop :=
| steps_nil s : steps s [] s
| steps_cons s l s' ls s'' : step s l s' -> steps s' ls s'' -> steps s (l :: ls) s''.

Lemma steps_app s ls s' ls' s'' :
  steps s ls s' -> steps s' ls' s'' -> steps s (ls ++ ls') s''.
Proof. induction 1; simpl; eauto using steps. Qed.

Lemma steps_snoc s ls s' l s'' :
  steps s ls s' -> step s' l s'' -> steps s (ls ++ [l]) s''.
Proof. eauto using steps_app, steps. Qed.

(** An inductive invariant of the step relation holds along every run. *)
Lemma steps_invariant (P : S -> Prop) :
  (forall s l s', P s -> step s l s' -> P s') ->
  forall s ls s', steps s ls s' -> P s -> P s'.
Proof. intros Hstep s ls s' Hrun. induction Hrun; eauto. Qed.

End steps.

(** ** Lists *)

Section lists.
Context {A : Type}.
Implicit Types (l : list A).

Lemma Permutation_filter_Prop (P : A -> Prop) `{!forall x, Decision (P x)} l1 l2 :
  l1 ≡ₚ l2 -> filter P l1 ≡ₚ filter P l2.
Proof. intros Hp. by rewrite Hp. Qed.

Lemma length_take_le (n : nat) l : (length (take n l) <= n)%nat.
Proof. rewrite length_take. lia. Qed.

Lemma NoDup_take (n : nat) l : NoDup l -> NoDup (take n l).
Proof. intros H. rewrite <- (take_drop n l) in H. by apply NoDup_app in H as [? _]. Qed.

Lemma NoDup_fmap_filter {B} (f : A -> B) (P : A -> Prop) `{!forall x, Decision (P x)} l :
  NoDup (f <$> l) -> NoDup (f <$> filter P l).
Proof.
  induction l as [|a l IH]; [done|]. rewrite fmap_cons, NoDup_cons, filter_cons.
  intros [Hna Hnd]. case_decide; [|auto]. rewrite fmap_cons, NoDup_cons. split; [|auto].
  contradict Hna. apply list_elem_of_fmap in Hna as (b & -> & [_ Hb]%list_elem_of_filter).
  by apply list_elem_of_fmap_2.
Qed.

Lemma last_take_elem (k : nat) l x : last (take k l) = Some x -> x ∈ l.
Proof.
  intros Hx. apply last_Some in Hx as [l1 Hl1]. rewrite <- (take_drop k l), Hl1.
  rewrite !elem_of_app. left. right. by left.
Qed.

Lemma filter_all (P : A -> Prop) `{!forall x, Decision (P x)} l :
  (forall x, x ∈ l -> P x) -> filter P l = l.
Proof.
  induction l as [|a l IH]; intros Hl; [done|].
  rewrite filter_cons_True by (apply Hl; by left). f_equal. apply IH. intros x Hx. apply Hl. by right.
Qed.

Lemma filter_none (P : A -> Prop) `{!forall x, Decision (P x)} l :
  (forall x, x ∈ l -> ~ P x) -> filter P l = [].
Proof.
  induction l as [|a l IH]; intros Hl; [done|].
  rewrite filter_cons_False by (apply Hl; by left). apply IH. intros x Hx. apply Hl. by right.
Qed.

(** The boolean count of the elements that satisfy a predicate. *)
Definition count (f : A -> bool) (l : list A) : nat :=
  length (List.filter f l).

Lemma count_cons f x l : count f (x :: l) = ((if f x then 1 else 0) + count f l)%nat.
Proof. unfold count. simpl. by destruct (f x). Qed.

Lemma count_app f l1 l2 : count f (l1 ++ l2) = (count f l1 + count f l2)%nat.
Proof. unfold count. by rewrite List.filter_app, length_app. Qed.

Lemma count_perm f l1 l2 : l1 ≡ₚ l2 -> count f l1 = count f l2.
Proof. induction 1; rewrite ?count_cons; lia. Qed.

Lemma count_le f l : (count f l <= length l)%nat.
Proof. induction l as [|x l IH]; [done|]. rewrite count_cons. simpl. destruct (f x); lia. Qed.

Lemma count_pos f x l : x ∈ l -> f x = true -> (0 < count f l)%nat.
Proof.
  intros Hx Hf. induction l as [|y l IH]; [by apply not_elem_of_nil in Hx|]. rewrite count_cons.
  apply elem_of_cons in Hx as [->|Hx]; [rewrite Hf; lia|]. specialize (IH Hx). lia.
Qed.

Lemma StronglySorted_app_inv (R : relation A) l1 l2 :
  StronglySorted R (l1 ++ l2) ->
  StronglySorted R l1 /\ StronglySorted R l2 /\
  (forall x y, x ∈ l1 -> y ∈ l2 -> R x y).
Proof.
  induction l1 as [|a l1 IH]; simpl; intros Hs.
  - split_and!; [constructor | done | intros x y Hx; by apply not_elem_of_nil in Hx].
  - apply StronglySorted_inv in Hs as [Hs Ha].
    destruct (IH Hs) as (H1 & H2 & H3). rewrite Forall_app in Ha. destruct Ha as [Ha1 Ha2].
    split_and!; [by constructor | done |].
    intros x y [->|Hx]%elem_of_cons Hy; [|by apply H3].
    rewrite Forall_forall in Ha2. auto.
Qed.

Lemma StronglySorted_filter (R : relation A) (P : A -> Prop) `{!forall x, Decision (P x)} l :
  StronglySorted R l -> StronglySorted R (filter P l).
Proof.
  induction 1 as [|a l Hs IH Ha]; simpl; [constructor|].
  rewrite filter_cons. case_decide; [|done].
  constructor; [done|]. rewrite Forall_forall in *. intros x [_ Hx]%list_elem_of_filter. auto.
Qed.

End lists.

(** ** sort.Slice

    [sort.Slice] promises some permutation without inversions for the given
    [less]; a merge sort is one, and the lemmas below show that it is the only
    one whenever [less] orders all the elements. *)

Class LessOrder {A : Type} (less : relation A) : Prop := {
  less_irrefl : forall a, ~ less a a;
  less_trans : forall a b c, less a b -> less b c -> less a c;
  less_neg_trans : forall a b c, ~ less b a -> ~ less c b -> ~ less c a;
}.

Definition sort_slice {A : Type} (less : relation A) `{!RelDecision less} (l : list A) : list A :=
  merge_sort (fun a b => ~ less b a) l.

Section sort_slice.
Context {A : Type} (less : relation A) `{!RelDecision less} `{!LessOrder less}.

Lemma sort_slice_perm l : sort_slice less l ≡ₚ l.
Proof. apply merge_sort_Permutation. Qed.

Lemma sort_slice_no_inversion l : StronglySorted (fun a b => ~ less b a) (sort_slice less l).
Proof.
  apply StronglySorted_merge_sort.
  - intros a b c Hab Hbc. by eapply less_neg_trans.
  - intros a b. destruct (decide (less b a)) as [Hba|]; [right|by left].
    intros Hab. by apply (less_irrefl a), (less_trans _ b).
Qed.

(** When [less] decides every two elements, the result is strictly sorted. *)
Lemma sort_slice_sorted {K} (f : A -> K) l :
  (forall a b, a ∈ l -> b ∈ l -> f a <> f b -> less a b \/ less b a) ->
  NoDup (f <$> l) -> StronglySorted less (sort_slice less l).
Proof.
  intros Htot Hnd. pose proof (sort_slice_no_inversion l) as Hs.
  assert (Hin : forall a, a ∈ sort_slice less l -> a ∈ l) by (intros a; by rewrite sort_slice_perm).
  assert (Hnd' : NoDup (f <$> sort_slice less l)) by (by rewrite sort_slice_perm).
  induction Hs as [|a l' Hs IH Ha]; [constructor|].
  rewrite fmap_cons, NoDup_cons in Hnd'. destruct Hnd' as [Hnot Hnd'].
  constructor; [apply IH; set_solver|].
  rewrite Forall_forall in *. intros b Hb.
  destruct (Htot a b) as [|Hba]; [set_solver..| |done|by destruct (Ha b Hb)].
  intros He. apply Hnot. rewrite He. by apply list_elem_of_fmap_2.
Qed.

(** A strictly sorted list is determined by its elements. *)
Lemma sorted_unique l1 l2 :
  StronglySorted less l1 -> StronglySorted less l2 -> l1 ≡ₚ l2 -> l1 = l2.
Proof.
  apply StronglySorted_unique_strong. intros a b _ _ Hab Hba.
  destruct (less_irrefl a). by apply (less_trans _ b).
Qed.

Lemma StronglySorted_NoDup l : StronglySorted less l -> NoDup l.
Proof.
  induction 1 as [|a l Hs IH Ha]; constructor; [|done].
  rewrite Forall_forall in Ha. intros Hin. by apply (less_irrefl a), Ha.
Qed.
End sort_slice.

(** ** Automation *)

Create HintDb notify.

#[export] Hint Resolve length_take_le NoDup_take NoDup_fmap_filter : notify.
#[export] Hint Constructors steps : notify.

(** Case analysis on the booleans and propositions the code branches on. *)
Ltac case_if :=
  match goal with
  | |- context [if ?b then _ else _] => let H := fresh "Hif" in destruct b eqn:H
  end.

(** Turn boolean tests into the propositions they decide. *)
Ltac bool_to_prop :=
  repeat match goal with
  | H : context [bool_decide _ = true] |- _ => rewrite bool_decide_eq_true in H
  | H : context [bool_decide _ = false] |- _ => rewrite bool_decide_eq_false in H
  | H : (_ =? _)%string = true |- _ => apply String.eqb_eq in H
  | H : (_ =? _)%string = false |- _ => apply String.eqb_neq in H
  | H : _ && _ = true |- _ => apply andb_true_iff in H as [? ?]
  | H : _ || _ = false |- _ => apply orb_false_iff in H as [? ?]
  | H : negb _ = true |- _ => apply negb_true_iff in H
  | H : negb _ = false |- _ => apply negb_false_iff in H
  end.

(** Close goals that are an equation chase after the case analysis. *)
Ltac crush := repeat (simplify_eq/=; try case_match); eauto with notify.

(** Open the state monad's bind and return. *)
Ltac unfold_M := unfold mbind, mret, M_bind, M_ret, lift in *.

(** ** Facts about the conversions *)

Lemma int32_of_id z : - 2 ^ 31 <= z < 2 ^ 31 -> int32_of z = z.
Proof. intros H. unfold int32_of. rewrite Z.mod_small; lia. Qed.

Lemma int32_of_range z : - 2 ^ 31 <= int32_of z < 2 ^ 31.
Proof.
  unfold int32_of. pose proof (Z.mod_pos_bound (z + 2 ^ 31) (2 ^ 32) ltac:(lia)). lia.
Qed.
