(* ===== verification/GoErrors.v ===== *)
(** * Go error values

    The error values the program builds, tests and returns: the sentinels of
    store.go, channels/fcm and channels/webpush, [errors.New], [fmt.Errorf] with
    and without [%w], [connect.NewError], [strconv.NumError], and the values
    handed over by code outside the repository ([External]).  An error is kept
    as its construction (format and operands), never as rendered text, so
    [errors.Is] walks exactly the chain that [%w] builds. *)

From S2P Require Import Prelude.

(** The Connect status codes the handlers use (connectrpc.com/connect). *)
Inductive Code : Type :=
| CodeInvalidArgument
| CodeInternal
| CodeUnauthenticated
| CodeNotFound
| CodeUnimplemented.

(** What the repository can observe about an error made by a library: its text
    and, where the code tests for it with [errors.As] / [errors.Is], its kind. *)
Inductive ExternalKind : Type :=
| ExtPlain
| ExtUniqueConstraint      (* *sdk.UniqueConstraintError of the EntDB SDK *)
| ExtNoRows                (* pgx.ErrNoRows *)
| ExtPgError (code : string)  (* *pgconn.PgError with its SQLSTATE *)
| ExtContext.              (* ctx.Err() *)

(** An operand of a format string. *)
Inductive FmtArg : Type :=
| FStr (s : string)
| FInt (z : Z).

Inductive error : Type :=
| ErrNotFound
| ErrConflict
| ErrUnregisteredToken
| ErrSubscriptionGone
| ErrorsNew (msg : string)
| Errorf (format : string) (args : list FmtArg)
| ErrorfW (format : string) (args : list FmtArg) (wrapped : error)
| ConnectError (code : Code) (underlying : error)
| NumError (func num : string) (range : bool)
| TwilioError (code : Z) (message : string)
| External (kind : ExternalKind) (text : string)
| GoPanic (msg : string).

#[global] Instance Code_eq_dec : EqDecision Code.
Proof. solve_decision. Defined.
#[global] Instance ExternalKind_eq_dec : EqDecision ExternalKind.
Proof. solve_decision. Defined.
#[global] Instance FmtArg_eq_dec : EqDecision FmtArg.
Proof. solve_decision. Defined.
#[global] Instance error_eq_dec : EqDecision error.
Proof. solve_decision. Defined.

(** The chain [errors.Unwrap] walks. *)
Fixpoint errors_chain (e : error) : list error :=
  e :: match e with
       | ErrorfW _ _ w => errors_chain w
       | ConnectError _ u => errors_chain u
       | _ => []
       end.

(** [errors.Is(err, target)] for a sentinel target. *)
Definition errors_is (e target : error) : bool :=
  bool_decide (target ∈ errors_chain e).

(** [connect.CodeOf]-style view of the outermost error, when it carries a code. *)
Definition code_of (e : error) : option Code :=
  match e with ConnectError c _ => Some c | _ => None end.

Definition is_external (k : ExternalKind -> bool) (e : error) : bool :=
  existsb (fun x => match x with External k' _ => k k' | _ => false end) (errors_chain e).

(** [errors.As(err, &uce)] for [*sdk.UniqueConstraintError]. *)
Definition is_unique_constraint (e : error) : bool :=
  is_external (fun k => bool_decide (k = ExtUniqueConstraint)) e.

Lemma errors_is_refl e : errors_is e e = true.
Proof. apply bool_decide_eq_true. destruct e; simpl; set_solver. Qed.

Lemma errors_is_wrap fmt args w target :
  errors_is w target = true -> errors_is (ErrorfW fmt args w) target = true.
Proof. unfold errors_is. rewrite !bool_decide_eq_true. simpl. set_solver. Qed.

Lemma errors_is_connect c u target :
  errors_is u target = true -> errors_is (ConnectError c u) target = true.
Proof. unfold errors_is. rewrite !bool_decide_eq_true. simpl. set_solver. Qed.

#[export] Hint Resolve errors_is_refl errors_is_wrap errors_is_connect : notify.
