(* ===== verification/GoStrings.v ===== *)
(** * Go strings and strconv

    Go strings are byte strings; [string] is a list of bytes too, so the
    functions of package strings and strconv that the repository calls are
    written here on [string] byte by byte.  UTF-8 matters in two places: [TrimSpace]
    removes every Unicode white-space rune, and [ToLower] decodes the string, maps
    every rune by the table of UnicodeCase.v and encodes the runes again; a byte
    that starts no valid encoding is read as U+FFFD, as range loops do. *)

From S2P Require Import Prelude GoErrors UnicodeCase.

Definition s2l (s : string) : list ascii := String.list_ascii_of_string s.
Definition l2s (l : list ascii) : string := String.string_of_list_ascii l.

Definition byte (a : ascii) : Z := Z.of_N (Ascii.N_of_ascii a).
Definition chr (z : Z) : ascii := Ascii.ascii_of_N (Z.to_N z).

(** ** White space *)

(** The one-, two- and three-byte encodings of [unicode.IsSpace] runes. *)
Definition space1 (a : ascii) : bool :=
  let b := byte a in (9 <=? b) && (b <=? 13) || (b =? 32).

Definition space2 (a b : ascii) : bool :=
  (byte a =? 194) && ((byte b =? 133) || (byte b =? 160)).

Definition space3 (a b c : ascii) : bool :=
  let (x, y) := (byte a, byte b) in
  let z := byte c in
  (x =? 225) && (y =? 154) && (z =? 128)
  || (x =? 226) && (y =? 128)
     && ((128 <=? z) && (z <=? 138) || (z =? 168) || (z =? 169) || (z =? 175))
  || (x =? 226) && (y =? 129) && (z =? 159)
  || (x =? 227) && (y =? 128) && (z =? 128).

(** Drop white-space runes from the head of a byte sequence, for a given
    reading direction of the multi-byte encodings. *)
Fixpoint trim_head (s1 : ascii -> bool) (s2 : ascii -> ascii -> bool)
    (s3 : ascii -> ascii -> ascii -> bool) (l : list ascii) : list ascii :=
  match l with
  | [] => []
  | a :: t =>
      if s1 a then trim_head s1 s2 s3 t else
      match t with
      | [] => l
      | b :: t2 =>
          if s2 a b then trim_head s1 s2 s3 t2 else
          match t2 with
          | [] => l
          | c :: t3 => if s3 a b c then trim_head s1 s2 s3 t3 else l
          end
      end
  end.

Definition trim_left (l : list ascii) : list ascii := trim_head space1 space2 space3 l.

Definition trim_right (l : list ascii) : list ascii :=
  rev (trim_head space1 (fun b a => space2 a b) (fun c b a => space3 a b c) (rev l)).

(** [strings.TrimSpace]. *)
Definition TrimSpace (s : string) : string := l2s (trim_right (trim_left (s2l s))).

(** ** Case, prefixes, splitting, searching *)

Definition lower_byte (a : ascii) : ascii :=
  if (65 <=? byte a) && (byte a <=? 90) then chr (byte a + 32) else a.

Definition RuneError : Z := 0xFFFD.

(** Continuation bytes, and the second bytes that a leading byte allows. *)
Definition in_bytes (lo hi : Z) (a : ascii) : bool := (lo <=? byte a) && (byte a <=? hi).
Definition continues : ascii -> bool := in_bytes 128 191.

Definition leads2 (a b : ascii) : bool := in_bytes 194 223 a && continues b.

Definition leads3 (a b : ascii) : bool :=
  (byte a =? 224) && in_bytes 160 191 b || in_bytes 225 236 a && continues b
  || (byte a =? 237) && in_bytes 128 159 b || in_bytes 238 239 a && continues b.

Definition leads4 (a b : ascii) : bool :=
  (byte a =? 240) && in_bytes 144 191 b || in_bytes 241 243 a && continues b
  || (byte a =? 244) && in_bytes 128 143 b.

(** The runes that [range s] visits ([utf8.DecodeRuneInString]). *)
Fixpoint runes (s : string) : list Z :=
  match s with
  | EmptyString => []
  | String a s1 =>
      if byte a <? 128 then byte a :: runes s1 else
      match s1 with
      | EmptyString => [RuneError]
      | String b s2 =>
          if leads2 a b then ((byte a - 192) * 64 + (byte b - 128)) :: runes s2 else
          match s2 with
          | EmptyString => RuneError :: runes s1
          | String c s3 =>
              if leads3 a b && continues c
              then ((byte a - 224) * 4096 + (byte b - 128) * 64 + (byte c - 128)) :: runes s3 else
              match s3 with
              | EmptyString => RuneError :: runes s1
              | String d s4 =>
                  if leads4 a b && continues c && continues d
                  then ((byte a - 240) * 262144 + (byte b - 128) * 4096 + (byte c - 128) * 64 + (byte d - 128)) :: runes s4
                  else RuneError :: runes s1
              end
          end
      end
  end.

(** [utf8.AppendRune], of a valid rune, in front of [s]. *)
Definition put_rune (r : Z) (s : string) : string :=
  if r <? 128 then String (chr r) s
  else if r <? 2048 then String (chr (192 + r / 64)) (String (chr (128 + r mod 64)) s)
  else if r <? 65536 then
    String (chr (224 + r / 4096)) (String (chr (128 + r / 64 mod 64)) (String (chr (128 + r mod 64)) s))
  else String (chr (240 + r / 262144)) (String (chr (128 + r / 4096 mod 64))
         (String (chr (128 + r / 64 mod 64)) (String (chr (128 + r mod 64)) s))).

Definition string_of_runes (l : list Z) : string := foldr put_rune "" l.

(** [strings.ToLower], which is [Map(unicode.ToLower, s)]. *)
Definition ToLower (s : string) : string := string_of_runes (unicode_ToLower <$> runes s).
#[global] Arguments ToLower : simpl never.

(** [strings.HasPrefix(s, p)] *)
Definition HasPrefix (s p : string) : bool := String.prefix p s.

(** The bytes of [s] from index [n], [s[n:]]. *)
Fixpoint slice_from (n : nat) (s : string) : string :=
  match n, s with
  | O, _ => s
  | S n', String _ s' => slice_from n' s'
  | S _, EmptyString => EmptyString
  end.

Definition TrimPrefix (s p : string) : string :=
  if HasPrefix s p then slice_from (String.length p) s else s.

(** [strings.Contains(s, sub)]. *)
Fixpoint Contains (s sub : string) : bool :=
  HasPrefix s sub ||
  match s with EmptyString => false | String _ s' => Contains s' sub end.

(** [strings.Split(s, sep)] for a one-byte separator. *)
Fixpoint Split (s : string) (sep : ascii) : list string :=
  match s with
  | EmptyString => [EmptyString]
  | String a s' =>
      if Ascii.eqb a sep then EmptyString :: Split s' sep
      else match Split s' sep with
           | p :: ps => String a p :: ps
           | [] => [String a EmptyString]
           end
  end.

(** [strings.IndexByte(s, c)], [None] for the code's -1. *)
Fixpoint IndexByte (s : string) (c : ascii) : option nat :=
  match s with
  | EmptyString => None
  | String a s' => if Ascii.eqb a c then Some O else S <$> IndexByte s' c
  end.

(** [strings.TrimRight(s, "/")] for a one-byte cut set. *)
Definition TrimRightByte (s : string) (c : ascii) : string :=
  let fix drop l := match l with
                    | a :: t => if Ascii.eqb a c then drop t else l
                    | [] => [] end in
  l2s (rev (drop (rev (s2l s)))).

(** ** Decimal numbers *)

Definition is_digit (a : ascii) : bool := (48 <=? byte a) && (byte a <=? 57).

(** The digit loop shared by [strconv.FormatInt] and store/entdb's
    [decString]: prepend [n mod 10] while [n > 0]. *)
Fixpoint dec_loop (fuel : nat) (n : Z) (acc : string) : string :=
  match fuel with
  | O => acc
  | S fuel' =>
      if n <=? 0 then acc
      else dec_loop fuel' (n / 10) (String (chr (48 + n mod 10)) acc)
  end.

(** The number of iterations is at most the number of bits of [n]. *)
Definition dec_fuel (n : Z) : nat := S (Z.to_nat (Z.log2 n)).

Definition format_uint (n : Z) : string :=
  if n =? 0 then "0" else dec_loop (dec_fuel n) n "".

(** [strconv.FormatInt(z, 10)], also [strconv.Itoa] and [%d]. *)
Definition FormatInt (z : Z) : string :=
  if z <? 0 then String "-"%char (format_uint (- z)) else format_uint z.

(** The loop of [strconv.ParseUint] in base 10: [inl] is the syntax error,
    [inr None] the range error. *)
Fixpoint parse_uint_loop (s : string) (n : Z) : unit + option Z :=
  match s with
  | EmptyString => inr (Some n)
  | String a s' =>
      if is_digit a then
        let n' := n * 10 + (byte a - 48) in
        if max_uint64 <? n' then inr None else parse_uint_loop s' n'
      else inl tt
  end.

Definition parse_signed (func s0 : string) (neg : bool) (s : string) : result error Z :=
  if String.eqb s "" then Err (NumError func s0 false) else
  match parse_uint_loop s 0 with
  | inl _ => Err (NumError func s0 false)
  | inr None => Err (NumError func s0 true)
  | inr (Some un) =>
      if negb neg && (2 ^ 63 <=? un) then Err (NumError func s0 true)
      else if neg && (2 ^ 63 <? un) then Err (NumError func s0 true)
      else Ok (if neg then - un else un)
  end.

(** [strconv.ParseInt(s, 10, 64)]; [Atoi] differs in the error's function name. *)
Definition parse_int (func s : string) : result error Z :=
  match s with
  | EmptyString => Err (NumError func s false)
  | String a s' =>
      if Ascii.eqb a "+"%char then parse_signed func s false s'
      else if Ascii.eqb a "-"%char then parse_signed func s true s'
      else parse_signed func s false s
  end.

Definition ParseInt (s : string) : result error Z := parse_int "ParseInt" s.
Definition Atoi (s : string) : result error Z := parse_int "Atoi" s.

(** [strconv.ParseBool]. *)
Definition ParseBool (s : string) : result error bool :=
  if bool_decide (s ∈ ["1"; "t"; "T"; "true"; "TRUE"; "True"]) then Ok true
  else if bool_decide (s ∈ ["0"; "f"; "F"; "false"; "FALSE"; "False"]) then Ok false
  else Err (NumError "ParseBool" s false).

(** ** The value of a digit string *)

Fixpoint dec_value (s : string) (n : Z) : Z :=
  match s with
  | EmptyString => n
  | String a s' => dec_value s' (n * 10 + (byte a - 48))
  end.

Fixpoint all_digits (s : string) : bool :=
  match s with
  | EmptyString => true
  | String a s' => is_digit a && all_digits s'
  end.

(** ** Lemmas: bytes and decimal digits *)

Lemma byte_range a : 0 <= byte a < 256.
Proof. unfold byte. pose proof (Ascii.N_ascii_bounded a). lia. Qed.

Lemma byte_chr z : 0 <= z < 256 -> byte (chr z) = z.
Proof. intros Hz. unfold byte, chr. rewrite Ascii.N_ascii_embedding; lia. Qed.

Lemma is_digit_chr d : 0 <= d < 10 -> is_digit (chr (48 + d)) = true.
Proof. intros Hd. unfold is_digit. rewrite byte_chr by lia. lia. Qed.

Lemma is_digit_byte a : is_digit a = true -> 48 <= byte a <= 57.
Proof. unfold is_digit. lia. Qed.

Lemma dec_loop_value fuel n acc :
  0 <= n < 2 ^ Z.of_nat fuel -> dec_value (dec_loop fuel n acc) 0 = dec_value acc n.
Proof.
  revert n acc. induction fuel as [|fuel IH]; intros n acc Hn; simpl.
  - replace n with 0 by lia. done.
  - destruct (Z.leb_spec n 0); [by replace n with 0 by lia|].
    rewrite Nat2Z.inj_succ, Z.pow_succ_r in Hn by lia.
    rewrite IH by (split; [apply Z.div_pos; lia | apply Z.div_lt_upper_bound; lia]).
    simpl. rewrite byte_chr by (pose proof (Z.mod_pos_bound n 10); lia).
    f_equal. pose proof (Z.div_mod n 10). lia.
Qed.

Lemma dec_loop_digits fuel n acc :
  all_digits acc = true -> all_digits (dec_loop fuel n acc) = true.
Proof.
  revert n acc. induction fuel as [|fuel IH]; intros n acc Hacc; simpl; [done|].
  destruct (n <=? 0); [done|]. apply IH. simpl.
  by rewrite is_digit_chr by (pose proof (Z.mod_pos_bound n 10); lia).
Qed.

Lemma dec_fuel_enough n : 0 <= n -> n < 2 ^ Z.of_nat (dec_fuel n).
Proof.
  intros Hn. unfold dec_fuel. rewrite Nat2Z.inj_succ, Z2Nat.id by apply Z.log2_nonneg.
  destruct (decide (n = 0)) as [->|]; [done|]. apply Z.log2_spec. lia.
Qed.

Lemma format_uint_value n : 0 <= n -> dec_value (format_uint n) 0 = n.
Proof.
  intros Hn. unfold format_uint. destruct (Z.eqb_spec n 0) as [->|]; [done|].
  rewrite dec_loop_value; [done|]. split; [done|by apply dec_fuel_enough].
Qed.

Lemma format_uint_digits n : all_digits (format_uint n) = true.
Proof. unfold format_uint. destruct (n =? 0); [done|]. by apply dec_loop_digits. Qed.

Lemma format_uint_inj n m : 0 <= n -> 0 <= m -> format_uint n = format_uint m -> n = m.
Proof. intros Hn Hm He. rewrite <- (format_uint_value n), <- (format_uint_value m); congruence. Qed.

Lemma format_uint_nonempty n : 0 <= n -> format_uint n <> "".
Proof.
  intros Hn He. pose proof (format_uint_value n Hn) as Hv. rewrite He in Hv. simpl in Hv.
  subst n. vm_compute in He. discriminate.
Qed.

Lemma dec_value_mono s n : all_digits s = true -> 0 <= n -> n <= dec_value s n.
Proof.
  revert n. induction s as [|a s IH]; intros n Hs Hn; simpl in *; [lia|].
  apply andb_true_iff in Hs as [Ha%is_digit_byte Hs].
  transitivity (n * 10 + (byte a - 48)); [lia|]. apply IH; [done|lia].
Qed.

Lemma parse_uint_loop_value s n :
  all_digits s = true -> 0 <= n -> dec_value s n <= max_uint64 ->
  parse_uint_loop s n = inr (Some (dec_value s n)).
Proof.
  revert n. induction s as [|a s IH]; intros n Hs Hn Hmax; simpl in *; [done|].
  apply andb_true_iff in Hs as [Ha Hs]. rewrite Ha. apply is_digit_byte in Ha.
  pose proof (dec_value_mono s (n * 10 + (byte a - 48)) Hs ltac:(lia)).
  rewrite (proj2 (Z.ltb_ge _ _)) by lia. apply IH; [done|lia|done].
Qed.

Lemma parse_signed_format f s0 neg n :
  0 <= n < 2 ^ 63 -> parse_signed f s0 neg (format_uint n) = Ok (if neg then - n else n).
Proof.
  intros Hn. unfold parse_signed.
  rewrite (proj2 (String.eqb_neq _ _)) by (apply format_uint_nonempty; lia).
  assert (Hv : dec_value (format_uint n) 0 = n) by (apply format_uint_value; lia).
  rewrite parse_uint_loop_value; rewrite ?Hv; [|apply format_uint_digits|lia|unfold max_uint64; lia].
  rewrite (proj2 (Z.leb_gt _ _)), (proj2 (Z.ltb_ge _ _)) by lia.
  by rewrite !andb_false_r.
Qed.

(** [ParseInt] undoes [FormatInt] on every [int64] but the least one's
    magnitude, which the cursor code never reaches. *)
Lemma parse_format f n : - 2 ^ 63 < n < 2 ^ 63 -> parse_int f (FormatInt n) = Ok n.
Proof.
  intros Hn. unfold FormatInt. destruct (Z.ltb_spec n 0) as [Hneg|Hpos].
  - unfold parse_int. change (Ascii.eqb "-" "+") with false. change (Ascii.eqb "-" "-") with true.
    cbv iota. rewrite parse_signed_format by lia. f_equal. apply Z.opp_involutive.
  - pose proof (parse_signed_format f (format_uint n) false n ltac:(lia)) as Hp.
    destruct (format_uint n) as [|a s] eqn:He;
      [exfalso; by apply (format_uint_nonempty n)|]. simpl.
    pose proof (format_uint_digits n) as Hd. rewrite He in Hd. simpl in Hd.
    apply andb_true_iff in Hd as [Hd%is_digit_byte _].
    destruct (Ascii.eqb_spec a "+"%char) as [->|]; [by destruct Hd|].
    destruct (Ascii.eqb_spec a "-"%char) as [->|]; [by destruct Hd|]. done.
Qed.

Lemma FormatInt_nonempty n : FormatInt n <> "".
Proof.
  unfold FormatInt. destruct (Z.ltb_spec n 0); [done|]. by apply format_uint_nonempty.
Qed.

(** Whatever [parse_int] accepts is an [int64]. *)
Lemma parse_uint_loop_nonneg s n m : 0 <= n -> parse_uint_loop s n = inr (Some m) -> 0 <= m.
Proof.
  revert n. induction s as [|a s IH]; intros n Hn; simpl; [by intros [= <-]|].
  destruct (is_digit a) eqn:Ha; [|done]. apply is_digit_byte in Ha.
  destruct (max_uint64 <? _); [done|]. apply IH. lia.
Qed.

Lemma parse_signed_range f s0 neg s z : parse_signed f s0 neg s = Ok z -> is_int64 z.
Proof.
  unfold parse_signed, is_int64, min_int64, max_int64. destruct (s =? "")%string; [done|].
  destruct (parse_uint_loop s 0) as [|[un|]] eqn:Hp; [done| |done].
  apply parse_uint_loop_nonneg in Hp; [|lia].
  destruct neg; simpl.
  - destruct (Z.ltb_spec (2 ^ 63) un); [done|]. intros [= <-]. lia.
  - destruct (Z.leb_spec (2 ^ 63) un); simpl; [done|]. intros [= <-]. lia.
Qed.

Lemma parse_int_range f s z : parse_int f s = Ok z -> is_int64 z.
Proof.
  destruct s as [|a s]; [done|]. simpl.
  destruct (Ascii.eqb a "+"); [apply parse_signed_range|].
  destruct (Ascii.eqb a "-"); apply parse_signed_range.
Qed.

(** ** Lemmas: Go's string order *)

(** Go's [<] on strings is the lexicographic order on bytes. *)
Definition str_lt (a b : string) : Prop := String.ltb a b = true.

#[global] Instance str_lt_dec a b : Decision (str_lt a b).
Proof. unfold str_lt. apply _. Defined.

Lemma str_lt_spec a b :
  str_lt a b <->
  match a, b with
  | _, EmptyString => False
  | EmptyString, String _ _ => True
  | String x a', String y b' => byte x < byte y \/ x = y /\ str_lt a' b'
  end.
Proof.
  unfold str_lt, String.ltb. destruct a as [|x a], b as [|y b]; simpl; try (split; done).
  unfold Ascii.compare, byte.
  destruct (N.compare_spec (Ascii.N_of_ascii x) (Ascii.N_of_ascii y)) as [He|Hl|Hg].
  - split.
    + intros Hb. right. split; [|exact Hb].
      by rewrite <- (Ascii.ascii_N_embedding x), He, Ascii.ascii_N_embedding.
    + intros [?|[_ Hb]]; [lia|exact Hb].
  - split; [left; lia|done].
  - split; [done|]. intros [?|[-> _]]; lia.
Qed.

Lemma str_lt_irrefl a : ~ str_lt a a.
Proof.
  induction a as [|x a IH]; intros Hl; apply str_lt_spec in Hl; [done|].
  destruct Hl as [?|[_ ?]]; [lia|by apply IH].
Qed.

Lemma str_lt_trans a b c : str_lt a b -> str_lt b c -> str_lt a c.
Proof.
  revert b c. induction a as [|x a IH]; intros [|y b] [|z c] H1 H2;
    rewrite str_lt_spec in H1, H2 |- *; try done.
  destruct H1 as [?|[-> ?]], H2 as [?|[-> ?]]; [left; lia|left; lia|left; lia|right; eauto].
Qed.

Lemma str_lt_trichotomy a b : str_lt a b \/ a = b \/ str_lt b a.
Proof.
  revert b. induction a as [|x a IH]; intros [|y b];
    [auto | by left | by do 2 right |].
  rewrite (str_lt_spec (String x a)), (str_lt_spec (String y b)).
  destruct (Z.lt_trichotomy (byte x) (byte y)) as [?|[He|?]]; [auto| |auto].
  assert (x = y) as ->.
  { unfold byte in He. apply N2Z.inj in He.
    by rewrite <- (Ascii.ascii_N_embedding x), He, Ascii.ascii_N_embedding. }
  destruct (IH b) as [?|[->|?]]; auto.
Qed.

(** ** Lemmas: concatenation *)

Lemma append_nil b : "" +:+ b = b.
Proof. reflexivity. Qed.

Lemma append_cons x a b : String x a +:+ b = String x (a +:+ b).
Proof. reflexivity. Qed.

Lemma append_assoc a b c : (a +:+ b) +:+ c = a +:+ (b +:+ c).
Proof. induction a as [|x a IH]; [done|]. by rewrite !append_cons, IH. Qed.

Lemma append_empty_r a : a +:+ "" = a.
Proof. induction a as [|x a IH]; [done|]. by rewrite !append_cons, IH. Qed.

Lemma length_append a b : String.length (a +:+ b) = (String.length a + String.length b)%nat.
Proof. induction a as [|x a IH]; [done|]. rewrite append_cons. cbn. by rewrite IH. Qed.

Lemma append_inj_length a a' b b' :
  String.length a = String.length a' -> a +:+ b = a' +:+ b' -> a = a' /\ b = b'.
Proof.
  revert a'. induction a as [|x a IH]; intros [|x' a'] Hl He;
    rewrite ?append_cons in He; simplify_eq/=; [done|].
  destruct (IH a') as [-> ->]; auto.
Qed.

(** Two digit strings followed by the same non-digit are equal when the whole
    is: the separator of a length prefix cannot be mistaken. *)
Lemma digits_sep_inj (c : ascii) a a' b b' :
  is_digit c = false -> all_digits a = true -> all_digits a' = true ->
  a +:+ String c b = a' +:+ String c b' -> a = a' /\ b = b'.
Proof.
  intros Hc. revert a'. induction a as [|x a IH]; intros [|x' a'] Ha Ha' He;
    rewrite ?append_cons, ?append_nil in He; injection He; clear He; intros; subst; simpl in *;
    [done | apply andb_true_iff in Ha' as [? _]; congruence
    | apply andb_true_iff in Ha as [? _]; congruence |].
  apply andb_true_iff in Ha as [_ Ha], Ha' as [_ Ha'].
  edestruct (IH a') as [-> ->]; eauto.
Qed.

Lemma HasPrefix_spec s p : HasPrefix s p = true <-> exists t, s = p +:+ t.
Proof.
  unfold HasPrefix. revert s. induction p as [|x p IH]; intros s.
  - split; [intros _; by exists s|by destruct s].
  - destruct s as [|y s]; [split; [done|by intros [? ?]]|]. simpl.
    destruct (Ascii.ascii_dec x y) as [->|Hne]; simpl.
    + rewrite IH. split; intros [t Ht]; exists t; rewrite append_cons in *; congruence.
    + split; [done|]. intros [t Ht]. rewrite append_cons in Ht. congruence.
Qed.

Lemma slice_from_append a b : slice_from (String.length a) (a +:+ b) = b.
Proof. induction a; [done|]. by rewrite append_cons. Qed.

Lemma HasPrefix_append p t : HasPrefix (p +:+ t) p = true.
Proof. apply HasPrefix_spec. eauto. Qed.

Lemma TrimPrefix_append p t : TrimPrefix (p +:+ t) p = t.
Proof. unfold TrimPrefix. by rewrite HasPrefix_append, slice_from_append. Qed.

Lemma TrimPrefix_other s p : HasPrefix s p = false -> TrimPrefix s p = s.
Proof. unfold TrimPrefix. by intros ->. Qed.

(** ** Lemmas: TrimSpace *)

(** A sequence of white-space runes. *)
Inductive white : list ascii -> Prop :=
| white_nil : white []
| white_1 a l : space1 a = true -> white l -> white (a :: l)
| white_2 a b l : space2 a b = true -> white l -> white (a :: b :: l)
| white_3 a b c l : space3 a b c = true -> white l -> white (a :: b :: c :: l).

Section trim_head.
Context (s1 : ascii -> bool) (s2 : ascii -> ascii -> bool) (s3 : ascii -> ascii -> ascii -> bool).
Notation trim := (trim_head s1 s2 s3).

(** The induction the loop follows: it consumes one, two or three bytes. *)
Lemma trim_head_ind (P : list ascii -> list ascii -> Prop) :
  (forall l, trim l = l -> P l l) ->
  (forall p t, (0 < length p)%nat -> trim (p ++ t) = trim t -> P t (trim t) -> P (p ++ t) (trim t)) ->
  forall l, P l (trim l).
Proof.
  intros Hstop Hstep l. remember (length l) as n eqn:Hn.
  revert l Hn. induction (lt_wf n) as [n _ IH]. intros l ->.
  destruct l as [|a t]; [by apply Hstop|].
  simpl. destruct (s1 a) eqn:H1.
  { apply (Hstep [a] t); simpl; rewrite ?H1; [lia|done|]. eapply IH; [|done]. simpl; lia. }
  destruct t as [|b t]; [apply Hstop; simpl; by rewrite H1|].
  destruct (s2 a b) eqn:H2.
  { apply (Hstep [a; b] t); simpl; rewrite ?H1, ?H2; [lia|done|]. eapply IH; [|done]. simpl; lia. }
  destruct t as [|c t]; [apply Hstop; simpl; by rewrite H1, H2|].
  destruct (s3 a b c) eqn:H3.
  - apply (Hstep [a; b; c] t); simpl; rewrite ?H1, ?H2, ?H3; [lia|done|].
    eapply IH; [|done]. simpl; lia.
  - apply Hstop; simpl. by rewrite H1, H2, H3.
Qed.

Lemma trim_head_idemp l : trim (trim l) = trim l.
Proof. apply (trim_head_ind (fun _ r => trim r = r)); auto. Qed.

Lemma trim_head_suffix l : exists p, l = p ++ trim l.
Proof.
  apply (trim_head_ind (fun l r => exists p, l = p ++ r)).
  - intros. by exists [].
  - intros p t _ _ [q Hq]. exists (p ++ q). by rewrite <- app_assoc, <- Hq.
Qed.

Lemma trim_head_length l : (length (trim l) <= length l)%nat.
Proof. destruct (trim_head_suffix l) as [p Hp]. rewrite Hp at 2. rewrite length_app. lia. Qed.

(** Whether the loop would consume something. *)
Definition head_white (l : list ascii) : bool :=
  match l with
  | a :: t => s1 a || match t with
                      | b :: t2 => s2 a b || match t2 with c :: _ => s3 a b c | [] => false end
                      | [] => false
                      end
  | [] => false
  end.

Lemma trim_head_stop l : trim l = l <-> head_white l = false.
Proof.
  assert (Hlen : forall p t, p <> [] -> trim t <> p ++ t).
  { intros p t Hp Ht. pose proof (trim_head_length t) as Hle. rewrite Ht, length_app in Hle.
    by destruct p; simpl in *; [|lia]. }
  destruct l as [|a t]; [done|]. simpl.
  destruct (s1 a); [split; [|done]; intros He; by destruct (Hlen [a] t)|].
  destruct t as [|b t]; [done|]. simpl.
  destruct (s2 a b); [split; [|done]; intros He; by destruct (Hlen [a; b] t)|].
  destruct t as [|c t]; [done|]. simpl.
  destruct (s3 a b c); [split; [|done]; intros He; by destruct (Hlen [a; b; c] t)|done].
Qed.

(** A byte sequence that starts with no white space keeps that under truncation. *)
Lemma trim_head_prefix l1 l2 : trim (l1 ++ l2) = l1 ++ l2 -> trim l1 = l1.
Proof.
  rewrite !trim_head_stop.
  destruct l1 as [|a [|b [|c t]]]; simpl; rewrite ?orb_false_iff; tauto.
Qed.
End trim_head.

Lemma s2l_l2s l : s2l (l2s l) = l.
Proof. apply String.list_ascii_of_string_of_list_ascii. Qed.

Lemma TrimSpace_idemp s : TrimSpace (TrimSpace s) = TrimSpace s.
Proof.
  unfold TrimSpace. rewrite s2l_l2s. f_equal. unfold trim_right, trim_left.
  set (u := trim_head space1 space2 space3 (s2l s)).
  match goal with |- context [trim_head ?f ?g ?h (rev u)] => set (tr := trim_head f g h) end.
  destruct (trim_head_suffix space1 (fun b a => space2 a b) (fun c b a => space3 a b c) (rev u))
    as [p Hp]. fold tr in Hp.
  rewrite (trim_head_prefix _ _ _ (rev (tr (rev u))) (rev p)).
  - rewrite rev_involutive. f_equal. apply trim_head_idemp.
  - rewrite <- rev_app_distr, <- Hp, rev_involutive. apply trim_head_idemp.
Qed.

Lemma trim_head_white l :
  exists w, white w /\ l = w ++ trim_left l.
Proof.
  unfold trim_left. remember (length l) as n eqn:Hn.
  revert l Hn. induction (lt_wf n) as [n _ IH]. intros l ->.
  destruct l as [|a t]; [exists []; split; [constructor|done]|]. simpl.
  destruct (space1 a) eqn:H1.
  { edestruct (IH (length t)) as (w & Hw & Hl); [simpl; lia|done|].
    exists (a :: w). split; [by constructor|]. simpl. by rewrite <- Hl. }
  destruct t as [|b t]; [exists []; split; [constructor|done]|].
  destruct (space2 a b) eqn:H2.
  { edestruct (IH (length t)) as (w & Hw & Hl); [simpl; lia|done|].
    exists (a :: b :: w). split; [by constructor|]. simpl. by rewrite <- Hl. }
  destruct t as [|c t]; [exists []; split; [constructor|done]|].
  destruct (space3 a b c) eqn:H3; [|exists []; split; [constructor|done]].
  edestruct (IH (length t)) as (w & Hw & Hl); [simpl; lia|done|].
  exists (a :: b :: c :: w). split; [by constructor|]. simpl. by rewrite <- Hl.
Qed.

(** ** Lemmas: lower case *)

Lemma unicode_ToLower_byte a : byte a < 128 -> unicode_ToLower (byte a) = byte (lower_byte a).
Proof.
  intros Ha. unfold unicode_ToLower, lower_byte. rewrite (proj2 (Z.leb_le _ _)) by lia.
  destruct ((65 <=? byte a) && (byte a <=? 90)) eqn:Hu; [|done]. bool_to_prop. by rewrite byte_chr by lia.
Qed.

Lemma lower_byte_ascii a : byte a < 128 -> byte (lower_byte a) < 128.
Proof.
  intros Ha. unfold lower_byte. destruct ((65 <=? byte a) && (byte a <=? 90)) eqn:Hu; [|done].
  bool_to_prop. rewrite byte_chr; lia.
Qed.

Lemma chr_byte a : chr (byte a) = a.
Proof. unfold chr, byte. by rewrite N2Z.id, Ascii.ascii_N_embedding. Qed.

Lemma runes_ascii a s : byte a < 128 -> runes (String a s) = byte a :: runes s.
Proof. intros Ha. unfold runes at 1. fold runes. by rewrite (proj2 (Z.ltb_lt _ _)). Qed.

(** ASCII bytes are lowered one by one. *)
Lemma ToLower_ascii a s : byte a < 128 -> ToLower (String a s) = String (lower_byte a) (ToLower s).
Proof.
  intros Ha. unfold ToLower. rewrite runes_ascii by done. rewrite fmap_cons, unicode_ToLower_byte by done.
  unfold string_of_runes. cbn [foldr]. unfold put_rune at 1.
  rewrite (proj2 (Z.ltb_lt _ _)) by by apply lower_byte_ascii. by rewrite chr_byte.
Qed.

Ltac to_bytes := unfold leads2, leads3, leads4, continues, in_bytes in *; bool_to_prop.

(** Whatever the bytes, the runes are ones that UTF-8 can encode. *)
Lemma runes_valid s : Forall valid_rune (runes s).
Proof.
  remember (String.length s) as n eqn:Hn. revert s Hn. induction (lt_wf n) as [n _ IH]. intros s ->.
  assert (Hrec : forall t, (String.length t < String.length s)%nat -> Forall valid_rune (runes t))
    by (intros t Ht; by eapply IH).
  clear IH. destruct s as [|a s1]; [constructor|]. unfold runes; fold runes.
  assert (Herr : valid_rune RuneError) by (unfold valid_rune, RuneError; lia).
  pose proof (byte_range a) as Ha. destruct (Z.ltb_spec (byte a) 128).
  { constructor; [unfold valid_rune; lia|]. apply Hrec. simpl. lia. }
  destruct s1 as [|b s2]; [by repeat constructor|]. pose proof (byte_range b) as Hb.
  assert (Hs1 : Forall valid_rune (RuneError :: runes (String b s2))) by (constructor; [done|apply Hrec; simpl; lia]).
  destruct (leads2 a b) eqn:H2.
  { constructor; [|apply Hrec; simpl; lia]. unfold valid_rune. to_bytes. lia. }
  destruct s2 as [|c s3]; [done|]. pose proof (byte_range c) as Hc.
  destruct (leads3 a b && continues c) eqn:H3.
  { constructor; [|apply Hrec; simpl; lia]. clear H2 Hs1. unfold valid_rune. to_bytes. lia. }
  destruct s3 as [|d s4]; [done|]. pose proof (byte_range d) as Hd.
  destruct (leads4 a b && continues c && continues d) eqn:H4; [|done].
  constructor; [|apply Hrec; simpl; lia]. clear H2 H3 Hs1. unfold valid_rune. to_bytes. lia.
Qed.

(** Decoding what was encoded. *)
Lemma runes_put r s : valid_rune r -> runes (put_rune r s) = r :: runes s.
Proof.
  intros Hv. unfold valid_rune in Hv. unfold put_rune.
  assert (Hm : forall x, 0 <= x mod 64 < 64) by (intros x; apply Z.mod_pos_bound; lia).
  destruct (Z.ltb_spec r 128); [rewrite runes_ascii; rewrite byte_chr; lia || done|].
  destruct (Z.ltb_spec r 2048); [|destruct (Z.ltb_spec r 65536)].
  - assert (Hq : 2 <= r / 64 < 32) by (split; [apply Z.div_le_lower_bound|apply Z.div_lt_upper_bound]; lia).
    specialize (Hm r). unfold runes; fold runes. rewrite !byte_chr by lia.
    rewrite (proj2 (Z.ltb_ge _ _)) by lia.
    replace (leads2 _ _) with true by (symmetry; to_bytes; rewrite !byte_chr; lia).
    f_equal. pose proof (Z.div_mod r 64). lia.
  - assert (Hq : 0 <= r / 4096 < 16) by (split; [apply Z.div_pos|apply Z.div_lt_upper_bound]; lia).
    pose proof (Hm r). pose proof (Hm (r / 64)). pose proof (Z.div_mod r 64). pose proof (Z.div_mod (r / 64) 64).
    rewrite Z.div_div in * by lia. change (64 * 64) with 4096 in *.
    unfold runes; fold runes. rewrite !byte_chr by lia. rewrite (proj2 (Z.ltb_ge _ _)) by lia.
    replace (leads2 _ _) with false by (symmetry; to_bytes; rewrite !byte_chr; lia).
    replace (leads3 _ _ && continues _) with true by (symmetry; to_bytes; rewrite !byte_chr; lia).
    f_equal. lia.
  - assert (Hq : 0 <= r / 262144 < 5) by (split; [apply Z.div_pos|apply Z.div_lt_upper_bound]; lia).
    pose proof (Hm r). pose proof (Hm (r / 64)). pose proof (Hm (r / 4096)).
    pose proof (Z.div_mod r 64). pose proof (Z.div_mod (r / 64) 64). pose proof (Z.div_mod (r / 4096) 64).
    rewrite !Z.div_div in * by lia. change (64 * 64) with 4096 in *. change (4096 * 64) with 262144 in *.
    unfold runes; fold runes. rewrite !byte_chr by lia. rewrite (proj2 (Z.ltb_ge _ _)) by lia.
    replace (leads2 _ _) with false by (symmetry; to_bytes; rewrite !byte_chr; lia).
    replace (leads3 _ _ && continues _) with false by (symmetry; to_bytes; rewrite !byte_chr; lia).
    replace (leads4 _ _ && continues _ && continues _) with true by (symmetry; to_bytes; rewrite !byte_chr; lia).
    f_equal. lia.
Qed.

Lemma runes_string l : Forall valid_rune l -> runes (string_of_runes l) = l.
Proof. induction 1 as [|r l Hr _ IH]; [done|]. cbn [string_of_runes foldr]. rewrite runes_put by done. by f_equal. Qed.

Lemma ToLower_idemp s : ToLower (ToLower s) = ToLower s.
Proof.
  unfold ToLower at 1 2. rewrite runes_string.
  - unfold ToLower. f_equal. rewrite <- list_fmap_compose. apply list_fmap_ext. intros _ r _. apply unicode_ToLower_idemp.
  - apply Forall_fmap. eapply Forall_impl; [apply runes_valid|]. intros r. apply unicode_ToLower_valid.
Qed.

Lemma ToLower_nonempty s : s <> "" -> ToLower s <> "".
Proof.
  intros Hs He. apply (f_equal runes) in He. unfold ToLower in He. rewrite runes_string in He.
  - apply fmap_nil_inv in He. destruct s as [|a s]; [done|]. clear Hs. unfold runes in He. fold runes in He.
    by repeat case_match.
  - apply Forall_fmap. eapply Forall_impl; [apply runes_valid|]. intros r. apply unicode_ToLower_valid.
Qed.

(** E acute, a Kelvin sign, a capital I with a dot, and a byte that starts no rune. *)
Example ToLower_runes :
  ToLower (l2s (map chr [195; 137; 226; 132; 170; 196; 176; 255])) = l2s (map chr [195; 169; 107; 105; 239; 191; 189]).
Proof. vm_compute. reflexivity. Qed.

(** ** Lemmas: lists separated by commas *)

Definition comma : ascii := ","%char.

Fixpoint join (l : list string) : string :=
  match l with
  | [] => ""
  | [o] => o
  | o :: l => o +:+ String comma (join l)
  end.

Definition comma_free (o : string) : Prop := IndexByte o comma = None.

Lemma IndexByte_None s c : IndexByte s c = None <-> c ∉ s2l s.
Proof.
  induction s as [|a s IH]; cbn; [split; [intros _; apply not_elem_of_nil|done]|].
  rewrite not_elem_of_cons, <- IH. destruct (Ascii.eqb_spec a c) as [->|Hne]; [by split; [|intros [? _]]|].
  rewrite fmap_None. split; [intros Hs; split; [congruence|done]|by intros [_ ?]].
Qed.

Lemma Split_no_sep s c : IndexByte s c = None -> Split s c = [s].
Proof.
  induction s as [|a s IH]; simpl; [done|]. destruct (Ascii.eqb a c); [done|].
  intros Hn. apply fmap_None in Hn. by rewrite IH.
Qed.

Lemma Split_append a b c : IndexByte a c = None -> Split (a +:+ String c b) c = a :: Split b c.
Proof.
  induction a as [|x a IH]; intros Hn.
  - rewrite append_nil. cbn [Split]. by rewrite Ascii.eqb_refl.
  - rewrite append_cons. cbn [Split]. simpl in Hn. destruct (Ascii.eqb x c); [done|].
    apply fmap_None in Hn. by rewrite IH.
Qed.

Lemma Split_parts s : Forall comma_free (Split s comma).
Proof.
  unfold comma_free. induction s as [|a s IH]; cbn [Split]; [by constructor|].
  destruct (Ascii.eqb_spec a comma) as [->|Ha]; [by constructor|].
  destruct (Split s comma) as [|p ps]; [constructor; [|constructor]|apply Forall_cons in IH as [Hp Hps]; constructor; [|done]];
    cbn [IndexByte]; rewrite (proj2 (Ascii.eqb_neq a comma)) by done; [done|by rewrite Hp].
Qed.

Lemma elem_of_rev {A} (x : A) l : x ∈ rev l <-> x ∈ l.
Proof. rewrite !list_elem_of_In. symmetry. apply in_rev. Qed.

Lemma trim_free s : comma_free s -> comma_free (TrimSpace s).
Proof.
  unfold comma_free, TrimSpace. rewrite !IndexByte_None, s2l_l2s. intros Hs Hin. apply Hs.
  unfold trim_right in Hin. rewrite elem_of_rev in Hin.
  destruct (trim_head_suffix space1 space2 space3 (s2l s)) as [p Hp]. rewrite Hp. apply elem_of_app. right.
  fold (trim_left (s2l s)) in *. apply elem_of_rev.
  destruct (trim_head_suffix space1 (fun b a => space2 a b) (fun c b a => space3 a b c) (rev (trim_left (s2l s)))) as [q Hq].
  rewrite Hq. apply elem_of_app. right. exact Hin.
Qed.
