(* ===== verification/Model.v ===== *)
(** * The domain model: model.go, channel.go, store.go

    [ChannelKind] and [DeliveryStatus] are Go string types, so they are strings
    here and the constants are the only distinguished values.  A [*Notification]
    or [*Device] that a callee mutates is returned next to the results.  [Store]
    and [Provider] are the two interfaces everything else is written against;
    [W] is the world their implementations act on. *)

From S2P Require Import Prelude GoErrors GoStrings.

(** ** Go maps are iterated in an unspecified order *)

(** [for k, v := range m]: the entries of the map in some order.  Every
    definition that ranges over a map takes the order as a parameter, and the
    theorems hold for all of them. *)
Class MapOrder := {
  range : forall {K V} `{Countable K}, gmap K V -> list (K * V);
  range_perm : forall {K V} `{Countable K} (m : gmap K V), range m ≡ₚ map_to_list m;
}.

(** One admissible order, for running the definitions. *)
Definition sample_order : MapOrder :=
  {| range := fun K V _ _ m => map_to_list m;
     range_perm := fun K V _ _ m => reflexivity (map_to_list m) |}.

(** ** model.go *)

Definition ChannelKind : Type := string.
Definition ChannelInApp : ChannelKind := "in_app".
Definition ChannelEmail : ChannelKind := "email".
Definition ChannelWebPush : ChannelKind := "web_push".
Definition ChannelMobilePush : ChannelKind := "mobile_push".
Definition ChannelSMS : ChannelKind := "sms".
Definition ChannelWhatsApp : ChannelKind := "whatsapp".

Definition DeliveryStatus : Type := string.
Definition StatusPending : DeliveryStatus := "pending".
Definition StatusDelivered : DeliveryStatus := "delivered".
Definition StatusAcked : DeliveryStatus := "acked".
Definition StatusRead : DeliveryStatus := "read".
Definition StatusFailed : DeliveryStatus := "failed".

(** Millisecond timestamps are [int64]. *)
Record Notification := mkNotification {
  nID : string;
  nNotificationID : string;
  nTenantID : string;
  nUserID : string;
  nSubjectRef : string;
  nSubjectType : string;
  nTitle : string;
  nBody : string;
  nChannel : ChannelKind;
  nStatus : DeliveryStatus;
  nCreatedAtMS : Z;
  nDeliveredAtMS : Z;
  nAckAtMS : Z;
  nReadAtMS : Z;
}.

Record Device := mkDevice {
  dID : string;
  dTenantID : string;
  dUserID : string;
  dDeviceType : string;
  dToken : string;
  dCreatedAtMS : Z;
  dLastActiveMS : Z;
}.

#[global] Instance Notification_eq_dec : EqDecision Notification.
Proof. solve_decision. Defined.
#[global] Instance Device_eq_dec : EqDecision Device.
Proof. solve_decision. Defined.

(** ** channel.go *)

Record Message := mkMessage {
  mNotification : option Notification;
  mTo : string;
  mTitle : string;
  mBody : string;
  mData : gmap string string;
}.

Record Receipt := mkReceipt {
  ProviderMessageID : string;
  rStatus : DeliveryStatus;
}.

Record Provider (W : Type) := mkProvider {
  Kind : ChannelKind;
  Name : string;
  Send : Message -> M W (Receipt * option error);
}.
Arguments mkProvider {W} _ _ _.
Arguments Kind {W} _.
Arguments Name {W} _.
Arguments Send {W} _ _.

Record ProviderRegistry (W : Type) := mkProviderRegistry {
  byKind : gmap ChannelKind (Provider W);
}.
Arguments mkProviderRegistry {W} _.
Arguments byKind {W} _.

Definition NewProviderRegistry {W} : ProviderRegistry W := mkProviderRegistry ∅.

Definition Register {W} (r : ProviderRegistry W) (p : Provider W) : ProviderRegistry W :=
  mkProviderRegistry (<[Kind p := p]> (byKind r)).

Definition Get {W} (r : ProviderRegistry W) (kind : ChannelKind) : option (Provider W) :=
  byKind r !! kind.

Definition Enabled `{MapOrder} {W} (r : ProviderRegistry W) : list ChannelKind :=
  (range (byKind r)).*1.

(** ** store.go *)

Record Query := mkQuery {
  qTenantID : string;
  qUserID : string;
  qCursorMS : option Z;
  qLimit : Z;
  qUnreadOnly : bool;
}.

Definition DefaultPageLimit : Z := 20.
Definition MaxPageLimit : Z := 100.

Definition ClampLimit (limit : Z) : Z :=
  if limit <=? 0 then DefaultPageLimit
  else if MaxPageLimit <? limit then MaxPageLimit
  else limit.

(** The [Store] interface.  [CreateNotification] and [UpsertDevice] assign the
    ID of the row they are given, so they return it. *)
Record Store (W : Type) := mkStore {
  CreateNotification : Notification -> M W (Notification * result error bool);
  GetNotification : string -> string -> string -> M W (result error Notification);
  UpdateStatus : string -> string -> DeliveryStatus -> Z -> M W (option error);
  QueryUserNotifications : Query -> M W (result error (list Notification * string * Z));
  UpsertDevice : Device -> M W (Device * result error Device);
  ListDevices : string -> string -> M W (result error (list Device));
}.
Arguments mkStore {W}.
Arguments CreateNotification {W}.
Arguments GetNotification {W}.
Arguments UpdateStatus {W}.
Arguments QueryUserNotifications {W}.
Arguments UpsertDevice {W}.
Arguments ListDevices {W}.

(** ** Field updates *)

Definition set_nID (id : string) (n : Notification) : Notification :=
  mkNotification id (nNotificationID n) (nTenantID n) (nUserID n) (nSubjectRef n)
    (nSubjectType n) (nTitle n) (nBody n) (nChannel n) (nStatus n) (nCreatedAtMS n)
    (nDeliveredAtMS n) (nAckAtMS n) (nReadAtMS n).

Definition set_nStatus (st : DeliveryStatus) (n : Notification) : Notification :=
  mkNotification (nID n) (nNotificationID n) (nTenantID n) (nUserID n) (nSubjectRef n)
    (nSubjectType n) (nTitle n) (nBody n) (nChannel n) st (nCreatedAtMS n)
    (nDeliveredAtMS n) (nAckAtMS n) (nReadAtMS n).

Definition set_nTimes (delivered ack read : Z) (n : Notification) : Notification :=
  mkNotification (nID n) (nNotificationID n) (nTenantID n) (nUserID n) (nSubjectRef n)
    (nSubjectType n) (nTitle n) (nBody n) (nChannel n) (nStatus n) (nCreatedAtMS n)
    delivered ack read.

Definition set_dID (id : string) (d : Device) : Device :=
  mkDevice id (dTenantID d) (dUserID d) (dDeviceType d) (dToken d) (dCreatedAtMS d)
    (dLastActiveMS d).

Definition rotate (d0 d : Device) : Device :=
  mkDevice (dID d0) (dTenantID d0) (dUserID d0) (dDeviceType d0) (dToken d) (dCreatedAtMS d0)
    (dLastActiveMS d).

(** The idempotency key of a notification and the uniqueness key of a device. *)
Record notifKey := mkNotifKey { Tenant : string; User : string; NotificationID : string }.
Record devKey := mkDevKey { devTenant : string; devUser : string; DeviceType : string }.

#[global] Instance notifKey_eq_dec : EqDecision notifKey.
Proof. solve_decision. Defined.
#[global] Instance devKey_eq_dec : EqDecision devKey.
Proof. solve_decision. Defined.
#[global] Program Instance notifKey_countable : Countable notifKey :=
  inj_countable' (fun k => (Tenant k, User k, NotificationID k))
    (fun '(t, u, n) => mkNotifKey t u n) _.
Next Obligation. by intros []. Qed.
#[global] Program Instance devKey_countable : Countable devKey :=
  inj_countable' (fun k => (devTenant k, devUser k, DeviceType k))
    (fun '(t, u, n) => mkDevKey t u n) _.
Next Obligation. by intros []. Qed.

Definition key_of (n : Notification) : notifKey :=
  mkNotifKey (nTenantID n) (nUserID n) (nNotificationID n).
Definition dkey_of (d : Device) : devKey :=
  mkDevKey (dTenantID d) (dUserID d) (dDeviceType d).

(** ** Lemmas *)

Lemma ClampLimit_range limit : 1 <= ClampLimit limit <= MaxPageLimit.
Proof.
  unfold ClampLimit, DefaultPageLimit, MaxPageLimit.
  destruct (Z.leb_spec limit 0); [lia|]. destruct (Z.ltb_spec 100 limit); lia.
Qed.

Lemma ClampLimit_id limit : 1 <= limit <= MaxPageLimit -> ClampLimit limit = limit.
Proof.
  unfold ClampLimit, MaxPageLimit. intros Hl.
  rewrite (proj2 (Z.leb_gt _ _)), (proj2 (Z.ltb_ge _ _)) by lia. done.
Qed.

Lemma key_of_set_nID id n : key_of (set_nID id n) = key_of n.
Proof. done. Qed.
Lemma key_of_set_nStatus st n : key_of (set_nStatus st n) = key_of n.
Proof. done. Qed.
Lemma set_nID_id n : set_nID (nID n) n = n.
Proof. by destruct n. Qed.
Lemma set_dID_id d : set_dID (dID d) d = d.
Proof. by destruct d. Qed.

Lemma Enabled_elem `{MapOrder} {W} (r : ProviderRegistry W) kind :
  kind ∈ Enabled r <-> is_Some (Get r kind).
Proof.
  unfold Enabled, Get. rewrite range_perm, list_elem_of_fmap. split.
  - intros ((k & p) & -> & Hp). apply elem_of_map_to_list in Hp. eauto.
  - intros [p Hp]. exists (kind, p). split; [done|]. by apply elem_of_map_to_list.
Qed.

Lemma Enabled_NoDup `{MapOrder} {W} (r : ProviderRegistry W) : NoDup (Enabled r).
Proof. unfold Enabled. rewrite range_perm. apply NoDup_fst_map_to_list. Qed.

Lemma range_NoDup `{MapOrder} `{Countable K} {V} (m : gmap K V) : NoDup (range m).*1.
Proof. rewrite range_perm. apply NoDup_fst_map_to_list. Qed.

Lemma range_list_to_map `{MapOrder} `{Countable K} {V} (m : gmap K V) : list_to_map (range m) = m.
Proof.
  rewrite <- (list_to_map_to_list m) at 2.
  apply list_to_map_proper; [apply range_NoDup|apply range_perm].
Qed.

Lemma elem_of_range `{MapOrder} `{Countable K} {V} (m : gmap K V) k v :
  (k, v) ∈ range m <-> m !! k = Some v.
Proof. by rewrite range_perm, elem_of_map_to_list. Qed.
