(* ===== verification/StoreSpec.v ===== *)
(** * What a notify.Store promises

    The contract that store.go documents, as a typeclass [StoreLaws] over the
    operations of a [Store]: an abstract view of the world as a finite map of
    notification rows and one of device rows, both by id, and what every
    operation does to that view.  The memory, Postgres and EntDB drivers provide
    instances; the Notifier, the handlers and the pagination results below are
    proved against the class only. *)

From S2P Require Import Prelude GoErrors GoStrings Model.

(** ** The abstract effect of each operation *)

(** UpdateStatus: the status, and the one timestamp that matches it. *)
Definition stamped (status : DeliveryStatus) (atMS : Z) (n : Notification) : Notification :=
  set_nTimes
    (if decide (status = StatusDelivered) then atMS else nDeliveredAtMS n)
    (if decide (status = StatusAcked) then atMS else nAckAtMS n)
    (if decide (status = StatusRead) then atMS else nReadAtMS n)
    (set_nStatus status n).

(** Newest first; ties broken by descending id. *)
Definition newer (a b : Notification) : Prop :=
  nCreatedAtMS b < nCreatedAtMS a \/
  nCreatedAtMS a = nCreatedAtMS b /\ str_lt (nID b) (nID a).

#[global] Instance newer_dec : RelDecision newer.
Proof. intros a b. unfold newer. apply _. Defined.

(** The rows of the user a query is about. *)
Definition owned (tenantID userID : string) (n : Notification) : Prop :=
  nTenantID n = tenantID /\ nUserID n = userID.

#[global] Instance owned_dec t u n : Decision (owned t u n).
Proof. unfold owned. apply _. Defined.

(** The rows a query selects, before paging. *)
Definition selected (q : Query) (n : Notification) : Prop :=
  owned (qTenantID q) (qUserID q) n /\
  (qUnreadOnly q = true -> nStatus n <> StatusRead) /\
  match qCursorMS q with Some c => nCreatedAtMS n < c | None => True end.

#[global] Instance selected_dec q n : Decision (selected q n).
Proof.
  unfold selected. apply and_dec; [apply _|]. apply and_dec; [apply _|].
  destruct (qCursorMS q); apply _.
Defined.

Definition all_rows (rows : gmap string Notification) : list Notification :=
  (map_to_list rows).*2.

Definition unread_count (tenantID userID : string) (rows : gmap string Notification) : Z :=
  Z.of_nat (length (filter (fun n => owned tenantID userID n /\ nStatus n <> StatusRead)
                      (all_rows rows))).

(** The cursor of a page: the created-at of its last row when rows remain. *)
Definition page_cursor (limit : Z) (sorted : list Notification) : string :=
  if limit <? Z.of_nat (length sorted)
  then match last (take (Z.to_nat limit) sorted) with
       | Some n => FormatInt (nCreatedAtMS n)
       | None => ""
       end
  else "".

(** [sorted] lists the selected rows newest first. *)
Definition selection (q : Query) (rows : gmap string Notification)
    (sorted : list Notification) : Prop :=
  sorted ≡ₚ filter (selected q) (all_rows rows) /\ StronglySorted newer sorted.

(** The answer of QueryUserNotifications. *)
Definition is_page (q : Query) (rows : gmap string Notification)
    (items : list Notification) (cursor : string) (unread : Z) : Prop :=
  exists sorted,
    selection q rows sorted /\
    items = take (Z.to_nat (ClampLimit (qLimit q))) sorted /\
    cursor = page_cursor (ClampLimit (qLimit q)) sorted /\
    unread = unread_count (qTenantID q) (qUserID q) rows.

Definition all_devices (devs : gmap string Device) : list Device := (map_to_list devs).*2.

Definition dev_owned (tenantID userID : string) (d : Device) : Prop :=
  dTenantID d = tenantID /\ dUserID d = userID.

#[global] Instance dev_owned_dec t u d : Decision (dev_owned t u d).
Proof. unfold dev_owned. apply _. Defined.

Definition dev_before (a b : Device) : Prop := str_lt (dDeviceType a) (dDeviceType b).

#[global] Instance dev_before_dec : RelDecision dev_before.
Proof. intros a b. unfold dev_before. apply _. Defined.

(** The answer of ListDevices. *)
Definition is_device_list (tenantID userID : string) (devs : gmap string Device)
    (out : list Device) : Prop :=
  out ≡ₚ filter (dev_owned tenantID userID) (all_devices devs) /\
  StronglySorted dev_before out.

(** ** The contract *)

(** The integrity of the abstract rows: indexed by their own id, one row per
    key. *)
Definition rows_ok {R K : Type} (id_of : R -> string) (key : R -> K)
    (rows : gmap string R) : Prop :=
  (forall id r, rows !! id = Some r -> id_of r = id) /\
  (forall i j a b, rows !! i = Some a -> rows !! j = Some b -> key a = key b -> i = j).

Definition absent {R K : Type} (key : R -> K) (rows : gmap string R) (k : K) : Prop :=
  forall id r, rows !! id = Some r -> key r <> k.

Class StoreLaws {W : Type} (S : Store W) := {
  rows : W -> gmap string Notification;
  devs : W -> gmap string Device;
  store_inv : W -> Prop;

  law_rows : forall w, store_inv w -> rows_ok nID key_of (rows w);
  law_devs : forall w, store_inv w -> rows_ok dID dkey_of (devs w);

  law_create_new : forall w n, store_inv w -> nID n = "" ->
    absent key_of (rows w) (key_of n) ->
    exists id w', CreateNotification S n w = (w', (set_nID id n, Ok true)) /\
      id <> "" /\ rows w !! id = None /\
      rows w' = <[id := set_nID id n]> (rows w) /\ devs w' = devs w /\ store_inv w';
  law_create_dup : forall w n id r, store_inv w ->
    rows w !! id = Some r -> key_of r = key_of n ->
    exists w', CreateNotification S n w = (w', (set_nID id n, Ok false)) /\
      rows w' = rows w /\ devs w' = devs w /\ store_inv w';

  law_get : forall w tenantID userID id, store_inv w ->
    exists w', GetNotification S tenantID userID id w =
        (w', match rows w !! id with
             | Some r => if decide (owned tenantID userID r) then Ok r else Err ErrNotFound
             | None => Err ErrNotFound
             end) /\
      rows w' = rows w /\ devs w' = devs w /\ store_inv w';

  law_update_hit : forall w tenantID id r status atMS, store_inv w ->
    rows w !! id = Some r -> nTenantID r = tenantID ->
    exists w', UpdateStatus S tenantID id status atMS w = (w', None) /\
      rows w' = <[id := stamped status atMS r]> (rows w) /\ devs w' = devs w /\ store_inv w';
  law_update_miss : forall w tenantID id status atMS, store_inv w ->
    (forall r, rows w !! id = Some r -> nTenantID r <> tenantID) ->
    exists w', UpdateStatus S tenantID id status atMS w = (w', Some ErrNotFound) /\
      rows w' = rows w /\ devs w' = devs w /\ store_inv w';

  law_query : forall w q, store_inv w ->
    exists w' items cursor unread,
      QueryUserNotifications S q w = (w', Ok (items, cursor, unread)) /\
      is_page q (rows w) items cursor unread /\
      rows w' = rows w /\ devs w' = devs w /\ store_inv w';

  law_upsert_new : forall w d, store_inv w -> dID d = "" ->
    absent dkey_of (devs w) (dkey_of d) ->
    exists id w' d', UpsertDevice S d w = (w', (d', Ok (set_dID id d))) /\
      id <> "" /\ devs w !! id = None /\
      devs w' = <[id := set_dID id d]> (devs w) /\ rows w' = rows w /\ store_inv w';
  law_upsert_hit : forall w d id d0, store_inv w ->
    devs w !! id = Some d0 -> dkey_of d0 = dkey_of d ->
    exists w' d', UpsertDevice S d w = (w', (d', Ok (rotate d0 d))) /\
      devs w' = <[id := rotate d0 d]> (devs w) /\ rows w' = rows w /\ store_inv w';

  law_list : forall w tenantID userID, store_inv w ->
    exists w' out, ListDevices S tenantID userID w = (w', Ok out) /\
      is_device_list tenantID userID (devs w) out /\
      rows w' = rows w /\ devs w' = devs w /\ store_inv w';
}.

(** ** The orders *)

#[global] Instance newer_order : LessOrder newer.
Proof.
  unfold newer. split.
  - intros a [?|[_ Hi]]; [lia|by apply str_lt_irrefl in Hi].
  - intros a b c [?|[? Hab]] [?|[? Hbc]]; [left; lia..|].
    right. split; [congruence|]. by apply (str_lt_trans _ (nID b)).
  - intros a b c Hba Hcb [Hca|[He Hca]].
    + destruct (decide (nCreatedAtMS a < nCreatedAtMS b)); [apply Hba; by left|].
      apply Hcb. left. lia.
    + destruct (decide (nCreatedAtMS a < nCreatedAtMS b)); [apply Hba; by left|].
      destruct (decide (nCreatedAtMS b < nCreatedAtMS c)); [apply Hcb; by left|].
      destruct (str_lt_trichotomy (nID a) (nID b)) as [Hl|[Hl|Hl]].
      * apply Hba. right. split; [lia|done].
      * apply Hcb. right. split; [lia|]. by rewrite <- Hl.
      * apply Hcb. right. split; [lia|]. by apply (str_lt_trans _ (nID a)).
Qed.

Lemma newer_total a b : nID a <> nID b -> newer a b \/ newer b a.
Proof.
  intros Hid. unfold newer.
  destruct (Z.lt_trichotomy (nCreatedAtMS a) (nCreatedAtMS b)) as [?|[?|?]]; [auto| |auto].
  destruct (str_lt_trichotomy (nID a) (nID b)) as [?|[?|?]]; auto; done.
Qed.

#[global] Instance dev_before_order : LessOrder dev_before.
Proof.
  unfold dev_before. split.
  - intros a. apply str_lt_irrefl.
  - intros a b c. apply str_lt_trans.
  - intros a b c Hba Hcb Hca.
    destruct (str_lt_trichotomy (dDeviceType a) (dDeviceType b)) as [Hl|[Hl|Hl]]; [| |done].
    + apply Hcb. by apply (str_lt_trans _ (dDeviceType a)).
    + apply Hcb. by rewrite <- Hl.
Qed.

Lemma dev_before_total a b : dDeviceType a <> dDeviceType b -> dev_before a b \/ dev_before b a.
Proof. unfold dev_before. intros Hd. destruct (str_lt_trichotomy (dDeviceType a) (dDeviceType b)) as [?|[?|?]]; auto; done. Qed.

(** ** Rows *)

Section rows_ok.
Context {R K : Type} `{EqDecision K} (id_of : R -> string) (key : R -> K).
Implicit Types m : gmap string R.

Lemma rows_ok_empty : rows_ok id_of key ∅.
Proof. split; intros *; rewrite lookup_empty; done. Qed.

Lemma rows_ok_insert_new m r :
  rows_ok id_of key m -> m !! id_of r = None -> absent key m (key r) ->
  rows_ok id_of key (<[id_of r := r]> m).
Proof.
  intros [Hid Hkey] Hnew Habs. split.
  - intros id r'. rewrite lookup_insert_Some. intros [[<- <-]|[_ ?]]; auto.
  - intros i j a b. rewrite !lookup_insert_Some.
    intros [[<- <-]|[Hi Ha]] [[<- <-]|[Hj Hb]] He; [done| | |by eapply Hkey].
    + exfalso. eapply Habs; eauto.
    + exfalso. eapply Habs; eauto.
Qed.

Lemma rows_ok_insert_same m id r r' :
  rows_ok id_of key m -> m !! id = Some r -> id_of r' = id_of r -> key r' = key r ->
  rows_ok id_of key (<[id := r']> m).
Proof.
  intros [Hid Hkey] Hr Hi' Hk'. split.
  - intros i s. rewrite lookup_insert_Some. intros [[<- <-]|[_ Hs]]; [|by apply Hid].
    rewrite Hi'. by apply Hid.
  - intros i j a b. rewrite !lookup_insert_Some.
    intros [[<- <-]|[Hi Ha]] [[<- <-]|[Hj Hb]] He; [done| | |by eapply Hkey].
    + eapply Hkey; eauto. congruence.
    + eapply Hkey; eauto. congruence.
Qed.

Lemma rows_ok_NoDup_ids m : rows_ok id_of key m -> NoDup (id_of <$> (map_to_list m).*2).
Proof.
  intros [Hid _]. rewrite <- list_fmap_compose.
  rewrite (list_fmap_ext _ fst); [apply NoDup_fst_map_to_list|].
  intros i [id r] Hl. simpl. apply Hid. apply elem_of_map_to_list.
  by apply list_elem_of_lookup_2 in Hl.
Qed.

Lemma rows_ok_elem m r : rows_ok id_of key m -> r ∈ (map_to_list m).*2 <-> m !! id_of r = Some r.
Proof.
  intros [Hid _]. rewrite list_elem_of_fmap. split.
  - intros ([id r'] & -> & Hr). apply elem_of_map_to_list in Hr. simpl. by rewrite (Hid _ _ Hr).
  - intros Hr. exists (id_of r, r). split; [done|]. by apply elem_of_map_to_list.
Qed.

(** Whether some row carries a key is decidable. *)
Lemma absent_dec m k : absent key m k \/ exists id r, m !! id = Some r /\ key r = k.
Proof.
  destruct (decide (map_Exists (fun _ r => key r = k) m)) as [(id & r & Hr & Hk)|Hn].
  - right. eauto.
  - left. intros id r Hr Hk. apply Hn. by exists id, r.
Qed.
End rows_ok.

Lemma elem_of_all_rows (m : gmap string Notification) n :
  n ∈ all_rows m <-> exists id, m !! id = Some n.
Proof.
  unfold all_rows. rewrite list_elem_of_fmap. split.
  - intros ([id r] & -> & Hr). exists id. by apply elem_of_map_to_list.
  - intros [id Hr]. exists (id, n). split; [done|]. by apply elem_of_map_to_list.
Qed.

Lemma elem_of_all_devices (m : gmap string Device) d :
  d ∈ all_devices m <-> exists id, m !! id = Some d.
Proof.
  unfold all_devices. rewrite list_elem_of_fmap. split.
  - intros ([id r] & -> & Hr). exists id. by apply elem_of_map_to_list.
  - intros [id Hr]. exists (id, d). split; [done|]. by apply elem_of_map_to_list.
Qed.

Lemma key_of_stamped status atMS n : key_of (stamped status atMS n) = key_of n.
Proof. done. Qed.
Lemma nID_stamped status atMS n : nID (stamped status atMS n) = nID n.
Proof. done. Qed.

(** ** Pages *)

Lemma selection_unique q m l1 l2 : selection q m l1 -> selection q m l2 -> l1 = l2.
Proof.
  intros [H1 S1] [H2 S2]. eapply (sorted_unique newer); eauto. by rewrite H1, H2.
Qed.

(** The contract leaves no freedom: a query has one answer. *)
Lemma is_page_unique q m i1 c1 u1 i2 c2 u2 :
  is_page q m i1 c1 u1 -> is_page q m i2 c2 u2 -> i1 = i2 /\ c1 = c2 /\ u1 = u2.
Proof.
  intros (l1 & H1 & -> & -> & ->) (l2 & H2 & -> & -> & ->).
  by rewrite (selection_unique _ _ _ _ H1 H2).
Qed.

Lemma is_device_list_unique t u m l1 l2 :
  is_device_list t u m l1 -> is_device_list t u m l2 -> l1 = l2.
Proof.
  intros [H1 S1] [H2 S2]. eapply (sorted_unique dev_before); eauto. by rewrite H1, H2.
Qed.

Lemma is_page_elem q m items cursor unread n :
  is_page q m items cursor unread -> n ∈ items ->
  (exists id, m !! id = Some n) /\ selected q n.
Proof.
  intros (l & [Hp _] & -> & _) Hn. apply elem_of_take in Hn as (i & Hi & _).
  apply list_elem_of_lookup_2 in Hi. rewrite Hp in Hi.
  apply list_elem_of_filter in Hi as [Hs Hi]. split; [by apply elem_of_all_rows|done].
Qed.

Lemma is_page_length q m items cursor unread :
  is_page q m items cursor unread -> Z.of_nat (length items) <= ClampLimit (qLimit q).
Proof.
  intros (l & _ & -> & _). rewrite length_take. pose proof (ClampLimit_range (qLimit q)). lia.
Qed.

Lemma is_page_sorted q m items cursor unread :
  is_page q m items cursor unread -> StronglySorted newer items.
Proof.
  intros (l & [_ Hs] & -> & _).
  rewrite <- (take_drop (Z.to_nat (ClampLimit (qLimit q))) l) in Hs.
  by apply StronglySorted_app_inv in Hs as [? _].
Qed.

(** The sort that the drivers perform exists for any rows. *)
Lemma selection_exists q m : rows_ok nID key_of m -> exists sorted, selection q m sorted.
Proof.
  intros Hok. exists (sort_slice newer (filter (selected q) (all_rows m))). split; [apply sort_slice_perm|].
  apply (sort_slice_sorted newer nID); [intros a b _ _; apply newer_total|].
  by apply NoDup_fmap_filter, (rows_ok_NoDup_ids nID key_of).
Qed.

Lemma is_page_more q m items cursor unread :
  is_page q m items cursor unread ->
  cursor <> "" <-> (length items < length (filter (selected q) (all_rows m)))%nat.
Proof.
  intros (l & [Hp _] & -> & -> & _). pose proof (ClampLimit_range (qLimit q)) as Hc.
  rewrite <- Hp, length_take. unfold page_cursor.
  destruct (Z.ltb_spec (ClampLimit (qLimit q)) (Z.of_nat (length l))) as [Hlt|Hge].
  - split; [lia|intros _].
    destruct (last (take (Z.to_nat (ClampLimit (qLimit q))) l)) as [x|] eqn:Hx; [apply FormatInt_nonempty|].
    apply last_None in Hx. apply (f_equal length) in Hx. rewrite length_take in Hx. simpl in *. lia.
  - split; [done|lia].
Qed.

(** The answer the drivers compute from any list of rows that contains the
    selected ones. *)
Lemma page_answer q m l unread : rows_ok nID key_of m ->
  filter (selected q) l ≡ₚ filter (selected q) (all_rows m) ->
  unread = unread_count (qTenantID q) (qUserID q) m ->
  let sorted := sort_slice newer (filter (selected q) l) in
  let limit := ClampLimit (qLimit q) in
  exists items cursor,
    (if limit <? Z.of_nat (length sorted) then
       let page := take (Z.to_nat limit) sorted in
       Ok (page, match last page with Some n => FormatInt (nCreatedAtMS n) | None => "" end, unread)
     else Ok (sorted, "", unread)) = @Ok error _ (items, cursor, unread) /\
    is_page q m items cursor unread.
Proof.
  intros Hok Hl -> sorted limit.
  assert (Hsel : selection q m sorted).
  { split; [unfold sorted; by rewrite sort_slice_perm, Hl|].
    apply (sort_slice_sorted newer nID); [intros a b _ _; apply newer_total|].
    rewrite Hl. by apply NoDup_fmap_filter, (rows_ok_NoDup_ids nID key_of). }
  destruct (Z.ltb_spec limit (Z.of_nat (length sorted))) as [Hlt|Hge];
    eexists _, _; (split; [reflexivity|]); exists sorted; split_and!; try done; unfold page_cursor; fold limit.
  - by rewrite (proj2 (Z.ltb_lt _ _)).
  - by rewrite take_ge by (pose proof (ClampLimit_range (qLimit q)); lia).
  - by rewrite (proj2 (Z.ltb_ge _ _)).
Qed.

Lemma devices_types_NoDup m t u : rows_ok dID dkey_of m ->
  NoDup (dDeviceType <$> filter (dev_owned t u) (all_devices m)).
Proof.
  intros Hok. pose proof (rows_ok_NoDup_ids dID dkey_of m Hok) as Hnd.
  apply NoDup_fmap_2_strong; [|apply NoDup_filter; by apply NoDup_fmap_1 in Hnd].
  intros a b [[Ha1 Ha2] Ha]%list_elem_of_filter [[Hb1 Hb2] Hb]%list_elem_of_filter He.
  apply elem_of_all_devices in Ha as [i Hi], Hb as [j Hj].
  destruct Hok as [_ Hkey]. assert (i = j) as <-; [|congruence].
  eapply Hkey; eauto. unfold dkey_of. congruence.
Qed.

Lemma list_answer t u m l : rows_ok dID dkey_of m ->
  l ≡ₚ filter (dev_owned t u) (all_devices m) -> is_device_list t u m (sort_slice dev_before l).
Proof.
  intros Hok Hl. split; [by rewrite sort_slice_perm|].
  apply (sort_slice_sorted dev_before dDeviceType); [intros a b _ _; apply dev_before_total|].
  rewrite Hl. by apply devices_types_NoDup.
Qed.

(** A device list has exactly one row per key that is present. *)
Lemma device_list_key m id d out :
  rows_ok dID dkey_of m -> is_device_list (dTenantID d) (dUserID d) m out -> m !! id = Some d ->
  forall k, k = dkey_of d -> filter (fun x => dkey_of x = k) out = [d].
Proof.
  intros Hok [Hp Hs] Hd k ->. apply Permutation_singleton_r. rewrite Hp, list_filter_filter.
  apply NoDup_Permutation; [|apply NoDup_singleton|].
  - apply NoDup_filter, (NoDup_fmap_1 dID), (rows_ok_NoDup_ids dID dkey_of m Hok).
  - intros x. rewrite list_elem_of_filter, elem_of_all_devices, list_elem_of_singleton. split.
    + intros ([Hk _] & [i Hx]). destruct Hok as [_ Hkey].
      assert (i = id) as -> by (by eapply Hkey). congruence.
    + intros ->. split; [|by eexists]. done.
Qed.

(** ** A store inside a larger world *)

Section lift_store.
Context {W P : Type} (get : W -> P) (put : P -> W -> W).

Definition lift_store (S : Store P) : Store W :=
  mkStore (fun n => lift get put (CreateNotification S n))
    (fun t u id => lift get put (GetNotification S t u id))
    (fun t id st ms => lift get put (UpdateStatus S t id st ms))
    (fun q => lift get put (QueryUserNotifications S q))
    (fun d => lift get put (UpsertDevice S d))
    (fun t u => lift get put (ListDevices S t u)).

Context (get_put : forall p w, get (put p w) = p) (S : Store P) {HS : StoreLaws S}.

Definition lift_laws : StoreLaws (lift_store S).
Proof.
  refine {| rows := fun w => rows (get w); devs := fun w => devs (get w);
            store_inv := fun w => store_inv (get w) |}; simpl; unfold lift; intros w.
  - apply law_rows.
  - apply law_devs.
  - intros n Hi He Ha. destruct (law_create_new (get w) n Hi He Ha) as (id & p' & -> & H).
    exists id, (put p' w). by rewrite get_put.
  - intros n id r Hi Hr Hk. destruct (law_create_dup (get w) n id r Hi Hr Hk) as (p' & -> & H).
    exists (put p' w). by rewrite get_put.
  - intros t u id Hi. destruct (law_get (get w) t u id Hi) as (p' & -> & H).
    exists (put p' w). by rewrite get_put.
  - intros t id r st ms Hi Hr Ht. destruct (law_update_hit (get w) t id r st ms Hi Hr Ht) as (p' & -> & H).
    exists (put p' w). by rewrite get_put.
  - intros t id st ms Hi Hm. destruct (law_update_miss (get w) t id st ms Hi Hm) as (p' & -> & H).
    exists (put p' w). by rewrite get_put.
  - intros q Hi. destruct (law_query (get w) q Hi) as (p' & i & c & u & -> & H).
    exists (put p' w), i, c, u. by rewrite get_put.
  - intros d Hi He Ha. destruct (law_upsert_new (get w) d Hi He Ha) as (id & p' & d' & -> & H).
    exists id, (put p' w), d'. by rewrite get_put.
  - intros d id d0 Hi Hd Hk. destruct (law_upsert_hit (get w) d id d0 Hi Hd Hk) as (p' & d' & -> & H).
    exists (put p' w), d'. by rewrite get_put.
  - intros t u Hi. destruct (law_list (get w) t u Hi) as (p' & out & -> & H).
    exists (put p' w), out. by rewrite get_put.
Defined.
End lift_store.
