(* ===== verification/StoreOps.v ===== *)
(** * Store calls as data: histories, the abstract machine, refinement

    A history of calls on one store is a list of [StoreOp]; [run_ops] executes it
    and returns what every call answered.  Calls of concurrent callers are
    serialised by the driver (the mutex in store/memory, one SQL statement or
    one commit in the others), so an interleaving is just such a history.
    [spec_step] is the abstract machine that store.go documents; every store
    that fulfils [StoreLaws] refines it. *)

From S2P Require Import Prelude GoErrors GoStrings Model StoreSpec.

Inductive StoreOp : Type :=
| OpCreate (n : Notification)
| OpGet (tenantID userID id : string)
| OpUpdate (tenantID id : string) (status : DeliveryStatus) (atMS : Z)
| OpQuery (q : Query)
| OpUpsert (d : Device)
| OpList (tenantID userID : string).

Inductive StoreOut : Type :=
| OutCreate (id : string) (r : result error bool)
| OutGet (r : result error Notification)
| OutUpdate (e : option error)
| OutQuery (r : result error (list Notification * string * Z))
| OutUpsert (r : result error Device)
| OutList (r : result error (list Device)).

Definition run_op {W} (S : Store W) (op : StoreOp) : M W StoreOut :=
  match op with
  | OpCreate n => '(n', r) ← CreateNotification S n; mret (OutCreate (nID n') r)
  | OpGet t u id => r ← GetNotification S t u id; mret (OutGet r)
  | OpUpdate t id st ms => e ← UpdateStatus S t id st ms; mret (OutUpdate e)
  | OpQuery q => r ← QueryUserNotifications S q; mret (OutQuery r)
  | OpUpsert d => '(_, r) ← UpsertDevice S d; mret (OutUpsert r)
  | OpList t u => r ← ListDevices S t u; mret (OutList r)
  end.

Fixpoint run_ops {W} (S : Store W) (ops : list StoreOp) : M W (list StoreOut) :=
  match ops with
  | [] => mret []
  | op :: ops => o ← run_op S op; os ← run_ops S ops; mret (o :: os)
  end.

(** Callers leave the id to the store, as the Notifier and the handlers do. *)
Definition plain (op : StoreOp) : Prop :=
  match op with
  | OpCreate n => nID n = ""
  | OpUpsert d => dID d = ""
  | _ => True
  end.

(** The texts of a row and of a device. *)
Definition notification_texts (n : Notification) : list string :=
  [nTenantID n; nUserID n; nNotificationID n; nSubjectRef n; nSubjectType n; nTitle n; nBody n;
   nChannel n; nStatus n].
Definition device_texts (d : Device) : list string :=
  [dTenantID d; dUserID d; dDeviceType d; dToken d].

(** A plain call whose texts a driver can hold ([fits]) and whose id it takes as it
    is written ([legible]). *)
Definition op_fits (fits legible : string -> Prop) (op : StoreOp) : Prop :=
  match op with
  | OpCreate n => nID n = "" /\ Forall fits (notification_texts n)
  | OpGet t u id => fits t /\ fits u /\ legible id
  | OpUpdate t id st _ => fits t /\ fits st /\ legible id
  | OpQuery q => fits (qTenantID q) /\ fits (qUserID q)
  | OpUpsert d => dID d = "" /\ Forall fits (device_texts d)
  | OpList t u => fits t /\ fits u
  end.

Lemma op_fits_plain fits legible op : op_fits fits legible op -> plain op.
Proof. destruct op; cbn; tauto. Qed.

(** ** The abstract machine *)

Record AbsStore := mkAbs {
  abs_rows : gmap string Notification;
  abs_devs : gmap string Device;
}.

Inductive spec_step : AbsStore -> StoreOp * StoreOut -> AbsStore -> Prop :=
| spec_create_new a n id :
    absent key_of (abs_rows a) (key_of n) -> abs_rows a !! id = None -> id <> "" ->
    spec_step a (OpCreate n, OutCreate id (Ok true))
      (mkAbs (<[id := set_nID id n]> (abs_rows a)) (abs_devs a))
| spec_create_dup a n id r :
    abs_rows a !! id = Some r -> key_of r = key_of n ->
    spec_step a (OpCreate n, OutCreate id (Ok false)) a
| spec_get_hit a t u id r :
    abs_rows a !! id = Some r -> owned t u r ->
    spec_step a (OpGet t u id, OutGet (Ok r)) a
| spec_get_miss a t u id :
    (forall r, abs_rows a !! id = Some r -> ~ owned t u r) ->
    spec_step a (OpGet t u id, OutGet (Err ErrNotFound)) a
| spec_update_hit a t id r st ms :
    abs_rows a !! id = Some r -> nTenantID r = t ->
    spec_step a (OpUpdate t id st ms, OutUpdate None)
      (mkAbs (<[id := stamped st ms r]> (abs_rows a)) (abs_devs a))
| spec_update_miss a t id st ms :
    (forall r, abs_rows a !! id = Some r -> nTenantID r <> t) ->
    spec_step a (OpUpdate t id st ms, OutUpdate (Some ErrNotFound)) a
| spec_query a q items cursor unread :
    is_page q (abs_rows a) items cursor unread ->
    spec_step a (OpQuery q, OutQuery (Ok (items, cursor, unread))) a
| spec_upsert_new a d id :
    absent dkey_of (abs_devs a) (dkey_of d) -> abs_devs a !! id = None -> id <> "" ->
    spec_step a (OpUpsert d, OutUpsert (Ok (set_dID id d)))
      (mkAbs (abs_rows a) (<[id := set_dID id d]> (abs_devs a)))
| spec_upsert_hit a d id d0 :
    abs_devs a !! id = Some d0 -> dkey_of d0 = dkey_of d ->
    spec_step a (OpUpsert d, OutUpsert (Ok (rotate d0 d)))
      (mkAbs (abs_rows a) (<[id := rotate d0 d]> (abs_devs a)))
| spec_list a t u out :
    is_device_list t u (abs_devs a) out ->
    spec_step a (OpList t u, OutList (Ok out)) a.

(** The calls that create a given key, and their outcomes. *)
Definition creates_key (k : notifKey) (c : StoreOp * StoreOut) : bool :=
  match c with (OpCreate n, _) => bool_decide (key_of n = k) | _ => false end.

Definition created_true (k : notifKey) (c : StoreOp * StoreOut) : bool :=
  match c with
  | (OpCreate n, OutCreate _ (Ok true)) => bool_decide (key_of n = k)
  | _ => false
  end.

(** ** Refinement *)

Section refine.
Context {W : Type} (S : Store W) {HS : StoreLaws S}.

Definition abs (w : W) : AbsStore := mkAbs (rows w) (devs w).

Lemma abs_eq w w' : rows w' = rows w -> devs w' = devs w -> abs w' = abs w.
Proof. unfold abs. congruence. Qed.

(** The calls that the laws speak of: those that insert a new row or device with an
    id of the store's choosing. *)
Definition inserts_fresh w op : Prop :=
  match op with
  | OpCreate n => absent key_of (rows w) (key_of n) ->
      exists id w', CreateNotification S n w = (w', (set_nID id n, Ok true)) /\
        id <> "" /\ rows w !! id = None /\
        rows w' = <[id := set_nID id n]> (rows w) /\ devs w' = devs w /\ store_inv w'
  | OpUpsert d => absent dkey_of (devs w) (dkey_of d) ->
      exists id w' d', UpsertDevice S d w = (w', (d', Ok (set_dID id d))) /\
        id <> "" /\ devs w !! id = None /\
        devs w' = <[id := set_dID id d]> (devs w) /\ rows w' = rows w /\ store_inv w'
  | _ => True
  end.

Lemma plain_inserts_fresh w op : store_inv w -> plain op -> inserts_fresh w op.
Proof. intros Hi Hp. destruct op; cbn in *; try done; eauto using law_create_new, law_upsert_new. Qed.

Lemma op_refines w op : store_inv w -> inserts_fresh w op ->
  exists w' out, run_op S op w = (w', out) /\ spec_step (abs w) (op, out) (abs w') /\ store_inv w'.
Proof.
  intros Hi Hp. destruct op as [n|t u id|t id st ms|q|d|t u]; cbn [run_op]; unfold_M; simpl in Hp.
  - destruct (absent_dec key_of (rows w) (key_of n)) as [Ha|(id & r & Hr & Hk)].
    + destruct (Hp Ha) as (id & w' & -> & Hne & Hnew & Hr' & Hd' & Hi').
      eexists _, _. split_and!; [done| |done]. unfold abs. rewrite Hr', Hd'.
      by apply (spec_create_new (mkAbs (rows w) (devs w))).
    + destruct (law_create_dup w n id r Hi Hr Hk) as (w' & -> & Hr' & Hd' & Hi').
      eexists _, _. split_and!; [done| |done]. rewrite (abs_eq w w') by done.
      by eapply (spec_create_dup (abs w)).
  - destruct (law_get w t u id Hi) as (w' & -> & Hr' & Hd' & Hi').
    eexists _, _. split_and!; [done| |done]. rewrite (abs_eq w w') by done.
    destruct (rows w !! id) as [r|] eqn:Hr; [case_decide|].
    + by apply (spec_get_hit (abs w)).
    + apply (spec_get_miss (abs w)). simpl. intros r' Hr2. congruence.
    + apply (spec_get_miss (abs w)). simpl. intros r' Hr2. congruence.
  - destruct (decide (nTenantID <$> rows w !! id = Some t)) as [Ht|Ht].
    + destruct (rows w !! id) as [r|] eqn:Hr; [|done]. injection Ht as Ht.
      destruct (law_update_hit w t id r st ms Hi Hr Ht) as (w' & -> & Hr' & Hd' & Hi').
      eexists _, _. split_and!; [done| |done]. unfold abs. rewrite Hr', Hd'.
      by apply (spec_update_hit (mkAbs (rows w) (devs w))).
    + assert (Hm : forall r, rows w !! id = Some r -> nTenantID r <> t)
        by (intros r Hr He; apply Ht; by rewrite Hr, <- He).
      destruct (law_update_miss w t id st ms Hi Hm) as (w' & -> & Hr' & Hd' & Hi').
      eexists _, _. split_and!; [done| |done]. rewrite (abs_eq w w') by done.
      by apply (spec_update_miss (abs w)).
  - destruct (law_query w q Hi) as (w' & items & c & u & -> & Hpg & Hr' & Hd' & Hi').
    eexists _, _. split_and!; [done| |done]. rewrite (abs_eq w w') by done.
    by apply (spec_query (abs w)).
  - destruct (absent_dec dkey_of (devs w) (dkey_of d)) as [Ha|(id & r & Hr & Hk)].
    + destruct (Hp Ha) as (id & w' & d' & -> & Hne & Hnew & Hd' & Hr' & Hi').
      eexists _, _. split_and!; [done| |done]. unfold abs. rewrite Hr', Hd'.
      by apply (spec_upsert_new (mkAbs (rows w) (devs w))).
    + destruct (law_upsert_hit w d id r Hi Hr Hk) as (w' & d' & -> & Hd' & Hr' & Hi').
      eexists _, _. split_and!; [done| |done]. unfold abs. rewrite Hr', Hd'.
      by apply (spec_upsert_hit (mkAbs (rows w) (devs w))).
  - destruct (law_list w t u Hi) as (w' & out & -> & Hl & Hr' & Hd' & Hi').
    eexists _, _. split_and!; [done| |done]. rewrite (abs_eq w w') by done.
    by apply (spec_list (abs w)).
Qed.

Lemma run_op_refines w op : store_inv w -> plain op ->
  exists w' out, run_op S op w = (w', out) /\ spec_step (abs w) (op, out) (abs w') /\ store_inv w'.
Proof. intros Hi Hp. apply op_refines; [done|by apply plain_inserts_fresh]. Qed.

Lemma ops_refine ops : (forall op w, op ∈ ops -> store_inv w -> inserts_fresh w op) -> forall w, store_inv w ->
  exists w' outs, run_ops S ops w = (w', outs) /\ length outs = length ops /\
    steps spec_step (abs w) (zip ops outs) (abs w') /\ store_inv w'.
Proof.
  induction ops as [|op ops IH]; intros Hp w Hi; cbn [run_ops]; unfold_M.
  - exists w, []. split_and!; try done. constructor.
  - destruct (op_refines w op Hi) as (w1 & o & -> & Hs & Hi1); [apply Hp; [by left|done]|].
    destruct (IH ltac:(intros o' w2 Ho; apply Hp; by right) w1 Hi1) as (w2 & os & -> & Hlen & Hss & Hi2).
    exists w2, (o :: os). split_and!; simpl; [done|congruence| |done]. by econstructor.
Qed.

Lemma run_ops_refines ops w : store_inv w -> Forall plain ops ->
  exists w' outs, run_ops S ops w = (w', outs) /\ length outs = length ops /\
    steps spec_step (abs w) (zip ops outs) (abs w') /\ store_inv w'.
Proof.
  intros Hi Hp. apply ops_refine; [|done]. intros op w0 Hop Hi0. apply plain_inserts_fresh; [done|].
  by eapply Forall_forall in Hp.
Qed.
End refine.

(** ** The abstract machine creates a key once *)

Definition abs_ok (a : AbsStore) : Prop := rows_ok nID key_of (abs_rows a).

Lemma spec_step_ok a l a' : abs_ok a -> spec_step a l a' -> abs_ok a'.
Proof.
  unfold abs_ok. intros Hok Hs. inversion Hs; subst; simpl; try done.
  - by apply (rows_ok_insert_new nID key_of (abs_rows a) (set_nID id n)).
  - by eapply rows_ok_insert_same.
Qed.

Lemma stamped_present st ms k (m : gmap string Notification) id r :
  m !! id = Some r -> absent key_of (<[id := stamped st ms r]> m) k <-> absent key_of m k.
Proof.
  intros Hr. split; intros Ha i x Hx Hk.
  - destruct (decide (i = id)) as [->|Hne].
    + apply (Ha id (stamped st ms r)); [by rewrite lookup_insert_eq|]. simplify_eq. done.
    + apply (Ha i x); [by rewrite lookup_insert_ne|done].
  - apply lookup_insert_Some in Hx as [[<- <-]|[_ Hx]]; [by apply (Ha id r)|by apply (Ha i x)].
Qed.

(** Once a key is present it stays, and nobody creates it again. *)
Lemma spec_present_count k a ls a' :
  steps spec_step a ls a' -> ~ absent key_of (abs_rows a) k -> count (created_true k) ls = 0%nat.
Proof.
  induction 1 as [|a [op out] a1 ls a2 Hs _ IH]; intros Hpre; [done|].
  rewrite count_cons. assert (Hpre1 : ~ absent key_of (abs_rows a1) k).
  { inversion Hs; subst; simpl; try done.
    - intros Ha. apply Hpre. intros i x Hx. apply (Ha i). rewrite lookup_insert_ne; congruence.
    - by rewrite stamped_present. }
  rewrite (IH Hpre1). inversion Hs; subst; simpl; try done.
  rewrite bool_decide_eq_false_2; [done|]. by intros <-.
Qed.

Lemma spec_created_count k a ls a' :
  steps spec_step a ls a' -> absent key_of (abs_rows a) k ->
  count (created_true k) ls = if existsb (creates_key k) ls then 1%nat else 0%nat.
Proof.
  induction 1 as [|a [op out] a1 ls a2 Hs Hss IH]; intros Hpre; [done|].
  rewrite count_cons. destruct (creates_key k (op, out)) eqn:Hc; cbn [existsb]; rewrite Hc.
  - destruct op as [n| | | | |]; try done. apply bool_decide_eq_true in Hc as <-.
    inversion Hs; subst; [|exfalso; by eapply Hpre].
    cbn [created_true]. rewrite bool_decide_eq_true_2 by done.
    rewrite (spec_present_count _ _ _ _ Hss); [done|]. simpl. intros Ha.
    by apply (Ha id (set_nID id n)); [rewrite lookup_insert_eq|].
  - assert (Hpre1 : absent key_of (abs_rows a1) k).
    { inversion Hs; subst; simpl; try done.
      - intros i x Hx. apply lookup_insert_Some in Hx as [[<- <-]|[_ Hx]]; [|by eapply Hpre].
        apply bool_decide_eq_false in Hc. done.
      - by rewrite stamped_present. }
    rewrite (IH Hpre1). replace (created_true k (op, out)) with false; [done|].
    inversion Hs; subst; simpl in *; try done.
Qed.
