(* ===== verification/Memory.v ===== *)
(** * store/memory: the in-process driver

    Definition by definition the code of store/memory/store.go: two maps of rows
    by id and two indexes from key to id, behind one mutex.  Every method holds
    the mutex for its whole body, so a call is one step; rows are cloned on the
    way in and out, so no pointer is shared with callers and rows are values.
    [uuid.NewString] (github.com/google/uuid) is a parameter: the [k]-th id it
    returns in this process. *)

From S2P Require Import Prelude GoErrors GoStrings Model StoreSpec.

Record MemStore := mkMemStore {
  notifications : gmap string Notification;
  notifByKey : gmap notifKey string;
  devices : gmap string Device;
  deviceByKey : gmap devKey string;
  uuids : nat;  (* ids drawn so far *)
}.

Definition New : MemStore := mkMemStore ∅ ∅ ∅ ∅ 0.

(** UpdateStatus's switch on the status, on the row in place. *)
Definition set_status_in_place (status : DeliveryStatus) (atMS : Z) (n : Notification)
    : Notification :=
  let n := set_nStatus status n in
  if (status =? StatusDelivered)%string then set_nTimes atMS (nAckAtMS n) (nReadAtMS n) n
  else if (status =? StatusAcked)%string then set_nTimes (nDeliveredAtMS n) atMS (nReadAtMS n) n
  else if (status =? StatusRead)%string then set_nTimes (nDeliveredAtMS n) (nAckAtMS n) atMS n
  else n.

Section memory.
Context `{MapOrder} (newUUID : nat -> string).

Definition mem_CreateNotification (n : Notification)
    : M MemStore (Notification * result error bool) := fun s =>
  let key := mkNotifKey (nTenantID n) (nUserID n) (nNotificationID n) in
  match notifByKey s !! key with
  | Some existingID => (s, (set_nID existingID n, Ok false))
  | None =>
      let '(n, uuids') :=
        if (nID n =? "")%string then (set_nID (newUUID (uuids s)) n, S (uuids s))
        else (n, uuids s) in
      (mkMemStore (<[nID n := n]> (notifications s)) (<[key := nID n]> (notifByKey s))
         (devices s) (deviceByKey s) uuids',
       (n, Ok true))
  end.

Definition mem_GetNotification (tenantID userID id : string)
    : M MemStore (result error Notification) := fun s =>
  (s, match notifications s !! id with
      | Some n =>
          if negb (nTenantID n =? tenantID)%string || negb (nUserID n =? userID)%string
          then Err ErrNotFound else Ok n
      | None => Err ErrNotFound
      end).

Definition mem_UpdateStatus (tenantID id : string) (status : DeliveryStatus) (atMS : Z)
    : M MemStore (option error) := fun s =>
  match notifications s !! id with
  | None => (s, Some ErrNotFound)
  | Some n =>
      if negb (nTenantID n =? tenantID)%string then (s, Some ErrNotFound) else
      (mkMemStore (<[id := set_status_in_place status atMS n]> (notifications s))
         (notifByKey s) (devices s) (deviceByKey s) (uuids s), None)
  end.

(** The loop body of QueryUserNotifications: the accumulated matches (latest
    first) and the unread count. *)
Definition query_step (q : Query) (acc : list Notification * Z) (n : Notification)
    : list Notification * Z :=
  let '(matched, unread) := acc in
  if negb (nTenantID n =? qTenantID q)%string || negb (nUserID n =? qUserID q)%string
  then (matched, unread) else
  let unread := if negb (nStatus n =? StatusRead)%string then unread + 1 else unread in
  if qUnreadOnly q && (nStatus n =? StatusRead)%string then (matched, unread) else
  if match qCursorMS q with Some c => c <=? nCreatedAtMS n | None => false end
  then (matched, unread)
  else (n :: matched, unread).

Definition mem_QueryUserNotifications (q : Query)
    : M MemStore (result error (list Notification * string * Z)) := fun s =>
  let limit := ClampLimit (qLimit q) in
  let '(matched, unread) :=
    fold_left (query_step q) (range (notifications s)).*2 ([], 0) in
  let matched := sort_slice newer (rev matched) in
  if limit <? Z.of_nat (length matched) then
    let page := take (Z.to_nat limit) matched in
    (s, Ok (page, match last page with Some n => FormatInt (nCreatedAtMS n) | None => "" end,
            unread))
  else (s, Ok (matched, "", unread)).

(** The index entry of a device always resolves (a nil row would panic). *)
Definition mem_UpsertDevice (d : Device) : M MemStore (Device * result error Device) := fun s =>
  let key := mkDevKey (dTenantID d) (dUserID d) (dDeviceType d) in
  match deviceByKey s !! key with
  | Some id =>
      match devices s !! id with
      | Some existing =>
          let existing := rotate existing d in
          (mkMemStore (notifications s) (notifByKey s) (<[id := existing]> (devices s))
             (deviceByKey s) (uuids s), (d, Ok existing))
      | None => (s, (d, Err (GoPanic "nil pointer dereference")))
      end
  | None =>
      let '(d, uuids') :=
        if (dID d =? "")%string then (set_dID (newUUID (uuids s)) d, S (uuids s))
        else (d, uuids s) in
      (mkMemStore (notifications s) (notifByKey s) (<[dID d := d]> (devices s))
         (<[key := dID d]> (deviceByKey s)) uuids', (d, Ok d))
  end.

Definition mem_ListDevices (tenantID userID : string)
    : M MemStore (result error (list Device)) := fun s =>
  (s, Ok (sort_slice dev_before
            (List.filter (fun d => (dTenantID d =? tenantID)%string && (dUserID d =? userID)%string)
               (range (devices s)).*2))).

Definition MemoryStore : Store MemStore :=
  mkStore mem_CreateNotification mem_GetNotification mem_UpdateStatus
    mem_QueryUserNotifications mem_UpsertDevice mem_ListDevices.

End memory.

(** ** The branches of the code as propositions *)

Lemma not_owned_bool t u (n : Notification) :
  negb (nTenantID n =? t)%string || negb (nUserID n =? u)%string = negb (bool_decide (owned t u n)).
Proof.
  unfold owned. rewrite <- negb_andb. f_equal.
  destruct (String.eqb_spec (nTenantID n) t), (String.eqb_spec (nUserID n) u);
    simpl; symmetry; [apply bool_decide_eq_true|apply bool_decide_eq_false..]; tauto.
Qed.

Lemma set_status_in_place_stamped status atMS n :
  set_status_in_place status atMS n = stamped status atMS n.
Proof.
  unfold set_status_in_place, stamped.
  destruct (String.eqb_spec status StatusDelivered) as [->|]; [done|].
  destruct (String.eqb_spec status StatusAcked) as [->|]; [done|].
  destruct (String.eqb_spec status StatusRead) as [->|]; [done|].
  by rewrite !decide_False.
Qed.

(** ** The query loop *)

Lemma query_step_spec q matched unread n :
  query_step q (matched, unread) n =
  (if decide (selected q n) then n :: matched else matched,
   if decide (owned (qTenantID q) (qUserID q) n /\ nStatus n <> StatusRead)
   then unread + 1 else unread).
Proof.
  unfold query_step. rewrite not_owned_bool.
  assert (Hc : match qCursorMS q with Some c => c <=? nCreatedAtMS n | None => false end = false <->
    match qCursorMS q with Some c => nCreatedAtMS n < c | None => True end).
  { destruct (qCursorMS q) as [c|]; [apply Z.leb_gt|done]. }
  destruct (bool_decide_reflect (owned (qTenantID q) (qUserID q) n)) as [Ho|Ho],
    (String.eqb_spec (nStatus n) StatusRead) as [Hr|Hr], (qUnreadOnly q) eqn:Hu,
    (match qCursorMS q with Some c => c <=? nCreatedAtMS n | None => false end);
    simpl; f_equal; repeat case_decide; unfold selected in *; rewrite ?Hu in *; intuition congruence.
Qed.

Lemma query_loop_spec q l matched unread :
  fold_left (query_step q) l (matched, unread) =
  (rev (filter (selected q) l) ++ matched,
   unread + Z.of_nat (length (filter
     (fun n => owned (qTenantID q) (qUserID q) n /\ nStatus n <> StatusRead) l))).
Proof.
  revert matched unread. induction l as [|n l IH]; intros matched unread.
  - simpl. by rewrite Z.add_0_r.
  - cbn [fold_left]. rewrite query_step_spec, IH, !filter_cons.
    f_equal.
    + case_decide; [|done]. simpl. by rewrite <- app_assoc.
    + case_decide; simpl; lia.
Qed.

Lemma list_filter_owned t u (l : list Device) :
  List.filter (fun d => (dTenantID d =? t)%string && (dUserID d =? u)%string) l =
  filter (dev_owned t u) l.
Proof.
  induction l as [|d l IH]; [done|]. cbn [List.filter]. rewrite filter_cons, IH.
  unfold dev_owned.
  destruct (String.eqb_spec (dTenantID d) t), (String.eqb_spec (dUserID d) u); simpl;
    case_decide; tauto.
Qed.

(** ** The invariant of the driver *)

(** An index agrees with the rows it indexes. *)
Definition index_ok {R K : Type} `{Countable K} (key : R -> K)
    (rows : gmap string R) (index : gmap K string) : Prop :=
  forall k id, index !! k = Some id <-> exists r, rows !! id = Some r /\ key r = k.

(** Every id in use was drawn from the generator. *)
Definition drawn {R : Type} (newUUID : nat -> string) (n : nat) (rows : gmap string R) : Prop :=
  forall id, is_Some (rows !! id) -> exists k, (k < n)%nat /\ id = newUUID k.

Record mem_inv (newUUID : nat -> string) (s : MemStore) : Prop := {
  inv_rows : rows_ok nID key_of (notifications s);
  inv_devs : rows_ok dID dkey_of (devices s);
  inv_notifByKey : index_ok key_of (notifications s) (notifByKey s);
  inv_deviceByKey : index_ok dkey_of (devices s) (deviceByKey s);
  inv_drawn : drawn newUUID (uuids s) (notifications s);
  inv_drawn_dev : drawn newUUID (uuids s) (devices s);
}.

Section index.
Context {R K : Type} `{Countable K} (id_of : R -> string) (key : R -> K).
Implicit Types (m : gmap string R) (ix : gmap K string).

Lemma index_absent m ix k : index_ok key m ix -> ix !! k = None <-> absent key m k.
Proof.
  intros Hix. split.
  - intros Hk id r Hr Hkr. assert (ix !! k = Some id) by (apply Hix; eauto). congruence.
  - intros Habs. destruct (ix !! k) as [id|] eqn:Hk; [|done].
    apply Hix in Hk as (r & Hr & Hkr). by destruct (Habs id r).
Qed.

Lemma index_insert_new m ix r :
  index_ok key m ix -> m !! id_of r = None -> absent key m (key r) ->
  index_ok key (<[id_of r := r]> m) (<[key r := id_of r]> ix).
Proof.
  intros Hix Hnew Habs k id. rewrite lookup_insert_Some. split.
  - intros [[<- <-]|[Hne Hk]]; [exists r; by rewrite lookup_insert_eq|].
    apply Hix in Hk as (r' & Hr' & Hk'). exists r'. split; [|done].
    rewrite lookup_insert_ne; [done|]. congruence.
  - intros (r' & Hr' & <-). apply lookup_insert_Some in Hr' as [[<- <-]|[Hne Hr']]; [auto|].
    right. split; [|by apply Hix; eauto]. intros He. by destruct (Habs id r').
Qed.

Lemma index_insert_same m ix id r r' :
  index_ok key m ix -> m !! id = Some r -> key r' = key r ->
  index_ok key (<[id := r']> m) ix.
Proof.
  unfold index_ok. intros Hix Hr Hk k id'. rewrite Hix. split; intros (s & Hs & <-).
  - destruct (decide (id = id')) as [<-|Hne].
    + exists r'. rewrite lookup_insert_eq. split; [done|]. congruence.
    + exists s. by rewrite lookup_insert_ne.
  - apply lookup_insert_Some in Hs as [[<- <-]|[_ Hs]]; eauto.
Qed.

Lemma index_empty : index_ok key ∅ ∅.
Proof.
  intros k id. rewrite lookup_empty. split; [done|].
  intros (r & Hr & _). by rewrite lookup_empty in Hr.
Qed.

Lemma drawn_empty newUUID n : drawn (R := R) newUUID n ∅.
Proof. intros id. rewrite lookup_empty. by intros [? ?]. Qed.

Lemma drawn_insert newUUID n m id r :
  drawn newUUID n m -> is_Some (m !! id) -> drawn newUUID n (<[id := r]> m).
Proof.
  intros Hd Hid i. rewrite lookup_insert_is_Some'. intros [<-|Hi]; auto.
Qed.

Lemma drawn_insert_new newUUID n m r :
  drawn newUUID n m -> drawn newUUID (S n) (<[newUUID n := r]> m).
Proof.
  intros Hd i. rewrite lookup_insert_is_Some'. intros [<-|Hi]; [exists n; split; [lia|done]|].
  destruct (Hd i Hi) as (k & Hk & ->). exists k. split; [lia|done].
Qed.

Lemma drawn_S newUUID n m : drawn newUUID n m -> drawn newUUID (S n) m.
Proof. intros Hd i Hi. destruct (Hd i Hi) as (k & Hk & ->). exists k. split; [lia|done]. Qed.
End index.

#[export] Hint Resolve index_empty drawn_empty rows_ok_empty rows_ok_insert_new index_insert_new
  index_insert_same drawn_insert drawn_insert_new drawn_S : notify.

(** ** The driver fulfils the contract *)

Section laws.
Context `{MapOrder} (newUUID : nat -> string).
(** Documented behaviour of the uuid package: ids are never repeated and never
    empty. *)
Hypothesis newUUID_inj : forall i j, newUUID i = newUUID j -> i = j.
Hypothesis newUUID_nonempty : forall i, newUUID i <> "".

Notation inv := (mem_inv newUUID).

Lemma mem_inv_New : inv New.
Proof. split; simpl; auto with notify. Qed.

Lemma fresh_uuid {R : Type} n (m : gmap string R) : drawn newUUID n m -> m !! newUUID n = None.
Proof.
  intros Hd. destruct (m !! newUUID n) as [r|] eqn:Hr; [|done].
  destruct (Hd (newUUID n) ltac:(eauto)) as (k & Hk & He). apply newUUID_inj in He. lia.
Qed.

Lemma mem_create_new s n : inv s -> nID n = "" -> absent key_of (notifications s) (key_of n) ->
  exists id s', mem_CreateNotification newUUID n s = (s', (set_nID id n, Ok true)) /\
    id <> "" /\ notifications s !! id = None /\
    notifications s' = <[id := set_nID id n]> (notifications s) /\ devices s' = devices s /\ inv s'.
Proof.
  intros Hi He Habs. exists (newUUID (uuids s)). unfold mem_CreateNotification. fold (key_of n).
  rewrite (proj2 (index_absent key_of _ _ (key_of n) (inv_notifByKey _ _ Hi)) Habs), He. simpl.
  pose proof (fresh_uuid _ _ (inv_drawn _ _ Hi)) as Hfresh.
  eexists. split; [reflexivity|]. split_and!; [done..|]. destruct Hi.
  split; simpl; auto with notify.
  - by apply (rows_ok_insert_new nID key_of _ (set_nID (newUUID (uuids s)) n)).
  - by apply (index_insert_new nID key_of _ _ (set_nID (newUUID (uuids s)) n)).
Qed.

Lemma mem_create_dup s n id r : inv s -> notifications s !! id = Some r -> key_of r = key_of n ->
  mem_CreateNotification newUUID n s = (s, (set_nID id n, Ok false)).
Proof.
  intros Hi Hr Hk. unfold mem_CreateNotification. fold (key_of n).
  by rewrite (proj2 (inv_notifByKey _ _ Hi (key_of n) id)) by eauto.
Qed.

Lemma mem_update_hit s tenantID id r status atMS : inv s ->
  notifications s !! id = Some r -> nTenantID r = tenantID ->
  exists s', mem_UpdateStatus tenantID id status atMS s = (s', None) /\
    notifications s' = <[id := stamped status atMS r]> (notifications s) /\
    devices s' = devices s /\ inv s'.
Proof.
  intros Hi Hr <-. unfold mem_UpdateStatus. rewrite Hr, String.eqb_refl. simpl.
  eexists. split; [reflexivity|]. simpl. rewrite set_status_in_place_stamped.
  split_and!; [done..|]. destruct Hi. split; simpl; eauto with notify.
  by eapply rows_ok_insert_same.
Qed.

Lemma mem_update_miss s tenantID id status atMS :
  (forall r, notifications s !! id = Some r -> nTenantID r <> tenantID) ->
  mem_UpdateStatus tenantID id status atMS s = (s, Some ErrNotFound).
Proof.
  intros Hmiss. unfold mem_UpdateStatus.
  destruct (notifications s !! id) as [r|]; [|done].
  by rewrite (proj2 (String.eqb_neq _ _)) by auto.
Qed.

Lemma mem_query s q : inv s -> exists items cursor unread,
  mem_QueryUserNotifications q s = (s, Ok (items, cursor, unread)) /\
  is_page q (notifications s) items cursor unread.
Proof.
  intros Hi. unfold mem_QueryUserNotifications. rewrite query_loop_spec, app_nil_r, rev_involutive.
  set (l := (range (notifications s)).*2).
  assert (Hl : l ≡ₚ all_rows (notifications s)) by (unfold l, all_rows; by rewrite range_perm).
  edestruct (page_answer q (notifications s) l) as (items & cursor & He & Hp);
    [apply Hi|by rewrite Hl|done|].
  exists items, cursor, (unread_count (qTenantID q) (qUserID q) (notifications s)).
  split; [|done]. rewrite <- He, Z.add_0_l.
  assert (Hu : Z.of_nat (length (filter (fun n => owned (qTenantID q) (qUserID q) n /\
      nStatus n <> StatusRead) l)) = unread_count (qTenantID q) (qUserID q) (notifications s))
    by (unfold unread_count; by rewrite Hl).
  rewrite Hu. cbv zeta. by case_match.
Qed.

Lemma mem_upsert_new s d : inv s -> dID d = "" -> absent dkey_of (devices s) (dkey_of d) ->
  exists id s', mem_UpsertDevice newUUID d s = (s', (set_dID id d, Ok (set_dID id d))) /\
    id <> "" /\ devices s !! id = None /\
    devices s' = <[id := set_dID id d]> (devices s) /\
    notifications s' = notifications s /\ inv s'.
Proof.
  intros Hi He Habs. exists (newUUID (uuids s)). unfold mem_UpsertDevice. fold (dkey_of d).
  rewrite (proj2 (index_absent dkey_of _ _ (dkey_of d) (inv_deviceByKey _ _ Hi)) Habs), He. simpl.
  pose proof (fresh_uuid _ _ (inv_drawn_dev _ _ Hi)) as Hfresh.
  eexists. split; [reflexivity|]. split_and!; [done..|]. destruct Hi.
  split; simpl; auto with notify.
  - by apply (rows_ok_insert_new dID dkey_of _ (set_dID (newUUID (uuids s)) d)).
  - by apply (index_insert_new dID dkey_of _ _ (set_dID (newUUID (uuids s)) d)).
Qed.

Lemma mem_upsert_hit s d id d0 : inv s -> devices s !! id = Some d0 -> dkey_of d0 = dkey_of d ->
  exists s', mem_UpsertDevice newUUID d s = (s', (d, Ok (rotate d0 d))) /\
    devices s' = <[id := rotate d0 d]> (devices s) /\
    notifications s' = notifications s /\ inv s'.
Proof.
  intros Hi Hd Hk. unfold mem_UpsertDevice. fold (dkey_of d).
  rewrite (proj2 (inv_deviceByKey _ _ Hi (dkey_of d) id)) by eauto. rewrite Hd.
  eexists. split; [reflexivity|]. split_and!; [done..|]. destruct Hi.
  split; simpl; eauto with notify.
  by eapply rows_ok_insert_same.
Qed.

Lemma mem_list s t u : inv s -> exists out,
  mem_ListDevices t u s = (s, Ok out) /\ is_device_list t u (devices s) out.
Proof.
  intros Hi. eexists. split; [reflexivity|]. rewrite list_filter_owned.
  apply list_answer; [apply Hi|]. unfold all_devices. by rewrite range_perm.
Qed.

#[export] Instance memory_laws : StoreLaws (MemoryStore newUUID).
Proof.
  refine {| rows := notifications; devs := devices; store_inv := inv |}.
  - intros s Hi. apply Hi.
  - intros s Hi. apply Hi.
  - exact mem_create_new.
  - intros s n id r Hi Hr Hk. exists s. split_and!; [by eapply mem_create_dup|done..].
  - intros s t u id Hi. exists s. split_and!; [|done..]. simpl. unfold mem_GetNotification.
    destruct (notifications s !! id) as [r|]; [|done].
    rewrite not_owned_bool. by destruct (bool_decide_reflect (owned t u r)); case_decide.
  - exact mem_update_hit.
  - intros s t id status atMS Hi Hm. exists s. split_and!; [by apply mem_update_miss|done..].
  - intros s q Hi. destruct (mem_query s q Hi) as (i & c & u & He & Hp). exists s, i, c, u. done.
  - intros s d Hi He Ha. destruct (mem_upsert_new s d Hi He Ha) as (id & s' & ?). eauto.
  - intros s d id d0 Hi Hd Hk. destruct (mem_upsert_hit s d id d0 Hi Hd Hk) as (s' & ?). eauto.
  - intros s t u Hi. destruct (mem_list s t u Hi) as (out & He & Hl). exists s, out. done.
Defined.

End laws.
