(* ===== verification/Paging.v ===== *)
(** * Walking the cursor

    The client side of QueryUserNotifications, as the conformance suite's
    AllPagesReturnEveryRow walks it (store/conformance/queryedge.go): ask for a
    page, stop on an empty cursor, otherwise parse the cursor and ask again.
    The theorems hold for every store that fulfils [StoreLaws]. *)

From S2P Require Import Prelude GoErrors GoStrings Model StoreSpec.

Definition with_cursor (ms : Z) (q : Query) : Query :=
  mkQuery (qTenantID q) (qUserID q) (Some ms) (qLimit q) (qUnreadOnly q).

(** [None] stands for the walk's failures: a query error, a cursor that is not
    an int64, or more pages than [fuel]. *)
Fixpoint walk {W} (S : Store W) (fuel : nat) (q : Query) : M W (option (list Notification)) :=
  match fuel with
  | O => mret None
  | Datatypes.S fuel' =>
      page ← QueryUserNotifications S q;
      match page with
      | Err _ => mret None
      | Ok (items, cursor, _) =>
          if (cursor =? "")%string then mret (Some items) else
          match ParseInt cursor with
          | Err _ => mret None
          | Ok v =>
              rest ← walk S fuel' (with_cursor v q);
              mret (app items <$> rest)
          end
      end
  end.

(** No two rows of the user share a created-at. *)
Definition distinct_created (tenantID userID : string) (rows : gmap string Notification) : Prop :=
  forall i j a b, rows !! i = Some a -> rows !! j = Some b ->
    owned tenantID userID a -> owned tenantID userID b ->
    nCreatedAtMS a = nCreatedAtMS b -> i = j.

(** The created-at values the cursor's decimal form carries. *)
Definition created_in_range (tenantID userID : string) (rows : gmap string Notification) : Prop :=
  forall i a, rows !! i = Some a -> owned tenantID userID a ->
    - 2 ^ 63 < nCreatedAtMS a < 2 ^ 63.

Lemma StronglySorted_newer_created m t u l :
  distinct_created t u m -> rows_ok nID key_of m ->
  (forall n, n ∈ l -> owned t u n /\ m !! nID n = Some n) ->
  StronglySorted newer l -> StronglySorted (fun a b => nCreatedAtMS b < nCreatedAtMS a) l.
Proof.
  intros Hd Hok Hl Hs. induction Hs as [|a l Hs IH Ha]; [constructor|].
  constructor; [apply IH; intros n Hn; apply Hl; by right|].
  rewrite Forall_forall in *. intros b Hb. destruct (Ha b Hb) as [|[He Hlt]]; [done|].
  destruct (Hl a) as [Hoa Hma]; [by left|]. destruct (Hl b) as [Hob Hmb]; [by right|].
  exfalso. apply (str_lt_irrefl (nID a)).
  assert (nID a = nID b) as Hid by (eapply Hd; eauto). by rewrite Hid at 1.
Qed.

(** Everything after the last row of a page, and nothing else, is older than
    that row. *)
Lemma filter_older_drop (k : nat) (l : list Notification) x :
  StronglySorted (fun a b => nCreatedAtMS b < nCreatedAtMS a) l ->
  last (take k l) = Some x ->
  filter (fun n => nCreatedAtMS n < nCreatedAtMS x) l = drop k l.
Proof.
  intros Hs Hx. apply last_Some in Hx as [l1 Hl1].
  rewrite <- (take_drop k l) at 1. rewrite <- (take_drop k l), Hl1, <- app_assoc in Hs.
  apply StronglySorted_app_inv in Hs as (Hs1 & Hs2 & H12). simpl in *.
  apply StronglySorted_inv in Hs2 as [_ Hx2].
  rewrite filter_app, Hl1, filter_app, filter_cons, filter_nil.
  rewrite decide_False by lia.
  rewrite (filter_all _ (drop k l)), (filter_none _ l1); [done| |].
  - intros n Hn. specialize (H12 n x Hn ltac:(by left)). lia.
  - by rewrite Forall_forall in Hx2.
Qed.

Lemma selection_next q m sorted x :
  let k := Z.to_nat (ClampLimit (qLimit q)) in
  rows_ok nID key_of m -> distinct_created (qTenantID q) (qUserID q) m ->
  selection q m sorted -> last (take k sorted) = Some x ->
  selection (with_cursor (nCreatedAtMS x) q) m (drop k sorted).
Proof.
  intros k Hok Hd [Hp Hs] Hx.
  assert (Hin : forall n, n ∈ sorted -> selected q n /\ m !! nID n = Some n).
  { intros n Hn. rewrite Hp in Hn. apply list_elem_of_filter in Hn as [Hsel Hn].
    split; [done|]. by apply (rows_ok_elem nID key_of m n Hok). }
  assert (Hdec : StronglySorted (fun a b => nCreatedAtMS b < nCreatedAtMS a) sorted).
  { eapply StronglySorted_newer_created; eauto. intros n Hn.
    destruct (Hin n Hn) as [[? _] ?]. done. }
  assert (Hxsel : selected q x).
  { by apply Hin, (last_take_elem k). }
  split.
  - rewrite <- (filter_older_drop k sorted x Hdec Hx), Hp, list_filter_filter.
    match goal with |- ?l1 ≡ₚ ?l2 => enough (l1 = l2) as -> by done end.
    apply list_filter_iff. intros n. unfold selected, with_cursor; simpl.
    destruct Hxsel as (_ & _ & Hc). destruct (qCursorMS q); intuition lia.
  - rewrite <- (take_drop k sorted) in Hs. by apply StronglySorted_app_inv in Hs as (_ & ? & _).
Qed.

(** ** Completeness of the walk *)

Section complete.
Context {W : Type} (S : Store W) {HS : StoreLaws S}.

Lemma walk_selection fuel : forall q w sorted,
  store_inv w ->
  distinct_created (qTenantID q) (qUserID q) (rows w) ->
  created_in_range (qTenantID q) (qUserID q) (rows w) ->
  selection q (rows w) sorted -> (length sorted < fuel)%nat ->
  exists w', walk S fuel q w = (w', Some sorted) /\ rows w' = rows w /\ store_inv w'.
Proof.
  induction fuel as [|fuel IH]; intros q w sorted Hi Hd Hr Hsel Hfuel; [lia|].
  cbn [walk]. unfold_M.
  destruct (law_query w q Hi) as (w1 & items & cursor & unread & -> & Hp & Hrows & _ & Hi1).
  destruct Hp as (sorted' & Hsel' & -> & -> & _).
  rewrite (selection_unique _ _ _ _ Hsel' Hsel). clear sorted' Hsel'.
  set (limit := ClampLimit (qLimit q)).
  assert (Hl : 1 <= limit <= MaxPageLimit) by apply ClampLimit_range.
  unfold page_cursor. destruct (Z.ltb_spec limit (Z.of_nat (length sorted))) as [Hlt|Hge].
  2:{ rewrite String.eqb_refl, take_ge by lia. eauto. }
  destruct (last (take (Z.to_nat limit) sorted)) as [x|] eqn:Hx.
  2:{ apply last_None in Hx. apply (f_equal length) in Hx. rewrite length_take in Hx. simpl in *. lia. }
  rewrite (proj2 (String.eqb_neq _ _)) by apply FormatInt_nonempty.
  assert (Hrx : - 2 ^ 63 < nCreatedAtMS x < 2 ^ 63).
  { pose proof (last_take_elem _ _ _ Hx) as Hxs.
    rewrite (proj1 Hsel) in Hxs. apply list_elem_of_filter in Hxs as [[Ho _] [i Hxi]%elem_of_all_rows].
    by eapply Hr. }
  unfold ParseInt. rewrite parse_format by done.
  destruct (IH (with_cursor (nCreatedAtMS x) q) w1 (drop (Z.to_nat limit) sorted)) as (w2 & -> & Hr2 & Hi2).
  - done.
  - by rewrite Hrows.
  - by rewrite Hrows.
  - rewrite Hrows. eapply selection_next; eauto. by apply law_rows.
  - rewrite length_drop. lia.
  - exists w2. simpl. rewrite take_drop. split_and!; congruence.
Qed.
End complete.
