(* ===== verification/MemoryProps.v ===== *)
(** * The memory driver as the contract promises it

    store/memory refines the abstract store of [StoreOps]: whole histories of
    calls, the one-creator guarantee, the walk of the cursor and the rotation of
    device tokens, with the two corners in which the driver leaves the contract
    (caller-supplied ids) or the contract leaves rows behind (equal
    timestamps). *)

From S2P Require Import Prelude GoErrors GoStrings Model StoreSpec StoreOps Memory Paging.

(** ** A concrete generator of ids, for the runs below *)

Definition sample_uuid (n : nat) : string := "uuid-" +:+ FormatInt (Z.of_nat n).

Lemma sample_uuid_inj i j : sample_uuid i = sample_uuid j -> i = j.
Proof.
  unfold sample_uuid. intros [= He]. unfold FormatInt in He.
  rewrite !(proj2 (Z.ltb_ge _ _)) in He by lia. apply format_uint_inj in He; lia.
Qed.

Lemma sample_uuid_nonempty i : sample_uuid i <> "".
Proof. done. Qed.

Lemma sample_laws : StoreLaws (@MemoryStore sample_order sample_uuid).
Proof. exact (@memory_laws sample_order sample_uuid sample_uuid_inj sample_uuid_nonempty). Defined.

Definition sample_notif (tenant user key : string) (ms : Z) : Notification :=
  mkNotification "" key tenant user "ref" "type" "title" "body" ChannelInApp StatusPending ms 0 0 0.

Definition sample_device (tenant user type token : string) (ms : Z) : Device :=
  mkDevice "" tenant user type token ms ms.

Definition sample_query (tenant user : string) (limit : Z) : Query :=
  mkQuery tenant user None limit false.

Definition sample_ops : list StoreOp :=
  [ OpCreate (sample_notif "acme" "u1" "n1" 10);
    OpCreate (sample_notif "acme" "u1" "n1" 11);
    OpCreate (sample_notif "acme" "u2" "n1" 12);
    OpUpdate "acme" "uuid-0" StatusRead 13;
    OpGet "acme" "u2" "uuid-0";
    OpQuery (sample_query "acme" "u1" 5);
    OpUpsert (sample_device "acme" "u1" "web" "tok1" 14);
    OpUpsert (sample_device "acme" "u1" "web" "tok2" 15);
    OpList "acme" "u1" ].

Notation sample_store := (@MemoryStore sample_order sample_uuid).

Lemma sample_ops_plain : Forall plain sample_ops.
Proof. repeat constructor. Qed.

Definition sample_rows : list StoreOp :=
  [ OpCreate (sample_notif "acme" "u1" "n1" 10);
    OpCreate (sample_notif "acme" "u1" "n2" 11);
    OpCreate (sample_notif "acme" "u2" "n3" 11);
    OpCreate (sample_notif "acme" "u1" "n4" 12);
    OpCreate (sample_notif "acme" "u1" "n5" (-3)) ].

Definition sample_state : MemStore := (run_ops sample_store sample_rows New).1.

Lemma sample_state_inv : mem_inv sample_uuid sample_state.
Proof.
  destruct (@run_ops_refines _ _ sample_laws sample_rows New) as (s & outs & He & _ & _ & Hi).
  - apply mem_inv_New.
  - repeat constructor.
  - unfold sample_state. by rewrite He.
Qed.

(** ** Histories *)

Section histories.
Context `{MapOrder} (newUUID : nat -> string).
Hypothesis newUUID_inj : forall i j, newUUID i = newUUID j -> i = j.
Hypothesis newUUID_nonempty : forall i, newUUID i <> "".

(** C1: On a fresh memory store every history of calls whose creates and device
    registrations leave the id to the store ([plain], as the orchestrator, the
    handlers and the conformance suite all do; given an id of a stored row, Create
    overwrites that row) is a run of the abstract store of store.go: each call answers
    what the abstract machine answers (created or duplicate with the stored id, the row
    or not-found, the page with its cursor and unread count, the rotated device, the
    device list), and the two maps of the driver hold exactly the abstract rows; the
    generated uuids are distinct and not empty. *)
Theorem memory_refines (ops : list StoreOp) : Forall plain ops ->
  exists s outs,
    run_ops (MemoryStore newUUID) ops New = (s, outs) /\ length outs = length ops /\
    steps spec_step (mkAbs ∅ ∅) (zip ops outs) (mkAbs (notifications s) (devices s)) /\
    mem_inv newUUID s.
Proof.
  intros Hp.
  destruct (@run_ops_refines _ _ (memory_laws newUUID newUUID_inj newUUID_nonempty) ops New)
    as (s & outs & He & Hlen & Hs & Hi); [apply mem_inv_New|done|].
  by exists s, outs.
Qed.

(** Whatever the interleaving of creates, status updates, reads and device
    calls on a fresh memory store, exactly one of the calls that create a given
    (tenant, user, notification id) is told that it created the row. *)
Theorem memory_one_creator (ops : list StoreOp) (k : notifKey) : Forall plain ops ->
  let '(_, outs) := run_ops (MemoryStore newUUID) ops New in
  count (created_true k) (zip ops outs) =
  if existsb (creates_key k) (zip ops outs) then 1%nat else 0%nat.
Proof.
  intros Hp.
  destruct (@run_ops_refines _ _ (memory_laws newUUID newUUID_inj newUUID_nonempty) ops New)
    as (s & outs & -> & _ & Hs & _); [apply mem_inv_New|done|].
  by eapply spec_created_count; [exact Hs|].
Qed.
End histories.

(** What [plain] leaves out: a create under another key with the id of a stored row
    replaces that row. *)
Example create_overwrites :
  let '(s, outs) := run_ops sample_store [OpCreate (sample_notif "acme" "u1" "n1" 10);
    OpCreate (set_nID "uuid-0" (sample_notif "acme" "u2" "n2" 20)); OpGet "acme" "u1" "uuid-0"] New in
  outs = [OutCreate "uuid-0" (Ok true); OutCreate "uuid-0" (Ok true); OutGet (Err ErrNotFound)].
Proof. vm_compute. reflexivity. Qed.

Lemma memory_refines_witness :
  Forall plain sample_ops /\
  exists s outs,
    run_ops sample_store sample_ops New = (s, outs) /\ length outs = length sample_ops /\
    steps spec_step (mkAbs ∅ ∅) (zip sample_ops outs) (mkAbs (notifications s) (devices s)) /\
    mem_inv sample_uuid s.
Proof.
  split; [exact sample_ops_plain|].
  exact (@memory_refines sample_order sample_uuid sample_uuid_inj sample_uuid_nonempty
    sample_ops sample_ops_plain).
Defined.

Lemma memory_one_creator_witness :
  let '(_, outs) := run_ops sample_store sample_ops New in
  count (created_true (mkNotifKey "acme" "u1" "n1")) (zip sample_ops outs) =
  if existsb (creates_key (mkNotifKey "acme" "u1" "n1")) (zip sample_ops outs)
  then 1%nat else 0%nat.
Proof.
  exact (@memory_one_creator sample_order sample_uuid sample_uuid_inj sample_uuid_nonempty
    sample_ops (mkNotifKey "acme" "u1" "n1") sample_ops_plain).
Defined.

(** ** Paging *)

(** C24: walking the cursor of a store from the first page, as the conformance
    suite does, ends and returns every selected row of the user exactly once,
    newest first, for any page limit (out-of-range limits are clamped), and
    leaves the rows untouched, provided the user's rows have pairwise distinct
    created-at values.  [S (length)] pages are enough fuel. *)
Theorem walk_complete {W} (S : Store W) {HS : StoreLaws S} (q : Query) (w : W) (fuel : nat) :
  store_inv w ->
  distinct_created (qTenantID q) (qUserID q) (rows w) ->
  created_in_range (qTenantID q) (qUserID q) (rows w) ->
  (length (filter (selected q) (all_rows (rows w))) < fuel)%nat ->
  exists w' items, walk S fuel q w = (w', Some items) /\ rows w' = rows w /\
    StronglySorted newer items /\ NoDup items /\
    (forall n, n ∈ items <-> (exists id, rows w !! id = Some n) /\ selected q n).
Proof.
  intros Hi Hd Hr Hf. pose proof (law_rows w Hi) as Hok.
  destruct (selection_exists q (rows w) Hok) as [sorted Hsel].
  assert (Hlen : length sorted = length (filter (selected q) (all_rows (rows w)))) by by rewrite (proj1 Hsel).
  destruct (walk_selection S fuel q w sorted Hi Hd Hr Hsel ltac:(lia)) as (w' & Hw & Hrows & _).
  exists w', sorted. split_and!; [done..|apply Hsel| |].
  - eapply (StronglySorted_NoDup newer), Hsel.
  - intros n. rewrite (proj1 Hsel), list_elem_of_filter, elem_of_all_rows. tauto.
Qed.

Definition distinct_createdb (t u : string) (m : gmap string Notification) : bool :=
  bool_decide (map_Forall (fun i a => map_Forall (fun j b =>
    owned t u a -> owned t u b -> nCreatedAtMS a = nCreatedAtMS b -> i = j) m) m).

Lemma distinct_createdb_ok t u m : distinct_createdb t u m = true -> distinct_created t u m.
Proof. intros Hb. apply bool_decide_eq_true in Hb. intros i j a b Ha Hb'. by apply (Hb i a Ha j b). Qed.

Definition created_in_rangeb (t u : string) (m : gmap string Notification) : bool :=
  bool_decide (map_Forall (fun _ a => owned t u a -> - 2 ^ 63 < nCreatedAtMS a < 2 ^ 63) m).

Lemma created_in_rangeb_ok t u m : created_in_rangeb t u m = true -> created_in_range t u m.
Proof. intros Hb. apply bool_decide_eq_true in Hb. intros i a. apply Hb. Qed.

Lemma walk_complete_witness :
  let q := sample_query "acme" "u1" 2 in
  let rs := notifications sample_state in
  length (filter (selected q) (all_rows rs)) = 4%nat /\
  exists w' items, walk sample_store 5 q sample_state = (w', Some items) /\
    notifications w' = rs /\ StronglySorted newer items /\ NoDup items /\
    (forall n, n ∈ items <-> (exists id, rs !! id = Some n) /\ selected q n).
Proof.
  intros q rs. split; [by vm_compute|].
  apply (@walk_complete _ sample_store sample_laws q sample_state 5).
  - exact sample_state_inv.
  - by apply distinct_createdb_ok; vm_compute.
  - by apply created_in_rangeb_ok; vm_compute.
  - assert (length (filter (selected q) (all_rows rs)) = 4%nat) as He by by vm_compute.
    change (length (filter (selected q) (all_rows rs)) < 5)%nat. rewrite He. lia.
Defined.

(** The answer of QueryUserNotifications does not depend on the order in
    which Go happens to iterate the map of rows: two iteration orders give the
    same page, cursor and unread count. *)
Theorem memory_query_determined (O1 O2 : MapOrder) (newUUID : nat -> string) (q : Query) (s : MemStore) :
  mem_inv newUUID s ->
  @mem_QueryUserNotifications O1 q s = @mem_QueryUserNotifications O2 q s.
Proof.
  intros Hi.
  destruct (@mem_query O1 newUUID s q Hi) as (i1 & c1 & u1 & -> & H1).
  destruct (@mem_query O2 newUUID s q Hi) as (i2 & c2 & u2 & -> & H2).
  by destruct (is_page_unique _ _ _ _ _ _ _ _ H1 H2) as (-> & -> & ->).
Qed.

(** Another admissible order. *)
Definition reverse_order : MapOrder :=
  {| range := fun K V _ _ m => reverse (map_to_list m);
     range_perm := fun K V _ _ m => reverse_Permutation (map_to_list m) |}.

Lemma memory_query_determined_witness :
  mem_inv sample_uuid sample_state /\
  @mem_QueryUserNotifications sample_order (sample_query "acme" "u1" 2) sample_state =
  @mem_QueryUserNotifications reverse_order (sample_query "acme" "u1" 2) sample_state.
Proof.
  split; [exact sample_state_inv|].
  exact (memory_query_determined sample_order reverse_order sample_uuid
    (sample_query "acme" "u1" 2) sample_state sample_state_inv).
Defined.

(** A page never holds more rows than its clamped limit, only rows of the
    query's tenant and user, only unread rows when asked to, only rows older
    than the cursor, and the next cursor is non-empty exactly when a selected
    row was left out. *)
Theorem query_page {W} (S : Store W) {HS : StoreLaws S} (q : Query) (w : W) :
  store_inv w ->
  exists w' items cursor unread,
    QueryUserNotifications S q w = (w', Ok (items, cursor, unread)) /\
    Z.of_nat (length items) <= MaxPageLimit /\
    (forall n, n ∈ items -> owned (qTenantID q) (qUserID q) n /\
       (qUnreadOnly q = true -> nStatus n <> StatusRead) /\
       (forall c, qCursorMS q = Some c -> nCreatedAtMS n < c)) /\
    (cursor <> "" <->
     (length items < length (filter (selected q) (all_rows (rows w))))%nat) /\
    unread = unread_count (qTenantID q) (qUserID q) (rows w).
Proof.
  intros Hi. destruct (law_query w q Hi) as (w' & items & cursor & unread & He & Hp & _).
  exists w', items, cursor, unread. split; [done|].
  pose proof (ClampLimit_range (qLimit q)) as Hc.
  split_and!.
  - apply is_page_length in Hp. lia.
  - intros n Hn. destruct (is_page_elem _ _ _ _ _ _ Hp Hn) as (_ & Ho & Hu & Hcur).
    split_and!; [done..|]. intros c Hqc. by rewrite Hqc in Hcur.
  - by eapply is_page_more.
  - by destruct Hp as (? & _ & _ & _ & ->).
Qed.

Lemma query_page_witness :
  let q := sample_query "acme" "u1" 3 in
  exists w' items cursor unread,
    mem_QueryUserNotifications (H := sample_order) q sample_state = (w', Ok (items, cursor, unread)) /\
    Z.of_nat (length items) <= MaxPageLimit /\
    (forall n, n ∈ items -> owned (qTenantID q) (qUserID q) n /\
       (qUnreadOnly q = true -> nStatus n <> StatusRead) /\
       (forall c, qCursorMS q = Some c -> nCreatedAtMS n < c)) /\
    (cursor <> "" <->
     (length items < length (filter (selected q) (all_rows (notifications sample_state))))%nat) /\
    unread = unread_count (qTenantID q) (qUserID q) (notifications sample_state).
Proof. exact (@query_page _ sample_store sample_laws (sample_query "acme" "u1" 3) sample_state sample_state_inv). Defined.

(** A user whose rows share one created-at. *)
Definition tied_ops : list StoreOp :=
  [ OpCreate (sample_notif "acme" "u1" "n1" 10);
    OpCreate (sample_notif "acme" "u1" "n2" 10);
    OpCreate (sample_notif "acme" "u1" "n3" 10) ].

Definition tied_state : MemStore := (run_ops sample_store tied_ops New).1.

Lemma tied_state_inv : mem_inv sample_uuid tied_state.
Proof.
  destruct (@run_ops_refines _ _ sample_laws tied_ops New) as (s & outs & He & _ & _ & Hi).
  - apply mem_inv_New.
  - repeat constructor.
  - unfold tied_state. by rewrite He.
Qed.

(** A walk, like a page, does not depend on the iteration order. *)
Lemma walk_determined (O1 O2 : MapOrder) newUUID s fuel : mem_inv newUUID s -> forall q,
  walk (@MemoryStore O1 newUUID) fuel q s = walk (@MemoryStore O2 newUUID) fuel q s.
Proof.
  intros Hi. induction fuel as [|fuel IH]; intros q; [done|].
  cbn [walk]. unfold_M. simpl.
  destruct (@mem_query O1 newUUID s q Hi) as (i1 & c1 & u1 & -> & H1).
  destruct (@mem_query O2 newUUID s q Hi) as (i2 & c2 & u2 & -> & H2).
  destruct (is_page_unique _ _ _ _ _ _ _ _ H1 H2) as (-> & -> & ->).
  destruct (c2 =? "")%string; [done|]. destruct (ParseInt c2) as [v|e]; [|done]. by rewrite IH.
Qed.

(** The cursor is a bare created-at and the next page asks for strictly
    older rows, so rows that share the created-at of a page's last row and did
    not fit on it are never returned: of three rows created in the same
    millisecond, a walk with page limit 2 returns two and ends normally. *)
Theorem walk_loses_ties `{MapOrder} :
  let q := sample_query "acme" "u1" 2 in
  exists items, (walk (MemoryStore sample_uuid) 10 q tied_state).2 = Some items /\
    length items = 2%nat /\
    length (filter (selected q) (all_rows (notifications tied_state))) = 3%nat.
Proof.
  intros q. rewrite (walk_determined _ sample_order sample_uuid _ _ tied_state_inv).
  eexists. split; [vm_compute; reflexivity|]. split; vm_compute; reflexivity.
Qed.

(** ** Rows and devices *)

(** Creating a notification under a fresh key, then updating its status,
    then reading it gives its owner the row with the new status and exactly the
    matching timestamp set, and gives any other tenant or user ErrNotFound. *)
Theorem create_update_get {W} (S : Store W) {HS : StoreLaws S} (w : W) (n : Notification)
    (status : DeliveryStatus) (ms : Z) (t u : string) :
  store_inv w -> nID n = "" -> absent key_of (rows w) (key_of n) ->
  exists id w1 w2 w3,
    CreateNotification S n w = (w1, (set_nID id n, Ok true)) /\
    UpdateStatus S (nTenantID n) id status ms w1 = (w2, None) /\
    GetNotification S t u id w2 =
      (w3, if decide (owned t u n) then Ok (stamped status ms (set_nID id n)) else Err ErrNotFound).
Proof.
  intros Hi He Ha.
  destruct (law_create_new w n Hi He Ha) as (id & w1 & H1 & _ & _ & Hr1 & _ & Hi1).
  destruct (law_update_hit w1 (nTenantID n) id (set_nID id n) status ms) as (w2 & H2 & Hr2 & _ & Hi2);
    [done|by rewrite Hr1, lookup_insert_eq|done|].
  destruct (law_get w2 t u id Hi2) as (w3 & H3 & _).
  exists id, w1, w2, w3. split_and!; [done..|]. by rewrite H3, Hr2, lookup_insert_eq.
Qed.

Lemma create_update_get_witness :
  let n := sample_notif "acme" "u1" "fresh" 99 in
  absent key_of (notifications sample_state) (key_of n) /\
  exists id w1 w2 w3,
    CreateNotification sample_store n sample_state = (w1, (set_nID id n, Ok true)) /\
    UpdateStatus sample_store "acme" id StatusRead 100 w1 = (w2, None) /\
    GetNotification sample_store "acme" "u1" id w2 =
      (w3, Ok (stamped StatusRead 100 (set_nID id n))).
Proof.
  intros n.
  assert (Ha : absent key_of (notifications sample_state) (key_of n)).
  { assert (Hb : bool_decide (map_Forall (fun _ r => key_of r <> key_of n)
      (notifications sample_state)) = true) by by vm_compute.
    apply bool_decide_eq_true in Hb. exact Hb. }
  split; [done|].
  destruct (@create_update_get _ sample_store sample_laws sample_state n StatusRead 100 "acme" "u1"
    sample_state_inv eq_refl Ha) as (id & w1 & w2 & w3 & H1 & H2 & H3).
  exists id, w1, w2, w3. split_and!; [exact H1|exact H2|].
  rewrite decide_True in H3 by (split; reflexivity). exact H3.
Defined.

(** A device is keyed by (tenant, user, device type): registering a second
    token under the same key keeps the first row's id and creation time,
    replaces the token and the last-active time, and the device list of the
    user then shows exactly that one row for the key. *)
Theorem upsert_rotates {W} (S : Store W) {HS : StoreLaws S} (w : W) (d1 d2 : Device) :
  store_inv w -> dID d1 = "" -> absent dkey_of (devs w) (dkey_of d1) -> dkey_of d2 = dkey_of d1 ->
  exists id w1 w2 w3 o1 o2 out,
    UpsertDevice S d1 w = (w1, (o1, Ok (set_dID id d1))) /\
    UpsertDevice S d2 w1 = (w2, (o2, Ok (rotate (set_dID id d1) d2))) /\
    ListDevices S (dTenantID d1) (dUserID d1) w2 = (w3, Ok out) /\
    filter (fun d => dkey_of d = dkey_of d1) out = [rotate (set_dID id d1) d2].
Proof.
  intros Hi He Ha Hk.
  destruct (law_upsert_new w d1 Hi He Ha) as (id & w1 & o1 & H1 & _ & _ & Hd1 & _ & Hi1).
  destruct (law_upsert_hit w1 d2 id (set_dID id d1)) as (w2 & o2 & H2 & Hd2 & _ & Hi2);
    [done|by rewrite Hd1, lookup_insert_eq|done|].
  destruct (law_list w2 (dTenantID d1) (dUserID d1) Hi2) as (w3 & out & H3 & Hl & _).
  exists id, w1, w2, w3, o1, o2, out. split_and!; [done..|].
  apply (device_list_key (devs w2) id); [by apply law_devs|done|by rewrite Hd2, lookup_insert_eq|done].
Qed.

Lemma upsert_rotates_witness :
  let d1 := sample_device "acme" "u1" "web" "tok1" 14 in
  let d2 := sample_device "acme" "u1" "web" "tok2" 15 in
  absent dkey_of (devices sample_state) (dkey_of d1) /\
  exists id w1 w2 w3 o1 o2 out,
    UpsertDevice sample_store d1 sample_state = (w1, (o1, Ok (set_dID id d1))) /\
    UpsertDevice sample_store d2 w1 = (w2, (o2, Ok (rotate (set_dID id d1) d2))) /\
    ListDevices sample_store "acme" "u1" w2 = (w3, Ok out) /\
    filter (fun d => dkey_of d = dkey_of d1) out = [rotate (set_dID id d1) d2].
Proof.
  intros d1 d2.
  assert (Ha : absent dkey_of (devices sample_state) (dkey_of d1)).
  { assert (Hb : bool_decide (map_Forall (fun _ r => dkey_of r <> dkey_of d1)
      (devices sample_state)) = true) by by vm_compute.
    apply bool_decide_eq_true in Hb. exact Hb. }
  split; [done|].
  exact (@upsert_rotates _ sample_store sample_laws sample_state d1 d2
    sample_state_inv eq_refl Ha eq_refl).
Defined.
