(* ===== verification/Notifier.v ===== *)
(** * notifier.go: persist, then deliver

    The orchestrator over an arbitrary [Store], provider registry and clock, all
    acting on one world [W].  Its theorems use the store only through
    [StoreLaws] and the rest of the world only through [NotifyEnv], the clock and
    the providers do not write rows, and, to speak of the calls of providers,
    [DispatchLog]. *)

From S2P Require Import Prelude GoErrors GoStrings Model StoreSpec.

Record NotifyRequest := mkNotifyRequest {
  rTenantID : string;
  rNotificationID : string;
  rUserIDs : list string;
  rChannels : list ChannelKind;
  rSubjectRef : string;
  rSubjectType : string;
  rTitle : string;
  rBody : string;
  rAddresses : gmap string (gmap ChannelKind string);
}.

Record NotifyResult := mkNotifyResult { Delivered : Z; Pending : Z; Failed : Z }.

Record NotifierT (W : Type) := mkNotifier {
  nStore : Store W;
  nProviders : ProviderRegistry W;
  nNow : M W Z;  (* n.now().UnixMilli() *)
}.
Arguments mkNotifier {W}.
Arguments nStore {W}.
Arguments nProviders {W}.
Arguments nNow {W}.

(** A nil registry is an empty one; [timeNow] is the default clock. *)
Definition NewNotifier {W} (timeNow : M W Z) (store : Store W)
    (providers : option (ProviderRegistry W)) (withClock : option (M W Z)) : NotifierT W :=
  mkNotifier store (default NewProviderRegistry providers) (default timeNow withClock).

Definition addressFor (req : NotifyRequest) (userID : string) (kind : ChannelKind) : string :=
  let fallback := if (kind =? ChannelInApp)%string then userID else "" in
  match rAddresses req !! userID with
  | Some byChannel => match byChannel !! kind with Some to => to | None => fallback end
  | None => fallback
  end.

(** The row built for one (user, channel). *)
Definition new_row (req : NotifyRequest) (userID : string) (kind : ChannelKind) (ms : Z)
    : Notification :=
  mkNotification "" (rNotificationID req) (rTenantID req) userID (rSubjectRef req)
    (rSubjectType req) (rTitle req) (rBody req) kind StatusPending ms 0 0 0.

Definition message_for (req : NotifyRequest) (row : Notification) (to : string) : Message :=
  mkMessage (Some row) to (rTitle req) (rBody req) ∅.

Section notify.
Context {W : Type} (n : NotifierT W).

(** The body of the inner loop. [Some err] returns from Notify. *)
Definition notify_one (req : NotifyRequest) (userID : string) (kind : ChannelKind)
    (res : NotifyResult) : M W (NotifyResult * option error) :=
  ms ← nNow n;
  '(row, created) ← CreateNotification (nStore n) (new_row req userID kind ms);
  match created with
  | Err err => mret (res, Some err)
  | Ok _ =>
      let pending := mret (mkNotifyResult (Delivered res) (Pending res + 1) (Failed res), None) in
      let to := addressFor req userID kind in
      match Get (nProviders n) kind with
      | None => pending
      | Some provider =>
          if (to =? "")%string then pending else
          '(receipt, err) ← Send provider (message_for req row to);
          match err with
          | Some _ =>
              ms ← nNow n;
              _ ← UpdateStatus (nStore n) (rTenantID req) (nID row) StatusFailed ms;
              mret (mkNotifyResult (Delivered res) (Pending res) (Failed res + 1), None)
          | None =>
              let status := if (rStatus receipt =? "")%string then StatusDelivered
                            else rStatus receipt in
              ms ← nNow n;
              err ← UpdateStatus (nStore n) (rTenantID req) (nID row) status ms;
              match err with
              | Some err => mret (res, Some err)
              | None => mret (mkNotifyResult (Delivered res + 1) (Pending res) (Failed res), None)
              end
          end
      end
  end.

Fixpoint notify_channels (req : NotifyRequest) (userID : string) (kinds : list ChannelKind)
    (res : NotifyResult) : M W (NotifyResult * option error) :=
  match kinds with
  | [] => mret (res, None)
  | kind :: kinds =>
      '(res, err) ← notify_one req userID kind res;
      match err with
      | Some err => mret (res, Some err)
      | None => notify_channels req userID kinds res
      end
  end.

Fixpoint notify_users (req : NotifyRequest) (users : list string) (kinds : list ChannelKind)
    (res : NotifyResult) : M W (NotifyResult * option error) :=
  match users with
  | [] => mret (res, None)
  | userID :: users =>
      '(res, err) ← notify_channels req userID kinds res;
      match err with
      | Some err => mret (res, Some err)
      | None => notify_users req users kinds res
      end
  end.

Definition channels_of `{MapOrder} (req : NotifyRequest) : list ChannelKind :=
  match rChannels req with [] => Enabled (nProviders n) | kinds => kinds end.

Definition Notify `{MapOrder} (req : NotifyRequest) : M W (NotifyResult * option error) :=
  notify_users req (rUserIDs req) (channels_of req) (mkNotifyResult 0 0 0).

(** The destination of the Send that Notify makes for (user, channel), if any. *)
Definition attempt (req : NotifyRequest) (userID : string) (kind : ChannelKind)
    : option (ChannelKind * string) :=
  match Get (nProviders n) kind with
  | Some _ => let to := addressFor req userID kind in
              if (to =? "")%string then None else Some (kind, to)
  | None => None
  end.

Definition user_attempts (req : NotifyRequest) (kinds : list ChannelKind) (userID : string)
    : list (ChannelKind * string) :=
  omap (attempt req userID) kinds.

Definition attempts `{MapOrder} (req : NotifyRequest) : list (ChannelKind * string) :=
  rUserIDs req ≫= user_attempts req (channels_of req).

End notify.

(** ** How the rows evolve *)

(** Everything of a row but its status and the timestamps of its lifecycle. *)
Definition content (n : Notification) : Notification := set_nTimes 0 0 0 (set_nStatus "" n).

Definition present (rows : gmap string Notification) (k : notifKey) : Prop :=
  exists id r, rows !! id = Some r /\ key_of r = k.

(** Rows are never lost; those whose key is not in [P] are untouched, the others
    keep their content; new rows have a key in [P]. *)
Definition evolves (P : notifKey -> Prop) (m m' : gmap string Notification) : Prop :=
  (forall id r, m !! id = Some r -> exists r', m' !! id = Some r' /\ content r' = content r /\
     (~ P (key_of r) -> r' = r)) /\
  (forall id r', m' !! id = Some r' -> m !! id = None -> P (key_of r')).

Lemma key_of_content n n' : content n = content n' -> key_of n = key_of n'.
Proof. destruct n, n'. unfold content, key_of. simpl. by intros [= -> -> -> -> -> -> -> -> -> ->]. Qed.

Lemma content_stamped st ms n : content (stamped st ms n) = content n.
Proof. done. Qed.

Lemma evolves_refl P m : evolves P m m.
Proof. split; [eauto|]. intros id r' H1 H2. congruence. Qed.

Lemma evolves_trans P m1 m2 m3 : evolves P m1 m2 -> evolves P m2 m3 -> evolves P m1 m3.
Proof.
  intros [H1 H1'] [H2 H2']. split.
  - intros id r Hr. destruct (H1 id r Hr) as (r' & Hr' & Hc & Hn).
    destruct (H2 id r' Hr') as (r'' & Hr'' & Hc' & Hn'). exists r''. split_and!; [done|congruence|].
    intros Hp. rewrite Hn'; [auto|]. by rewrite (key_of_content r' r).
  - intros id r'' Hr'' Hr. destruct (m2 !! id) as [r'|] eqn:Hr'; [|by eapply H2'].
    destruct (H2 id r' Hr') as (r3 & Hr3 & Hc & _). assert (r'' = r3) as -> by congruence.
    rewrite (key_of_content r3 r') by done. by eapply H1'.
Qed.

Lemma evolves_weaken (P Q : notifKey -> Prop) m m' :
  (forall k, P k -> Q k) -> evolves P m m' -> evolves Q m m'.
Proof.
  intros HPQ [H1 H2]. split; [|eauto]. intros id r Hr.
  destruct (H1 id r Hr) as (r' & ? & ? & Hn). exists r'. split_and!; auto.
Qed.

Lemma evolves_present P m m' k : evolves P m m' -> present m k -> present m' k.
Proof.
  intros [H1 _] (id & r & Hr & Hk). destruct (H1 id r Hr) as (r' & Hr' & Hc & _).
  exists id, r'. split; [done|]. by rewrite (key_of_content r' r).
Qed.

Lemma evolves_insert_new (P : notifKey -> Prop) m id r :
  m !! id = None -> P (key_of r) -> evolves P m (<[id := r]> m).
Proof.
  intros Hnew Hp. split.
  - intros i r' Hr'. exists r'. split_and!; [|done..]. rewrite lookup_insert_ne; congruence.
  - intros i r'. rewrite lookup_insert_Some. intros [[<- <-]|[_ ?]]; [done|congruence].
Qed.

Lemma evolves_insert_same (P : notifKey -> Prop) m id r st ms :
  m !! id = Some r -> P (key_of r) -> evolves P m (<[id := stamped st ms r]> m).
Proof.
  intros Hr Hp. split.
  - intros i r' Hr'. destruct (decide (i = id)) as [->|Hne].
    + exists (stamped st ms r). rewrite lookup_insert_eq. simplify_eq. done.
    + exists r'. by rewrite lookup_insert_ne.
  - intros i r'. rewrite lookup_insert_Some. intros [[<- <-]|[_ ?]]; congruence.
Qed.

#[export] Hint Resolve evolves_refl evolves_trans evolves_present evolves_insert_new
  evolves_insert_same : notify.

(** ** The fan-out over a store that keeps its contract *)

(** What the orchestrator needs from the rest of the world: the clock and the
    providers leave the rows alone. *)
Class NotifyEnv {W} (n : NotifierT W) `{HS : !StoreLaws (nStore n)} : Prop := {
  env_now : forall w, store_inv w -> let w' := (nNow n w).1 in
    rows w' = rows w /\ devs w' = devs w /\ store_inv w';
  env_send : forall kind p m w, Get (nProviders n) kind = Some p -> mTo m <> "" -> store_inv w ->
    let w' := (Send p m w).1 in rows w' = rows w /\ devs w' = devs w /\ store_inv w';
}.

(** A world that records the calls of providers: [dispatches] grows by one entry
    at each Send, and only then. *)
Class DispatchLog {W} (n : NotifierT W) (dispatches : W -> list (ChannelKind * string)) : Prop := {
  log_now : forall w, dispatches (nNow n w).1 = dispatches w;
  log_send : forall kind p m w, Get (nProviders n) kind = Some p ->
    dispatches (Send p m w).1 = dispatches w ++ [(kind, mTo m)];
  log_create : forall r w, dispatches (CreateNotification (nStore n) r w).1 = dispatches w;
  log_update : forall t id st ms w,
    dispatches (UpdateStatus (nStore n) t id st ms w).1 = dispatches w;
}.

Definition total (res : NotifyResult) : Z := Delivered res + Pending res + Failed res.

(** The counters only grow. *)
Definition counts_le (a b : NotifyResult) : Prop :=
  Delivered a <= Delivered b /\ Pending a <= Pending b /\ Failed a <= Failed b.

Section fanout.
Context {W : Type} (n : NotifierT W) `{HS : !StoreLaws (nStore n)} {HE : NotifyEnv n}.

(** One stage of the fan-out: what it did to the rows and the counters. *)
Record stage (P : notifKey -> Prop) (k : Z) (w w' : W) (res res' : NotifyResult) : Prop := {
  st_rows : evolves P (rows w) (rows w');
  st_devs : devs w' = devs w;
  st_inv : store_inv w';
  st_total : total res' = total res + k;
  st_counts : counts_le res res';
}.

Lemma stage_refl P w res : store_inv w -> stage P 0 w w res res.
Proof. intros Hi. split; eauto with notify; unfold counts_le; lia. Qed.

Lemma stage_trans (P Q R : notifKey -> Prop) k1 k2 w1 w2 w3 r1 r2 r3 :
  (forall k, P k -> R k) -> (forall k, Q k -> R k) ->
  stage P k1 w1 w2 r1 r2 -> stage Q k2 w2 w3 r2 r3 -> stage R (k1 + k2) w1 w3 r1 r3.
Proof.
  intros HPR HQR [] []. split.
  - apply (evolves_trans _ _ (rows w2)); [by apply (evolves_weaken P)|by apply (evolves_weaken Q)].
  - congruence.
  - done.
  - lia.
  - unfold counts_le in *. lia.
Qed.

Definition key_for (req : NotifyRequest) (userID : string) : notifKey :=
  mkNotifKey (rTenantID req) userID (rNotificationID req).

(** The row of a (user, channel) before the delivery attempt: the stored one,
    or a pending one made from the request. *)
Definition stored_row (req : NotifyRequest) (userID : string) (kind : ChannelKind)
    (m : gmap string Notification) (id : string) (r : Notification) : Prop :=
  m !! id = Some r /\ key_of r = key_for req userID \/
  absent key_of m (key_for req userID) /\ m !! id = None /\
    exists ms, r = set_nID id (new_row req userID kind ms).

Lemma stored_row_key req userID kind m id r :
  stored_row req userID kind m id r -> key_of r = key_for req userID.
Proof. by intros [[_ ?]|(_ & _ & ms & ->)]. Qed.

(** Creating the row of a (user, channel): the row is there afterwards. *)
Lemma create_row w req userID kind ms : store_inv w ->
  exists w' id created r,
    CreateNotification (nStore n) (new_row req userID kind ms) w =
      (w', (set_nID id (new_row req userID kind ms), Ok created)) /\
    stored_row req userID kind (rows w) id r /\
    rows w' = <[id := r]> (rows w) /\
    evolves (eq (key_for req userID)) (rows w) (rows w') /\
    devs w' = devs w /\ store_inv w'.
Proof.
  intros Hi. set (row := new_row req userID kind ms).
  destruct (absent_dec key_of (rows w) (key_of row)) as [Ha|(id & r & Hr & Hk)].
  - destruct (law_create_new w row Hi eq_refl Ha) as (id & w' & Hc & _ & Hnew & Hr' & Hd' & Hi').
    exists w', id, true, (set_nID id row). split_and!; try done.
    + right. split_and!; [done..|by exists ms].
    + rewrite Hr'. by apply evolves_insert_new.
  - destruct (law_create_dup w row id r Hi Hr Hk) as (w' & Hc & Hr' & Hd' & Hi').
    exists w', id, false, r. rewrite Hr'. split_and!; try done.
    + by left.
    + by rewrite insert_id.
    + apply evolves_refl.
Qed.

(** Recording an outcome on a row of the request's tenant. *)
Lemma record_status w tenant id r st : store_inv w -> rows w !! id = Some r -> nTenantID r = tenant ->
  exists w1 ms w', nNow n w = (w1, ms) /\ UpdateStatus (nStore n) tenant id st ms w1 = (w', None) /\
    rows w' = <[id := stamped st ms r]> (rows w) /\ devs w' = devs w /\ store_inv w'.
Proof.
  intros Hi Hr Ht. pose proof (env_now w Hi) as Hn.
  destruct (nNow n w) as [w1 ms]. simpl in Hn. destruct Hn as (Hr1 & Hd1 & Hi1).
  destruct (law_update_hit w1 tenant id r st ms Hi1) as (w2 & Hu & Hr2 & Hd2 & Hi2); [congruence|done|].
  exists w1, ms, w2. split_and!; try done; congruence.
Qed.

(** The outcome of one (user, channel), on every branch: [row] is the row handed
    to the provider, [r] the stored one before and after. *)
Inductive outcome (req : NotifyRequest) (userID : string) (kind : ChannelKind)
    (row r : Notification) (res : NotifyResult)
    : NotifyResult -> list (ChannelKind * string) -> Notification -> Prop :=
| out_pending :
    attempt n req userID kind = None ->
    outcome req userID kind row r res
      (mkNotifyResult (Delivered res) (Pending res + 1) (Failed res)) [] r
| out_failed p to w1 receipt err ms :
    Get (nProviders n) kind = Some p -> attempt n req userID kind = Some (kind, to) ->
    (Send p (message_for req row to) w1).2 = (receipt, Some err) ->
    outcome req userID kind row r res
      (mkNotifyResult (Delivered res) (Pending res) (Failed res + 1)) [(kind, to)]
      (stamped StatusFailed ms r)
| out_delivered p to w1 receipt ms :
    Get (nProviders n) kind = Some p -> attempt n req userID kind = Some (kind, to) ->
    (Send p (message_for req row to) w1).2 = (receipt, None) ->
    outcome req userID kind row r res
      (mkNotifyResult (Delivered res + 1) (Pending res) (Failed res)) [(kind, to)]
      (stamped (if (rStatus receipt =? "")%string then StatusDelivered else rStatus receipt) ms r).

Lemma attempt_spec req userID kind p to :
  Get (nProviders n) kind = Some p -> to = addressFor req userID kind ->
  attempt n req userID kind = if (to =? "")%string then None else Some (kind, to).
Proof. intros Hp ->. unfold attempt. by rewrite Hp. Qed.

(** A row that is left pending. *)
Lemma pending_stage req userID res w w1 id r : store_inv w1 ->
  rows w1 = <[id := r]> (rows w) -> devs w1 = devs w -> evolves (eq (key_for req userID)) (rows w) (rows w1) ->
  stage (eq (key_for req userID)) 1 w w1 res (mkNotifyResult (Delivered res) (Pending res + 1) (Failed res)).
Proof. intros. split; try done; unfold total, counts_le; simpl; lia. Qed.

Lemma notify_one_spec req userID kind res w : store_inv w ->
  exists w' res' id r r' ms sends,
    notify_one n req userID kind res w = (w', (res', None)) /\
    stored_row req userID kind (rows w) id r /\
    outcome req userID kind (set_nID id (new_row req userID kind ms)) r res res' sends r' /\
    rows w' = <[id := r']> (rows w) /\
    stage (eq (key_for req userID)) 1 w w' res res' /\
    present (rows w') (key_for req userID).
Proof.
  intros Hi. unfold notify_one. unfold_M. pose proof (env_now w Hi) as Hn.
  destruct (nNow n w) as [w0 ms]. simpl in Hn. destruct Hn as (Hr0 & Hd0 & Hi0).
  destruct (create_row w0 req userID kind ms Hi0)
    as (w1 & id & created & r & -> & Hsr & Hr1 & Hev & Hd1 & Hi1).
  rewrite Hr0 in *. pose proof (stored_row_key _ _ _ _ _ _ Hsr) as Hk.
  set (row := set_nID id (new_row req userID kind ms)).
  assert (Hin : rows w1 !! id = Some r) by (by rewrite Hr1, lookup_insert_eq).
  destruct (Get (nProviders n) kind) as [p|] eqn:Hp; [case_if|].
  - exists w1, (mkNotifyResult (Delivered res) (Pending res + 1) (Failed res)), id, r, r, ms, [].
    split_and!; [done|done| |done|eapply pending_stage; first [done|congruence]|by exists id, r].
    apply out_pending. by rewrite (attempt_spec _ _ _ _ _ Hp eq_refl), Hif.
  - pose proof (attempt_spec req userID _ _ _ Hp eq_refl) as Ha. rewrite Hif in Ha.
    set (to := addressFor req userID kind) in *.
    pose proof (env_send kind p (message_for req row to) w1 Hp (proj1 (String.eqb_neq _ _) Hif) Hi1) as Hs.
    destruct (Send p (message_for req row to) w1) as [w2 [receipt err]] eqn:Hsend.
    simpl in Hs. destruct Hs as (Hr2 & Hd2 & Hi2).
    apply (f_equal snd) in Hsend. simpl in Hsend.
    assert (Hin2 : rows w2 !! id = Some r) by congruence.
    assert (Htn : nTenantID r = rTenantID req) by (by injection Hk).
    set (status := match err with Some _ => StatusFailed | None =>
      if (rStatus receipt =? "")%string then StatusDelivered else rStatus receipt end).
    destruct (record_status w2 _ id r status Hi2 Hin2 Htn)
      as (w2' & ms' & w3 & Hnow & Hu & Hr3 & Hd3 & Hi3).
    set (res' := match err with
      | Some _ => mkNotifyResult (Delivered res) (Pending res) (Failed res + 1)
      | None => mkNotifyResult (Delivered res + 1) (Pending res) (Failed res) end).
    exists w3, res', id, r, (stamped status ms' r), ms, [(kind, to)].
    assert (Hrows : rows w3 = <[id := stamped status ms' r]> (rows w))
      by (by rewrite Hr3, Hr2, Hr1, insert_insert_eq).
    assert (Hev3 : evolves (eq (key_for req userID)) (rows w) (rows w3)).
    { apply (evolves_trans _ _ (rows w2)); [by rewrite Hr2|]. rewrite Hr3. by apply evolves_insert_same. }
    split_and!; [|done| |done| |].
    + destruct err; rewrite Hnow; unfold status in Hu; simpl; by rewrite Hu.
    + destruct err; [eapply out_failed|eapply out_delivered]; eauto.
    + split; try done; [congruence| |];
        unfold res', total, counts_le; destruct err; simpl; lia.
    + exists id, (stamped status ms' r). split; [by rewrite Hrows, lookup_insert_eq|done].
  - exists w1, (mkNotifyResult (Delivered res) (Pending res + 1) (Failed res)), id, r, r, ms, [].
    split_and!; [done|done| |done|eapply pending_stage; first [done|congruence]|by exists id, r].
    apply out_pending. unfold attempt. by rewrite Hp.
Qed.

Lemma notify_channels_stage req userID kinds : forall res w, store_inv w ->
  exists w' res', notify_channels n req userID kinds res w = (w', (res', None)) /\
    stage (eq (key_for req userID)) (Z.of_nat (length kinds)) w w' res res' /\
    (kinds <> [] -> present (rows w') (key_for req userID)).
Proof.
  induction kinds as [|kind kinds IH]; intros res w Hi; cbn [notify_channels]; unfold_M.
  { exists w, res. split_and!; [done|by apply stage_refl|done]. }
  destruct (notify_one_spec req userID kind res w Hi)
    as (w1 & res1 & id & r & r' & ms & sends & -> & _ & _ & _ & Hst & Hpres).
  destruct (IH res1 w1) as (w2 & res2 & -> & Hst2 & _); [apply Hst|].
  exists w2, res2. split_and!; [done| |].
  - replace (Z.of_nat (length (kind :: kinds))) with (1 + Z.of_nat (length kinds)) by (simpl; lia).
    by eapply stage_trans; [| |exact Hst|exact Hst2].
  - intros _. eapply evolves_present; [apply Hst2|done].
Qed.

Definition keys_for (req : NotifyRequest) (users : list string) (k : notifKey) : Prop :=
  exists u, u ∈ users /\ k = key_for req u.

Lemma notify_users_stage req users kinds : forall res w, store_inv w ->
  exists w' res', notify_users n req users kinds res w = (w', (res', None)) /\
    stage (keys_for req users) (Z.of_nat (length users) * Z.of_nat (length kinds)) w w' res res' /\
    (kinds <> [] -> forall u, u ∈ users -> present (rows w') (key_for req u)).
Proof.
  induction users as [|userID users IH]; intros res w Hi; cbn [notify_users]; unfold_M.
  { exists w, res. split_and!; [done|by apply stage_refl|intros _ u Hu; by apply not_elem_of_nil in Hu]. }
  destruct (notify_channels_stage req userID kinds res w Hi) as (w1 & res1 & -> & Hst & Hpres).
  destruct (IH res1 w1) as (w2 & res2 & -> & Hst2 & Hpres2); [apply Hst|].
  exists w2, res2. split_and!; [done| |].
  - replace (Z.of_nat (length (userID :: users)) * Z.of_nat (length kinds))
      with (Z.of_nat (length kinds) + Z.of_nat (length users) * Z.of_nat (length kinds)) by (simpl; lia).
    simpl. eapply stage_trans; [| |exact Hst|exact Hst2].
    + intros k <-. exists userID. split; [by left|done].
    + intros k (u & Hu & ->). exists u. split; [by right|done].
  - intros Hk u [->|Hu]%elem_of_cons; [|auto].
    eapply evolves_present; [apply Hst2|auto].
Qed.

Lemma notify_stage `{MapOrder} req w : store_inv w ->
  exists w' res, Notify n req w = (w', (res, None)) /\
    stage (keys_for req (rUserIDs req))
      (Z.of_nat (length (rUserIDs req)) * Z.of_nat (length (channels_of n req)))
      w w' (mkNotifyResult 0 0 0) res /\
    (channels_of n req <> [] -> forall u, u ∈ rUserIDs req -> present (rows w') (key_for req u)).
Proof. intros Hi. by apply notify_users_stage. Qed.
End fanout.

(** ** The calls of providers *)

Section log.
Context {W : Type} (n : NotifierT W) `{HS : !StoreLaws (nStore n)} {HE : NotifyEnv n}
  (dispatches : W -> list (ChannelKind * string)) {HL : DispatchLog n dispatches}.

Lemma record_log w t id st ms :
  dispatches (UpdateStatus (nStore n) t id st ms (nNow n w).1).1 = dispatches w.
Proof. by rewrite log_update, log_now. Qed.

Lemma notify_one_log req userID kind res w : store_inv w ->
  dispatches (notify_one n req userID kind res w).1 =
    dispatches w ++ user_attempts n req [kind] userID.
Proof.
  intros Hi. unfold notify_one, user_attempts, attempt. unfold_M.
  pose proof (log_now w) as Hn. pose proof (env_now w Hi) as He.
  destruct (nNow n w) as [w0 ms]. simpl in Hn, He. destruct He as (_ & _ & Hi0).
  pose proof (log_create (new_row req userID kind ms) w0) as Hc.
  destruct (create_row n w0 req userID kind ms Hi0) as (w1 & id & c & r & He & _). rewrite He in *.
  simpl in Hc. rewrite Hn in Hc. cbn [omap list_omap].
  destruct (Get (nProviders n) kind) as [p|] eqn:Hp; [case_if|]; simpl; rewrite ?app_nil_r; try done.
  pose proof (log_send kind p (message_for req (set_nID id (new_row req userID kind ms))
    (addressFor req userID kind)) w1 Hp) as Hs.
  destruct (Send p _ w1) as [w2 [receipt [err|]]]; simpl in Hs.
  - pose proof (record_log w2 (rTenantID req) id StatusFailed) as Hu.
    destruct (nNow n w2) as [w3 ms3]. simpl in *. specialize (Hu ms3).
    destruct (UpdateStatus _ _ _ _ _ w3). simpl in *. congruence.
  - pose proof (record_log w2 (rTenantID req) id
      (if (rStatus receipt =? "")%string then StatusDelivered else rStatus receipt)) as Hu.
    destruct (nNow n w2) as [w3 ms3]. simpl in *. specialize (Hu ms3).
    destruct (UpdateStatus _ _ _ _ _ w3) as [w4 [e|]]; simpl in *; congruence.
Qed.

Lemma user_attempts_cons req kind kinds userID :
  user_attempts n req (kind :: kinds) userID =
    user_attempts n req [kind] userID ++ user_attempts n req kinds userID.
Proof. unfold user_attempts. simpl. by destruct (attempt n req userID kind). Qed.

Lemma notify_channels_log req userID kinds : forall res w, store_inv w ->
  dispatches (notify_channels n req userID kinds res w).1 =
    dispatches w ++ user_attempts n req kinds userID.
Proof.
  induction kinds as [|kind kinds IH]; intros res w Hi; cbn [notify_channels]; unfold_M.
  { by rewrite app_nil_r. }
  pose proof (notify_one_log req userID kind res w Hi) as Hl. rewrite user_attempts_cons, app_assoc, <- Hl.
  destruct (notify_one_spec n req userID kind res w Hi)
    as (w1 & res1 & id & r & r' & ms & sends & -> & _ & _ & _ & Hst & _). by apply IH, Hst.
Qed.

Lemma notify_users_log req users kinds : forall res w, store_inv w ->
  dispatches (notify_users n req users kinds res w).1 =
    dispatches w ++ (users ≫= user_attempts n req kinds).
Proof.
  induction users as [|userID users IH]; intros res w Hi; cbn [notify_users]; unfold_M.
  { by rewrite app_nil_r. }
  pose proof (notify_channels_log req userID kinds res w Hi) as Hl. cbn [mbind list_bind].
  rewrite app_assoc, <- Hl.
  destruct (notify_channels_stage n req userID kinds res w Hi) as (w1 & res1 & -> & Hst & _).
  by apply IH, Hst.
Qed.
End log.

(** ** What Notify guarantees *)

(** Notify on a store that keeps its contract never returns an error; every
    (user, channel) pair of the fan-out is counted exactly once as delivered,
    pending or failed, whatever the providers answer. *)
Theorem notify_accounting {W} (n : NotifierT W) {HS : StoreLaws (nStore n)} {HE : NotifyEnv n}
    `{MapOrder} (req : NotifyRequest) (w : W) : store_inv w ->
  exists w' res, Notify n req w = (w', (res, None)) /\
    Delivered res + Pending res + Failed res =
      Z.of_nat (length (rUserIDs req)) * Z.of_nat (length (channels_of n req)) /\
    0 <= Delivered res /\ 0 <= Pending res /\ 0 <= Failed res.
Proof.
  intros Hi. destruct (notify_stage n req w Hi) as (w' & res & He & Hst & _).
  exists w', res. split; [done|]. destruct Hst as [_ _ _ Ht Hc].
  unfold total, counts_le in *. simpl in *. lia.
Qed.

(** C2: Notify stores exactly one row per recipient: afterwards every user of
    the request has a row under (tenant, user, notification id) when there is a
    channel at all, no row is lost, rows under any other key (other tenants,
    other users, other notifications) and all devices are untouched, and a row
    that was already stored under a key of the request keeps everything but its
    status and lifecycle timestamps. *)
Theorem notify_rows {W} (n : NotifierT W) {HS : StoreLaws (nStore n)} {HE : NotifyEnv n}
    `{MapOrder} (req : NotifyRequest) (w : W) : store_inv w ->
  let w' := (Notify n req w).1 in
  (channels_of n req <> [] -> forall u, u ∈ rUserIDs req ->
     present (rows w') (mkNotifKey (rTenantID req) u (rNotificationID req))) /\
  evolves (fun k => Tenant k = rTenantID req /\ NotificationID k = rNotificationID req /\
                    User k ∈ rUserIDs req) (rows w) (rows w') /\
  rows_ok nID key_of (rows w') /\ devs w' = devs w.
Proof.
  intros Hi. destruct (notify_stage n req w Hi) as (w' & res & -> & Hst & Hpres).
  simpl. destruct Hst as [Hev Hd Hi' _ _]. split_and!; [done| |by apply law_rows|done].
  eapply evolves_weaken; [|done]. intros k (u & Hu & ->). done.
Qed.

(** C16: The calls of providers that Notify makes are determined by the request
    and the registry alone: one Send per (user, channel) that has a provider
    and a non-empty address, users in order and channels in order within a
    user.  In particular what is already stored plays no part, so calling
    Notify again with the same request repeats every one of them. *)
Theorem notify_dispatches {W} (n : NotifierT W) {HS : StoreLaws (nStore n)} {HE : NotifyEnv n}
    dispatches {HL : DispatchLog n dispatches} `{MapOrder} (req : NotifyRequest) (w : W) : store_inv w ->
  let w1 := (Notify n req w).1 in
  let w2 := (Notify n req w1).1 in
  dispatches w1 = dispatches w ++ attempts n req /\
  dispatches w2 = dispatches w ++ attempts n req ++ attempts n req.
Proof.
  intros Hi w1 w2.
  assert (Hlog : forall v, store_inv v -> dispatches (Notify n req v).1 = dispatches v ++ attempts n req)
    by (intros v Hv; by apply (notify_users_log n)).
  assert (Hi1 : store_inv w1).
  { unfold w1. destruct (notify_stage n req w Hi) as (w' & res & -> & Hst & _). apply Hst. }
  split; [by apply Hlog|]. unfold w2. rewrite Hlog by done. unfold w1. by rewrite Hlog, app_assoc.
Qed.
