(* ===== verification/NotifierProps.v ===== *)
(** * Notify on each branch, and a concrete deployment

    The outcome of a single (user, channel), what a repeated Notify does to a
    row that was already read, where the fan-out ends when the store fails, and a
    runnable world (the memory driver, a
    counting clock, one provider that accepts, one that rejects) on which every
    theorem about Notify is applied. *)

From S2P Require Import Prelude GoErrors GoStrings Model StoreSpec StoreOps Memory MemoryProps.
From S2P Require Import Notifier.

(** A Notify of one user on one channel answers on every branch as the code
    says: the row is the stored one or a fresh pending row made from the
    request; without a provider or an address it is counted pending and left
    as it is; when the provider fails it is counted failed and marked failed;
    otherwise it is counted delivered and takes the receipt's status, or
    delivered when the receipt names none.  No other row changes. *)
Theorem notify_single {W} (n : NotifierT W) {HS : StoreLaws (nStore n)}
    {HE : NotifyEnv n} `{MapOrder} (req : NotifyRequest) (u : string) (kind : ChannelKind)
    (w : W) :
  store_inv w -> rUserIDs req = [u] -> rChannels req = [kind] ->
  exists w' res id r r' ms sends,
    Notify n req w = (w', (res, None)) /\
    stored_row req u kind (rows w) id r /\
    outcome n req u kind (set_nID id (new_row req u kind ms)) r (mkNotifyResult 0 0 0) res sends r' /\
    rows w' = <[id := r']> (rows w).
Proof.
  intros Hi Hu Hk. unfold Notify, channels_of. rewrite Hu, Hk.
  destruct (notify_one_spec n req u kind (mkNotifyResult 0 0 0) w Hi)
    as (w' & res & id & r & r' & ms & sends & He & Hs & Ho & Hr & _).
  exists w', res, id, r, r', ms, sends. split_and!; try done.
  cbn [notify_users notify_channels]. unfold_M. by rewrite He.
Qed.

(** Repeating a Notify whose row the user has already read sends it again
    and moves the row back to delivered, so it counts as unread once more,
    although its read timestamp stays. *)
Theorem renotify_unreads {W} (n : NotifierT W) {HS : StoreLaws (nStore n)}
    {HE : NotifyEnv n} `{MapOrder} (req : NotifyRequest) (u : string) (kind : ChannelKind)
    (p : Provider W) (w : W) id r :
  store_inv w -> rUserIDs req = [u] -> rChannels req = [kind] ->
  rows w !! id = Some r -> key_of r = mkNotifKey (rTenantID req) u (rNotificationID req) ->
  nStatus r = StatusRead ->
  Get (nProviders n) kind = Some p -> addressFor req u kind <> "" ->
  (forall m w, exists msgid, (Send p m w).2 = (mkReceipt msgid StatusDelivered, None)) ->
  exists r', rows (Notify n req w).1 !! id = Some r' /\
    nStatus r' = StatusDelivered /\ nReadAtMS r' = nReadAtMS r.
Proof.
  intros Hi Hu Hkind Hr Hkey Hread Hp Ha Hsend. unfold Notify, channels_of. rewrite Hu, Hkind.
  destruct (notify_one_spec n req u kind (mkNotifyResult 0 0 0) w Hi)
    as (w' & res & id' & r0 & r' & ms & sends & He & Hs & Ho & Hr' & _).
  cbn [notify_users notify_channels]. unfold_M. rewrite He. simpl.
  destruct Hs as [[Hr0 Hk0]|[Hab _]]; [|by destruct (Hab id r Hr)].
  assert (id' = id) as -> by (destruct (law_rows w Hi) as [_ Hinj]; eapply Hinj; eauto; by rewrite Hk0, Hkey).
  assert (r0 = r) as -> by congruence.
  exists r'. rewrite Hr', lookup_insert_eq. split; [done|].
  assert (Hatt : attempt n req u kind = Some (kind, addressFor req u kind)).
  { unfold attempt. rewrite Hp. by rewrite (proj2 (String.eqb_neq _ _)). }
  destruct Ho as [|p' ? w1 rc err ? Hp' _ He'|p' ? w1 rc ? Hp' _ He']; [congruence|..];
    assert (p' = p) as -> by congruence; destruct (Hsend (message_for req
      (set_nID id (new_row req u kind ms)) to) w1) as [mid Hm]; rewrite Hm in He'; [done|].
  injection He' as <-. done.
Qed.

(** ** Storage failures *)

(** Nothing the orchestrator does to a store that does not answer is retried: the
    failing call ends the whole fan-out. *)

(** The (user, channel) pairs of a fan-out, in its order. *)
Definition pairs_of (users : list string) (kinds : list ChannelKind) : list (string * ChannelKind) :=
  users ≫= fun u => pair u <$> kinds.

(** One pair after the other, up to the first failure. *)
Fixpoint notify_pairs {W} (n : NotifierT W) (req : NotifyRequest) (pairs : list (string * ChannelKind))
    (res : NotifyResult) : M W (NotifyResult * option error) :=
  match pairs with
  | [] => mret (res, None)
  | (u, kind) :: pairs =>
      '(res, err) ← notify_one n req u kind res;
      match err with
      | Some err => mret (res, Some err)
      | None => notify_pairs n req pairs res
      end
  end.

(** The two ways in which the store ends the fan-out at a pair, from [w] to [w'] with [e]: the
    row cannot be created, or the provider took the message and that cannot be recorded. *)
Definition abandoned {W} (n : NotifierT W) (req : NotifyRequest) (u : string) (kind : ChannelKind) (w w' : W)
    (e : error) : Prop :=
  let '(w1, ms) := nNow n w in
  let '(w2, (row, created)) := CreateNotification (nStore n) (new_row req u kind ms) w1 in
  match created with
  | Err err => w' = w2 /\ e = err
  | Ok _ => exists provider to, Get (nProviders n) kind = Some provider /\
      attempt n req u kind = Some (kind, to) /\
      let '(w3, (receipt, err)) := Send provider (message_for req row to) w2 in
      err = None /\
      let '(w4, ms) := nNow n w3 in
      UpdateStatus (nStore n) (rTenantID req) (nID row)
        (if (rStatus receipt =? "")%string then StatusDelivered else rStatus receipt) ms w4 = (w', Some e)
  end.

Section storage.
Context {W : Type} (n : NotifierT W).
Implicit Types (w : W).

Lemma notify_pairs_app req l1 l2 : forall res w,
  notify_pairs n req (l1 ++ l2) res w =
    let '(w1, (res1, err)) := notify_pairs n req l1 res w in
    match err with
    | Some err => (w1, (res1, Some err))
    | None => notify_pairs n req l2 res1 w1
    end.
Proof.
  induction l1 as [|[u kind] l1 IH]; intros res w; [done|]. cbn [app notify_pairs]. unfold_M.
  destruct (notify_one n req u kind res w) as [w1 [res1 [e|]]]; [done|apply IH].
Qed.

Lemma notify_channels_pairs req u kinds : forall res w,
  notify_channels n req u kinds res w = notify_pairs n req (pair u <$> kinds) res w.
Proof.
  induction kinds as [|kind kinds IH]; intros res w; [done|]. rewrite fmap_cons. cbn [notify_channels notify_pairs].
  unfold_M. destruct (notify_one n req u kind res w) as [w1 [res1 [e|]]]; [done|apply IH].
Qed.

Lemma notify_users_pairs req kinds users : forall res w,
  notify_users n req users kinds res w = notify_pairs n req (pairs_of users kinds) res w.
Proof.
  induction users as [|u users IH]; intros res w; [done|]. unfold pairs_of. rewrite bind_cons, notify_pairs_app.
  cbn [notify_users]. unfold_M. rewrite notify_channels_pairs.
  destruct (notify_pairs n req (pair u <$> kinds) res w) as [w1 [res1 [e|]]]; [done|apply IH].
Qed.

(** A pair is counted once, unless the store fails on it: then nothing is. *)
Lemma notify_one_outcome req u kind res w :
  let '(w', (res', e)) := notify_one n req u kind res w in
  match e with
  | None => total res' = total res + 1 /\ counts_le res res'
  | Some err => res' = res /\ abandoned n req u kind w w' err
  end.
Proof.
  unfold notify_one, abandoned, total, counts_le. unfold_M. destruct (nNow n w) as [w0 ms].
  destruct (CreateNotification _ _ w0) as [w1 [row [created|err]]]; [|done].
  unfold attempt. destruct (Get (nProviders n) kind) as [p|]; [case_if|]; [simpl; lia| |simpl; lia].
  destruct (Send p _ w1) as [w2 [rc [err|]]] eqn:Hs; destruct (nNow n w2) as [w3 ms'] eqn:Hn.
  - destruct (UpdateStatus _ _ _ _ _ w3) as [w4 e]. simpl. lia.
  - destruct (UpdateStatus _ _ _ _ _ w3) as [w4 [e|]] eqn:Hu; [|simpl; lia].
    split; [done|]. exists p, (addressFor req u kind). rewrite Hs, Hn. done.
Qed.

Lemma abandoned_returns req u kind res w w' e : abandoned n req u kind w w' e ->
  notify_one n req u kind res w = (w', (res, Some e)).
Proof.
  unfold abandoned, notify_one, attempt. unfold_M. destruct (nNow n w) as [w0 ms].
  destruct (CreateNotification _ _ w0) as [w1 [row [created|err]]]; [|by intros [-> ->]].
  intros (p & to & -> & Ha & Hs). case_if; [done|]. injection Ha as ->.
  destruct (Send p _ w1) as [w2 [rc err]]. destruct Hs as [-> Hs]. destruct (nNow n w2) as [w3 ms']. by rewrite Hs.
Qed.

(** Where a run over pairs ends. *)
Lemma notify_pairs_split req pairs : forall res w,
  let '(w', (res', e)) := notify_pairs n req pairs res w in
  counts_le res res' /\
  match e with
  | None => total res' = total res + Z.of_nat (length pairs)
  | Some err => exists before u kind rest w1, pairs = before ++ (u, kind) :: rest /\
      notify_pairs n req before res w = (w1, (res', None)) /\
      total res' = total res + Z.of_nat (length before) /\ abandoned n req u kind w1 w' err
  end.
Proof.
  induction pairs as [|[u kind] pairs IH]; intros res w; cbn [notify_pairs]; unfold_M.
  { unfold counts_le. simpl. lia. }
  pose proof (notify_one_outcome req u kind res w) as H1.
  destruct (notify_one n req u kind res w) as [w1 [res1 [err|]]] eqn:Hone.
  - destruct H1 as [-> Ha]. split; [unfold counts_le; lia|]. exists [], u, kind, pairs, w.
    split_and!; [done|done|simpl; lia|done].
  - destruct H1 as [Ht Hle]. specialize (IH res1 w1).
    destruct (notify_pairs n req pairs res1 w1) as [w2 [res2 e]]. destruct IH as [Hle2 He].
    split; [unfold counts_le in *; lia|]. destruct e as [err|]; [|cbn [length]; lia].
    destruct He as (before & u' & kind' & rest & w3 & -> & Hb & Ht2 & Ha).
    exists ((u, kind) :: before), u', kind', rest, w3. cbn [length app notify_pairs]. unfold_M.
    rewrite Hone. split_and!; [done|done|lia|done].
Qed.

(** Without a provider the row is stored and that is all. *)
Lemma notify_one_unwired req u kind res w : Get (nProviders n) kind = None ->
  notify_one n req u kind res w =
    let '(w1, ms) := nNow n w in
    let '(w2, (_, created)) := CreateNotification (nStore n) (new_row req u kind ms) w1 in
    (w2, match created with
         | Err err => (res, Some err)
         | Ok _ => (mkNotifyResult (Delivered res) (Pending res + 1) (Failed res), None)
         end).
Proof.
  intros Hn. unfold notify_one. unfold_M. rewrite Hn. destruct (nNow n w) as [w1 ms].
  by destruct (CreateNotification _ _ w1) as [w2 [row [b|e]]].
Qed.
End storage.

(** C38: Over any store, failing ones included, Notify visits its (user, channel) pairs one after
    the other, users in the order of the request and for each of them the channels in theirs.
    Without an error its counters, none negative, add up to the number of pairs.  It returns an
    error exactly when a store call failed at some pair, the creation of the row or the status
    update after a provider accepted the message (one after a rejection is not looked at): the
    error is that call's, the process is as that call left it, no later pair is visited, and the
    counters are those of Notify over exactly the pairs before it, all of which completed, so they
    add up to how many these are. *)
Theorem notify_abort {W} (n : NotifierT W) `{MapOrder} (req : NotifyRequest) (w : W) :
  let '(w', (res, err)) := Notify n req w in
  let pairs := pairs_of (rUserIDs req) (channels_of n req) in
  0 <= Delivered res /\ 0 <= Pending res /\ 0 <= Failed res /\
  (forall e, err = Some e <-> exists before u kind rest w1 res1 w2, pairs = before ++ (u, kind) :: rest /\
     notify_pairs n req before (mkNotifyResult 0 0 0) w = (w1, (res1, None)) /\ abandoned n req u kind w1 w2 e) /\
  match err with
  | None => Delivered res + Pending res + Failed res = Z.of_nat (length pairs)
  | Some e => exists before u kind rest w1, pairs = before ++ (u, kind) :: rest /\
      notify_pairs n req before (mkNotifyResult 0 0 0) w = (w1, (res, None)) /\
      Delivered res + Pending res + Failed res = Z.of_nat (length before) /\
      notify_one n req u kind res w1 = (w', (res, Some e)) /\ abandoned n req u kind w1 w' e
  end.
Proof.
  unfold Notify. rewrite notify_users_pairs. set (pairs := pairs_of _ _).
  pose proof (notify_pairs_split n req pairs (mkNotifyResult 0 0 0) w) as Hs.
  destruct (notify_pairs n req pairs _ w) as [w' [res err]] eqn:Hall. destruct Hs as [(Hd & Hp & Hf) Hs].
  unfold total in Hs. simpl in *. split_and!; [done..| |].
  { intros e. split.
    - intros ->. destruct Hs as (before & u & kind & rest & w1 & ? & ? & _ & ?). by exists before, u, kind, rest, w1, res, w'.
    - intros (before & u & kind & rest & w1 & res1 & w2 & Hpairs & Hb & Ha). rewrite Hpairs, notify_pairs_app, Hb in Hall.
      cbn [notify_pairs] in Hall. unfold_M. rewrite (abandoned_returns _ _ _ _ res1 _ _ _ Ha) in Hall. congruence. }
  destruct err as [e|]; [|done]. destruct Hs as (before & u & kind & rest & w1 & Hpairs & Hb & Ht & Ha). exists before, u, kind, rest, w1.
  split_and!; [done|done|done|by apply abandoned_returns|done].
Qed.

(** ** A deployment to run *)

Record World := mkWorld {
  wStore : MemStore;
  wClock : Z;
  wLog : list (ChannelKind * string);
}.

Definition put_store (s : MemStore) (w : World) : World := mkWorld s (wClock w) (wLog w).

Definition world_now : M World Z := fun w => (mkWorld (wStore w) (wClock w + 1) (wLog w), wClock w).

(** Accepts, unless the destination is "bad". *)
Definition sample_provider (kind : ChannelKind) : Provider World :=
  mkProvider kind "sample" (fun m w =>
    (mkWorld (wStore w) (wClock w) (wLog w ++ [(kind, mTo m)]),
     if (mTo m =? "bad")%string then (mkReceipt "" StatusFailed, Some (ErrorsNew "rejected"))
     else (mkReceipt "id" StatusDelivered, None))).

Definition sample_notifier : NotifierT World :=
  NewNotifier world_now (lift_store wStore put_store sample_store)
    (Some (Register (Register NewProviderRegistry (sample_provider ChannelEmail))
                    (sample_provider ChannelInApp))) None.

#[export] Instance sample_world_laws : StoreLaws (nStore sample_notifier) :=
  lift_laws wStore put_store (fun _ _ => eq_refl) sample_store (HS := sample_laws).

#[export] Instance sample_env : NotifyEnv sample_notifier.
Proof.
  split.
  - done.
  - intros kind p m w Hp _ Hi. unfold sample_notifier, Get in Hp. simpl in Hp.
    apply lookup_insert_Some in Hp as [[<- <-]|[_ Hp]]; [done|].
    apply lookup_insert_Some in Hp as [[<- <-]|[_ Hp]]; [done|]. by rewrite lookup_empty in Hp.
Qed.

#[export] Instance sample_log : DispatchLog sample_notifier wLog.
Proof.
  split.
  - done.
  - intros kind p m w Hp. unfold sample_notifier, Get in Hp. simpl in Hp.
    apply lookup_insert_Some in Hp as [[<- <-]|[_ Hp]]; [done|].
    apply lookup_insert_Some in Hp as [[<- <-]|[_ Hp]]; [done|]. by rewrite lookup_empty in Hp.
  - intros r w. simpl. unfold lift. by destruct (mem_CreateNotification sample_uuid r (wStore w)).
  - intros t id st ms w. simpl. unfold lift. by destruct (mem_UpdateStatus t id st ms (wStore w)).
Qed.

Definition sample_request : NotifyRequest :=
  mkNotifyRequest "acme" "order-1" ["u1"; "u2"] [ChannelInApp; ChannelEmail; ChannelSMS]
    "order" "order" "Shipped" "On its way"
    (<["u1" := {[ ChannelEmail := "bad" ]}]> ∅).

Definition start : World := mkWorld New 1000 [].

Lemma start_inv : store_inv (StoreLaws := sample_world_laws) start.
Proof. apply mem_inv_New. Qed.

(** The counters of the sample: in-app for both users, the e-mail of u1
    rejected, the e-mail of u2 without an address, no SMS provider. *)
Example sample_run :
  (Notify (H := sample_order) sample_notifier sample_request start).2 = (mkNotifyResult 2 3 1, None).
Proof. by vm_compute. Qed.

Lemma notify_accounting_witness :
  exists w' res, Notify (H := sample_order) sample_notifier sample_request start = (w', (res, None)) /\
    Delivered res + Pending res + Failed res = 6 /\
    0 <= Delivered res /\ 0 <= Pending res /\ 0 <= Failed res.
Proof. exact (@notify_accounting _ sample_notifier _ sample_env sample_order sample_request start start_inv). Defined.

Lemma notify_rows_witness :
  let w' := (Notify (H := sample_order) sample_notifier sample_request start).1 in
  (channels_of (H := sample_order) sample_notifier sample_request <> [] -> forall u, u ∈ ["u1"; "u2"] ->
     present (notifications (wStore w')) (mkNotifKey "acme" u "order-1")) /\
  evolves (fun k => Tenant k = "acme" /\ NotificationID k = "order-1" /\ User k ∈ ["u1"; "u2"])
    ∅ (notifications (wStore w')) /\
  rows_ok nID key_of (notifications (wStore w')) /\ devices (wStore w') = ∅.
Proof. exact (@notify_rows _ sample_notifier _ sample_env sample_order sample_request start start_inv). Defined.

Lemma notify_dispatches_witness :
  let w1 := (Notify (H := sample_order) sample_notifier sample_request start).1 in
  let w2 := (Notify (H := sample_order) sample_notifier sample_request w1).1 in
  let sends := [(ChannelInApp, "u1"); (ChannelEmail, "bad"); (ChannelInApp, "u2")] in
  attempts (H := sample_order) sample_notifier sample_request = sends /\
  wLog w1 = sends /\ wLog w2 = sends ++ sends.
Proof.
  intros w1 w2 sends. split; [by vm_compute|].
  exact (@notify_dispatches _ sample_notifier _ sample_env wLog sample_log sample_order sample_request start start_inv).
Defined.

Definition one_request (to : string) : NotifyRequest :=
  mkNotifyRequest "acme" "n1" ["u1"] [ChannelEmail] "" "" "t" "b"
    (<["u1" := {[ ChannelEmail := to ]}]> ∅).

Lemma notify_single_witness :
  exists w' res id r r' ms sends,
    Notify (H := sample_order) sample_notifier (one_request "bad") start = (w', (res, None)) /\
    stored_row (one_request "bad") "u1" ChannelEmail ∅ id r /\
    outcome sample_notifier (one_request "bad") "u1" ChannelEmail
      (set_nID id (new_row (one_request "bad") "u1" ChannelEmail ms)) r (mkNotifyResult 0 0 0) res sends r' /\
    notifications (wStore w') = <[id := r']> ∅.
Proof.
  exact (@notify_single _ sample_notifier _ sample_env sample_order (one_request "bad") "u1"
    ChannelEmail start start_inv eq_refl eq_refl).
Defined.

(** A store in which u1 has read the row of the request. *)
Definition read_world : World :=
  mkWorld (run_ops sample_store
    [ OpCreate (sample_notif "acme" "u1" "n1" 10); OpUpdate "acme" "uuid-0" StatusRead 20 ] New).1 1000 [].

Lemma read_world_inv : store_inv (StoreLaws := sample_world_laws) read_world.
Proof.
  destruct (@run_ops_refines _ _ sample_laws
    [ OpCreate (sample_notif "acme" "u1" "n1" 10); OpUpdate "acme" "uuid-0" StatusRead 20 ] New)
    as (s & outs & He & _ & _ & Hi); [apply mem_inv_New|repeat constructor|].
  simpl. change (mem_inv sample_uuid (run_ops sample_store
    [ OpCreate (sample_notif "acme" "u1" "n1" 10); OpUpdate "acme" "uuid-0" StatusRead 20 ] New).1).
  by rewrite He.
Qed.

Definition in_app_request : NotifyRequest :=
  mkNotifyRequest "acme" "n1" ["u1"] [ChannelInApp] "" "" "t" "b" ∅.

Definition always_provider : Provider World :=
  mkProvider ChannelInApp "always" (fun m w =>
    (mkWorld (wStore w) (wClock w) (wLog w ++ [(ChannelInApp, mTo m)]),
     (mkReceipt "id" StatusDelivered, None))).

Definition always_notifier : NotifierT World :=
  mkNotifier (lift_store wStore put_store sample_store)
    (Register NewProviderRegistry always_provider) world_now.

Lemma always_env : @NotifyEnv _ always_notifier sample_world_laws.
Proof.
  split.
  - done.
  - intros kind p m w Hp _ Hi. unfold Get in Hp. simpl in Hp.
    apply lookup_insert_Some in Hp as [[<- <-]|[_ Hp]]; [done|]. by rewrite lookup_empty in Hp.
Qed.

Lemma renotify_unreads_witness :
  exists r r', notifications (wStore read_world) !! "uuid-0" = Some r /\ nStatus r = StatusRead /\
    notifications (wStore (Notify (H := sample_order) always_notifier in_app_request read_world).1)
      !! "uuid-0" = Some r' /\
    nStatus r' = StatusDelivered /\ nReadAtMS r' = nReadAtMS r.
Proof.
  set (r := set_nTimes 0 0 20 (set_nStatus StatusRead (set_nID "uuid-0" (sample_notif "acme" "u1" "n1" 10)))).
  destruct (@renotify_unreads _ always_notifier sample_world_laws always_env sample_order
    in_app_request "u1" ChannelInApp always_provider read_world "uuid-0" r
    read_world_inv eq_refl eq_refl ltac:(by vm_compute) eq_refl eq_refl eq_refl ltac:(done)
    ltac:(intros; by eexists)) as (r' & H1 & H2 & H3).
  exists r, r'. split; [by vm_compute|]. done.
Defined.
