(* ===== verification/Wire.v ===== *)
(** * The wire types and their mapping: gen/go/notify/v1, internal/server/mapping.go

    Protobuf messages as records, a message pointer as an option, the oneof of
    StreamEvent as a sum, and an open enum as an [int32] with its named values.
    The generated getters are nil-safe, so they take the option. *)

From S2P Require Import Prelude GoErrors GoStrings Model Notifier.

(** ** Enums *)

Definition DeliveryChannel : Type := Z.
Definition DELIVERY_CHANNEL_UNSPECIFIED : DeliveryChannel := 0.
Definition DELIVERY_CHANNEL_IN_APP : DeliveryChannel := 1.
Definition DELIVERY_CHANNEL_EMAIL : DeliveryChannel := 2.
Definition DELIVERY_CHANNEL_WEB_PUSH : DeliveryChannel := 3.
Definition DELIVERY_CHANNEL_MOBILE_PUSH : DeliveryChannel := 4.
Definition DELIVERY_CHANNEL_SMS : DeliveryChannel := 5.
Definition DELIVERY_CHANNEL_WHATSAPP : DeliveryChannel := 6.

Definition DeliveryStatusPB : Type := Z.
Definition DELIVERY_STATUS_UNSPECIFIED : DeliveryStatusPB := 0.
Definition DELIVERY_STATUS_PENDING : DeliveryStatusPB := 1.
Definition DELIVERY_STATUS_DELIVERED : DeliveryStatusPB := 2.
Definition DELIVERY_STATUS_ACKED : DeliveryStatusPB := 3.
Definition DELIVERY_STATUS_READ : DeliveryStatusPB := 4.
Definition DELIVERY_STATUS_FAILED : DeliveryStatusPB := 5.

Definition DeviceTypePB : Type := Z.
Definition DEVICE_TYPE_UNSPECIFIED : DeviceTypePB := 0.
Definition DEVICE_TYPE_BROWSER : DeviceTypePB := 1.
Definition DEVICE_TYPE_ANDROID : DeviceTypePB := 2.
Definition DEVICE_TYPE_IOS : DeviceTypePB := 3.

(** ** Messages *)

Record ChannelAddresses := mkChannelAddresses { ByChannel : gmap string string }.

Record NotifyRequestPB := mkNotifyRequestPB {
  pTenantId : string;
  pNotificationId : string;
  pUserIds : list string;
  pChannels : list DeliveryChannel;
  pSubjectRef : string;
  pSubjectType : string;
  pTitle : string;
  pBody : string;
  pAddresses : gmap string (option ChannelAddresses);
}.

Record NotifyResponse := mkNotifyResponse { pDelivered : Z; pPending : Z; pFailed : Z }.

Record NotificationPB := mkNotificationPB {
  pbId : string;
  pbNotificationId : string;
  pbSubjectRef : string;
  pbSubjectType : string;
  pbTitle : string;
  pbBody : string;
  pbChannel : DeliveryChannel;
  pbStatus : DeliveryStatusPB;
  pbCreatedAtMs : Z;
  pbDeliveredAtMs : Z;
  pbAckAtMs : Z;
  pbReadAtMs : Z;
}.

Record NotificationEvent := mkNotificationEvent { evNotification : option NotificationPB }.
Record DataChangeEvent := mkDataChangeEvent {
  dcIdempotencyKey : string; dcSubjectRef : string; dcSubjectType : string }.
Record HeartbeatEvent := mkHeartbeatEvent { TimestampMs : Z }.

Inductive isStreamEvent_Event : Type :=
| StreamEvent_Notification (n : NotificationEvent)
| StreamEvent_DataChange (d : DataChangeEvent)
| StreamEvent_Heartbeat (h : HeartbeatEvent).

Record StreamEvent := mkStreamEvent {
  SessionId : string;
  Event : option isStreamEvent_Event;
}.

Record StreamEventsRequest := mkStreamEventsRequest { seDeviceType : DeviceTypePB }.
Record GetNotificationsRequest := mkGetNotificationsRequest {
  gnCursor : string; gnLimit : Z; gnUnreadOnly : bool }.
Record GetNotificationsResponse := mkGetNotificationsResponse {
  gnNotifications : list NotificationPB; gnNextCursor : string; gnUnreadCount : Z }.
Record AckNotificationRequest := mkAckNotificationRequest { anId : string }.
Record AckNotificationResponse := mkAckNotificationResponse {}.
Record AckDataChangeRequest := mkAckDataChangeRequest {
  adIdempotencyKey : string; adSessionId : string }.
Record AckDataChangeResponse := mkAckDataChangeResponse {}.
Record RegisterPushTokenRequest := mkRegisterPushTokenRequest {
  rpDeviceType : DeviceTypePB; rpToken : string }.
Record RegisterPushTokenResponse := mkRegisterPushTokenResponse {}.

#[global] Instance NotificationPB_eq_dec : EqDecision NotificationPB.
Proof. solve_decision. Defined.
#[global] Instance NotificationEvent_eq_dec : EqDecision NotificationEvent.
Proof. solve_decision. Defined.
#[global] Instance DataChangeEvent_eq_dec : EqDecision DataChangeEvent.
Proof. solve_decision. Defined.
#[global] Instance HeartbeatEvent_eq_dec : EqDecision HeartbeatEvent.
Proof. solve_decision. Defined.
#[global] Instance isStreamEvent_Event_eq_dec : EqDecision isStreamEvent_Event.
Proof. solve_decision. Defined.
#[global] Instance StreamEvent_eq_dec : EqDecision StreamEvent.
Proof. solve_decision. Defined.

(** ** Getters: a nil message answers the zero value *)

Definition GetTenantId (x : option NotifyRequestPB) : string := from_option pTenantId "" x.
Definition GetNotificationId (x : option NotifyRequestPB) : string := from_option pNotificationId "" x.
Definition GetUserIds (x : option NotifyRequestPB) : list string := from_option pUserIds [] x.
Definition GetChannels (x : option NotifyRequestPB) : list DeliveryChannel := from_option pChannels [] x.
Definition GetSubjectRef (x : option NotifyRequestPB) : string := from_option pSubjectRef "" x.
Definition GetSubjectType (x : option NotifyRequestPB) : string := from_option pSubjectType "" x.
Definition GetTitle (x : option NotifyRequestPB) : string := from_option pTitle "" x.
Definition GetBody (x : option NotifyRequestPB) : string := from_option pBody "" x.
Definition GetAddresses (x : option NotifyRequestPB) : gmap string (option ChannelAddresses) :=
  from_option pAddresses ∅ x.
Definition GetByChannel (x : option ChannelAddresses) : gmap string string := from_option ByChannel ∅ x.
Definition GetStreamDeviceType (x : option StreamEventsRequest) : DeviceTypePB :=
  from_option seDeviceType DEVICE_TYPE_UNSPECIFIED x.
Definition GetCursor (x : option GetNotificationsRequest) : string := from_option gnCursor "" x.
Definition GetLimit (x : option GetNotificationsRequest) : Z := from_option gnLimit 0 x.
Definition GetUnreadOnly (x : option GetNotificationsRequest) : bool := from_option gnUnreadOnly false x.
Definition GetId (x : option AckNotificationRequest) : string := from_option anId "" x.
Definition GetIdempotencyKey (x : option AckDataChangeRequest) : string :=
  from_option adIdempotencyKey "" x.
Definition GetSessionId (x : option AckDataChangeRequest) : string := from_option adSessionId "" x.
Definition GetTokenDeviceType (x : option RegisterPushTokenRequest) : DeviceTypePB :=
  from_option rpDeviceType DEVICE_TYPE_UNSPECIFIED x.
Definition GetToken (x : option RegisterPushTokenRequest) : string := from_option rpToken "" x.

(** ** mapping.go *)

Definition channelKindToProto (k : ChannelKind) : DeliveryChannel :=
  if (k =? ChannelInApp)%string then DELIVERY_CHANNEL_IN_APP
  else if (k =? ChannelEmail)%string then DELIVERY_CHANNEL_EMAIL
  else if (k =? ChannelWebPush)%string then DELIVERY_CHANNEL_WEB_PUSH
  else if (k =? ChannelMobilePush)%string then DELIVERY_CHANNEL_MOBILE_PUSH
  else if (k =? ChannelSMS)%string then DELIVERY_CHANNEL_SMS
  else if (k =? ChannelWhatsApp)%string then DELIVERY_CHANNEL_WHATSAPP
  else DELIVERY_CHANNEL_UNSPECIFIED.

Definition channelKindFromProto (c : DeliveryChannel) : ChannelKind :=
  if c =? DELIVERY_CHANNEL_IN_APP then ChannelInApp
  else if c =? DELIVERY_CHANNEL_EMAIL then ChannelEmail
  else if c =? DELIVERY_CHANNEL_WEB_PUSH then ChannelWebPush
  else if c =? DELIVERY_CHANNEL_MOBILE_PUSH then ChannelMobilePush
  else if c =? DELIVERY_CHANNEL_SMS then ChannelSMS
  else if c =? DELIVERY_CHANNEL_WHATSAPP then ChannelWhatsApp
  else "".

Definition statusToProto (s : DeliveryStatus) : DeliveryStatusPB :=
  if (s =? StatusPending)%string then DELIVERY_STATUS_PENDING
  else if (s =? StatusDelivered)%string then DELIVERY_STATUS_DELIVERED
  else if (s =? StatusAcked)%string then DELIVERY_STATUS_ACKED
  else if (s =? StatusRead)%string then DELIVERY_STATUS_READ
  else if (s =? StatusFailed)%string then DELIVERY_STATUS_FAILED
  else DELIVERY_STATUS_UNSPECIFIED.

Definition deviceTypeFromProto (d : DeviceTypePB) : string :=
  if d =? DEVICE_TYPE_BROWSER then "browser"
  else if d =? DEVICE_TYPE_ANDROID then "android"
  else if d =? DEVICE_TYPE_IOS then "ios"
  else "".

Definition notification_view (n : Notification) : NotificationPB :=
  mkNotificationPB (nID n) (nNotificationID n) (nSubjectRef n) (nSubjectType n) (nTitle n)
    (nBody n) (channelKindToProto (nChannel n)) (statusToProto (nStatus n)) (nCreatedAtMS n)
    (nDeliveredAtMS n) (nAckAtMS n) (nReadAtMS n).

(** A nil row maps to nil. *)
Definition notificationToProto (n : option Notification) : option NotificationPB :=
  notification_view <$> n.

Definition channelNameForAddress (k : ChannelKind) : string :=
  if (k =? ChannelEmail)%string then "email"
  else if (k =? ChannelSMS)%string then "sms"
  else if (k =? ChannelWhatsApp)%string then "whatsapp"
  else if (k =? ChannelMobilePush)%string then "mobile_push"
  else if (k =? ChannelWebPush)%string then "web_push"
  else if (k =? ChannelInApp)%string then "in_app"
  else "".

Definition addressKeyToKind (name : string) : ChannelKind :=
  if (name =? "email")%string then ChannelEmail
  else if (name =? "sms")%string then ChannelSMS
  else if (name =? "whatsapp")%string then ChannelWhatsApp
  else if (name =? "mobile_push")%string then ChannelMobilePush
  else if (name =? "web_push")%string then ChannelWebPush
  else if (name =? "in_app")%string then ChannelInApp
  else "".

(** ** handlers.go: the request as the orchestrator takes it *)

Section request.
Context `{MapOrder}.

(** The inner loop over one user's addresses. *)
Definition by_channel_step (acc : gmap ChannelKind string) (entry : string * string)
    : gmap ChannelKind string :=
  let '(name, addr) := entry in
  let k := addressKeyToKind name in
  if (k =? "")%string then acc else <[k := addr]> acc.

(** The outer loop over the users. *)
Definition addresses_step (acc : gmap string (gmap ChannelKind string))
    (entry : string * option ChannelAddresses) : gmap string (gmap ChannelKind string) :=
  let '(userID, ca) := entry in
  match ca with
  | None => acc
  | Some _ =>
      let byChannel := fold_left by_channel_step (range (GetByChannel ca)) ∅ in
      if bool_decide (byChannel = ∅) then acc else <[userID := byChannel]> acc
  end.

Definition notifyRequestFromProto (i : option NotifyRequestPB) : NotifyRequest :=
  mkNotifyRequest (GetTenantId i) (GetNotificationId i) (GetUserIds i)
    (List.filter (fun k => negb (k =? "")%string) (channelKindFromProto <$> GetChannels i))
    (GetSubjectRef i) (GetSubjectType i) (GetTitle i) (GetBody i)
    (fold_left addresses_step (range (GetAddresses i)) ∅).

End request.

(** ** The mappings are inverse to each other *)

Definition known_kinds : list ChannelKind :=
  [ChannelInApp; ChannelEmail; ChannelWebPush; ChannelMobilePush; ChannelSMS; ChannelWhatsApp].

Definition known_statuses : list DeliveryStatus :=
  [StatusPending; StatusDelivered; StatusAcked; StatusRead; StatusFailed].

Lemma channel_roundtrip k : k ∈ known_kinds -> channelKindFromProto (channelKindToProto k) = k.
Proof. unfold known_kinds. rewrite !elem_of_cons, elem_of_nil. by intros [->|[->|[->|[->|[->|[->|[]]]]]]]. Qed.

Lemma status_inj s1 s2 : s1 ∈ known_statuses -> s2 ∈ known_statuses ->
  statusToProto s1 = statusToProto s2 -> s1 = s2.
Proof.
  unfold known_statuses. rewrite !elem_of_cons, !elem_of_nil.
  intros [->|[->|[->|[->|[->|[]]]]]] [->|[->|[->|[->|[->|[]]]]]]; done || (intros He; by apply Z.eqb_eq in He).
Qed.

Lemma known_cases (P : ChannelKind -> Prop) :
  P ChannelInApp -> P ChannelEmail -> P ChannelWebPush -> P ChannelMobilePush -> P ChannelSMS ->
  P ChannelWhatsApp -> forall k, k ∈ known_kinds -> P k.
Proof.
  intros H1 H2 H3 H4 H5 H6 k. unfold known_kinds. rewrite !elem_of_cons, elem_of_nil.
  by intros [->|[->|[->|[->|[->|[->|[]]]]]]].
Qed.

Lemma known_nonempty k : k ∈ known_kinds -> k <> "".
Proof. revert k. by apply known_cases. Qed.

Lemma addressKeyToKind_name k : k ∈ known_kinds -> addressKeyToKind (channelNameForAddress k) = k.
Proof. revert k. by apply known_cases. Qed.

Lemma addressKeyToKind_inv name : addressKeyToKind name <> "" ->
  name = channelNameForAddress (addressKeyToKind name).
Proof.
  unfold addressKeyToKind. repeat match goal with |- context [(name =? ?c)%string] =>
    destruct (String.eqb_spec name c) as [->|?]; [done|] end. done.
Qed.

Lemma addressKeyToKind_known name k : k ∈ known_kinds ->
  addressKeyToKind name = k <-> name = channelNameForAddress k.
Proof.
  intros Hk. split; [|intros ->; by apply addressKeyToKind_name].
  intros <-. by apply addressKeyToKind_inv, known_nonempty.
Qed.

(** ** The address loops *)

Section loops.
Context `{MapOrder}.

Lemma by_channel_fold k l : k ∈ known_kinds -> NoDup l.*1 -> forall acc,
  fold_left by_channel_step l acc !! k =
  match (list_to_map l : gmap string string) !! channelNameForAddress k with
  | Some a => Some a
  | None => acc !! k
  end.
Proof.
  intros Hk. induction l as [|[name a] l IH]; intros Hnd acc; [done|].
  rewrite fmap_cons, NoDup_cons in Hnd. destruct Hnd as [Hn Hnd]. cbn [fold_left].
  rewrite (IH Hnd). cbn [list_to_map foldr]. simpl in Hn. unfold by_channel_step.
  destruct (decide (name = channelNameForAddress k)) as [->|Hne].
  - change (foldr _ _ l) with (list_to_map l : gmap string string). rewrite lookup_insert_eq.
    rewrite (not_elem_of_list_to_map_1 l _ Hn).
    rewrite (proj2 (addressKeyToKind_known _ k Hk)) by done.
    rewrite (proj2 (String.eqb_neq _ _)) by (by apply known_nonempty). by rewrite lookup_insert_eq.
  - rewrite lookup_insert_ne by done. case_match; [done|].
    case_if; [done|]. rewrite lookup_insert_ne; [done|]. intros He. by apply addressKeyToKind_known in He.
Qed.

(** What one user's entry contributes. *)
Definition user_addresses (ca : option ChannelAddresses) : option (gmap ChannelKind string) :=
  match ca with
  | None => None
  | Some _ =>
      let byChannel := fold_left by_channel_step (range (GetByChannel ca)) ∅ in
      if bool_decide (byChannel = ∅) then None else Some byChannel
  end.

Lemma addresses_fold u l : NoDup l.*1 -> forall acc,
  fold_left addresses_step l acc !! u =
  match (list_to_map l : gmap string (option ChannelAddresses)) !! u ≫= user_addresses with
  | Some m => Some m
  | None => acc !! u
  end.
Proof.
  induction l as [|[v ca] l IH]; intros Hnd acc; [done|].
  rewrite fmap_cons, NoDup_cons in Hnd. destruct Hnd as [Hn Hnd]. cbn [fold_left].
  rewrite (IH Hnd). cbn [list_to_map foldr]. simpl in Hn.
  assert (Hstep : addresses_step acc (v, ca) =
    match user_addresses ca with Some m => <[v := m]> acc | None => acc end).
  { unfold addresses_step, user_addresses. destruct ca; [|done]. by case_if. }
  rewrite Hstep. destruct (decide (v = u)) as [->|Hne].
  - change (foldr _ _ l) with (list_to_map l : gmap string (option ChannelAddresses)).
    rewrite lookup_insert_eq, (not_elem_of_list_to_map_1 l _ Hn). simpl.
    destruct (user_addresses ca); [by rewrite lookup_insert_eq|done].
  - rewrite lookup_insert_ne by done.
    change (foldr _ _ l) with (list_to_map l : gmap string (option ChannelAddresses)).
    destruct ((list_to_map l : gmap string (option ChannelAddresses)) !! u ≫= user_addresses); [done|].
    destruct (user_addresses ca); [by rewrite lookup_insert_ne|done].
Qed.

Lemma user_addresses_lookup ca k : k ∈ known_kinds ->
  user_addresses ca ≫= (.!! k) = GetByChannel ca !! channelNameForAddress k.
Proof.
  intros Hk. destruct ca as [ca|]; [|by rewrite ?lookup_empty]. unfold user_addresses.
  assert (Hl : fold_left by_channel_step (range (GetByChannel (Some ca))) ∅ !! k =
    GetByChannel (Some ca) !! channelNameForAddress k).
  { rewrite by_channel_fold by (done || apply range_NoDup).
    rewrite range_list_to_map. by destruct (GetByChannel (Some ca) !! channelNameForAddress k). }
  case_bool_decide as He; [|exact Hl]. rewrite <- Hl, He. by rewrite lookup_empty.
Qed.
End loops.

(** ** Properties *)

(** Two stored rows of one recipient, with statuses and channels of the
    platform, that look the same on the wire are the same row: the client view
    drops nothing but the tenant and the user. *)
Theorem notification_wire_faithful (a b : Notification) :
  nTenantID a = nTenantID b -> nUserID a = nUserID b ->
  nChannel a ∈ known_kinds -> nChannel b ∈ known_kinds ->
  nStatus a ∈ known_statuses -> nStatus b ∈ known_statuses ->
  notificationToProto (Some a) = notificationToProto (Some b) -> a = b.
Proof.
  intros Ht Hu Hka Hkb Hsa Hsb [= Hid Hn Hsr Hst Hti Hbo Hch Hs Hc Hd Hac Hr].
  apply (f_equal channelKindFromProto) in Hch. rewrite !channel_roundtrip in Hch by done.
  apply status_inj in Hs; [|done..]. destruct a, b. simpl in *. by subst.
Qed.

(** Translating the nested address maps of a request loses and confuses
    nothing, whatever the iteration order of the two maps: for every user and
    every known channel the address the orchestrator sees is exactly the wire
    entry under the channel's documented name. *)
Theorem request_addresses `{MapOrder} (i : option NotifyRequestPB) (u : string) (k : ChannelKind) :
  k ∈ known_kinds ->
  rAddresses (notifyRequestFromProto i) !! u ≫= (.!! k) =
  GetAddresses i !! u ≫= fun ca => GetByChannel ca !! channelNameForAddress k.
Proof.
  intros Hk. simpl. rewrite addresses_fold by apply range_NoDup. rewrite range_list_to_map.
  destruct (GetAddresses i !! u) as [ca|]; simpl; [|by rewrite ?lookup_empty].
  rewrite <- (user_addresses_lookup ca k Hk).
  destruct (user_addresses ca); [done|]. by rewrite ?lookup_empty.
Qed.

Definition sample_wire_request : NotifyRequestPB :=
  mkNotifyRequestPB "acme" "n1" ["u1"; "u2"] [DELIVERY_CHANNEL_EMAIL; 99] "ref" "type" "t" "b"
    (<["u1" := Some (mkChannelAddresses (<["email" := "a@x"]> (<["fax" := "1"]> ∅)))]>
     (<["u2" := None]> ∅)).

Lemma notification_wire_faithful_witness :
  let n := mkNotification "1" "n" "t" "u" "" "" "" "" ChannelSMS StatusRead 1 2 3 4 in
  notificationToProto (Some n) = notificationToProto (Some n) /\ n = n.
Proof.
  intros n. split; [reflexivity|].
  apply (notification_wire_faithful n n eq_refl eq_refl); (reflexivity || by apply (bool_decide_unpack _); vm_compute).
Defined.

Lemma request_addresses_witness :
  rAddresses (notifyRequestFromProto (H := sample_order) (Some sample_wire_request)) !! "u1"
    ≫= (.!! ChannelEmail) = Some "a@x".
Proof.
  etransitivity.
  - apply (@request_addresses sample_order (Some sample_wire_request) "u1" ChannelEmail).
    by apply (bool_decide_unpack _); vm_compute.
  - by vm_compute.
Defined.
