(* ===== verification/Realtime.v ===== *)
(** * realtime/conn.go, realtime/registry.go: live connections

    The registry of live connections, generic in the event payload.  A
    [*Conn[T]] is shared between the registry, the snapshots that Push sends on
    after it released the lock, and the stream handler that drains it, so
    connections live in a heap and are named by addresses; [cQueue] is what the
    buffered channel holds.  Register, Unregister and the snapshot run under the
    lock, so each is one step; every single channel send and receive is a step
    of its own, so that concurrent pushes interleave at that grain. *)

From S2P Require Import Prelude GoErrors GoStrings Model.

Definition DefaultEventBuffer : Z := 64.

Record Conn (T : Type) := mkConn {
  cID : string;
  cUserID : string;
  cTenantID : string;
  cDeviceType : string;
  cBuffer : Z;
  cQueue : list T;
  cCreatedAt : Z;
}.
Arguments mkConn {T}.
Arguments cID {T}.
Arguments cUserID {T}.
Arguments cTenantID {T}.
Arguments cDeviceType {T}.
Arguments cBuffer {T}.
Arguments cQueue {T}.
Arguments cCreatedAt {T}.

Definition set_queue {T} (q : list T) (c : Conn T) : Conn T :=
  mkConn (cID c) (cUserID c) (cTenantID c) (cDeviceType c) (cBuffer c) q (cCreatedAt c).

(** The heap of connections and the registry over it. *)
Record Live (T : Type) := mkLive {
  heap : gmap nat (Conn T);
  nextConn : nat;
  byUser : gmap string (list nat);
}.
Arguments mkLive {T}.
Arguments heap {T}.
Arguments nextConn {T}.
Arguments byUser {T}.

Section realtime.
Context {T : Type}.

Definition NewRegistry : Live T := mkLive ∅ 0 ∅.

(** [id] is what uuid.NewString returns, [createdAt] what time.Now returns. *)
Definition NewConn (userID tenantID deviceType : string) (buffer : Z) (id : string) (createdAt : Z)
    : M (Live T) nat := fun s =>
  let buffer := if buffer <=? 0 then DefaultEventBuffer else buffer in
  (mkLive (<[nextConn s := mkConn id userID tenantID deviceType buffer [] createdAt]> (heap s))
     (S (nextConn s)) (byUser s),
   nextConn s).

Definition RegisterConn (p : nat) : M (Live T) unit := fun s =>
  match heap s !! p with
  | Some c => (mkLive (heap s) (nextConn s)
                 (<[cUserID c := default [] (byUser s !! cUserID c) ++ [p]]> (byUser s)), tt)
  | None => (s, tt)
  end.

Definition has_id (s : Live T) (connID : string) (p : nat) : bool :=
  match heap s !! p with Some c => (cID c =? connID)%string | None => false end.

(** The position of the first connection of a slice with the given id. *)
Fixpoint conn_index (s : Live T) (connID : string) (ps : list nat) : option nat :=
  match ps with
  | [] => None
  | p :: ps => if has_id s connID p then Some 0%nat else S <$> conn_index s connID ps
  end.

(** [conns[i] = conns[len-1]; conns = conns[:len-1]]. *)
Definition swap_delete (i : nat) (ps : list nat) : list nat :=
  match last ps with Some l => removelast (<[i := l]> ps) | None => ps end.

Fixpoint unregister_loop (s : Live T) (connID : string) (entries : list (string * list nat))
    : Live T :=
  match entries with
  | [] => s
  | (userID, conns) :: entries =>
      match conn_index s connID conns with
      | None => unregister_loop s connID entries
      | Some i =>
          let conns := swap_delete i conns in
          mkLive (heap s) (nextConn s)
            (match conns with [] => delete userID (byUser s) | _ => <[userID := conns]> (byUser s) end)
      end
  end.

Definition Unregister `{MapOrder} (connID : string) : M (Live T) unit := fun s =>
  (unregister_loop s connID (range (byUser s)), tt).

Definition Connections (userID : string) (s : Live T) : list nat := default [] (byUser s !! userID).

Fixpoint get_loop (s : Live T) (connID : string) (entries : list (string * list nat)) : option nat :=
  match entries with
  | [] => None
  | (_, conns) :: entries =>
      match conn_index s connID conns with
      | Some i => conns !! i
      | None => get_loop s connID entries
      end
  end.

Definition GetConn `{MapOrder} (connID : string) (s : Live T) : option nat :=
  get_loop s connID (range (byUser s)).

Definition Count (userID : string) (s : Live T) : Z :=
  Z.of_nat (length (default [] (byUser s !! userID))).

(** The non-blocking send. *)
Definition trySend (p : nat) (ev : T) : M (Live T) bool := fun s =>
  match heap s !! p with
  | Some c =>
      if Z.of_nat (length (cQueue c)) <? cBuffer c
      then (mkLive (<[p := set_queue (cQueue c ++ [ev]) c]> (heap s)) (nextConn s) (byUser s), true)
      else (s, false)
  | None => (s, false)
  end.

Fixpoint push_loop (ps : list nat) (ev : T) (pushed : Z) : M (Live T) Z :=
  match ps with
  | [] => mret pushed
  | p :: ps =>
      ok ← trySend p ev;
      push_loop ps ev (if ok : bool then pushed + 1 else pushed)
  end.

Definition Push (userID : string) (ev : T) : M (Live T) Z := fun s =>
  push_loop (Connections userID s) ev 0 s.

Definition PushTo `{MapOrder} (connID : string) (ev : T) : M (Live T) bool := fun s =>
  match GetConn connID s with
  | None => (s, false)
  | Some p => trySend p ev s
  end.

(** The receive of the stream handler, when the channel holds something. *)
Definition recv (p : nat) : M (Live T) (option T) := fun s =>
  match heap s !! p with
  | Some c =>
      match cQueue c with
      | ev :: q => (mkLive (<[p := set_queue q c]> (heap s)) (nextConn s) (byUser s), Some ev)
      | [] => (s, None)
      end
  | None => (s, None)
  end.

(** ** The engine under concurrent callers *)

Inductive LiveLabel : Type :=
| LOpen (p : nat) (userID tenantID deviceType : string)
| LClose (connID : string)
| LSend (p : nat) (ev : T) (ok : bool)
| LRecv (p : nat) (ev : T).

(** A connection is built with an id never used before and registered at once;
    sends reach any connection that was ever built (a snapshot may outlive the
    registration). *)
Inductive live_step `{MapOrder} : Live T -> LiveLabel -> Live T -> Prop :=
| live_open s s1 s2 u t d buffer id at_ p :
    (forall q c, heap s !! q = Some c -> cID c <> id) ->
    NewConn u t d buffer id at_ s = (s1, p) -> RegisterConn p s1 = (s2, tt) ->
    live_step s (LOpen p u t d) s2
| live_close s s' id : Unregister id s = (s', tt) -> live_step s (LClose id) s'
| live_send s s' p ev ok :
    is_Some (heap s !! p) -> trySend p ev s = (s', ok) -> live_step s (LSend p ev ok) s'
| live_recv s s' p ev : recv p s = (s', Some ev) -> live_step s (LRecv p ev) s'.

(** What a run sent to and received from one connection, in order. *)
Definition sent (p : nat) (ls : list LiveLabel) : list T :=
  omap (fun l => match l with
                 | LSend q ev true => if decide (q = p) then Some ev else None
                 | _ => None
                 end) ls.

Definition received (p : nat) (ls : list LiveLabel) : list T :=
  omap (fun l => match l with
                 | LRecv q ev => if decide (q = p) then Some ev else None
                 | _ => None
                 end) ls.

(** ** Invariant *)

Record live_inv (s : Live T) : Prop := {
  inv_heap : forall p c, heap s !! p = Some c -> (p < nextConn s)%nat;
  inv_ids : forall p q c d, heap s !! p = Some c -> heap s !! q = Some d -> cID c = cID d -> p = q;
  inv_users : forall u ps, byUser s !! u = Some ps ->
    ps <> [] /\ NoDup ps /\ forall p, p ∈ ps -> exists c, heap s !! p = Some c /\ cUserID c = u;
  inv_queues : forall p c, heap s !! p = Some c ->
    0 < cBuffer c /\ Z.of_nat (length (cQueue c)) <= cBuffer c;
}.

Definition registered (s : Live T) (u : string) (p : nat) : Prop := p ∈ Connections u s.

#[global] Instance registered_decision s u p : Decision (registered s u p).
Proof. unfold registered. apply _. Defined.

End realtime.
Arguments Live T : clear implicits.
Arguments LiveLabel T : clear implicits.
