(* ===== verification/RealtimeProps.v ===== *)
(** * The live-connection registry: invariant, delivery, unregistration

    Every reachable state of the engine, under any interleaving of opens,
    closes, sends and receives, keeps [live_inv]; what a connection receives is
    exactly what was accepted for it, in order; Push and Unregister touch the
    connections they are about and no others. *)

From S2P Require Import Prelude GoErrors GoStrings Model Realtime.

(** ** Slices *)

Lemma swap_delete_perm i (ps : list nat) p : ps !! i = Some p -> p :: swap_delete i ps ≡ₚ ps.
Proof.
  intros Hi. unfold swap_delete. destruct (last ps) as [x|] eqn:Hx.
  2:{ apply last_None in Hx. by subst. }
  apply last_Some in Hx as [l ->].
  destruct (decide (i < length l)%nat) as [Hlt|Hge].
  - rewrite insert_app_l, removelast_last by done. rewrite lookup_app_l in Hi by done.
    rewrite <- (take_drop_middle l i p Hi), insert_app_r_alt by (rewrite length_take; lia).
    rewrite length_take, Nat.min_l by lia.
    rewrite Nat.sub_diag. simpl. rewrite <- app_assoc. simpl.
    rewrite (Permutation_app_comm (drop (S i) l) [x]). simpl.
    by rewrite <- !Permutation_middle, Permutation_swap.
  - apply lookup_snoc_Some in Hi as [[? _]|[-> <-]]; [done|].
    rewrite insert_app_r_alt, Nat.sub_diag by done. simpl.
    rewrite removelast_last. by rewrite <- Permutation_cons_append.
Qed.

Section registry.
Context {T : Type} `{MapOrder}.
Implicit Types s : Live T.

Lemma conn_index_Some s id ps i : conn_index s id ps = Some i ->
  exists p, ps !! i = Some p /\ has_id s id p = true.
Proof.
  revert i. induction ps as [|p ps IH]; intros i; simpl; [done|].
  destruct (has_id s id p) eqn:Hp; [intros [= <-]; eauto|].
  intros (j & Hj & ->)%fmap_Some. by apply IH.
Qed.

Lemma conn_index_None s id ps : conn_index s id ps = None -> forall p, p ∈ ps -> has_id s id p = false.
Proof.
  induction ps as [|q ps IH]; simpl; intros Hn p Hp; [by apply not_elem_of_nil in Hp|].
  destruct (has_id s id q) eqn:Hq; [done|]. apply fmap_None in Hn.
  apply elem_of_cons in Hp as [->|Hp]; auto.
Qed.

Lemma has_id_spec s id p : has_id s id p = true <-> exists c, heap s !! p = Some c /\ cID c = id.
Proof.
  unfold has_id. destruct (heap s !! p) as [c|]; [|by split; [|intros (? & ? & _)]].
  rewrite String.eqb_eq. split; [eauto|by intros (? & [= <-] & ?)].
Qed.

Lemma registered_heap s u p : live_inv s -> registered s u p ->
  exists c, heap s !! p = Some c /\ cUserID c = u.
Proof.
  intros Hi Hp. unfold registered, Connections in Hp.
  destruct (byUser s !! u) as [ps|] eqn:Hu; [|by apply not_elem_of_nil in Hp].
  destruct (inv_users s Hi u ps Hu) as (_ & _ & Hps). by apply Hps.
Qed.

Lemma Connections_NoDup s u : live_inv s -> NoDup (Connections u s).
Proof.
  intros Hi. unfold Connections. destruct (byUser s !! u) as [ps|] eqn:Hu; [|constructor].
  by destruct (inv_users s Hi u ps Hu) as (_ & ? & _).
Qed.

(** *** Unregister *)

(** The registry without the connection at [p] of user [u]. *)
Definition without (s s' : Live T) (u : string) (p : nat) : Prop :=
  heap s' = heap s /\ nextConn s' = nextConn s /\
  (forall v, v <> u -> byUser s' !! v = byUser s !! v) /\
  (byUser s' !! u <> Some []) /\
  p :: Connections u s' ≡ₚ Connections u s.

Lemma unregister_loop_miss s id entries :
  (forall u ps p, (u, ps) ∈ entries -> p ∈ ps -> has_id s id p = false) ->
  unregister_loop s id entries = s.
Proof.
  induction entries as [|[u ps] entries IH]; intros Hno; simpl; [done|].
  destruct (conn_index s id ps) as [i|] eqn:Hi.
  - destruct (conn_index_Some _ _ _ _ Hi) as (p & Hp & Ht).
    rewrite (Hno u ps p) in Ht; [done|by left|by eapply list_elem_of_lookup_2].
  - apply IH. intros v qs q Hin. apply (Hno v). by right.
Qed.

Lemma unregister_loop_hit s id u p c entries : live_inv s ->
  (forall v ps, (v, ps) ∈ entries -> byUser s !! v = Some ps) ->
  (u, Connections u s) ∈ entries ->
  p ∈ Connections u s -> heap s !! p = Some c -> cID c = id ->
  without s (unregister_loop s id entries) u p.
Proof.
  intros Hinv Hent Hin Hp Hc Hid. induction entries as [|[v ps] entries IH]; [by apply not_elem_of_nil in Hin|].
  simpl. destruct (conn_index s id ps) as [i|] eqn:Hi.
  - destruct (conn_index_Some _ _ _ _ Hi) as (q & Hq & Ht).
    apply has_id_spec in Ht as (d & Hd & Hid').
    assert (q = p) as -> by (eapply inv_ids; eauto; congruence).
    assert (Hv : byUser s !! v = Some ps) by (apply Hent; by left).
    destruct (inv_users s Hinv v ps Hv) as (_ & _ & Hps).
    destruct (Hps p ltac:(by eapply list_elem_of_lookup_2)) as (c' & Hc' & Hu').
    destruct (registered_heap s u p Hinv Hp) as (c'' & Hc'' & Hu'').
    assert (v = u) as -> by congruence.
    pose proof (swap_delete_perm i ps p Hq) as Hperm.
    unfold without, Connections. simpl. rewrite Hv. simpl.
    destruct (swap_delete i ps) as [|x l]; split_and!; try done.
    + intros w Hw. by rewrite lookup_delete_ne.
    + by rewrite lookup_delete_eq.
    + by rewrite lookup_delete_eq.
    + intros w Hw. by rewrite lookup_insert_ne.
    + by rewrite lookup_insert_eq.
    + by rewrite lookup_insert_eq.
  - apply elem_of_cons in Hin as [[= <- <-]|Hin].
    + pose proof (conn_index_None _ _ _ Hi p Hp) as Hf.
      rewrite (proj2 (has_id_spec s id p)) in Hf; [done|eauto].
    + apply IH; [|done]. intros w qs Hw. apply Hent. by right.
Qed.

Lemma Connections_entry s u p : p ∈ Connections u s -> (u, Connections u s) ∈ range (byUser s).
Proof.
  unfold Connections. destruct (byUser s !! u) as [ps|] eqn:Hu; [|by intros ?%not_elem_of_nil].
  intros _. by apply elem_of_range.
Qed.

Lemma Unregister_hit s u p c : live_inv s -> registered s u p -> heap s !! p = Some c ->
  without s (Unregister (cID c) s).1 u p.
Proof.
  intros Hi Hp Hc. apply (unregister_loop_hit _ _ _ _ c); try done.
  - intros v ps Hv. by apply elem_of_range.
  - by eapply Connections_entry.
Qed.

Lemma Unregister_miss s id : live_inv s ->
  (forall u p, registered s u p -> has_id s id p = false) -> (Unregister id s).1 = s.
Proof.
  intros Hi Hno. apply unregister_loop_miss. intros u ps p Hin Hp. apply elem_of_range in Hin.
  apply (Hno u). unfold registered, Connections. by rewrite Hin.
Qed.

Lemma without_inv s s' u p : live_inv s -> without s s' u p -> live_inv s'.
Proof.
  intros Hi (Hh & Hn & Hne & Hnil & Hperm). split.
  - intros q c. rewrite Hh, Hn. apply (inv_heap s Hi).
  - intros q r c d. rewrite Hh. apply (inv_ids s Hi).
  - intros v ps Hv. rewrite Hh. destruct (decide (v = u)) as [->|Hvu].
    + unfold Connections in Hperm. rewrite Hv in *. simpl in Hperm.
      split_and!; [congruence| |].
      * pose proof (Connections_NoDup s u Hi) as Hnd. unfold Connections in Hnd.
        rewrite <- Hperm in Hnd. by apply NoDup_cons in Hnd as [_ ?].
      * intros q Hq. apply (registered_heap s u q Hi). unfold registered, Connections.
        rewrite <- Hperm. by right.
    + rewrite Hne in Hv by done. by apply (inv_users s Hi).
  - intros q c. rewrite Hh. apply (inv_queues s Hi).
Qed.

Lemma without_registered s s' u p : live_inv s -> registered s u p -> without s s' u p ->
  forall v q, registered s' v q <-> registered s v q /\ q <> p.
Proof.
  intros Hi Hp (_ & _ & Hne & _ & Hperm) v q. unfold registered. destruct (decide (v = u)) as [->|Hv].
  - pose proof (Connections_NoDup s u Hi) as Hnd. rewrite <- Hperm in Hnd.
    apply NoDup_cons in Hnd as [Hnp _]. rewrite <- Hperm, elem_of_cons.
    split; [intros Hq; split; [by right|by intros ->]|tauto].
  - assert (Hcv : Connections v s' = Connections v s) by (unfold Connections; by rewrite Hne).
    rewrite Hcv. split; [|tauto]. intros Hq. split; [done|]. intros ->.
    destruct (registered_heap s v p Hi Hq) as (d & Hd & Hud).
    destruct (registered_heap s u p Hi Hp) as (d' & Hd' & Hud'). congruence.
Qed.

(** Whether an id is registered is decidable, and by at most one connection. *)
Lemma registered_dec s id : live_inv s ->
  (exists u p c, registered s u p /\ heap s !! p = Some c /\ cID c = id) \/
  (forall u p, registered s u p -> has_id s id p = false).
Proof.
  intros Hi.
  destruct (decide (map_Exists (fun _ ps => Exists (fun p => has_id s id p = true) ps) (byUser s)))
    as [(u & ps & Hu & Hex)|Hn].
  - left. apply Exists_exists in Hex as (p & Hp & Ht). apply has_id_spec in Ht as (c & Hc & Hid).
    exists u, p, c. split_and!; [|done..]. unfold registered, Connections. by rewrite Hu.
  - right. intros u p Hp. apply not_true_is_false. intros Ht. apply Hn.
    unfold registered, Connections in Hp. destruct (byUser s !! u) as [ps|] eqn:Hu; [|by apply not_elem_of_nil in Hp].
    exists u, ps. split; [done|]. apply Exists_exists. eauto.
Qed.

Lemma Unregister_inv s id : live_inv s -> live_inv (Unregister id s).1.
Proof.
  intros Hi. destruct (registered_dec s id Hi) as [(u & p & c & Hp & Hc & <-)|Hno].
  - eapply without_inv; [done|]. by apply Unregister_hit.
  - by rewrite Unregister_miss.
Qed.

(** *** Sends and receives *)

(** A change of the queue at [p] that keeps within the buffer. *)
Lemma set_queue_inv s p c q : live_inv s -> heap s !! p = Some c ->
  Z.of_nat (length q) <= cBuffer c ->
  live_inv (mkLive (<[p := set_queue q c]> (heap s)) (nextConn s) (byUser s)).
Proof.
  intros Hi Hc Hq. split; simpl.
  - intros r d. rewrite lookup_insert_Some. intros [[<- _]|[_ Hd]]; eapply (inv_heap s Hi); eauto.
  - intros r1 r2 d1 d2. rewrite !lookup_insert_Some.
    intros [[<- <-]|[Hn1 H1]] [[<- <-]|[Hn2 H2]] He; [done| | |eapply (inv_ids s Hi); eauto].
    + by apply (inv_ids s Hi p r2 c d2).
    + by apply (inv_ids s Hi r1 p d1 c).
  - intros u ps Hu. destruct (inv_users s Hi u ps Hu) as (Hne & Hnd & Hps). split_and!; [done..|].
    intros r Hr. destruct (Hps r Hr) as (d & Hd & Hud). destruct (decide (r = p)) as [->|Hrp].
    + exists (set_queue q c). rewrite lookup_insert_eq. simplify_eq. done.
    + exists d. by rewrite lookup_insert_ne.
  - intros r d. rewrite lookup_insert_Some.
    intros [[<- <-]|[_ Hd]]; [|by apply (inv_queues s Hi r)]. split; [by apply (inv_queues s Hi p c)|done].
Qed.

Lemma trySend_spec s p c ev : heap s !! p = Some c ->
  trySend p ev s =
  if Z.of_nat (length (cQueue c)) <? cBuffer c
  then (mkLive (<[p := set_queue (cQueue c ++ [ev]) c]> (heap s)) (nextConn s) (byUser s), true)
  else (s, false).
Proof. intros Hc. unfold trySend. by rewrite Hc. Qed.

Lemma trySend_inv s p ev : live_inv s -> live_inv (trySend p ev s).1.
Proof.
  intros Hi. unfold trySend. destruct (heap s !! p) as [c|] eqn:Hc; [|done].
  destruct (Z.ltb_spec (Z.of_nat (length (cQueue c))) (cBuffer c)) as [Hlt|]; [|done].
  apply set_queue_inv; [done..|]. rewrite length_app. simpl. lia.
Qed.

Lemma recv_inv s p : live_inv s -> live_inv (recv p s).1.
Proof.
  intros Hi. unfold recv. destruct (heap s !! p) as [c|] eqn:Hc; [|done].
  destruct (cQueue c) as [|ev q] eqn:Hq; [done|]. apply set_queue_inv; [done..|].
  pose proof (proj2 (inv_queues s Hi p c Hc)) as Hlen. rewrite Hq in Hlen. simpl in Hlen. lia.
Qed.

Lemma nextConn_fresh s : live_inv s -> heap s !! nextConn s = None.
Proof.
  intros Hi. destruct (heap s !! nextConn s) as [c|] eqn:Hc; [|done].
  apply (inv_heap s Hi) in Hc. lia.
Qed.

Lemma open_inv s s1 s2 u t d buffer id at_ p : live_inv s ->
  (forall q c, heap s !! q = Some c -> cID c <> id) ->
  NewConn u t d buffer id at_ s = (s1, p) -> RegisterConn p s1 = (s2, tt) ->
  live_inv s2.
Proof.
  intros Hi Hid. unfold NewConn. intros [= <- <-]. unfold RegisterConn. simpl.
  rewrite lookup_insert_eq. intros [= <-]. pose proof (nextConn_fresh s Hi) as Hf.
  split; simpl.
  - intros q c. rewrite lookup_insert_Some. intros [[<- _]|[_ Hc]]; [lia|].
    apply (inv_heap s Hi) in Hc. lia.
  - intros q r c e. rewrite !lookup_insert_Some.
    intros [[<- <-]|[Hn1 H1]] [[<- <-]|[Hn2 H2]] He; [done| | |eapply (inv_ids s Hi); eauto].
    + simpl in He. by destruct (Hid _ _ H2).
    + simpl in He. by destruct (Hid _ _ H1).
  - intros v ps. rewrite lookup_insert_Some. intros [[<- <-]|[Hne Hv]].
    + change (default [] (byUser s !! u)) with (Connections u s). split_and!.
      * by destruct (Connections u s).
      * rewrite <- Permutation_cons_append. constructor; [|by apply Connections_NoDup].
        intros Hin. destruct (registered_heap s u _ Hi Hin) as (c & Hc & _). congruence.
      * intros q [Hq|Hq]%elem_of_app.
        { destruct (registered_heap s u q Hi Hq) as (c & Hc & Hu). exists c. split; [|done].
          rewrite lookup_insert_ne; [done|]. congruence. }
        { apply list_elem_of_singleton in Hq as ->. eexists. by rewrite lookup_insert_eq. }
    + destruct (inv_users s Hi v ps Hv) as (Hnil & Hnd & Hps). split_and!; [done..|].
      intros q Hq. destruct (Hps q Hq) as (c & Hc & Hu). exists c. split; [|done].
      rewrite lookup_insert_ne; [done|]. congruence.
  - intros q c. rewrite lookup_insert_Some. intros [[<- <-]|[_ Hc]]; [|by apply (inv_queues s Hi q)].
    simpl. unfold DefaultEventBuffer. destruct (Z.leb_spec buffer 0); simpl; lia.
Qed.

Lemma live_inv_New : live_inv (@NewRegistry T).
Proof. split; simpl; intros *; by rewrite lookup_empty. Qed.

Lemma live_step_inv s l s' : live_inv s -> live_step s l s' -> live_inv s'.
Proof.
  intros Hi Hs. destruct Hs as [s s1 s2 u t d buffer id at_ p Hid Hn Hr|s s' id Hu|s s' p ev ok _ Ht|s s' p ev Hr].
  - by eapply open_inv.
  - apply (f_equal fst) in Hu. simpl in Hu. subst. by apply Unregister_inv.
  - apply (f_equal fst) in Ht. simpl in Ht. subst. by apply trySend_inv.
  - apply (f_equal fst) in Hr. simpl in Hr. subst. by apply recv_inv.
Qed.

(** *** Lookup by id *)

Lemma get_loop_Some s id entries p : get_loop s id entries = Some p ->
  exists u ps, (u, ps) ∈ entries /\ p ∈ ps /\ has_id s id p = true.
Proof.
  induction entries as [|[u ps] entries IH]; simpl; [done|].
  destruct (conn_index s id ps) as [i|] eqn:Hi.
  - destruct (conn_index_Some _ _ _ _ Hi) as (q & Hq & Ht). intros Hp. simplify_eq.
    exists u, ps. split_and!; [by left|by eapply list_elem_of_lookup_2|done].
  - intros Hp. destruct (IH Hp) as (v & qs & Hin & ?). exists v, qs. split; [by right|done].
Qed.

Lemma get_loop_None s id entries : get_loop s id entries = None ->
  forall u ps p, (u, ps) ∈ entries -> p ∈ ps -> has_id s id p = false.
Proof.
  induction entries as [|[v qs] entries IH]; simpl; intros Hn u ps p Hin Hp; [by apply not_elem_of_nil in Hin|].
  destruct (conn_index s id qs) as [i|] eqn:Hi.
  - destruct (conn_index_Some _ _ _ _ Hi) as (q & Hq & Ht). congruence.
  - apply elem_of_cons in Hin as [[= -> ->]|Hin]; [by eapply conn_index_None|by eapply IH].
Qed.

Lemma GetConn_spec s id p : live_inv s ->
  GetConn id s = Some p <-> exists u c, registered s u p /\ heap s !! p = Some c /\ cID c = id.
Proof.
  intros Hi. unfold GetConn. split.
  - intros (u & ps & Hin & Hp & (c & Hc & Hid)%has_id_spec)%get_loop_Some.
    apply elem_of_range in Hin. exists u, c. split_and!; [|done..].
    unfold registered, Connections. by rewrite Hin.
  - intros (u & c & Hp & Hc & Hid). destruct (get_loop s id (range (byUser s))) as [q|] eqn:Hq.
    + destruct (get_loop_Some _ _ _ _ Hq) as (_ & _ & _ & _ & (d & Hd & Hid')%has_id_spec).
      f_equal. eapply (inv_ids s Hi); eauto. congruence.
    + assert (Hf : has_id s id p = false)
        by (by eapply get_loop_None; [exact Hq|eapply Connections_entry|]).
      rewrite (proj2 (has_id_spec s id p)) in Hf; [done|eauto].
Qed.

(** *** Push *)

Definition room (c : Conn T) : bool := Z.of_nat (length (cQueue c)) <? cBuffer c.

Definition offered (ev : T) (c : Conn T) : Conn T :=
  if room c then set_queue (cQueue c ++ [ev]) c else c.

Definition has_room s (p : nat) : bool := from_option room false (heap s !! p).

Lemma trySend_offered s p ev :
  let '(s', ok) := trySend p ev s in
  ok = has_room s p /\ byUser s' = byUser s /\ nextConn s' = nextConn s /\
  (forall q, heap s' !! q = if decide (q = p) then offered ev <$> heap s !! q else heap s !! q).
Proof.
  unfold trySend, has_room, offered, room. destruct (heap s !! p) as [c|] eqn:Hc; simpl; [case_if|];
    split_and!; try done; intros q; case_decide as Hq; subst; rewrite ?Hc; simpl; rewrite ?Hif; try done.
  - by rewrite lookup_insert_eq.
  - by rewrite lookup_insert_ne.
Qed.

Lemma push_loop_spec ps ev : NoDup ps -> forall n s,
  let '(s', n') := push_loop ps ev n s in
  n' = n + Z.of_nat (count (has_room s) ps) /\ byUser s' = byUser s /\ nextConn s' = nextConn s /\
  (forall q, heap s' !! q = if decide (q ∈ ps) then offered ev <$> heap s !! q else heap s !! q).
Proof.
  induction ps as [|p ps IH]; intros Hnd n s; cbn [push_loop]; unfold_M.
  { unfold count. simpl. split_and!; [lia|done..]. }
  apply NoDup_cons in Hnd as [Hp Hnd]. pose proof (trySend_offered s p ev) as Ht.
  destruct (trySend p ev s) as [s1 ok]. destruct Ht as (-> & Hb1 & Hn1 & Hh1).
  specialize (IH Hnd (if has_room s p then n + 1 else n) s1).
  destruct (push_loop ps ev _ s1) as [s2 n2]. destruct IH as (-> & Hb2 & Hn2 & Hh2).
  assert (Hcount : forall l, p ∉ l -> count (has_room s1) l = count (has_room s) l).
  { clear -Hh1. induction l as [|q l IH]; intros Hq; [done|]. rewrite !count_cons.
    apply not_elem_of_cons in Hq as [Hne Hq]. rewrite (IH Hq).
    unfold has_room at 1. rewrite Hh1. by rewrite decide_False by done. }
  rewrite count_cons, (Hcount ps Hp). split_and!; [destruct (has_room s p); lia|congruence..|].
  intros q. rewrite Hh2, Hh1. destruct (decide (q = p)) as [->|Hne].
  - rewrite decide_False by done. rewrite decide_True by (by left). done.
  - destruct (decide (q ∈ ps)) as [Hq|Hq].
    + by rewrite decide_True by (by right).
    + rewrite decide_False; [done|]. by rewrite not_elem_of_cons.
Qed.

(** *** Delivery order *)

Definition pending s (p : nat) : list T := from_option cQueue [] (heap s !! p).

Lemma live_step_fifo s l s' p : live_inv s -> live_step s l s' ->
  pending s p ++ sent p [l] = received p [l] ++ pending s' p.
Proof.
  intros Hi Hs. destruct Hs as [s s1 s2 u t d buffer id at_ r Hid Hn Hr|s s' id Hu|s s' r ev ok Hr Ht|s s' r ev Hr].
  - unfold sent, received. simpl. rewrite app_nil_r. unfold NewConn in Hn. injection Hn as <- <-.
    unfold RegisterConn in Hr. simpl in Hr. rewrite lookup_insert_eq in Hr. injection Hr as <-.
    unfold pending. simpl. destruct (decide (p = nextConn s)) as [->|Hne].
    + by rewrite lookup_insert_eq, (nextConn_fresh s Hi).
    + by rewrite lookup_insert_ne.
  - unfold sent, received. simpl. rewrite app_nil_r. apply (f_equal fst) in Hu.
    change ((Unregister id s).1 = s') in Hu. subst s'.
    unfold pending. destruct (registered_dec s id Hi) as [(u & r & c & Hp & Hc & <-)|Hno].
    + destruct (Unregister_hit s u r c Hi Hp Hc) as (Hh & _). by rewrite Hh.
    + by rewrite Unregister_miss.
  - pose proof (trySend_offered s r ev) as Hs. rewrite Ht in Hs. destruct Hs as (-> & _ & _ & Hh).
    destruct Hr as [c Hc]. unfold pending, sent, received, has_room, offered in *. rewrite Hh, Hc. simpl.
    destruct (decide (p = r)) as [->|Hne].
    + rewrite Hc. simpl. destruct (room c); simpl; [by rewrite decide_True|by rewrite app_nil_r].
    + destruct (room c); simpl; rewrite ?decide_False by congruence; by rewrite app_nil_r.
  - unfold recv in Hr. destruct (heap s !! r) as [c|] eqn:Hc; [|done].
    destruct (cQueue c) as [|ev' q] eqn:Hq; [done|]. injection Hr as <- ->.
    unfold pending, sent, received. simpl. rewrite app_nil_r. destruct (decide (r = p)) as [->|Hne].
    + by rewrite Hc, lookup_insert_eq.
    + by rewrite lookup_insert_ne.
Qed.

Lemma sent_app p l1 l2 : sent (T := T) p (l1 ++ l2) = sent p l1 ++ sent p l2.
Proof. apply omap_app. Qed.

Lemma received_app p l1 l2 : received (T := T) p (l1 ++ l2) = received p l1 ++ received p l2.
Proof. apply omap_app. Qed.

Lemma steps_fifo s ls s' p : steps live_step s ls s' -> live_inv s ->
  live_inv s' /\ pending s p ++ sent p ls = received p ls ++ pending s' p.
Proof.
  induction 1 as [s|s l s1 ls s2 Hs _ IH]; intros Hi; [by rewrite app_nil_r|].
  destruct IH as [Hi2 IH]; [by eapply live_step_inv|]. split; [done|].
  change (l :: ls) with ([l] ++ ls). rewrite sent_app, received_app, app_assoc.
  rewrite (live_step_fifo s l s1 p Hi Hs), <- !app_assoc. by rewrite IH.
Qed.

End registry.

(** ** Properties *)

(** C34: In every state the live-connection engine reaches, under any
    interleaving of clients connecting and disconnecting, concurrent pushes and
    stream handlers draining their channels: no user has an empty list, every
    listed connection is listed once and under its own user, connection ids are
    unique, and no queue exceeds its buffer. *)
Theorem live_invariant {T} `{MapOrder} (ls : list (LiveLabel T)) (s : Live T) :
  steps live_step NewRegistry ls s -> live_inv s.
Proof. intros Hs. by destruct (steps_fifo _ _ _ 0%nat Hs live_inv_New). Qed.

(** C27: Whatever the interleaving, what a stream handler has received from its
    connection followed by what is still queued is exactly the sequence of
    events the connection accepted: nothing is lost, duplicated or reordered. *)
Theorem live_fifo {T} `{MapOrder} (ls : list (LiveLabel T)) (s : Live T) (p : nat) (c : Conn T) :
  steps live_step NewRegistry ls s -> heap s !! p = Some c ->
  sent p ls = received p ls ++ cQueue c.
Proof.
  intros Hs Hc. destruct (steps_fifo _ _ _ p Hs live_inv_New) as [_ Hf].
  unfold pending in Hf. rewrite Hc in Hf. simpl in Hf. by rewrite lookup_empty in Hf.
Qed.

(** Push offers the event to every connection of the user exactly once: it
    returns the number of them that had room, each of those has the event at
    the end of its queue, a connection whose buffer is full is unchanged and
    stays registered, and no other connection changes. *)
Theorem push_exact {T} (s : Live T) (u : string) (ev : T) : live_inv s ->
  let '(s', pushed) := Push u ev s in
  pushed = Z.of_nat (count (has_room s) (Connections u s)) /\ byUser s' = byUser s /\
  forall p, heap s' !! p =
    if decide (registered s u p) then offered ev <$> heap s !! p else heap s !! p.
Proof.
  intros Hi. unfold Push. pose proof (push_loop_spec (Connections u s) ev (Connections_NoDup s u Hi) 0 s) as Hp.
  destruct (push_loop _ ev 0 s) as [s' n]. destruct Hp as (-> & Hb & _ & Hh). split_and!; [done..|exact Hh].
Qed.

(** Unregistering a registered connection removes it and nothing else,
    whatever the iteration order of the registry map: afterwards its id is
    unknown, the user has one connection less, every other registration is
    kept, and no queue is touched. *)
Theorem unregister_exact {T} `{MapOrder} (s : Live T) (u : string) (p : nat) (c : Conn T) :
  live_inv s -> registered s u p -> heap s !! p = Some c ->
  let s' := (Unregister (cID c) s).1 in
  heap s' = heap s /\ GetConn (cID c) s' = None /\ Count u s' = Count u s - 1 /\
  forall v q, registered s' v q <-> registered s v q /\ q <> p.
Proof.
  intros Hi Hp Hc s'. pose proof (Unregister_hit s u p c Hi Hp Hc) as Hw.
  pose proof (without_inv s s' u p Hi Hw) as Hi'. fold s' in Hw. pose proof Hw as (Hh & _ & _ & _ & Hperm).
  assert (Hreg : forall v q, registered s' v q <-> registered s v q /\ q <> p)
    by (intros v q; by eapply without_registered).
  split_and!; [done| | |done].
  - destruct (GetConn (cID c) s') as [q|] eqn:Hq; [|done].
    apply GetConn_spec in Hq as (v & d & Hv & Hd & Hid); [|done].
    apply Hreg in Hv as [_ Hqp]. destruct Hqp. change (heap s' !! q = Some d) in Hd. rewrite Hh in Hd.
    by eapply (inv_ids s Hi).
  - unfold Count.
    assert (Hlen : length (p :: Connections u s') = length (Connections u s)) by by rewrite Hperm.
    unfold Connections in Hlen. simpl in Hlen. lia.
Qed.

(** ** A run *)

Definition open_conn {T} (u t d : string) (buffer : Z) (id : string) (s : Live T) : Live T :=
  (RegisterConn (nextConn s) (NewConn u t d buffer id 0 s).1).1.

Definition live0 : Live Z := NewRegistry.
Definition live1 : Live Z := open_conn "u1" "acme" "browser" 1 "a" live0.
Definition live2 : Live Z := open_conn "u1" "acme" "ios" 0 "b" live1.
Definition live3 : Live Z := (trySend 0 7 live2).1.
Definition live4 : Live Z := (trySend 0 8 live3).1.
Definition live5 : Live Z := (trySend 1 8 live4).1.
Definition live6 : Live Z := (recv 0 live5).1.
Definition live7 : Live Z := (Unregister (H := sample_order) "a" live6).1.
Definition live8 : Live Z := (trySend 0 9 live7).1.

Definition sample_labels : list (LiveLabel Z) :=
  [ LOpen 0 "u1" "acme" "browser"; LOpen 1 "u1" "acme" "ios"; LSend 0 7 true; LSend 0 8 false;
    LSend 1 8 true; LRecv 0 7; LClose "a"; LSend 0 9 true ].

Lemma fresh_id {T} (s : Live T) (id : string) :
  bool_decide (map_Forall (fun _ c => cID c <> id) (heap s)) = true ->
  forall q c, heap s !! q = Some c -> cID c <> id.
Proof. intros Hb. apply bool_decide_eq_true in Hb. exact Hb. Qed.

Lemma sample_live_run : steps (live_step (H := sample_order)) NewRegistry sample_labels live8.
Proof.
  apply (steps_cons _ _ _ live1); [by eapply (live_open _ _ _ "u1" "acme" "browser" 1 "a" 0);
    [apply fresh_id; vm_compute; reflexivity|reflexivity|reflexivity]|].
  apply (steps_cons _ _ _ live2); [by eapply (live_open _ _ _ "u1" "acme" "ios" 0 "b" 0);
    [apply fresh_id; vm_compute; reflexivity|reflexivity|reflexivity]|].
  apply (steps_cons _ _ _ live3); [apply live_send; [by eexists|reflexivity]|].
  apply (steps_cons _ _ _ live4); [apply live_send; [by eexists|reflexivity]|].
  apply (steps_cons _ _ _ live5); [apply live_send; [by eexists|reflexivity]|].
  apply (steps_cons _ _ _ live6); [apply live_recv; reflexivity|].
  apply (steps_cons _ _ _ live7); [apply live_close; reflexivity|].
  apply (steps_cons _ _ _ live8); [apply live_send; [by eexists|reflexivity]|].
  constructor.
Qed.

Lemma live_invariant_witness : live_inv live8.
Proof. exact (@live_invariant Z sample_order sample_labels live8 sample_live_run). Defined.

Lemma live_fifo_witness :
  exists c, heap live8 !! 0%nat = Some c /\ [7; 9] = [7] ++ cQueue c.
Proof.
  eexists. split; [reflexivity|].
  exact (@live_fifo Z sample_order sample_labels live8 0%nat _ sample_live_run eq_refl).
Defined.

Lemma live4_inv : live_inv live4.
Proof.
  apply (steps_invariant (live_step (H := sample_order)) live_inv) with (s := NewRegistry) (ls := take 4 sample_labels).
  - intros s l s' Hi Hs. by eapply (live_step_inv (H := sample_order)).
  - apply (steps_cons _ _ _ live1); [by eapply (live_open _ _ _ "u1" "acme" "browser" 1 "a" 0);
      [apply fresh_id; vm_compute; reflexivity|reflexivity|reflexivity]|].
    apply (steps_cons _ _ _ live2); [by eapply (live_open _ _ _ "u1" "acme" "ios" 0 "b" 0);
      [apply fresh_id; vm_compute; reflexivity|reflexivity|reflexivity]|].
    apply (steps_cons _ _ _ live3); [apply live_send; [by eexists|reflexivity]|].
    apply (steps_cons _ _ _ live4); [apply live_send; [by eexists|reflexivity]|].
    constructor.
  - apply live_inv_New.
Qed.

Lemma push_exact_witness :
  let '(s', pushed) := Push "u1" 5 live4 in
  pushed = 1 /\ byUser s' = byUser live4 /\
  forall p, heap s' !! p =
    if decide (registered live4 "u1" p) then offered 5 <$> heap live4 !! p else heap live4 !! p.
Proof. exact (@push_exact Z live4 "u1" 5 live4_inv). Defined.

Lemma unregister_exact_witness :
  exists c, heap live4 !! 0%nat = Some c /\ cID c = "a" /\
  let s' := (Unregister (H := sample_order) "a" live4).1 in
  heap s' = heap live4 /\ GetConn (H := sample_order) "a" s' = None /\ Count "u1" s' = 1 /\
  forall v q, registered s' v q <-> registered live4 v q /\ q <> 0%nat.
Proof.
  eexists. split; [reflexivity|]. split; [reflexivity|].
  refine (@unregister_exact Z sample_order live4 "u1" 0%nat _ live4_inv _ eq_refl).
  by apply (bool_decide_unpack _); vm_compute.
Defined.
