(* ===== verification/Hub.v ===== *)
(** * The registry against an abstract hub

    To its callers the registry is a map from session ids to sessions: no lists, no
    addresses, no iteration order.  [Hub] is that map with the operations of
    realtime/registry.go on it; every history of calls on the registry answers what
    the hub answers. *)

From S2P Require Import Prelude GoErrors GoStrings Model Realtime RealtimeProps.

(** ** The hub *)

Record Session (T : Type) := mkSession {
  sUser : string;
  sTenant : string;
  sDevice : string;
  sBuffer : Z;
  sQueue : list T;
  sOpen : bool;
}.
Arguments mkSession {T}.
Arguments sUser {T}.
Arguments sTenant {T}.
Arguments sDevice {T}.
Arguments sBuffer {T}.
Arguments sQueue {T}.
Arguments sOpen {T}.

Notation Hub T := (gmap string (Session T)).

Section hub.
Context {T : Type}.
Implicit Types (h : Hub T) (x : Session T).

Definition with_queue (q : list T) x : Session T :=
  mkSession (sUser x) (sTenant x) (sDevice x) (sBuffer x) q (sOpen x).
Definition closed x : Session T :=
  mkSession (sUser x) (sTenant x) (sDevice x) (sBuffer x) (sQueue x) false.

(** An open session of the user, one that has room too. *)
Definition on (u : string) x : bool := sOpen x && (sUser x =? u)%string.
Definition roomy x : bool := Z.of_nat (length (sQueue x)) <? sBuffer x.
Definition accept (ev : T) x : Session T := if roomy x then with_queue (sQueue x ++ [ev]) x else x.

Definition sessions_on (u : string) (f : Session T -> bool) h : Hub T :=
  filter (fun ix => on u ix.2 && f ix.2 = true) h.

(** The calls on a registry.  The stream that opened a session receives on it. *)
Inductive RegOp :=
| ROpen (u t d : string) (buffer : Z) (id : string) (createdAt : Z)
| RUnregister (id : string)
| RPush (u : string) (ev : T)
| RPushTo (id : string) (ev : T)
| RGet (id : string)
| RCount (u : string)
| RConnections (u : string)
| RRecv (id : string).

Inductive RegOut :=
| OutNone
| OutCount (n : Z)
| OutSent (ok : bool)
| OutFound (who : option (string * string * string))
| OutIDs (ids : gset string)
| OutEvent (ev : option T).

Definition hub_op (op : RegOp) : M (Hub T) RegOut := fun h =>
  match op with
  | ROpen u t d buffer id _ =>
      (<[id := mkSession u t d (if buffer <=? 0 then DefaultEventBuffer else buffer) [] true]> h, OutNone)
  | RUnregister id => (alter closed id h, OutNone)
  | RPush u ev =>
      ((fun x => if on u x then accept ev x else x) <$> h, OutCount (Z.of_nat (size (sessions_on u roomy h))))
  | RPushTo id ev =>
      match h !! id with
      | Some x => if sOpen x then (<[id := accept ev x]> h, OutSent (roomy x)) else (h, OutSent false)
      | None => (h, OutSent false)
      end
  | RGet id =>
      (h, OutFound (x ← h !! id; if sOpen x then Some (sUser x, sTenant x, sDevice x) else None))
  | RCount u => (h, OutCount (Z.of_nat (size (sessions_on u (fun _ => true) h))))
  | RConnections u => (h, OutIDs (dom (sessions_on u (fun _ => true) h)))
  | RRecv id =>
      match h !! id with
      | Some x => match sQueue x with
                  | ev :: q => (<[id := with_queue q x]> h, OutEvent (Some ev))
                  | [] => (h, OutEvent None)
                  end
      | None => (h, OutEvent None)
      end
  end.

Fixpoint hub_ops (ops : list RegOp) : M (Hub T) (list RegOut) :=
  match ops with
  | [] => mret []
  | op :: ops => out ← hub_op op; outs ← hub_ops ops; mret (out :: outs)
  end.

(** ** The same calls on the registry *)

Definition id_at (s : Live T) (p : nat) : string := from_option cID "" (heap s !! p).

(** The connection that the stream of a session holds. *)
Definition held (s : Live T) (id : string) : option nat :=
  fst <$> head (filter (fun pc => cID pc.2 = id) (map_to_list (heap s))).

Definition reg_op `{MapOrder} (op : RegOp) : M (Live T) RegOut :=
  match op with
  | ROpen u t d buffer id at_ => p ← NewConn u t d buffer id at_; _ ← RegisterConn p; mret OutNone
  | RUnregister id => _ ← Unregister id; mret OutNone
  | RPush u ev => n ← Push u ev; mret (OutCount n)
  | RPushTo id ev => ok ← PushTo id ev; mret (OutSent ok)
  | RGet id => fun s =>
      (s, OutFound (p ← GetConn id s; (fun c => (cUserID c, cTenantID c, cDeviceType c)) <$> heap s !! p))
  | RCount u => fun s => (s, OutCount (Count u s))
  | RConnections u => fun s => (s, OutIDs (list_to_set (id_at s <$> Connections u s)))
  | RRecv id => fun s =>
      match held s id with
      | Some p => let '(s', ev) := recv p s in (s', OutEvent ev)
      | None => (s, OutEvent None)
      end
  end.

Fixpoint reg_ops `{MapOrder} (ops : list RegOp) : M (Live T) (list RegOut) :=
  match ops with
  | [] => mret []
  | op :: ops => out ← reg_op op; outs ← reg_ops ops; mret (out :: outs)
  end.

(** ** The correspondence *)

Definition session (s : Live T) (p : nat) (c : Conn T) : Session T :=
  mkSession (cUserID c) (cTenantID c) (cDeviceType c) (cBuffer c) (cQueue c)
    (bool_decide (registered s (cUserID c) p)).

(** The hub holds exactly the connections that were ever built. *)
Record represents (s : Live T) (h : Hub T) : Prop := {
  rep_inv : live_inv s;
  rep_has : forall p c, heap s !! p = Some c -> h !! cID c = Some (session s p c);
  rep_only : forall id x, h !! id = Some x -> exists p c, heap s !! p = Some c /\ cID c = id;
}.

Lemma rep_lookup s h id x : represents s h -> h !! id = Some x ->
  exists p c, heap s !! p = Some c /\ cID c = id /\ x = session s p c.
Proof.
  intros Hr Hx. destruct (rep_only s h Hr id x Hx) as (p & c & Hc & <-). exists p, c.
  pose proof (rep_has s h Hr p c Hc). split_and!; [done|done|congruence].
Qed.

Lemma represents_New : represents NewRegistry ∅.
Proof.
  split; [apply live_inv_New| |].
  - intros p c Hc. cbn in Hc. by rewrite lookup_empty in Hc.
  - intros id x Hx. by rewrite lookup_empty in Hx.
Qed.

Lemma session_same s s' p c : (registered s' (cUserID c) p <-> registered s (cUserID c) p) ->
  session s' p c = session s p c.
Proof. intros Hr. unfold session. f_equal. by apply bool_decide_ext. Qed.

(** A change of one connection is a change of its session. *)
Lemma represents_at s s' h p c c' : represents s h -> live_inv s' -> heap s !! p = Some c ->
  heap s' = <[p := c']> (heap s) -> byUser s' = byUser s ->
  cID c' = cID c -> represents s' (<[cID c := session s' p c']> h).
Proof.
  intros Hr Hi Hc Hh Hb Hid.
  assert (Hsame : forall q d, session s' q d = session s q d) by (intros q d; apply session_same; unfold registered, Connections; by rewrite Hb).
  split; [done| |].
  - intros q d. rewrite Hh, lookup_insert_Some. intros [[<- <-]|[Hne Hd]]; [by rewrite Hid, lookup_insert_eq|].
    rewrite lookup_insert_ne, Hsame; [by apply (rep_has s h Hr)|]. intros He. destruct Hne. by apply (inv_ids s (rep_inv s h Hr) _ _ c d).
  - intros id x. rewrite lookup_insert_Some, Hh. intros [[<- _]|[_ Hx]].
    + exists p, c'. by rewrite lookup_insert_eq.
    + destruct (rep_only s h Hr id x Hx) as (q & d & Hd & <-). destruct (decide (q = p)) as [->|Hq].
      * exists p, c'. rewrite lookup_insert_eq. split; congruence.
      * exists q, d. by rewrite lookup_insert_ne.
Qed.

(** *** Lists of connections *)

Lemma count_filter (g : nat -> bool) l : count g l = length (filter (fun p => g p = true) l).
Proof. induction l as [|p l IH]; [done|]. rewrite count_cons, filter_cons, IH. by destruct (g p). Qed.

Lemma ids_NoDup s u : live_inv s -> NoDup (id_at s <$> Connections u s).
Proof.
  intros Hi. apply NoDup_fmap_2_strong; [|by apply Connections_NoDup]. intros p q Hp Hq.
  destruct (registered_heap s u p Hi Hp) as (c & Hc & _), (registered_heap s u q Hi Hq) as (d & Hd & _).
  unfold id_at. rewrite Hc, Hd. cbn. by apply (inv_ids s Hi).
Qed.

(** The listed connections of a user with [g] are the open sessions with [f]. *)
Lemma sessions_listed s h u (f : Session T -> bool) (g : nat -> bool) : represents s h ->
  (forall p c, heap s !! p = Some c -> registered s u p -> g p = f (session s p c)) ->
  dom (sessions_on u f h) = list_to_set (id_at s <$> filter (fun p => g p = true) (Connections u s)).
Proof.
  intros Hr Hg. pose proof (rep_inv s h Hr) as Hi. apply set_eq. intros id.
  rewrite elem_of_list_to_set, list_elem_of_fmap, elem_of_dom. split.
  - intros [x [Hx Hf]%map_lookup_filter_Some]. destruct (rep_lookup s h id x Hr Hx) as (p & c & Hc & <- & ->).
    apply andb_true_iff in Hf as [[Ho%bool_decide_eq_true <-%String.eqb_eq]%andb_true_iff Hf].
    exists p. unfold id_at. rewrite Hc. split; [done|]. apply list_elem_of_filter. split; [by rewrite (Hg p c)|done].
  - intros (p & -> & [Hp Hin]%list_elem_of_filter). destruct (registered_heap s u p Hi Hin) as (c & Hc & Hu).
    exists (session s p c). apply map_lookup_filter_Some. unfold id_at. rewrite Hc. cbn. split; [by apply (rep_has s h Hr)|].
    rewrite (Hg p c) in Hp by done. unfold on. cbn. rewrite Hu, String.eqb_refl, bool_decide_eq_true_2 by done. done.
Qed.

Lemma sessions_counted s h u (f : Session T -> bool) (g : nat -> bool) : represents s h ->
  (forall p c, heap s !! p = Some c -> registered s u p -> g p = f (session s p c)) ->
  size (sessions_on u f h) = count g (Connections u s).
Proof.
  intros Hr Hg. rewrite <- size_dom, (sessions_listed s h u f g Hr Hg), size_list_to_set, length_fmap, count_filter; [done|].
  apply NoDup_fmap_filter, ids_NoDup, (rep_inv s h Hr).
Qed.

(** *** The calls *)

Context `{MapOrder}.

(** The call of the registry answers what the call of the hub answers. *)
Definition simulates (op : RegOp) (s : Live T) (h : Hub T) : Prop :=
  let '(s', out) := reg_op op s in
  let '(h', out') := hub_op op h in
  out = out' /\ represents s' h'.

Lemma open_simulates u t d buffer id at_ s h : represents s h -> h !! id = None ->
  simulates (ROpen u t d buffer id at_) s h.
Proof.
  intros Hr Hid. pose proof (rep_inv s h Hr) as Hi. unfold simulates. cbn. unfold_M.
  destruct (NewConn u t d buffer id at_ s) as [s1 p] eqn:Hn. destruct (RegisterConn p s1) as [s2 []] eqn:Hreg.
  split; [done|].
  assert (Hfresh : forall q c, heap s !! q = Some c -> cID c <> id) by (intros q c Hc <-; by rewrite (rep_has s h Hr q c) in Hid).
  pose proof (open_inv _ _ _ _ _ _ _ _ _ _ Hi Hfresh Hn Hreg) as Hi2.
  unfold NewConn in Hn. injection Hn as <- <-. unfold RegisterConn in Hreg. cbn in Hreg. rewrite lookup_insert_eq in Hreg.
  injection Hreg as <-. pose proof (nextConn_fresh s Hi) as Hnew.
  split; [done| |]; cbn.
  - intros q c. rewrite lookup_insert_Some. intros [[<- <-]|[Hne Hc]]; cbn.
    + rewrite lookup_insert_eq. unfold session. cbn. rewrite bool_decide_eq_true_2; [done|].
      unfold registered, Connections. cbn. rewrite lookup_insert_eq. cbn. apply elem_of_app. right. by left.
    + rewrite lookup_insert_ne by (intros He; by destruct (Hfresh q c Hc)). rewrite (rep_has s h Hr q c Hc).
      f_equal. symmetry. apply session_same. unfold registered, Connections. cbn. destruct (decide (cUserID c = u)) as [->|Hu].
      * rewrite lookup_insert_eq. cbn. rewrite elem_of_app, list_elem_of_singleton. split; [|by left]. by intros [?| ->].
      * by rewrite lookup_insert_ne.
  - intros i x. rewrite lookup_insert_Some. intros [[<- _]|[_ Hx]].
    + eexists _, _. by rewrite lookup_insert_eq.
    + destruct (rep_only s h Hr i x Hx) as (q & c & Hc & Hq). exists q, c. rewrite lookup_insert_ne; [done|]. congruence.
Qed.

Lemma unregister_simulates id s h : represents s h -> simulates (RUnregister id) s h.
Proof.
  intros Hr. pose proof (rep_inv s h Hr) as Hi. unfold simulates. cbn -[Unregister]. unfold_M.
  pose proof (Unregister_inv s id Hi) as Hi'.
  destruct (Unregister id s) as [s' []] eqn:Hu. cbn in Hi'. split; [done|].
  destruct (registered_dec s id Hi) as [(u & p & c & Hp & Hc & <-)|Hno].
  - pose proof (Unregister_hit s u p c Hi Hp Hc) as Hw. rewrite Hu in Hw. cbn in Hw.
    pose proof (without_registered s s' u p Hi Hp Hw) as Hreg. destruct Hw as (Hh & _).
    destruct (registered_heap s u p Hi Hp) as (c' & Hc' & Hcu). assert (c' = c) as -> by congruence.
    split; [done| |]; rewrite Hh.
    + intros q d Hd. destruct (decide (q = p)) as [->|Hne].
      * assert (d = c) as -> by congruence. rewrite lookup_alter_eq, (rep_has s h Hr p c Hc). cbn. unfold session, closed. cbn.
        rewrite bool_decide_eq_false_2; [done|]. intros Hq. by apply Hreg in Hq as [_ ?].
      * rewrite lookup_alter_ne by (intros He; by destruct Hne; apply (inv_ids s Hi q p d c)).
        rewrite (rep_has s h Hr q d Hd). f_equal. symmetry. apply session_same. rewrite Hreg. tauto.
    + intros i x. rewrite lookup_alter_Some. intros [(<- & x0 & Hx & _)|[_ Hx]]; by eapply rep_only.
  - pose proof (Unregister_miss s id Hi Hno) as Hm. rewrite Hu in Hm. cbn in Hm. subst s'.
    rewrite alter_id; [done|]. intros x Hx. destruct (rep_lookup s h id x Hr Hx) as (p & c & Hc & <- & ->).
    unfold session, closed. cbn. rewrite bool_decide_eq_false_2; [done|]. intros Hp. specialize (Hno _ p Hp).
    by rewrite (proj2 (has_id_spec s (cID c) p)) in Hno by eauto.
Qed.

Lemma push_loop_inv ps (ev : T) : forall n s, live_inv s -> live_inv (push_loop ps ev n s).1.
Proof.
  induction ps as [|p ps IH]; intros n s Hi; cbn [push_loop]; unfold_M; [done|].
  pose proof (trySend_inv s p ev Hi) as Hi1. destruct (trySend p ev s) as [s1 ok]. by apply IH.
Qed.

Lemma session_offered (s s' : Live T) p c ev : byUser s' = byUser s ->
  session s' p (offered ev c) = accept ev (session s p c).
Proof.
  intros Hb. assert (Hs : session s' p c = session s p c) by (apply session_same; unfold registered, Connections; by rewrite Hb).
  rewrite <- Hs. unfold accept, offered. change (roomy (session s' p c)) with (room c). by destruct (room c).
Qed.

Lemma offered_id ev (c : Conn T) : cID (offered ev c) = cID c.
Proof. unfold offered. by destruct (room c). Qed.

Lemma on_registered s p c u : on u (session s p c) = true <-> cUserID c = u /\ registered s u p.
Proof.
  unfold on. cbn. rewrite andb_true_iff, bool_decide_eq_true, String.eqb_eq. split; [intros [? <-]|intros [<- ?]]; done.
Qed.

Lemma push_simulates u ev s h : represents s h -> simulates (RPush u ev) s h.
Proof.
  intros Hr. pose proof (rep_inv s h Hr) as Hi. unfold simulates. cbn -[Push]. unfold_M. unfold Push.
  pose proof (push_loop_spec (Connections u s) ev (Connections_NoDup s u Hi) 0 s) as Hp.
  pose proof (push_loop_inv (Connections u s) ev 0 s Hi) as Hi'.
  destruct (push_loop _ ev 0 s) as [s' n]. cbn in Hi'. destruct Hp as (-> & Hb & _ & Hh). split.
  - rewrite (sessions_counted s h u roomy (has_room s) Hr); [done|]. intros p c Hc _. unfold has_room. by rewrite Hc.
  - split; [done| |].
    + intros q d. rewrite Hh, lookup_fmap. case_decide as Hq.
      * intros (c & Hc & ->)%fmap_Some. rewrite offered_id, (rep_has s h Hr q c Hc). cbn.
        destruct (registered_heap s u q Hi Hq) as (c' & Hc' & Hu). assert (c' = c) as -> by congruence.
        by rewrite (proj2 (on_registered s q c u)), (session_offered s s') by done.
      * intros Hd. rewrite (rep_has s h Hr q d Hd). cbn. destruct (on u (session s q d)) eqn:Ho.
        { by apply on_registered in Ho as [_ Ho]. }
        f_equal. symmetry. apply session_same. unfold registered, Connections. by rewrite Hb.
    + intros id x. rewrite lookup_fmap. intros (x0 & Hx & _)%fmap_Some. destruct (rep_only s h Hr id x0 Hx) as (p & c & Hc & <-).
      exists p. rewrite Hh, Hc. case_decide; cbn; [exists (offered ev c)|exists c]; (split; [done|]); [apply offered_id|done].
Qed.

(** The open session of an id. *)
Lemma GetConn_open s h id : represents s h ->
  match GetConn id s with
  | Some p => exists c, heap s !! p = Some c /\ cID c = id /\ h !! id = Some (session s p c) /\ sOpen (session s p c) = true
  | None => forall x, h !! id = Some x -> sOpen x = false
  end.
Proof.
  intros Hr. pose proof (rep_inv s h Hr) as Hi. pose proof (GetConn_spec s id) as Hg. destruct (GetConn id s) as [p|].
  - destruct (proj1 (Hg p Hi) eq_refl) as (u & c & Hp & Hc & <-).
    exists c. split_and!; [done..|by apply (rep_has s h Hr)|]. cbn. apply bool_decide_eq_true.
    destruct (registered_heap s u p Hi Hp) as (c' & Hc' & Hu). assert (c' = c) as -> by congruence. by rewrite Hu.
  - intros x Hx. destruct (rep_lookup s h id x Hr Hx) as (p & c & Hc & <- & ->). cbn. apply bool_decide_eq_false.
    intros Hp. assert (None = Some p) by (apply Hg; eauto). done.
Qed.

Lemma pushTo_simulates id ev s h : represents s h -> simulates (RPushTo id ev) s h.
Proof.
  intros Hr. pose proof (rep_inv s h Hr) as Hi. unfold simulates. cbn -[PushTo]. unfold_M. unfold PushTo.
  pose proof (GetConn_open s h id Hr) as Hg. destruct (GetConn id s) as [p|].
  - destruct Hg as (c & Hc & <- & Hx & Ho). rewrite Hx, Ho. pose proof (trySend_inv s p ev Hi) as Hi'.
    pose proof (trySend_offered s p ev) as Ht. destruct (trySend p ev s) as [s' ok]. cbn in Hi'.
    destruct Ht as (-> & Hb & _ & Hh). unfold has_room. rewrite Hc. split; [done|].
    rewrite <- (session_offered s s') by done.
    apply (represents_at s s' h p c); [done..| |done|apply offered_id].
    apply map_eq. intros q. rewrite Hh. destruct (decide (q = p)) as [->|Hne]; [by rewrite Hc, lookup_insert_eq|by rewrite lookup_insert_ne].
  - destruct (h !! id) as [x|] eqn:Hx; [rewrite (Hg x eq_refl)|]; done.
Qed.

Lemma get_simulates id s h : represents s h -> simulates (RGet id) s h.
Proof.
  intros Hr. unfold simulates. cbn. pose proof (GetConn_open s h id Hr) as Hg. destruct (GetConn id s) as [p|]; cbn.
  - destruct Hg as (c & Hc & _ & -> & Ho). cbn in Ho |- *. by rewrite Ho, Hc.
  - destruct (h !! id) as [x|] eqn:Hx; cbn; [rewrite (Hg x eq_refl)|]; done.
Qed.

Lemma count_true (l : list nat) : count (fun _ => true) l = length l.
Proof. induction l as [|p l IH]; [done|]. rewrite count_cons, IH. done. Qed.

Lemma count_simulates u s h : represents s h -> simulates (RCount u) s h.
Proof.
  intros Hr. unfold simulates. cbn. split; [|done]. f_equal. unfold Count.
  rewrite (sessions_counted s h u _ (fun _ => true) Hr) by done. by rewrite count_true.
Qed.

Lemma connections_simulates u s h : represents s h -> simulates (RConnections u) s h.
Proof.
  intros Hr. unfold simulates. cbn. split; [|done]. f_equal.
  rewrite (sessions_listed s h u _ (fun _ => true) Hr) by done.
  assert (Hall : forall l : list nat, filter (fun _ => true = true) l = l).
  { induction l as [|p l IH]; [done|]. by rewrite filter_cons, decide_True, IH. }
  by rewrite Hall.
Qed.

Lemma held_spec s h id : represents s h ->
  match held s id with
  | Some p => exists c, heap s !! p = Some c /\ cID c = id
  | None => h !! id = None
  end.
Proof.
  intros Hr. unfold held. destruct (head _) as [[p c]|] eqn:Hp; cbn.
  - apply head_Some_elem_of, list_elem_of_filter in Hp as [Hid Hc%elem_of_map_to_list]. by exists c.
  - apply head_None in Hp. destruct (h !! id) as [x|] eqn:Hx; [|done].
    destruct (rep_only s h Hr id x Hx) as (p & c & Hc & Hid).
    assert (Hin : (p, c) ∈ filter (fun pc => cID pc.2 = id) (map_to_list (heap s)))
      by (apply list_elem_of_filter; split; [done|by apply elem_of_map_to_list]).
    rewrite Hp in Hin. by apply not_elem_of_nil in Hin.
Qed.

Lemma recv_simulates id s h : represents s h -> simulates (RRecv id) s h.
Proof.
  intros Hr. pose proof (rep_inv s h Hr) as Hi. unfold simulates. cbn -[recv held].
  pose proof (held_spec s h id Hr) as Hh. destruct (held s id) as [p|]; [|by rewrite Hh].
  destruct Hh as (c & Hc & <-). rewrite (rep_has s h Hr p c Hc). pose proof (recv_inv s p Hi) as Hi'.
  unfold recv in *. rewrite Hc in *. cbn [sQueue session]. destruct (cQueue c) as [|ev q] eqn:Hq; [done|].
  cbn in Hi'. split; [done|]. exact (represents_at s _ h p c (set_queue q c) Hr Hi' Hc eq_refl eq_refl eq_refl).
Qed.

(** ** Histories *)

(** The ids that a history opens sessions with; uuid.NewString never repeats one. *)
Definition opened (ops : list RegOp) : list string :=
  omap (fun op => match op with ROpen _ _ _ _ id _ => Some id | _ => None end) ops.

Lemma op_simulates op s h : represents s h -> (forall id, id ∈ opened [op] -> h !! id = None) -> simulates op s h.
Proof.
  intros Hr Hn. destruct op; eauto using unregister_simulates, push_simulates, pushTo_simulates, get_simulates,
    count_simulates, connections_simulates, recv_simulates.
  apply open_simulates; [done|]. apply Hn. by left.
Qed.

Lemma hub_op_new op h id : h !! id = None -> id ∉ opened [op] -> (hub_op op h).1 !! id = None.
Proof.
  intros Hn Ho. destruct op as [u t d b i at_|i|u ev|i ev|i|u|u|i]; cbn; try done.
  - rewrite lookup_insert_ne; [done|]. intros ->. destruct Ho. by left.
  - by apply lookup_alter_None.
  - by rewrite lookup_fmap, Hn.
  - destruct (h !! i) as [x|] eqn:Hx; [|done]. destruct (sOpen x); [|done]. cbn. rewrite lookup_insert_ne; [done|]. intros ->. congruence.
  - destruct (h !! i) as [x|] eqn:Hx; [|done]. destruct (sQueue x); [done|]. cbn. rewrite lookup_insert_ne; [done|]. intros ->. congruence.
Qed.

Lemma ops_simulate ops : forall s h, represents s h -> NoDup (opened ops) -> (forall id, id ∈ opened ops -> h !! id = None) ->
  let '(s', outs) := reg_ops ops s in
  let '(h', outs') := hub_ops ops h in
  outs = outs' /\ represents s' h'.
Proof.
  induction ops as [|op ops IH]; intros s h Hr Hnd Hnew; cbn [reg_ops hub_ops]; unfold_M; [done|].
  change (op :: ops) with ([op] ++ ops) in Hnd, Hnew. unfold opened in Hnd, Hnew. rewrite omap_app in Hnd, Hnew.
  apply NoDup_app in Hnd as (_ & Hdis & Hnd).
  pose proof (op_simulates op s h Hr ltac:(intros id Hid; apply Hnew, elem_of_app; by left)) as Hs.
  pose proof (hub_op_new op h) as Hkeep. unfold simulates in Hs.
  destruct (reg_op op s) as [s1 out], (hub_op op h) as [h1 out']. destruct Hs as [<- Hr1]. cbn in Hkeep.
  specialize (IH s1 h1 Hr1 Hnd). destruct (reg_ops ops s1) as [s2 outs], (hub_ops ops h1) as [h2 outs'].
  destruct IH as [<- Hr2]; [|done]. intros id Hid. apply Hkeep; [apply Hnew, elem_of_app; by right|].
  intros Hin. by apply (Hdis id).
Qed.
End hub.
Arguments RegOp T : clear implicits.
Arguments RegOut T : clear implicits.

(** C33: The live registry is a map of sessions.  Every history of Register, Unregister, Push, PushTo,
    Get, Count, Connections and receives on the registry, with connection ids that never
    repeat, answers exactly what the abstract hub answers: Push reaches the open sessions of the
    user that have room and counts them, each once, whatever slices and swap-deletes the registry
    went through and in whatever order Go iterates its map; a full session keeps its place;
    an unregistered one is reached by no one and can still drain its queue; and no queue ever
    exceeds its buffer. *)
Theorem registry_refines {T} `{MapOrder} (ops : list (RegOp T)) : NoDup (opened ops) ->
  let '(s, outs) := reg_ops ops NewRegistry in
  let '(h, outs') := hub_ops ops ∅ in
  outs = outs' /\ represents s h /\
  map_Forall (fun _ x => Z.of_nat (length (sQueue x)) <= sBuffer x) h.
Proof.
  intros Hnd. pose proof (ops_simulate ops NewRegistry ∅ represents_New Hnd ltac:(intros; apply lookup_empty)) as Hs.
  destruct (reg_ops ops NewRegistry) as [s outs], (hub_ops ops ∅) as [h outs']. destruct Hs as [-> Hr].
  split; [done|]. split; [done|]. intros id x Hx. destruct (rep_lookup s h id x Hr Hx) as (p & c & Hc & _ & ->).
  apply (inv_queues s (rep_inv s h Hr) p c Hc).
Qed.

(** Three devices of one user and one of another; one device is full, one leaves. *)
Definition sample_calls : list (RegOp Z) :=
  [ROpen "u1" "acme" "web" 1 "a" 1; ROpen "u1" "acme" "ios" 2 "b" 2; ROpen "u2" "acme" "web" 0 "c" 3;
   ROpen "u1" "acme" "android" 8 "d" 4; RPush "u1" 7; RPush "u1" 8; RUnregister "a"; RConnections "u1"; RPushTo "a" 9;
   RPushTo "d" 9; RPush "u1" 10; RRecv "a"; RRecv "d"; RGet "b"; RGet "a"; RCount "u1"; RPush "u3" 1].

Lemma registry_refines_witness :
  (reg_ops (H := sample_order) sample_calls NewRegistry).2 =
    [OutNone; OutNone; OutNone; OutNone; OutCount 3; OutCount 2; OutNone; OutIDs {["b"; "d"]}; OutSent false; OutSent true;
     OutCount 1; OutEvent (Some 7); OutEvent (Some 7); OutFound (Some ("u1", "acme", "ios")); OutFound None; OutCount 2; OutCount 0].
Proof.
  pose proof (registry_refines (H := sample_order) sample_calls) as Hr.
  assert (Hnd : NoDup (opened sample_calls)) by (apply (bool_decide_unpack _); vm_compute; exact I).
  specialize (Hr Hnd). destruct (reg_ops _ _) as [s outs], (hub_ops sample_calls ∅) as [h outs'] eqn:Hh.
  destruct Hr as [-> _]. apply (f_equal snd) in Hh. etransitivity; [symmetry; exact Hh|]. vm_compute. reflexivity.
Defined.
