(* ===== verification/Retry.v ===== *)
(** * realtime/retry.go: the at-least-once retry tracker

    Track, Ack and CancelAll run under the mutex and are functions on the
    state.  Every spawned goroutine is a [Loop] that advances by steps of its
    own: a select that ends on a cancelled context or fires the timer and calls
    back, and, after the last attempt, the locked eviction of its entry.
    [byKey] maps a key and a connection to the goroutine whose cancel function
    the [retryState] holds.  When the context is cancelled and the timer is due
    at once, select may choose either, and so may [loop_fire]. *)

From S2P Require Import Prelude GoErrors GoStrings Model.

Inductive Phase : Type := Waiting | Evicting.

Record Loop := mkLoop {
  lKey : string;
  lConn : string;
  lParent : nat;
  lAttempt : Z;      (* the attempt the goroutine waits for *)
  lPhase : Phase;
  lCancelled : bool; (* its own cancel function was called *)
}.

Record RetryTracker := mkRetry {
  max : Z;
  loops : gmap nat Loop;   (* running goroutines *)
  nextLoop : nat;
  entries : gmap string (gmap string nat);
  deadParents : gset nat;  (* cancelled parent contexts *)
}.

Definition NewRetryTracker (max : Z) : RetryTracker := mkRetry max ∅ 0 ∅ ∅.

(** [ctx.Done()] is ready. *)
Definition done_ready (t : RetryTracker) (l : Loop) : bool :=
  lCancelled l || bool_decide (lParent l ∈ deadParents t).

(** The loop over the connection ids of one Track. *)
Definition track_step (parent : nat) (key : string)
    (acc : gmap string nat * gmap nat Loop * nat) (connID : string)
    : gmap string nat * gmap nat Loop * nat :=
  let '(states, ls, next) := acc in
  match states !! connID with
  | Some _ => acc
  | None => (<[connID := next]> states, <[next := mkLoop key connID parent 1 Waiting false]> ls, S next)
  end.

Definition Track (parent : nat) (key : string) (connIDs : list string) (t : RetryTracker) : RetryTracker :=
  if (max t <=? 0) || bool_decide (connIDs = []) then t else
  let states := default ∅ (entries t !! key) in
  let '(states, ls, next) := fold_left (track_step parent key) connIDs (states, loops t, nextLoop t) in
  mkRetry (max t) ls next (<[key := states]> (entries t)) (deadParents t).

Definition cancel (l : Loop) : Loop :=
  mkLoop (lKey l) (lConn l) (lParent l) (lAttempt l) (lPhase l) true.

(** [delete(states, connID)], and the key with its last connection. *)
Definition remove_entry (key connID : string) (m : gmap string (gmap string nat))
    : gmap string (gmap string nat) :=
  match m !! key with
  | None => m
  | Some states =>
      let states := delete connID states in
      if bool_decide (states = ∅) then delete key m else <[key := states]> m
  end.

Definition entry_of (t : RetryTracker) (key connID : string) : option nat :=
  entries t !! key ≫= (.!! connID).

Definition Ack (key connID : string) (t : RetryTracker) : RetryTracker :=
  match entries t !! key with
  | None => t
  | Some states =>
      match states !! connID with
      | None => t
      | Some g => mkRetry (max t) (alter cancel g (loops t)) (nextLoop t)
                    (remove_entry key connID (entries t)) (deadParents t)
      end
  end.

(** Whether some entry holds the goroutine's cancel function. *)
Definition entered (t : RetryTracker) (g : nat) : bool :=
  bool_decide (map_Exists (fun _ states => map_Exists (fun _ h => h = g) states) (entries t)).

Definition CancelAll (t : RetryTracker) : RetryTracker :=
  mkRetry (max t) (map_imap (fun g l => Some (if entered t g then cancel l else l)) (loops t))
    (nextLoop t) ∅ (deadParents t).

(** ** Steps *)

Inductive RetryLabel : Type :=
| RTrack (parent : nat) (key : string) (connIDs : list string)
| RAck (key connID : string)
| RCancelAll
| RParent (parent : nat)
| RFire (g : nat) (key connID : string) (attempt : Z)  (* one call of the callback *)
| RDone (g : nat)
| REvict (g : nat).

Definition end_loop (g : nat) (t : RetryTracker) : RetryTracker :=
  mkRetry (max t) (delete g (loops t)) (nextLoop t) (entries t) (deadParents t).

Definition set_loop (g : nat) (l : Loop) (t : RetryTracker) : RetryTracker :=
  mkRetry (max t) (<[g := l]> (loops t)) (nextLoop t) (entries t) (deadParents t).

(** The goroutine after the callback of its current attempt. *)
Definition fired (max : Z) (l : Loop) : Loop :=
  if lAttempt l <? max
  then mkLoop (lKey l) (lConn l) (lParent l) (lAttempt l + 1) Waiting (lCancelled l)
  else mkLoop (lKey l) (lConn l) (lParent l) (lAttempt l) Evicting (lCancelled l).

Inductive retry_step : RetryTracker -> RetryLabel -> RetryTracker -> Prop :=
| retry_track t p key conns : retry_step t (RTrack p key conns) (Track p key conns t)
| retry_ack t key conn : retry_step t (RAck key conn) (Ack key conn t)
| retry_cancel_all t : retry_step t RCancelAll (CancelAll t)
| retry_parent t p :
    retry_step t (RParent p)
      (mkRetry (max t) (loops t) (nextLoop t) (entries t) ({[p]} ∪ deadParents t))
| retry_fire t g l :
    loops t !! g = Some l -> lPhase l = Waiting ->
    retry_step t (RFire g (lKey l) (lConn l) (lAttempt l)) (set_loop g (fired (max t) l) t)
| retry_done t g l :
    loops t !! g = Some l -> lPhase l = Waiting -> done_ready t l = true ->
    retry_step t (RDone g) (end_loop g t)
| retry_evict t g l :
    loops t !! g = Some l -> lPhase l = Evicting ->
    retry_step t (REvict g)
      (mkRetry (max t) (delete g (loops t)) (nextLoop t)
         (remove_entry (lKey l) (lConn l) (entries t)) (deadParents t)).

(** The attempts one goroutine made, in order. *)
Definition attempts_of (g : nat) (ls : list RetryLabel) : list Z :=
  omap (fun l => match l with
                 | RFire h _ _ a => if decide (h = g) then Some a else None
                 | _ => None
                 end) ls.

(** The steps of goroutines, as opposed to calls of the tracker. *)
Definition is_loop_step (l : RetryLabel) : bool :=
  match l with RFire _ _ _ _ | RDone _ | REvict _ => true | _ => false end.

(** What a goroutine still has to do at most. *)
Definition work (max : Z) (l : Loop) : Z :=
  match lPhase l with Waiting => max - lAttempt l + 2 | Evicting => 1 end.

Definition total_work (t : RetryTracker) : Z :=
  map_fold (fun _ l acc => work (max t) l + acc) 0 (loops t).

(** ** Invariants *)

Record retry_inv (t : RetryTracker) : Prop := {
  ri_loops : forall g l, loops t !! g = Some l -> (g < nextLoop t)%nat /\ 1 <= lAttempt l <= max t;
  ri_keys : forall key states, entries t !! key = Some states -> states <> ∅;
  ri_entries : forall key conn g, entry_of t key conn = Some g -> (g < nextLoop t)%nat;
  ri_entry_loop : forall key conn g l, entry_of t key conn = Some g -> loops t !! g = Some l ->
    lKey l = key /\ lConn l = conn;
}.

(** While no parent context is cancelled, every entry is served: its goroutine
    runs and was not cancelled. *)
Definition served (t : RetryTracker) : Prop :=
  deadParents t = ∅ /\
  forall key conn g, entry_of t key conn = Some g ->
    exists l, loops t !! g = Some l /\ lCancelled l = false.
