(* ===== verification/RetryProps.v ===== *)
(** * The retry tracker: attempt budget, termination, acknowledgement

    Invariants of every reachable state, the attempt budget of one goroutine,
    the bound on everything the goroutines still do, what Track and Ack do to
    the entries, who serves an entry, and the runs in which an entry and its
    goroutine come apart or a Track comes too late. *)

From S2P Require Import Prelude GoErrors GoStrings Model Retry.

(** ** Entries *)

Definition at_entry (m : gmap string (gmap string nat)) (key conn : string) : option nat :=
  m !! key ≫= (.!! conn).

Lemma remove_entry_lookup key conn m k c :
  at_entry (remove_entry key conn m) k c = if decide (k = key /\ c = conn) then None else at_entry m k c.
Proof.
  unfold remove_entry, at_entry. destruct (m !! key) as [states|] eqn:Hm.
  2:{ case_decide as Hd; [|done]. destruct Hd as [-> ->]. by rewrite Hm. }
  case_bool_decide as He; destruct (decide (k = key)) as [->|Hk].
  - rewrite lookup_delete_eq, Hm. simpl. case_decide as Hd; [done|].
    assert (Hc : delete conn states !! c = None) by (by rewrite He, lookup_empty).
    rewrite lookup_delete_ne in Hc; [done|intros <-; by apply Hd].
  - rewrite lookup_delete_ne by congruence; rewrite decide_False; [done|tauto].
  - rewrite lookup_insert_eq, Hm. simpl. case_decide as Hd.
    + destruct Hd as [_ ->]. by rewrite lookup_delete_eq.
    + rewrite lookup_delete_ne; [done|intros <-; by apply Hd].
  - rewrite lookup_insert_ne by congruence; rewrite decide_False; [done|tauto].
Qed.

Lemma remove_entry_nonempty key conn m :
  (forall k states, m !! k = Some states -> states <> ∅) ->
  forall k states, remove_entry key conn m !! k = Some states -> states <> ∅.
Proof.
  intros Hne k states. unfold remove_entry. destruct (m !! key) as [st|] eqn:Hm; [|apply Hne].
  case_bool_decide as He.
  - rewrite lookup_delete_Some. intros [_ Hk]. by eapply Hne.
  - rewrite lookup_insert_Some. intros [[<- <-]|[_ Hk]]; [done|by eapply Hne].
Qed.

Lemma Ack_entry key conn t k c :
  entry_of (Ack key conn t) k c = if decide (k = key /\ c = conn) then None else entry_of t k c.
Proof.
  unfold Ack. fold (at_entry (entries t) k c). unfold entry_of.
  destruct (entries t !! key) as [states|] eqn:Hk; [destruct (states !! conn) as [g|] eqn:Hc|].
  - apply remove_entry_lookup.
  - case_decide as Hd; [|done]. destruct Hd as [-> ->]. by rewrite Hk.
  - case_decide as Hd; [|done]. destruct Hd as [-> ->]. by rewrite Hk.
Qed.

(** ** Track *)

Definition new_loop (parent : nat) (key conn : string) : Loop := mkLoop key conn parent 1 Waiting false.

Lemma track_fold parent key conns : forall states ls next,
  (forall g l, ls !! g = Some l -> (g < next)%nat) ->
  (forall c g, states !! c = Some g -> (g < next)%nat) ->
  let '(states', ls', next') := fold_left (track_step parent key) conns (states, ls, next) in
  (next <= next')%nat /\
  (forall c, match states !! c with
             | Some g => states' !! c = Some g
             | None => if decide (c ∈ conns)
                       then exists g, states' !! c = Some g /\ (next <= g < next')%nat /\
                              ls' !! g = Some (new_loop parent key c)
                       else states' !! c = None
             end) /\
  (forall g, (g < next)%nat -> ls' !! g = ls !! g) /\
  (forall g l, ls' !! g = Some l -> (next <= g)%nat ->
     exists c, l = new_loop parent key c /\ (g < next')%nat /\ states' !! c = Some g).
Proof.
  induction conns as [|conn conns IH]; intros states ls next Hls Hst; cbn [fold_left].
  { split_and!; [done| |done|].
    - intros c. destruct (states !! c); [done|]. rewrite decide_False; [done|apply not_elem_of_nil].
    - intros g l Hg Hle. apply Hls in Hg. lia. }
  unfold track_step at 2. destruct (states !! conn) as [h|] eqn:Hconn.
  - specialize (IH states ls next Hls Hst). destruct (fold_left _ conns _) as [[states' ls'] next'].
    destruct IH as (Hn & Hs & Hl & Hnew). split_and!; [done| |done|done].
    intros c. specialize (Hs c). destruct (states !! c) as [g|] eqn:Hc; [done|].
    rewrite (decide_ext (c ∈ conn :: conns) (c ∈ conns)); [done|].
    rewrite elem_of_cons. split; [|by right]. intros [->|?]; [congruence|done].
  - specialize (IH (<[conn := next]> states) (<[next := new_loop parent key conn]> ls) (S next)).
    fold (new_loop parent key conn).
    destruct (fold_left _ conns _) as [[states' ls'] next'].
    destruct IH as (Hn & Hs & Hl & Hnew).
    { intros g l. rewrite lookup_insert_Some. intros [[<- _]|[_ Hg]]; [lia|]. apply Hls in Hg. lia. }
    { intros c g. rewrite lookup_insert_Some. intros [[_ <-]|[_ Hg]]; [lia|]. apply Hst in Hg. lia. }
    assert (Hnext : ls' !! next = Some (new_loop parent key conn))
      by (rewrite Hl by lia; by rewrite lookup_insert_eq).
    pose proof (Hs conn) as Hsc. rewrite lookup_insert_eq in Hsc.
    split_and!; [lia| | |].
    + intros c. destruct (states !! c) as [g|] eqn:Hc.
      * specialize (Hs c). by rewrite lookup_insert_ne, Hc in Hs by congruence.
      * destruct (decide (c = conn)) as [->|Hne].
        { rewrite decide_True by (by left). exists next. split_and!; [done|lia|lia|done]. }
        specialize (Hs c). rewrite lookup_insert_ne, Hc in Hs by done.
        rewrite (decide_ext (c ∈ conn :: conns) (c ∈ conns)).
        { case_decide; [|done]. destruct Hs as (g & ? & ? & ?). exists g. split_and!; [done|lia|lia|done]. }
        rewrite elem_of_cons. split; [|by right]. by intros [->|?].
    + intros g Hg. rewrite Hl by lia. by rewrite lookup_insert_ne by lia.
    + intros g l Hg Hle. destruct (decide (g = next)) as [->|Hne].
      * exists conn. split_and!; [congruence|lia|done].
      * apply Hnew; [done|lia].
Qed.

(** The effect of Track, as its callers see it. *)
Record tracked (parent : nat) (key : string) (conns : list string) (t t' : RetryTracker) : Prop := {
  tr_max : max t' = max t;
  tr_dead : deadParents t' = deadParents t;
  tr_next : (nextLoop t <= nextLoop t')%nat;
  tr_keys : forall k states, entries t' !! k = Some states -> entries t !! k = Some states \/ states <> ∅;
  tr_entries : forall k c, match entry_of t k c with
    | Some g => entry_of t' k c = Some g
    | None => if decide (k = key /\ c ∈ conns)
              then exists g, entry_of t' k c = Some g /\ (nextLoop t <= g < nextLoop t')%nat /\
                     loops t' !! g = Some (new_loop parent key c)
              else entry_of t' k c = None
    end;
  tr_old : forall g, (g < nextLoop t)%nat -> loops t' !! g = loops t !! g;
  tr_new : forall g l, loops t' !! g = Some l -> (nextLoop t <= g)%nat ->
    exists c, l = new_loop parent key c /\ (g < nextLoop t')%nat /\ entry_of t' key c = Some g;
}.

Lemma Track_spec parent key conns t : retry_inv t -> 0 < max t -> conns <> [] ->
  tracked parent key conns t (Track parent key conns t).
Proof.
  intros Hi Hmax Hne. unfold Track.
  rewrite (proj2 (Z.leb_gt _ _)), bool_decide_eq_false_2 by done. simpl.
  pose proof (track_fold parent key conns (default ∅ (entries t !! key)) (loops t) (nextLoop t)) as Hf.
  destruct (fold_left _ conns _) as [[states' ls'] next'].
  assert (Hst : forall c g, default ∅ (entries t !! key) !! c = Some g -> entry_of t key c = Some g).
  { intros c g. unfold entry_of. destruct (entries t !! key); simpl; [done|]. by rewrite lookup_empty. }
  destruct Hf as (Hn & Hs & Hl & Hnew).
  { intros g l Hg. by apply (ri_loops t Hi) in Hg as [? _]. }
  { intros c g Hg. by eapply (ri_entries t Hi), Hst. }
  split; simpl; try done.
  - intros k states. rewrite lookup_insert_Some. intros [[<- <-]|[_ Hk]]; [|by left]. right.
    destruct conns as [|c conns]; [done|]. specialize (Hs c). intros ->.
    rewrite decide_True in Hs by (by left). destruct (default ∅ (entries t !! key) !! c); [done|].
    destruct Hs as (g & Hg & _). by rewrite lookup_empty in Hg.
  - intros k c. unfold entry_of. simpl. destruct (decide (k = key)) as [->|Hk].
    + rewrite lookup_insert_eq. simpl. specialize (Hs c).
      assert (Heq : entries t !! key ≫= (.!! c) = default ∅ (entries t !! key) !! c)
        by (destruct (entries t !! key); simpl; [done|by rewrite lookup_empty]).
      rewrite Heq. destruct (default ∅ (entries t !! key) !! c) as [g|]; [done|].
      rewrite (decide_ext (key = key /\ c ∈ conns) (c ∈ conns)) by tauto. done.
    + rewrite lookup_insert_ne by done. destruct (entries t !! k ≫= (.!! c)); [done|].
      rewrite decide_False; [done|]. by intros [? _].
  - intros g l Hg Hle. destruct (Hnew g l Hg Hle) as (c & Hc & Hlt & Hsc).
    exists c. split_and!; [done..|]. unfold entry_of. simpl. by rewrite lookup_insert_eq.
Qed.

(** Every number handed out by a Track is a running goroutine. *)
Lemma track_all_fold parent key conns : forall states ls next,
  let '(_, ls', next') := fold_left (track_step parent key) conns (states, ls, next) in
  forall g, (is_Some (ls !! g) -> is_Some (ls' !! g)) /\ ((next <= g < next')%nat -> is_Some (ls' !! g)).
Proof.
  induction conns as [|conn conns IH]; intros states ls next; cbn [fold_left].
  { intros g. split; [done|lia]. }
  unfold track_step at 2. destruct (states !! conn); [apply IH|].
  specialize (IH (<[conn := next]> states) (<[next := new_loop parent key conn]> ls) (S next)).
  fold (new_loop parent key conn). destruct (fold_left _ conns _) as [[states' ls'] next'].
  intros g. destruct (IH g) as [H1 H2]. split.
  - intros Hg. apply H1. rewrite lookup_insert_is_Some'. by right.
  - intros Hg. destruct (decide (g = next)) as [->|]; [|apply H2; lia].
    apply H1. rewrite lookup_insert_eq. eauto.
Qed.

Lemma Track_all parent key conns t : retry_inv t -> 0 < max t -> conns <> [] ->
  forall g, (nextLoop t <= g < nextLoop (Track parent key conns t))%nat ->
  is_Some (loops (Track parent key conns t) !! g).
Proof.
  intros Hi Hmax Hne g. unfold Track.
  rewrite (proj2 (Z.leb_gt _ _)), bool_decide_eq_false_2 by done. simpl.
  pose proof (track_all_fold parent key conns (default ∅ (entries t !! key)) (loops t) (nextLoop t)) as Hf.
  destruct (fold_left _ conns _) as [[states' ls'] next']. simpl. apply Hf.
Qed.

Lemma Track_noop parent key conns t : max t <= 0 \/ conns = [] -> Track parent key conns t = t.
Proof.
  intros Hn. unfold Track. destruct Hn as [Hn| ->].
  - by rewrite (proj2 (Z.leb_le _ _)).
  - by rewrite bool_decide_eq_true_2, orb_true_r.
Qed.

(** ** The invariants are preserved *)

Lemma retry_inv_New m : retry_inv (NewRetryTracker m).
Proof.
  split; simpl; intros *; rewrite ?lookup_empty; try done;
    unfold entry_of; simpl; by rewrite lookup_empty.
Qed.

Lemma Track_inv parent key conns t : retry_inv t -> retry_inv (Track parent key conns t).
Proof.
  intros Hi. destruct (decide (max t <= 0)); [by rewrite Track_noop by (by left)|].
  destruct (decide (conns = [])); [by rewrite Track_noop by (by right)|].
  destruct (Track_spec parent key conns t Hi ltac:(lia) ltac:(done)) as [Hmax _ Hn Hk He Ho Hnew].
  split.
  - intros g l Hg. rewrite Hmax. destruct (decide (g < nextLoop t)%nat) as [Hlt|Hge].
    + rewrite Ho in Hg by done. apply (ri_loops t Hi) in Hg. split; [lia|tauto].
    + destruct (Hnew g l Hg ltac:(lia)) as (c & -> & Hlt & _). simpl. split; [done|lia].
  - intros k states Hs. destruct (Hk k states Hs) as [Hs'|]; [by eapply (ri_keys t Hi)|done].
  - intros k c g Hg. specialize (He k c). destruct (entry_of t k c) as [h|] eqn:Hh.
    + assert (g = h) as -> by congruence. apply (ri_entries t Hi) in Hh. lia.
    + case_decide; [|congruence]. destruct He as (h & ? & ? & _). simplify_eq. lia.
  - intros k c g l Hg Hl. specialize (He k c). destruct (entry_of t k c) as [h|] eqn:Hh.
    + assert (g = h) as -> by congruence. pose proof (ri_entries t Hi _ _ _ Hh) as Hlt.
      rewrite Ho in Hl by done. by eapply (ri_entry_loop t Hi).
    + case_decide as Hd; [|congruence]. destruct He as (h & ? & _ & ?). destruct Hd as [-> _].
      assert (l = new_loop parent key c) as -> by congruence. done.
Qed.

Lemma cancel_lookup g h (m : gmap nat Loop) l : alter cancel g m !! h = Some l ->
  exists l0, m !! h = Some l0 /\ (l = l0 \/ l = cancel l0 /\ h = g).
Proof.
  rewrite lookup_alter_Some. intros [(<- & l0 & ? & ->)|[? ?]]; eauto.
Qed.

(** Dropping or cancelling goroutines and dropping entries keeps the invariant. *)
Lemma retry_inv_weaken t t' : retry_inv t -> max t' = max t -> (nextLoop t <= nextLoop t')%nat ->
  (forall g l', loops t' !! g = Some l' -> exists l, loops t !! g = Some l /\
     lKey l' = lKey l /\ lConn l' = lConn l /\ 1 <= lAttempt l' <= max t) ->
  (forall k states, entries t' !! k = Some states -> states <> ∅) ->
  (forall k c g, entry_of t' k c = Some g -> entry_of t k c = Some g) ->
  retry_inv t'.
Proof.
  intros Hi Hm Hn Hl Hk He. split.
  - intros g l' Hg. destruct (Hl g l' Hg) as (l & Hg' & _ & _ & Ha). rewrite Hm. split; [|done].
    apply (ri_loops t Hi) in Hg'. lia.
  - done.
  - intros k c g Hg. apply He, (ri_entries t Hi) in Hg. lia.
  - intros k c g l' Hg Hg'. destruct (Hl g l' Hg') as (l & Hl' & -> & -> & _).
    by eapply (ri_entry_loop t Hi); [apply He|].
Qed.

Lemma retry_step_inv t l t' : retry_inv t -> retry_step t l t' -> retry_inv t'.
Proof.
  intros Hi Hs.
  assert (Hsame : forall g l, loops t !! g = Some l -> exists l0, loops t !! g = Some l0 /\
    lKey l = lKey l0 /\ lConn l = lConn l0 /\ 1 <= lAttempt l <= max t).
  { intros g l0 Hg. exists l0. split_and!; try done; by apply (ri_loops t Hi) in Hg as [_ [? ?]]. }
  destruct Hs as [t p key conns|t key conn|t|t p|t g l Hg Hp|t g l Hg Hp Hd|t g l Hg Hp].
  - by apply Track_inv.
  - unfold Ack. destruct (entries t !! key) as [states|] eqn:Hk; [|done].
    destruct (states !! conn) as [g|] eqn:Hc; [|done].
    apply (retry_inv_weaken t); simpl; try done.
    + intros h l' (l & Hh & [-> | [-> ->]])%cancel_lookup; [by apply Hsame|].
      destruct (Hsame g l Hh) as (l0 & ? & ? & ? & ?). by exists l0.
    + apply remove_entry_nonempty, (ri_keys t Hi).
    + intros k c h. unfold entry_of. simpl. fold (at_entry (remove_entry key conn (entries t)) k c).
      rewrite remove_entry_lookup. by case_decide.
  - apply (retry_inv_weaken t); simpl; try done.
    intros g l'. rewrite map_lookup_imap. intros (l & Hg & [= <-])%bind_Some.
    destruct (Hsame g l Hg) as (l0 & ? & ? & ? & ?). exists l0. by destruct (entered t g).
  - apply (retry_inv_weaken t); simpl; try done; try by apply (ri_keys t Hi).
  - apply (retry_inv_weaken t); simpl; try done; try by apply (ri_keys t Hi).
    intros h l'. rewrite lookup_insert_Some. intros [[<- <-]|[_ Hh]]; [|by apply Hsame].
    exists l. apply (ri_loops t Hi) in Hg as Ha. unfold fired.
    destruct (Z.ltb_spec (lAttempt l) (max t)); simpl; split_and!; try done; lia.
  - apply (retry_inv_weaken t); simpl; try done; try by apply (ri_keys t Hi).
    intros h l' [_ Hh]%lookup_delete_Some. by apply Hsame.
  - apply (retry_inv_weaken t); simpl; try done.
    + intros h l' [_ Hh]%lookup_delete_Some. by apply Hsame.
    + apply remove_entry_nonempty, (ri_keys t Hi).
    + intros k c h. unfold entry_of. simpl.
      fold (at_entry (remove_entry (lKey l) (lConn l) (entries t)) k c).
      rewrite remove_entry_lookup. by case_decide.
Qed.

Definition no_parent_cancel (l : RetryLabel) : Prop := match l with RParent _ => False | _ => True end.

Lemma retry_step_served t l t' : retry_inv t -> served t -> no_parent_cancel l -> retry_step t l t' ->
  served t'.
Proof.
  intros Hi [Hdead Hserved] Hnp Hs.
  destruct Hs as [t p key conns|t key conn|t|t p|t g l Hg Hp|t g l Hg Hp Hd|t g l Hg Hp]; try done.
  - destruct (decide (max t <= 0)); [by rewrite Track_noop by (by left)|].
    destruct (decide (conns = [])); [by rewrite Track_noop by (by right)|].
    destruct (Track_spec p key conns t Hi ltac:(lia) ltac:(done)) as [_ Hd Hn _ He Ho Hnew].
    split; [by rewrite Hd|]. intros k c g Hg. specialize (He k c).
    destruct (entry_of t k c) as [h|] eqn:Hh.
    + assert (g = h) as -> by congruence. rewrite Ho by (by eapply (ri_entries t Hi)). eauto.
    + case_decide; [|congruence]. destruct He as (h & ? & _ & ?). simplify_eq. eauto.
  - unfold Ack. destruct (entries t !! key) as [states|] eqn:Hk; [|done].
    destruct (states !! conn) as [g|] eqn:Hc; [|done]. split; [done|].
    assert (Hent : entry_of t key conn = Some g) by (unfold entry_of; by rewrite Hk).
    intros k c h. unfold entry_of. simpl. fold (at_entry (remove_entry key conn (entries t)) k c).
    rewrite remove_entry_lookup. case_decide as Hkc; [done|]. intros Hh.
    destruct (Hserved k c h Hh) as (l & Hl & Hcan). exists l. split; [|done].
    rewrite lookup_alter_ne; [done|]. intros <-. apply Hkc.
    destruct (ri_entry_loop t Hi _ _ _ _ Hh Hl) as [<- <-].
    destruct (ri_entry_loop t Hi _ _ _ _ Hent Hl) as [<- <-]. done.
  - split; [done|]. intros k c h Hh. destruct (Hserved k c h Hh) as (l0 & Hl0 & Hcan). simpl.
    destruct (decide (h = g)) as [->|Hne]; [|exists l0; by rewrite lookup_insert_ne].
    exists (fired (max t) l). rewrite lookup_insert_eq. split; [done|].
    assert (l0 = l) as -> by congruence. unfold fired. by case_if.
  - split; [done|]. intros k c h Hh. destruct (Hserved k c h Hh) as (l0 & Hl0 & Hcan). simpl.
    exists l0. rewrite lookup_delete_ne; [done|]. intros <-. assert (l0 = l) as -> by congruence.
    unfold done_ready in Hd. rewrite Hcan, Hdead in Hd. simpl in Hd.
    apply bool_decide_eq_true in Hd. set_solver.
  - split; [done|]. intros k c h. unfold entry_of. simpl.
    fold (at_entry (remove_entry (lKey l) (lConn l) (entries t)) k c).
    rewrite remove_entry_lookup. case_decide as Hkc; [done|]. intros Hh.
    destruct (Hserved k c h Hh) as (l0 & Hl0 & Hcan). exists l0. split; [|done].
    rewrite lookup_delete_ne; [done|]. intros <-. apply Hkc.
    destruct (ri_entry_loop t Hi _ _ _ _ Hh Hl0) as [<- <-]. assert (l0 = l) as -> by congruence. done.
Qed.

(** A goroutine that is past its callbacks has made the last one. *)
Definition spent (t : RetryTracker) : Prop :=
  forall g l, loops t !! g = Some l -> lPhase l = Evicting -> lAttempt l = max t.

Lemma retry_step_spent t l t' : retry_inv t -> spent t -> retry_step t l t' -> spent t'.
Proof.
  intros Hi Hsp Hs. destruct Hs as [t p key conns|t key conn|t|t p|t g l Hg Hp|t g l Hg Hp Hd|t g l Hg Hp]; try done.
  - destruct (decide (max t <= 0)); [by rewrite Track_noop by (by left)|].
    destruct (decide (conns = [])); [by rewrite Track_noop by (by right)|].
    destruct (Track_spec p key conns t Hi ltac:(lia) ltac:(done)) as [Hmax _ _ _ _ Ho Hnew].
    intros g l Hg. rewrite Hmax. destruct (decide (g < nextLoop t)%nat) as [Hlt|Hge].
    + rewrite Ho in Hg by done. by apply Hsp with g.
    + by destruct (Hnew g l Hg ltac:(lia)) as (c & -> & _).
  - unfold Ack. destruct (entries t !! key) as [states|]; [|done]. destruct (states !! conn) as [g|]; [|done].
    intros h l' (l & Hh & [-> | [-> _]])%cancel_lookup; by apply (Hsp h l).
  - intros h l'. simpl. rewrite map_lookup_imap. intros (l & Hg & [= <-])%bind_Some. simpl.
    destruct (entered t h); by apply (Hsp h l).
  - intros h l'. simpl. rewrite lookup_insert_Some. intros [[<- <-]|[_ Hh]]; [|by apply (Hsp h)].
    apply (ri_loops t Hi) in Hg as [_ Ha]. unfold fired. destruct (Z.ltb_spec (lAttempt l) (max t)); simpl; [done|lia].
  - intros h l'. simpl. intros [_ Hh]%lookup_delete_Some. by apply (Hsp h).
  - intros h l'. simpl. intros [_ Hh]%lookup_delete_Some. by apply (Hsp h).
Qed.

(** ** The attempt budget *)

(** The next attempt a goroutine will make if it makes one. *)
Definition next_attempt (t : RetryTracker) (g : nat) : option Z :=
  if decide (g < nextLoop t)%nat
  then match loops t !! g with
       | Some l => match lPhase l with Waiting => Some (lAttempt l) | Evicting => None end
       | None => None
       end
  else Some 1.

Lemma retry_step_max t l t' : retry_step t l t' -> max t' = max t.
Proof.
  intros Hs. destruct Hs; try done.
  - unfold Track. case_if; [done|]. by destruct (fold_left _ _ _) as [[? ?] ?].
  - unfold Ack. destruct (entries t !! key) as [states|]; [|done]. by destruct (states !! conn).
Qed.

(** A step of the environment or of another goroutine does not change what a
    goroutine does next, except that it may end it or start it. *)
Lemma next_attempt_step t l t' g : retry_inv t -> retry_step t l t' ->
  attempts_of g [l] = [] /\ (next_attempt t' g = next_attempt t g \/ next_attempt t' g = None) \/
  exists a, attempts_of g [l] = [a] /\ next_attempt t g = Some a /\ 1 <= a <= max t /\
    next_attempt t' g = if a <? max t then Some (a + 1) else None.
Proof.
  intros Hi Hs. unfold next_attempt.
  destruct Hs as [t p key conns|t key conn|t|t p|t h l Hg Hp|t h l Hg Hp Hd|t h l Hg Hp].
  - left. split; [done|]. left. destruct (decide (max t <= 0)); [by rewrite Track_noop by (by left)|].
    destruct (decide (conns = [])); [by rewrite Track_noop by (by right)|].
    destruct (Track_spec p key conns t Hi ltac:(lia) ltac:(done)) as [_ _ Hn _ _ Ho Hnew].
    destruct (decide (g < nextLoop t)%nat) as [Hlt|Hge].
    { rewrite decide_True by lia. by rewrite Ho. }
    case_decide as Hlt; [|done].
    destruct (loops (Track p key conns t) !! g) as [l|] eqn:Hl.
    { by destruct (Hnew g l Hl ltac:(lia)) as (c & -> & _ & _). }
    exfalso. destruct (Track_all p key conns t Hi ltac:(lia) ltac:(done) g) as [l Hl']; [lia|congruence].
  - left. split; [done|]. unfold Ack. destruct (entries t !! key) as [states|]; [|by left].
    destruct (states !! conn) as [h|]; [|by left]. left. simpl. case_decide; [|done].
    destruct (decide (g = h)) as [->|Hne]; [|by rewrite lookup_alter_ne].
    rewrite lookup_alter_eq. by destruct (loops t !! h).
  - left. split; [done|]. left. simpl. case_decide; [|done]. rewrite map_lookup_imap.
    destruct (loops t !! g) as [l|]; simpl; [|done]. by destruct (entered t g).
  - left. split; [done|by left].
  - destruct (ri_loops t Hi h l Hg) as [Hlt Ha]. simpl. unfold attempts_of. simpl.
    destruct (decide (h = g)) as [->|Hne].
    + right. exists (lAttempt l). rewrite Hg, Hp, lookup_insert_eq, !decide_True by done.
      split_and!; [done..|lia|lia|]. unfold fired. by destruct (lAttempt l <? max t).
    + left. split; [done|left]. by rewrite lookup_insert_ne.
  - left. split; [done|]. simpl. destruct (decide (g = h)) as [->|Hne].
    + right. rewrite lookup_delete_eq. case_decide; [done|]. by apply (ri_loops t Hi) in Hg as [? _].
    + left. by rewrite lookup_delete_ne.
  - left. split; [done|]. simpl. destruct (decide (g = h)) as [->|Hne].
    + right. rewrite lookup_delete_eq. case_decide; [done|]. by apply (ri_loops t Hi) in Hg as [? _].
    + left. by rewrite lookup_delete_ne.
Qed.

Lemma attempts_of_cons g l ls : attempts_of g (l :: ls) = attempts_of g [l] ++ attempts_of g ls.
Proof. unfold attempts_of. by rewrite <- omap_app. Qed.

Lemma attempts_run t ls t' g : steps retry_step t ls t' -> retry_inv t ->
  match next_attempt t g with
  | Some a => exists k, attempts_of g ls = seqZ a k /\ (0 < k -> a + k - 1 <= max t)
  | None => attempts_of g ls = []
  end.
Proof.
  induction 1 as [t|t l t1 ls t2 Hs _ IH]; intros Hi.
  { destruct (next_attempt t g); [|done]. exists 0. split; [done|lia]. }
  specialize (IH (retry_step_inv _ _ _ Hi Hs)). rewrite (retry_step_max _ _ _ Hs) in IH.
  rewrite attempts_of_cons.
  destruct (next_attempt_step t l t1 g Hi Hs) as [[-> [He|He]]|(a & -> & -> & Ha & He)]; rewrite He in IH.
  - done.
  - rewrite IH. destruct (next_attempt t g); [|done]. exists 0. split; [done|lia].
  - destruct (Z.ltb_spec a (max t)).
    + destruct IH as (k & -> & Hk). destruct (Z.leb_spec k 0).
      * exists 1. split; [|lia]. by rewrite (seqZ_nil (a + 1) k), seqZ_cons, seqZ_nil by lia.
      * exists (k + 1). split; [|lia]. rewrite (seqZ_cons a) by lia.
        replace (Z.succ a) with (a + 1) by lia. by replace (Z.pred (k + 1)) with k by lia.
    + rewrite IH. exists 1. split; [|lia]. by rewrite seqZ_cons, seqZ_nil by lia.
Qed.

(** ** Remaining work *)

Lemma total_work_insert t g l l' : loops t !! g = Some l ->
  total_work (set_loop g l' t) + work (max t) l = total_work t + work (max t) l'.
Proof.
  intros Hg. unfold total_work. simpl.
  rewrite <- insert_delete_eq.
  rewrite (map_fold_insert_L _ _ g l' (delete g (loops t))); [|intros; lia|apply lookup_delete_eq].
  rewrite (map_fold_delete_L _ _ g l (loops t)); [lia|intros; lia|done].
Qed.

Lemma total_work_delete t g l : loops t !! g = Some l ->
  total_work (end_loop g t) + work (max t) l = total_work t.
Proof.
  intros Hg. unfold total_work. simpl.
  rewrite (map_fold_delete_L _ _ g l (loops t)); [lia|intros; lia|done].
Qed.

Lemma loop_step_work t l t' : retry_inv t -> is_loop_step l = true -> retry_step t l t' ->
  total_work t' < total_work t.
Proof.
  intros Hi Hl Hs. destruct Hs as [| | | |t g l Hg Hp|t g l Hg Hp Hd|t g l Hg Hp]; try done;
    destruct (ri_loops t Hi g l Hg) as [_ Ha].
  - pose proof (total_work_insert t g l (fired (max t) l) Hg) as He. unfold fired, work in He.
    rewrite Hp in He. destruct (Z.ltb_spec (lAttempt l) (max t)); simpl in He; unfold fired;
      destruct (Z.ltb_spec (lAttempt l) (max t)); lia.
  - pose proof (total_work_delete t g l Hg) as He. unfold work in He. rewrite Hp in He. lia.
  - pose proof (total_work_delete t g l Hg) as He. unfold work in He. rewrite Hp in He.
    unfold total_work in *. simpl in *. lia.
Qed.

Lemma total_work_nonneg t : retry_inv t -> 0 <= total_work t.
Proof.
  intros Hi. unfold total_work.
  apply (map_fold_weak_ind (fun z m => (forall g l, m !! g = Some l -> 1 <= lAttempt l <= max t) -> 0 <= z)
    (fun _ l acc => work (max t) l + acc) 0); [lia| |].
  - intros g l m z Hg IH Hm. assert (0 <= work (max t) l).
    { specialize (Hm g l). rewrite lookup_insert_eq in Hm. specialize (Hm eq_refl).
      unfold work. destruct (lPhase l); lia. }
    enough (0 <= z) by lia. apply IH. intros h l' Hh. apply (Hm h).
    rewrite lookup_insert_ne; [done|congruence].
  - intros g l Hg. by apply (ri_loops t Hi) in Hg as [_ ?].
Qed.

(** ** Properties *)

Lemma retry_reachable_inv m ls t : steps retry_step (NewRetryTracker m) ls t -> retry_inv t.
Proof.
  intros Hs. eapply (steps_invariant retry_step retry_inv); [|exact Hs|apply retry_inv_New].
  intros s l s' Hi Hst. by eapply retry_step_inv.
Qed.

(** C21: Along every run of the tracker, under any interleaving of Track, Ack,
    CancelAll, context cancellations and goroutines, each goroutine calls its
    callback for the attempts 1, 2, 3, ... in this order without gaps, and for
    at most the configured number of attempts (none when it is not positive). *)
Theorem retry_budget (m : Z) (ls : list RetryLabel) (t : RetryTracker) (g : nat) :
  steps retry_step (NewRetryTracker m) ls t ->
  exists k, 0 <= k <= Z.max 0 m /\ attempts_of g ls = seqZ 1 k.
Proof.
  intros Hs. pose proof (attempts_run _ _ _ g Hs (retry_inv_New m)) as Ha.
  unfold next_attempt in Ha. rewrite decide_False in Ha by (simpl; lia).
  destruct Ha as (k & He & Hk). simpl in Hk. destruct (Z.leb_spec k 0).
  - exists 0. split; [lia|]. by rewrite He, !seqZ_nil by lia.
  - exists k. split; [lia|done].
Qed.

(** C30: The goroutines of the tracker terminate on their own: from any reachable
    state at most [total_work] further goroutine steps are possible, and as long
    as a goroutine exists one of them can take a step, so none is stuck. *)
Theorem retry_terminates (m : Z) (ls0 : list RetryLabel) (t : RetryTracker) :
  steps retry_step (NewRetryTracker m) ls0 t ->
  (forall ls t', steps retry_step t ls t' -> forallb is_loop_step ls = true ->
     Z.of_nat (length ls) <= total_work t) /\
  (loops t <> ∅ -> exists l t', is_loop_step l = true /\ retry_step t l t').
Proof.
  intros Hs. apply retry_reachable_inv in Hs as Hi. split.
  - intros ls t' Hrun. clear Hs. induction Hrun as [t|t l t1 ls t2 Hst _ IH]; intros Hl.
    + pose proof (total_work_nonneg t Hi). simpl. lia.
    + simpl in Hl. apply andb_true_iff in Hl as [Hl1 Hl2].
      pose proof (loop_step_work _ _ _ Hi Hl1 Hst).
      specialize (IH (retry_step_inv _ _ _ Hi Hst) Hl2). simpl length. lia.
  - intros Hne. apply map_choose in Hne as (g & l & Hg). destruct (lPhase l) eqn:Hp.
    + eexists _, _. split; [|by eapply retry_fire]. done.
    + eexists _, _. split; [|by eapply retry_evict]. done.
Qed.

(** C35: While no parent context is cancelled, every entry of the tracker is served.  The goroutine
    that serves it exists, is its own, was not cancelled and cannot end before its budget is used:
    it waits for one of the attempts 1 to the maximum and can make it, which leaves the entry to
    the same goroutine, now waiting for the next attempt or, after the last, about to evict it; or
    it has made the last attempt already and its next step is the eviction.  A Track of the same
    pair, ignored as a duplicate, leaves entry and goroutine as they are. *)
Theorem retry_entries_served (m : Z) (ls : list RetryLabel) (t : RetryTracker) (key conn : string) (g : nat) :
  steps retry_step (NewRetryTracker m) ls t -> Forall no_parent_cancel ls ->
  entry_of t key conn = Some g ->
  exists l, loops t !! g = Some l /\ lKey l = key /\ lConn l = conn /\ lCancelled l = false /\
    (forall t', ~ retry_step t (RDone g) t') /\
    match lPhase l with
    | Waiting => 1 <= lAttempt l <= m /\ exists t',
        retry_step t (RFire g key conn (lAttempt l)) t' /\ entry_of t' key conn = Some g /\
        loops t' !! g = Some (if lAttempt l <? m then mkLoop key conn (lParent l) (lAttempt l + 1) Waiting false
                              else mkLoop key conn (lParent l) m Evicting false)
    | Evicting => lAttempt l = m /\ exists t', retry_step t (REvict g) t' /\ entry_of t' key conn = None
    end /\
    forall parent conns, entry_of (Track parent key conns t) key conn = Some g /\
      loops (Track parent key conns t) !! g = Some l.
Proof.
  intros Hs Hnp Hg.
  assert (Hall : served t /\ retry_inv t /\ spent t /\ max t = m).
  { assert (H0 : served (NewRetryTracker m) /\ retry_inv (NewRetryTracker m) /\ spent (NewRetryTracker m) /\
      max (NewRetryTracker m) = m).
    { split_and!; [|apply retry_inv_New| |done].
      - split; [done|]. intros k c h. unfold entry_of. simpl. by rewrite lookup_empty.
      - intros h l. simpl. by rewrite lookup_empty. }
    revert Hnp H0. clear Hg. induction Hs as [|s l s1 ls s2 Hst _ IH]; [done|].
    intros [Hl Hls]%Forall_cons (H1 & H2 & H3 & H4). apply IH; [done|]. split_and!.
    - by eapply retry_step_served.
    - by eapply retry_step_inv.
    - by eapply retry_step_spent.
    - by rewrite (retry_step_max _ _ _ Hst). }
  destruct Hall as ([Hdead Hserved] & Hi & Hsp & Hm). destruct (Hserved key conn g Hg) as (l & Hl & Hc).
  destruct (ri_entry_loop t Hi _ _ _ _ Hg Hl) as [Hlk Hlc]. destruct (ri_loops t Hi g l Hl) as [Hlt Ha].
  exists l. split_and!; try done.
  - intros t' Hst. inversion Hst as [| | | | |? ? l0 Hl0 _ Hd|]; subst. assert (l0 = l) as -> by congruence.
    unfold done_ready in Hd. rewrite Hc, Hdead in Hd. apply bool_decide_eq_true in Hd. set_solver.
  - destruct (lPhase l) eqn:Hp.
    + split; [by rewrite <- Hm|]. exists (set_loop g (fired (max t) l) t). rewrite <- Hlk, <- Hlc. split_and!.
      * by apply retry_fire.
      * by rewrite <- Hlk, <- Hlc in Hg.
      * simpl. rewrite lookup_insert_eq. unfold fired. rewrite Hc, Hm.
        destruct (Z.ltb_spec (lAttempt l) m); [done|]. by replace (lAttempt l) with m by lia.
    + split; [rewrite <- Hm; by apply (Hsp g)|]. eexists. split; [by eapply retry_evict|].
      unfold entry_of. simpl. fold (at_entry (remove_entry (lKey l) (lConn l) (entries t)) key conn).
      rewrite remove_entry_lookup. by rewrite decide_True.
  - intros parent conns. destruct (decide (conns = [])); [by rewrite Track_noop by (by right)|].
    destruct (Track_spec parent key conns t Hi ltac:(lia) ltac:(done)) as [_ _ _ _ He Ho _].
    specialize (He key conn). rewrite Hg in He. by rewrite Ho.
Qed.

(** A duplicate Track can come too late: with one attempt, between the last callback and the
    eviction, it is ignored, and the eviction then leaves the pair without entry or goroutine, so
    what it asked for is never retried. *)
Theorem late_track_lost :
  exists t, steps retry_step (NewRetryTracker 1)
      [RTrack 0 "key" ["conn"]; RFire 0 "key" "conn" 1; RTrack 0 "key" ["conn"]; REvict 0] t /\
    entry_of t "key" "conn" = None /\ loops t = ∅.
Proof.
  eexists. split_and!.
  - eapply steps_cons; [apply retry_track|]. eapply steps_cons; [by apply (retry_fire _ 0 (new_loop 0 "key" "conn"))|].
    eapply steps_cons; [apply retry_track|].
    eapply steps_cons; [by apply (retry_evict _ 0 (mkLoop "key" "conn" 0 1 Evicting false))|]. apply steps_nil.
  - by vm_compute.
  - by vm_compute.
Qed.

(** Track starts one goroutine, at attempt 1, for each new connection of the
    key and ignores the connections that are already tracked; Ack then removes
    exactly that one entry and cancels its goroutine, leaving every other entry
    and goroutine as it was, and acknowledging an unknown pair changes
    nothing. *)
Theorem track_then_ack (parent : nat) (key conn : string) (conns : list string) (t : RetryTracker) :
  retry_inv t -> 0 < max t -> conn ∈ conns ->
  let t1 := Track parent key conns t in
  let t2 := Ack key conn t1 in
  exists g, entry_of t1 key conn = Some g /\
    match entry_of t key conn with
    | Some h => g = h /\ loops t1 !! g = loops t !! g
    | None => loops t1 !! g = Some (new_loop parent key conn)
    end /\
    (forall k c, entry_of t2 k c = if decide (k = key /\ c = conn) then None else entry_of t1 k c) /\
    (forall h, loops t2 !! h = (if decide (h = g) then cancel <$> loops t1 !! h else loops t1 !! h)) /\
    Ack key conn t2 = t2.
Proof.
  intros Hi Hmax Hin t1 t2.
  assert (Hne : conns <> []) by (intros ->; by apply not_elem_of_nil in Hin).
  destruct (Track_spec parent key conns t Hi Hmax Hne) as [_ _ _ _ He Ho _]. fold t1 in He, Ho.
  specialize (He key conn).
  assert (Hg : exists g, entry_of t1 key conn = Some g /\
    match entry_of t key conn with
    | Some h => g = h /\ loops t1 !! g = loops t !! g
    | None => loops t1 !! g = Some (new_loop parent key conn)
    end).
  { destruct (entry_of t key conn) as [h|] eqn:Hh.
    - exists h. split_and!; [done..|]. apply Ho. by eapply (ri_entries t Hi).
    - rewrite decide_True in He by done. destruct He as (g & ? & _ & ?). eauto. }
  destruct Hg as (g & Hg & Hm). exists g. split_and!; [done|done|intros k c; apply Ack_entry| |].
  - intros h. unfold t2, Ack. unfold entry_of in Hg.
    destruct (entries t1 !! key) as [states|]; [|done]. simpl in Hg. rewrite Hg. simpl.
    destruct (decide (h = g)) as [->|Hne']; [by rewrite lookup_alter_eq|by rewrite lookup_alter_ne].
  - assert (Hnone : entry_of t2 key conn = None) by (unfold t2; rewrite Ack_entry; by rewrite decide_True).
    unfold Ack, entry_of in *. destruct (entries t2 !! key) as [states|]; [|done].
    simpl in Hnone. by rewrite Hnone.
Qed.

(** Cancelling the parent context of a Track ends its goroutine without
    removing its entry, and from then on Track for the same key and connection
    starts nothing: the pair has an entry and no goroutine. *)
Theorem parent_cancel_leaks (m : Z) : 0 < m ->
  let t := Track 0 "key" ["conn"] (NewRetryTracker m) in
  exists t', steps retry_step t [RParent 0; RDone 0] t' /\
    is_Some (entry_of t' "key" "conn") /\ loops t' = ∅ /\
    forall parent, loops (Track parent "key" ["conn"] t') = ∅.
Proof.
  intros Hm t. destruct m as [|m|m]; [lia| |lia]. unfold t.
  eexists. split_and!.
  - eapply steps_cons; [apply retry_parent|]. eapply steps_cons; [|apply steps_nil].
    by eapply (retry_done _ 0).
  - by eexists.
  - done.
  - intros parent. done.
Qed.

(** The eviction after the last attempt deletes whatever entry the pair has
    by then: when an acknowledgement and a new Track slip in between the last
    callback and the eviction, the new goroutine loses its entry, and later
    acknowledgements of the pair are ignored although it keeps retrying. *)
Theorem stale_eviction :
  exists t, steps retry_step (NewRetryTracker 1)
      [ RTrack 0 "key" ["conn"]; RFire 0 "key" "conn" 1; RAck "key" "conn";
        RTrack 0 "key" ["conn"]; REvict 0 ] t /\
    loops t !! 1%nat = Some (new_loop 0 "key" "conn") /\
    forall key conn, Ack key conn t = t.
Proof.
  eexists. split_and!.
  - eapply steps_cons; [apply retry_track|]. eapply steps_cons; [by apply (retry_fire _ 0 (new_loop 0 "key" "conn"))|].
    eapply steps_cons; [apply retry_ack|]. eapply steps_cons; [apply retry_track|].
    eapply steps_cons; [by apply (retry_evict _ 0 (mkLoop "key" "conn" 0 1 Evicting true))|]. apply steps_nil.
  - by vm_compute.
  - intros key conn. unfold Ack. by vm_compute.
Qed.

(** ** Witnesses *)

Definition sample_retries : RetryTracker := Track 0 "key" ["c1"; "c2"] (NewRetryTracker 2).

Definition sample_retry_labels : list RetryLabel :=
  [ RTrack 0 "key" ["c1"; "c2"]; RFire 0 "key" "c1" 1; RFire 1 "key" "c2" 1; RFire 0 "key" "c1" 2 ].

Lemma sample_retry_run :
  exists t, steps retry_step (NewRetryTracker 2) sample_retry_labels t /\
    entry_of t "key" "c2" = Some 1%nat.
Proof.
  eexists. split.
  - eapply steps_cons; [apply retry_track|].
    eapply steps_cons; [by apply (retry_fire _ 0 (new_loop 0 "key" "c1"))|].
    eapply steps_cons; [by apply (retry_fire _ 1 (new_loop 0 "key" "c2"))|].
    eapply steps_cons; [by apply (retry_fire _ 0 (mkLoop "key" "c1" 0 2 Waiting false))|]. apply steps_nil.
  - by vm_compute.
Qed.

Lemma retry_budget_witness :
  exists t, steps retry_step (NewRetryTracker 2) sample_retry_labels t /\
    exists k, 0 <= k <= Z.max 0 2 /\ attempts_of 0 sample_retry_labels = seqZ 1 k.
Proof.
  destruct sample_retry_run as (t & Ht & _). exists t. split; [exact Ht|].
  exact (retry_budget 2 sample_retry_labels t 0 Ht).
Defined.

Lemma retry_terminates_witness :
  exists t, steps retry_step (NewRetryTracker 2) sample_retry_labels t /\
    (forall ls t', steps retry_step t ls t' -> forallb is_loop_step ls = true ->
       Z.of_nat (length ls) <= total_work t) /\
    (loops t <> ∅ -> exists l t', is_loop_step l = true /\ retry_step t l t').
Proof.
  destruct sample_retry_run as (t & Ht & _). exists t. split; [exact Ht|].
  exact (retry_terminates 2 sample_retry_labels t Ht).
Defined.

Lemma retry_entries_served_witness :
  exists t l, loops t !! 1%nat = Some l /\ lKey l = "key" /\ lConn l = "c2" /\ lCancelled l = false.
Proof.
  destruct sample_retry_run as (t & Ht & He). exists t.
  destruct (retry_entries_served 2 sample_retry_labels t "key" "c2" 1 Ht ltac:(repeat constructor) He)
    as (l & Hl & Hk & Hc & Hcan & _).
  exists l. split_and!; assumption.
Defined.

Lemma track_then_ack_witness :
  exists g, entry_of (Track 0 "key" ["c1"; "c2"] (NewRetryTracker 2)) "key" "c1" = Some g.
Proof.
  destruct (track_then_ack 0 "key" "c1" ["c1"; "c2"] (NewRetryTracker 2) (retry_inv_New 2)
    ltac:(reflexivity) ltac:(by left)) as (g & Hg & _).
  exists g. exact Hg.
Defined.

Lemma parent_cancel_leaks_witness :
  let t := Track 0 "key" ["conn"] (NewRetryTracker 3) in
  exists t', steps retry_step t [RParent 0; RDone 0] t' /\
    is_Some (entry_of t' "key" "conn") /\ loops t' = ∅ /\
    forall parent, loops (Track parent "key" ["conn"] t') = ∅.
Proof. exact (parent_cancel_leaks 3 ltac:(reflexivity)). Defined.
