(* ===== verification/Stream.v ===== *)
(** * internal/server/inapp.go and stream.go: the in-app channel

    The in-app provider allocates one StreamEvent per Send and pushes its
    pointer to every live connection of the user, so events live in a heap and
    the registry carries their addresses.  A stream handler is a goroutine of
    its own: [serve] becomes a step relation whose steps are the accesses to
    shared state (the registry, the connection's channel, the event on the heap)
    and the sends on its stream, whose outcome the client decides. *)

From S2P Require Import Prelude GoErrors GoStrings Model Notifier Wire Realtime.

Definition DefaultEventBufferPerConn : Z := 64.
Definition DefaultHeartbeatInterval : Z := 30 * 10 ^ 9.

(** ** State *)

(** Where the goroutine of one stream is in [serve]. *)
Inductive Handler : Type :=
| HHandshake           (* registered, handshake heartbeat not sent yet *)
| HSelect              (* in the select *)
| HGot (e : nat)       (* received an event, session id not written yet *)
| HStamped (e : nat)   (* wrote the session id, about to send *)
| HExit.               (* returning; Unregister is deferred *)

Record Streams := mkStreams {
  live : Live nat;                              (* registry and channels *)
  events : gmap nat StreamEvent;                (* the shared event objects *)
  nextEvent : nat;
  handlers : gmap nat Handler;                  (* running streams, by connection *)
  wire : gmap nat (list (option nat * StreamEvent)); (* what each client got, with its origin *)
}.

Definition no_streams : Streams := mkStreams NewRegistry ∅ 0 ∅ ∅.

Definition set_live (l : Live nat) (s : Streams) : Streams :=
  mkStreams l (events s) (nextEvent s) (handlers s) (wire s).
Definition set_handler (p : nat) (h : Handler) (s : Streams) : Streams :=
  mkStreams (live s) (events s) (nextEvent s) (<[p := h]> (handlers s)) (wire s).

Definition delivered_to (s : Streams) (p : nat) : list (option nat * StreamEvent) :=
  default [] (wire s !! p).

Definition conn_id (s : Streams) (p : nat) : string := from_option cID "" (heap (live s) !! p).

(** ** inapp.go *)

(** [&notifyv1.StreamEvent{...}] on the heap. *)
Definition publish (ev : StreamEvent) : M Streams nat := fun s =>
  (mkStreams (live s) (<[nextEvent s := ev]> (events s)) (S (nextEvent s)) (handlers s) (wire s),
   nextEvent s).

Definition lift_live {A} (m : M (Live nat) A) : M Streams A := lift live set_live m.

Definition inapp_event (n : option Notification) : StreamEvent :=
  mkStreamEvent "" (Some (StreamEvent_Notification (mkNotificationEvent (notificationToProto n)))).

(** [registry] says whether the provider was built over one. *)
Definition inapp_Send (registry : bool) (msg : Message) : M Streams (Receipt * option error) :=
  if negb registry
  then mret (mkReceipt "" StatusFailed, Some (ErrorsNew "inapp: no registry configured"))
  else match mNotification msg with
  | None => mret (mkReceipt "" StatusFailed, Some (ErrorsNew "inapp: message has no notification row"))
  | Some n =>
      e ← publish (inapp_event (Some n));
      delivered ← lift_live (Push (mTo msg) e);
      if delivered =? 0 then mret (mkReceipt "" StatusPending, None)
      else mret (mkReceipt "" StatusDelivered, None)
  end.

Definition newInAppProvider : Provider Streams :=
  mkProvider ChannelInApp "in_app_realtime" (inapp_Send true).

(** ** stream.go *)

Record streamHandler := mkStreamHandler { heartbeatInterval : Z; bufferSize : Z }.

Definition newStreamHandler (heartbeat buffer : Z) : streamHandler :=
  mkStreamHandler (if heartbeat <=? 0 then DefaultHeartbeatInterval else heartbeat)
    (if buffer <=? 0 then DefaultEventBufferPerConn else buffer).

Definition heartbeat (sessionID : string) (nowMS : Z) : StreamEvent :=
  mkStreamEvent sessionID (Some (StreamEvent_Heartbeat (mkHeartbeatEvent nowMS))).

(** [ev.SessionId = conn.ID], on the shared object. *)
Definition stamp (e : nat) (sessionID : string) (s : Streams) : Streams :=
  mkStreams (live s) (alter (fun ev => mkStreamEvent sessionID (Event ev)) e (events s))
    (nextEvent s) (handlers s) (wire s).

(** [stream.Send]: the client gets the message as it is now, or the call fails
    and the handler returns. *)
Definition stream_send (p : nat) (origin : option nat) (ev : StreamEvent) (ok : bool) (next : Handler)
    (s : Streams) : Streams :=
  if ok
  then mkStreams (live s) (events s) (nextEvent s) (<[p := next]> (handlers s))
         (<[p := delivered_to s p ++ [(origin, ev)]]> (wire s))
  else set_handler p HExit s.

Inductive StreamLabel : Type :=
| SOpen (p : nat) (userID tenantID : string)
| SPublish (e : nat) (ev : StreamEvent)
| SPush (p e : nat) (ok : bool)
| SHandler (p : nat).

Section serve.
Context `{MapOrder} (h : streamHandler).

Inductive serve_step : Streams -> StreamLabel -> Streams -> Prop :=
(* an authenticated request: NewConn, Register *)
| serve_open s l1 l2 u t d id at_ p :
    (forall q c, heap (live s) !! q = Some c -> cID c <> id) ->
    NewConn u t d (bufferSize h) id at_ (live s) = (l1, p) -> RegisterConn p l1 = (l2, tt) ->
    serve_step s (SOpen p u t) (set_handler p HHandshake (set_live l2 s))
(* the provider: a new event, and each of the sends of Push *)
| serve_publish s s' ev e : publish ev s = (s', e) -> serve_step s (SPublish e ev) s'
| serve_push s l' p e ok :
    is_Some (heap (live s) !! p) -> is_Some (events s !! e) ->
    trySend p e (live s) = (l', ok) -> serve_step s (SPush p e ok) (set_live l' s)
(* the goroutine of one stream *)
| serve_handshake s p ms ok :
    handlers s !! p = Some HHandshake ->
    serve_step s (SHandler p) (stream_send p None (heartbeat (conn_id s p) ms) ok HSelect s)
| serve_tick s p ms ok :
    handlers s !! p = Some HSelect ->
    serve_step s (SHandler p) (stream_send p None (heartbeat (conn_id s p) ms) ok HSelect s)
| serve_cancel s p :
    handlers s !! p = Some HSelect ->
    serve_step s (SHandler p) (set_handler p HExit s)
| serve_recv s l' p e :
    handlers s !! p = Some HSelect -> recv p (live s) = (l', Some e) ->
    serve_step s (SHandler p) (set_handler p (HGot e) (set_live l' s))
| serve_stamp s p e :
    handlers s !! p = Some (HGot e) ->
    serve_step s (SHandler p) (set_handler p (HStamped e) (stamp e (conn_id s p) s))
| serve_send s p e ev ok :
    handlers s !! p = Some (HStamped e) -> events s !! e = Some ev ->
    serve_step s (SHandler p) (stream_send p (Some e) ev ok HSelect s)
| serve_exit s l' p :
    handlers s !! p = Some HExit -> Unregister (conn_id s p) (live s) = (l', tt) ->
    serve_step s (SHandler p)
      (mkStreams l' (events s) (nextEvent s) (delete p (handlers s)) (wire s)).

End serve.

(** The events a connection accepted, in order. *)
Definition accepted (p : nat) (ls : list StreamLabel) : list nat :=
  omap (fun l => match l with
                 | SPush q e true => if decide (q = p) then Some e else None
                 | _ => None
                 end) ls.

(** The payload an event was published with. *)
Definition published (e : nat) (ls : list StreamLabel) : option isStreamEvent_Event :=
  head (omap (fun l => match l with
                       | SPublish f ev => if decide (f = e) then Event ev else None
                       | _ => None
                       end) ls).

(** The origins of what the client got that are not heartbeats. *)
Definition got (s : Streams) (p : nat) : list nat := omap fst (delivered_to s p).
