(* ===== verification/StreamProps.v ===== *)
(** * The in-app channel: what clients of StreamEvents get

    Invariants over every run of publishing, pushing and stream goroutines: a
    stream is registered exactly while its goroutine runs, its client gets the
    events its connection accepted, in order and with the published payload,
    and the session id on an event is the connection's own unless the same
    event object was also accepted by another connection. *)

From S2P Require Import Prelude GoErrors GoStrings Model StoreSpec Notifier Wire Realtime.
From S2P Require Import RealtimeProps Stream.

(** ** Steps of the registry *)

Section live.
Context {T : Type} `{MapOrder}.

Lemma live_step_heap (s s' : Live T) l p c : live_inv s -> live_step s l s' -> heap s !! p = Some c ->
  exists c', heap s' !! p = Some c' /\ cID c' = cID c /\ cUserID c' = cUserID c.
Proof.
  intros Hi Hs Hc. destruct Hs as [s s1 s2 u t d buffer id at_ r Hid Hn Hr|s s' id Hu|s s' r ev ok Hr Ht|s s' r ev Hr].
  - unfold NewConn in Hn. injection Hn as <- <-. unfold RegisterConn in Hr. simpl in Hr.
    rewrite lookup_insert_eq in Hr. injection Hr as <-. simpl. exists c. split; [|done].
    rewrite lookup_insert_ne; [done|]. intros <-. by rewrite (nextConn_fresh s Hi) in Hc.
  - apply (f_equal fst) in Hu. change ((Unregister id s).1 = s') in Hu. subst s'. exists c. split; [|done].
    destruct (registered_dec s id Hi) as [(u & r & d & Hp & Hd & <-)|Hno].
    + destruct (Unregister_hit s u r d Hi Hp Hd) as (Hh & _). by rewrite Hh.
    + by rewrite Unregister_miss.
  - pose proof (trySend_offered s r ev) as Hs. rewrite Ht in Hs. destruct Hs as (_ & _ & _ & Hh).
    rewrite Hh. case_decide; [|by exists c]. subst. rewrite Hc. simpl. eexists. split; [done|].
    unfold offered. by destruct (room c).
  - unfold recv in Hr. destruct (heap s !! r) as [d|] eqn:Hd; [|done].
    destruct (cQueue d) as [|ev' q]; [done|]. injection Hr as <- _. simpl.
    destruct (decide (p = r)) as [->|Hne].
    + rewrite lookup_insert_eq. eexists. split; [done|]. by simplify_eq.
    + rewrite lookup_insert_ne by done. by exists c.
Qed.

End live.

Section streams.
Context `{MapOrder} (h : streamHandler).

(** Every step of the streams is a step of the registry or leaves it alone. *)
Lemma serve_live s l s' : serve_step h s l s' ->
  live s' = live s /\ (forall p e ok, l <> SPush p e ok) \/
  exists ll, live_step (live s) ll (live s') /\
    (forall p, sent p [ll] = accepted p [l]).
Proof.
  intros Hs. destruct Hs as [s l1 l2 u t d id at_ p Hid Hn Hr|s s' ev e Hp|s l' p e ok Hp He Ht|s p ms ok Hp|s p ms ok Hp|
    s p Hp|s l' p e Hp Hr|s p e Hp|s p e ev ok Hp He|s l' p Hp Hu]; simpl.
  - right. exists (LOpen p u t d). split; [by eapply live_open|done].
  - left. unfold publish in Hp. injection Hp as <- _. done.
  - right. exists (LSend p e ok). split; [by apply live_send|]. done.
  - left. by destruct ok.
  - left. by destruct ok.
  - by left.
  - right. exists (LRecv p e). split; [by apply live_recv|done].
  - by left.
  - left. by destruct ok.
  - right. exists (LClose (conn_id s p)). split; [by apply live_close|done].
Qed.

Lemma serve_live_inv s l s' : live_inv (live s) -> serve_step h s l s' -> live_inv (live s').
Proof.
  intros Hi Hs. destruct (serve_live _ _ _ Hs) as [[-> _]|(ll & Hll & _)]; [done|].
  by eapply live_step_inv.
Qed.

Lemma serve_heap s l s' p c : live_inv (live s) -> serve_step h s l s' -> heap (live s) !! p = Some c ->
  exists c', heap (live s') !! p = Some c' /\ cID c' = cID c /\ cUserID c' = cUserID c.
Proof.
  intros Hi Hs Hc. destruct (serve_live _ _ _ Hs) as [[-> _]|(ll & Hll & _)]; [by exists c|].
  by eapply live_step_heap.
Qed.

Lemma serve_conn_id s l s' p : live_inv (live s) -> serve_step h s l s' ->
  is_Some (heap (live s) !! p) -> conn_id s' p = conn_id s p.
Proof.
  intros Hi Hs [c Hc]. destruct (serve_heap _ _ _ _ _ Hi Hs Hc) as (c' & Hc' & He & _).
  unfold conn_id. by rewrite Hc, Hc'.
Qed.

(** ** Registered exactly while the goroutine runs *)

Record reg_inv (s : Streams) : Prop := {
  rg_live : live_inv (live s);
  rg_handlers : forall p, is_Some (handlers s !! p) <-> exists u, registered (live s) u p;
  rg_wire : forall p, is_Some (wire s !! p) -> is_Some (heap (live s) !! p);
}.

Lemma reg_heap s p : reg_inv s -> is_Some (handlers s !! p) ->
  exists c, heap (live s) !! p = Some c /\ registered (live s) (cUserID c) p.
Proof.
  intros Hi Hp. apply (rg_handlers s Hi) in Hp as [u Hu].
  destruct (registered_heap _ u p (rg_live s Hi) Hu) as (c & Hc & <-). eauto.
Qed.

Lemma handlers_insert s p q hd hd' : handlers s !! p = Some hd ->
  is_Some (<[p := hd']> (handlers s) !! q) <-> is_Some (handlers s !! q).
Proof.
  intros Hp. destruct (decide (p = q)) as [->|Hne].
  - rewrite lookup_insert_eq, Hp. split; eauto.
  - by rewrite lookup_insert_ne.
Qed.

(** Steps that keep the registrations keep the invariant. *)
Lemma reg_inv_same s s' : reg_inv s -> live_inv (live s') ->
  (forall u p, registered (live s') u p <-> registered (live s) u p) ->
  (forall p, is_Some (handlers s' !! p) <-> is_Some (handlers s !! p)) ->
  (forall p, is_Some (heap (live s) !! p) -> is_Some (heap (live s') !! p)) ->
  (forall p, is_Some (wire s' !! p) -> is_Some (wire s !! p) \/ is_Some (handlers s !! p)) ->
  reg_inv s'.
Proof.
  intros Hi Hl Hr Hh Hheap Hw. split; [done| |].
  - intros p. rewrite Hh, (rg_handlers s Hi). by setoid_rewrite Hr.
  - intros p Hp. apply Hheap. destruct (Hw p Hp) as [Hp'|Hp']; [by apply (rg_wire s Hi)|].
    destruct (reg_heap s p Hi Hp') as (c & -> & _). eauto.
Qed.

Lemma stream_send_reg s p o ev ok next hd : reg_inv s -> handlers s !! p = Some hd ->
  reg_inv (stream_send p o ev ok next s).
Proof.
  intros Hi Hp. apply (reg_inv_same s); try done.
  - by destruct ok; apply Hi.
  - intros u q. by destruct ok.
  - intros q. destruct ok; by eapply handlers_insert.
  - intros q. by destruct ok.
  - intros q. destruct ok; simpl; [|by left]. destruct (decide (p = q)) as [->|Hne].
    + intros _. right. rewrite Hp. eauto.
    + rewrite lookup_insert_ne by done. by left.
Qed.

Lemma registered_queue (l : Live nat) p c u q :
  registered (mkLive (<[p := c]> (heap l)) (nextConn l) (byUser l)) u q <-> registered l u q.
Proof. done. Qed.

(** Registering a connection that was just built. *)
Lemma opened_registered (l l1 l2 : Live nat) u t d b id at_ p :
  NewConn u t d b id at_ l = (l1, p) -> RegisterConn p l1 = (l2, tt) ->
  forall v q, registered l2 v q <-> registered l v q \/ (q = p /\ v = u).
Proof.
  unfold NewConn. intros [= <- <-]. unfold RegisterConn. cbn. rewrite lookup_insert_eq. intros [= <-] v q.
  unfold registered, Connections. cbn. destruct (decide (v = u)) as [->|Hv].
  - rewrite lookup_insert_eq. cbn. rewrite elem_of_app, list_elem_of_singleton. naive_solver.
  - rewrite lookup_insert_ne by done. naive_solver.
Qed.

Lemma serve_step_reg s l s' : reg_inv s -> serve_step h s l s' -> reg_inv s'.
Proof.
  intros Hi Hs. pose proof (serve_live_inv s l s' (rg_live s Hi) Hs) as Hl'.
  assert (Hheap : forall p, is_Some (heap (live s) !! p) -> is_Some (heap (live s') !! p)).
  { intros p [c Hc]. destruct (serve_heap _ _ _ _ _ (rg_live s Hi) Hs Hc) as (c' & -> & _). eauto. }
  destruct Hs as [s l1 l2 u t d id at_ p Hid Hn Hr|s s' ev e Hp|s l' p e ok Hp He Ht|s p ms ok Hp|s p ms ok Hp|
    s p Hp|s l' p e Hp Hr|s p e Hp|s p e ev ok Hp He|s l' p Hp Hu].
  - pose proof (opened_registered _ _ _ _ _ _ _ _ _ _ Hn Hr) as Hreg. split; simpl; [done| |].
    + intros q. setoid_rewrite Hreg. destruct (decide (q = p)) as [->|Hne].
      * rewrite lookup_insert_eq. split; [intros _; exists u; by right|eauto].
      * rewrite lookup_insert_ne, (rg_handlers s Hi) by done. naive_solver.
    + intros q Hq. apply Hheap. by apply (rg_wire s Hi).
  - unfold publish in Hp. injection Hp as <- _. apply (reg_inv_same s); simpl; try done. by left.
  - pose proof (trySend_offered (live s) p e) as Hs. rewrite Ht in Hs. destruct Hs as (_ & Hb & _ & _).
    apply (reg_inv_same s); simpl; try done; [|by left]. intros u q. unfold registered, Connections. by rewrite Hb.
  - by eapply stream_send_reg.
  - by eapply stream_send_reg.
  - apply (reg_inv_same s); simpl; try done; [|by left]. intros q. by eapply handlers_insert.
  - unfold recv in Hr. destruct (heap (live s) !! p) as [c|] eqn:Hc; [|done].
    destruct (cQueue c) as [|ev q]; [done|]. injection Hr as <- _.
    apply (reg_inv_same s); simpl; try done; [|by left]. intros r. by eapply handlers_insert.
  - apply (reg_inv_same s); simpl; try done; [|by left]. intros q. by eapply handlers_insert.
  - by eapply stream_send_reg.
  - destruct (reg_heap s p Hi ltac:(eauto)) as (c & Hc & Hreg).
    pose proof (Unregister_hit (live s) (cUserID c) p c (rg_live s Hi) Hreg Hc) as Hw.
    assert (Hid : conn_id s p = cID c) by (unfold conn_id; by rewrite Hc).
    rewrite Hid in Hu. rewrite Hu in Hw. simpl in Hw, Hl'.
    assert (Hrg : forall v q, registered l' v q <-> registered (live s) v q /\ q <> p)
      by (intros v q; exact (without_registered _ _ _ _ (rg_live s Hi) Hreg Hw v q)).
    split; simpl; [done| |].
    + intros q. setoid_rewrite Hrg. destruct (decide (q = p)) as [->|Hne].
      * rewrite lookup_delete_eq. split; [by intros []|]. by intros (u & _ & ?).
      * rewrite lookup_delete_ne, (rg_handlers s Hi) by done.
        split; intros (u & Hu'); exists u; tauto.
    + intros q Hq. apply Hheap. by apply (rg_wire s Hi).
Qed.

(** ** What the clients get *)

Definition inflight (s : Streams) (p : nat) : list nat :=
  match handlers s !! p with Some (HGot e) | Some (HStamped e) => [e] | _ => [] end.

(** The goroutine will still send what its connection accepted. *)
Definition pumping (s : Streams) (p : nat) : bool :=
  match handlers s !! p with Some HExit | None => false | Some _ => true end.

Definition order_inv (s : Streams) (ls : list StreamLabel) : Prop :=
  forall p, (heap (live s) !! p = None -> accepted p ls = []) /\
  if pumping s p
  then accepted p ls = got s p ++ inflight s p ++ pending (live s) p
  else exists rest, accepted p ls = got s p ++ rest.

Lemma accepted_app p l1 l2 : accepted p (l1 ++ l2) = accepted p l1 ++ accepted p l2.
Proof. apply omap_app. Qed.

Lemma got_send s p o ev ok next q : got (stream_send p o ev ok next s) q =
  got s q ++ (if decide (q = p /\ ok = true) then match o with Some e => [e] | None => [] end else []).
Proof.
  unfold got, delivered_to. destruct ok; simpl.
  - destruct (decide (q = p)) as [->|Hne].
    + rewrite lookup_insert_eq, decide_True by done. simpl. unfold delivered_to. rewrite omap_app. by destruct o.
    + rewrite lookup_insert_ne, decide_False by (done || tauto). by rewrite app_nil_r.
  - rewrite decide_False by (by intros [_ ?]). by rewrite app_nil_r.
Qed.

(** How a registry step moves the queue of a connection. *)
Lemma pending_step (l l' : Live nat) ll q : live_inv l -> live_step l ll l' ->
  pending l q ++ sent q [ll] = received q [ll] ++ pending l' q.
Proof. intros Hi Hs. by apply live_step_fifo. Qed.

(** A step that only moves a handler, within what is still to be sent or out of
    the loop. *)
Lemma order_move s s' ls l : order_inv s ls -> live s' = live s -> (forall q, accepted q [l] = []) ->
  (forall q, got s' q ++ inflight s' q = got s q ++ inflight s q /\ pumping s' q = pumping s q \/
             pumping s' q = false /\ (got s' q = got s q)) ->
  order_inv s' (ls ++ [l]).
Proof.
  intros Ho Hl Ha Hq q. destruct (Ho q) as [Hn Hp]. rewrite accepted_app, Ha, app_nil_r, Hl. split; [done|].
  destruct (Hq q) as [[Hg ->]|[-> Hg]].
  - destruct (pumping s q) eqn:Hpq.
    + by rewrite Hp, !app_assoc, Hg.
    + destruct Hp as [rest Hp]. destruct (decide (inflight s q = [])) as [He|He].
      * rewrite He, app_nil_r in Hg. rewrite Hp, <- Hg, <- app_assoc. eauto.
      * unfold pumping, inflight in *. by destruct (handlers s !! q) as [[]|].
  - rewrite Hg. destruct (pumping s q); [|done]. eauto.
Qed.

Lemma stream_send_order s p o ev ok ls hd : order_inv s ls -> handlers s !! p = Some hd -> hd <> HExit ->
  inflight s p = match o with Some e => [e] | None => [] end ->
  order_inv (stream_send p o ev ok HSelect s) (ls ++ [SHandler p]).
Proof.
  intros Ho Hp Hne Hin. apply (order_move s); [done|by destruct ok|done|].
  intros q. rewrite got_send. destruct (decide (q = p)) as [->|Hqp].
  - destruct ok; simpl.
    + left. rewrite decide_True by done. rewrite Hin. unfold inflight, pumping. simpl.
      rewrite lookup_insert_eq, Hp. simpl. rewrite app_nil_r. split; [done|]. by destruct hd.
    + right. rewrite decide_False by (by intros [_ ?]). unfold pumping. simpl. by rewrite lookup_insert_eq, app_nil_r.
  - left. rewrite decide_False by tauto. rewrite app_nil_r.
    unfold inflight, pumping. by destruct ok; simpl; rewrite lookup_insert_ne.
Qed.

(** A step of the registry, which moves the queues. *)
Lemma order_live s s' ls l ll : reg_inv s -> order_inv s ls -> live_step (live s) ll (live s') ->
  (forall q, accepted q [l] = sent q [ll]) ->
  (forall q, heap (live s) !! q = None -> accepted q [l] = []) ->
  (forall q, (heap (live s) !! q = None -> accepted q ls = []) ->
     pending (live s) q ++ accepted q [l] = received q [ll] ++ pending (live s') q ->
     (if pumping s q then accepted q ls = got s q ++ inflight s q ++ pending (live s) q
      else exists rest, accepted q ls = got s q ++ rest) ->
     if pumping s' q then accepted q ls ++ accepted q [l] = got s' q ++ inflight s' q ++ pending (live s') q
     else exists rest, accepted q ls ++ accepted q [l] = got s' q ++ rest) ->
  order_inv s' (ls ++ [l]).
Proof.
  intros Hi Ho Hll Ha Hnone Hq q. destruct (Ho q) as [Hno Hp].
  pose proof (pending_step _ _ _ q (rg_live s Hi) Hll) as Hf. rewrite <- Ha in Hf. rewrite accepted_app. split; [|by apply Hq].
  intros Hn. assert (heap (live s) !! q = None) as Hn0.
  { destruct (heap (live s) !! q) as [c|] eqn:Hc; [|done].
    destruct (live_step_heap _ _ _ _ _ (rg_live s Hi) Hll Hc) as (c' & Hc' & _). congruence. }
  by rewrite Hno, Hnone.
Qed.

Lemma serve_step_order s l s' ls : reg_inv s -> order_inv s ls -> serve_step h s l s' ->
  order_inv s' (ls ++ [l]).
Proof.
  intros Hi Ho Hs.
  destruct Hs as [s l1 l2 u t d id at_ p Hid Hn Hr|s s' ev e Hp|s l' p e ok Hp He Ht|s p ms ok Hp|s p ms ok Hp|
    s p Hp|s l' p e Hp Hr|s p e Hp|s p e ev ok Hp He|s l' p Hp Hu].
  - assert (Hfresh : heap (live s) !! p = None).
    { unfold NewConn in Hn. injection Hn as _ <-. by apply nextConn_fresh, Hi. }
    apply (order_live s _ _ _ (LOpen p u t d)); [done|done|by eapply live_open|done|done|].
    intros q Hno. rewrite !app_nil_r. intros Hf Hq. unfold pumping, inflight, got, delivered_to in *. simpl in *.
    destruct (decide (q = p)) as [->|Hne].
    + rewrite lookup_insert_eq, <- Hf. rewrite (Hno Hfresh). unfold pending. rewrite Hfresh. simpl.
      destruct (wire s !! p) eqn:Hw; [|done]. destruct (rg_wire s Hi p ltac:(eauto)) as [c Hc]. congruence.
    + rewrite lookup_insert_ne, <- Hf by done. exact Hq.
  - unfold publish in Hp. injection Hp as <- _. apply (order_move s); try done. by left.
  - apply (order_live s _ _ _ (LSend p e ok)); [done|done|by apply live_send|done| |].
    + intros q Hq. unfold accepted. simpl. destruct (decide (p = q)) as [->|]; [|by destruct ok]. destruct Hp. congruence.
    + intros q _ Hf Hq. change (received q [LSend p e ok]) with (@nil nat) in Hf. simpl in Hf.
      change (pumping (set_live l' s) q) with (pumping s q). change (got (set_live l' s) q) with (got s q).
      change (inflight (set_live l' s) q) with (inflight s q). change (live (set_live l' s)) with l'. rewrite <- Hf.
      destruct (pumping s q); [by rewrite Hq, <- !app_assoc|]. destruct Hq as [rest ->]. rewrite <- app_assoc. eauto.
  - eapply stream_send_order; try done. unfold inflight. by rewrite Hp.
  - eapply stream_send_order; try done. unfold inflight. by rewrite Hp.
  - apply (order_move s); try done. intros q. destruct (decide (q = p)) as [->|Hne].
    + right. unfold pumping. simpl. by rewrite lookup_insert_eq.
    + left. unfold inflight, pumping. simpl. by rewrite lookup_insert_ne.
  - apply (order_live s _ _ _ (LRecv p e)); [done|done|by apply live_recv|done|done|].
    intros q _. rewrite !app_nil_r. unfold received. simpl. intros Hf Hq. unfold pumping, inflight, got, delivered_to in *.
    simpl in *. destruct (decide (q = p)) as [->|Hne].
    + rewrite lookup_insert_eq. rewrite Hp in Hq. rewrite decide_True in Hf by done. simpl in Hf, Hq. by rewrite Hq, Hf.
    + rewrite lookup_insert_ne by done. rewrite decide_False in Hf by done. simpl in Hf. rewrite <- Hf. exact Hq.
  - apply (order_move s); try done. intros q. left. destruct (decide (q = p)) as [->|Hne].
    + unfold inflight, pumping. simpl. by rewrite lookup_insert_eq, Hp.
    + unfold inflight, pumping. simpl. by rewrite lookup_insert_ne.
  - eapply stream_send_order; try done. unfold inflight. by rewrite Hp.
  - apply (order_live s _ _ _ (LClose (conn_id s p))); [done|done|by apply live_close|done|done|].
    intros q _. rewrite !app_nil_r. intros Hf Hq. unfold pumping, inflight, got, delivered_to in *. simpl in *.
    destruct (decide (q = p)) as [->|Hne]; [rewrite lookup_delete_eq; by rewrite Hp in Hq|].
    rewrite lookup_delete_ne, <- Hf by done. exact Hq.
Qed.

(** ** Payloads and session ids *)

(** Another connection accepted the same event object. *)
Definition shared (e p : nat) (ls : list StreamLabel) : Prop := exists q, q <> p /\ e ∈ accepted q ls.

(** The session id of an event sent to [p] is its own, or the object is shared. *)
Definition own_session (s : Streams) (p e : nat) (ev : StreamEvent) (ls : list StreamLabel) : Prop :=
  SessionId ev = conn_id s p \/ shared e p ls.

Record event_inv (s : Streams) (ls : list StreamLabel) : Prop := {
  ev_published : forall e ev, events s !! e = Some ev -> (e < nextEvent s)%nat /\ published e ls = Event ev;
  ev_fresh : forall e, (nextEvent s <= e)%nat -> published e ls = None;
  ev_known : forall p e, e ∈ accepted p ls -> is_Some (events s !! e);
  ev_stamped : forall p e, handlers s !! p = Some (HStamped e) ->
    exists ev, events s !! e = Some ev /\ own_session s p e ev ls;
  ev_wire : forall p o ev, (o, ev) ∈ delivered_to s p ->
    match o with
    | None => exists ms, ev = heartbeat (conn_id s p) ms
    | Some e => (e < nextEvent s)%nat /\ published e ls = Event ev /\ own_session s p e ev ls
    end;
}.

Lemma published_app e l1 l2 : published e (l1 ++ l2) =
  match published e l1 with Some x => Some x | None => published e l2 end.
Proof. unfold published. rewrite omap_app. by destruct (omap _ l1). Qed.

Lemma published_snoc s e l s' ls : serve_step h s l s' ->
  (e < nextEvent s)%nat -> published e (ls ++ [l]) = published e ls.
Proof.
  intros Hs He. rewrite published_app. destruct (published e ls) eqn:Hp; [done|].
  destruct Hs as [|s s' ev f Hpub| | | | | | | |]; try done.
  unfold publish in Hpub. injection Hpub as _ <-. unfold published. simpl.
  by rewrite decide_False by lia.
Qed.

Lemma shared_mono e p ls l : shared e p ls -> shared e p (ls ++ l).
Proof. intros (q & ? & ?). exists q. split; [done|]. rewrite accepted_app. apply elem_of_app. by left. Qed.

(** Only an existing event is accepted. *)
Lemma accepted_snoc s l s' ls p e : serve_step h s l s' ->
  e ∈ accepted p (ls ++ [l]) -> e ∈ accepted p ls \/ is_Some (events s !! e).
Proof.
  intros Hs. rewrite accepted_app, elem_of_app. intros [?|Hin]; [by left|]. right.
  destruct Hs as [| |s l' q f ok Hp He Ht| | | | | | |]; try by apply not_elem_of_nil in Hin.
  unfold accepted in Hin. simpl in Hin. destruct ok; simpl in Hin; [|by apply not_elem_of_nil in Hin].
  case_decide; [|by apply not_elem_of_nil in Hin]. by apply list_elem_of_singleton in Hin as ->.
Qed.

(** Steps that neither touch the events nor send. *)
Lemma event_inv_frame s s' ls l : reg_inv s -> event_inv s ls -> serve_step h s l s' ->
  events s' = events s -> nextEvent s' = nextEvent s -> wire s' = wire s ->
  (forall p e, handlers s' !! p = Some (HStamped e) -> handlers s !! p = Some (HStamped e)) ->
  event_inv s' (ls ++ [l]).
Proof.
  intros Hi He Hs Hev Hne Hw Hst.
  assert (Hpub : forall e, (e < nextEvent s)%nat -> published e (ls ++ [l]) = published e ls)
    by (intros e; by eapply published_snoc).
  assert (Hid : forall p, is_Some (heap (live s) !! p) -> conn_id s' p = conn_id s p)
    by (intros p; by eapply serve_conn_id; [apply Hi|]).
  split; rewrite ?Hev, ?Hne.
  - intros e ev Hl. destruct (ev_published s ls He e ev Hl) as [Hlt <-]. split; [done|by apply Hpub].
  - intros e Hge. rewrite published_app, (ev_fresh s ls He e Hge).
    destruct Hs as [|s s' ev f Hp| | | | | | | |]; try done. unfold publish in Hp. injection Hp as <- _.
    simpl in Hne. lia.
  - intros p e Hin. destruct (accepted_snoc _ _ _ _ _ _ Hs Hin); [by eapply (ev_known s ls He)|done].
  - intros p e Hp. apply Hst in Hp. destruct (ev_stamped s ls He p e Hp) as (ev & Hl & Ho).
    exists ev. split; [done|]. destruct (reg_heap s p Hi ltac:(eauto)) as (c & Hc & _).
    unfold own_session. rewrite Hid by eauto. destruct Ho; [by left|right; by apply shared_mono].
  - intros p o ev. unfold delivered_to. rewrite Hw. intros Hin.
    assert (Hp : is_Some (heap (live s) !! p)).
    { apply (rg_wire s Hi). destruct (wire s !! p); [eauto|by apply not_elem_of_nil in Hin]. }
    pose proof (ev_wire s ls He p o ev Hin) as Hwire. destruct o as [e|].
    + destruct Hwire as (Hlt & Hpe & Ho). rewrite Hpub by done. split_and!; [done..|].
      unfold own_session. rewrite (Hid p Hp). destruct Ho; [by left|right; by apply shared_mono].
    + by rewrite (Hid p Hp).
Qed.

Lemma event_inv_send s p o ev ok ls hd : reg_inv s -> event_inv s ls -> handlers s !! p = Some hd ->
  match o with
  | None => exists ms, ev = heartbeat (conn_id s p) ms
  | Some e => (e < nextEvent s)%nat /\ published e ls = Event ev /\ own_session s p e ev ls
  end ->
  event_inv (stream_send p o ev ok HSelect s) (ls ++ [SHandler p]).
Proof.
  intros Hi He Hp Ho.
  assert (Hpub : forall e, published e (ls ++ [SHandler p]) = published e ls)
    by (intros e; rewrite published_app; by destruct (published e ls)).
  assert (Hsh : forall e q, shared e q ls -> shared e q (ls ++ [SHandler p])) by (intros *; apply shared_mono).
  assert (Hcid : forall q, conn_id (stream_send p o ev ok HSelect s) q = conn_id s q) by (intros q; by destruct ok).
  assert (Hevs : events (stream_send p o ev ok HSelect s) = events s) by by destruct ok.
  assert (Hnx : nextEvent (stream_send p o ev ok HSelect s) = nextEvent s) by by destruct ok.
  split; rewrite ?Hevs, ?Hnx; try setoid_rewrite Hpub.
  - apply He.
  - apply He.
  - intros q e. rewrite accepted_app, app_nil_r. apply He.
  - intros q e Hq. assert (Hq' : handlers s !! q = Some (HStamped e)).
    { destruct ok; simpl in Hq; by apply lookup_insert_Some in Hq as [[_ ?]|[_ ?]]. }
    destruct (ev_stamped s ls He q e Hq') as (ev' & Hl & Hown). exists ev'. split; [done|].
    unfold own_session. rewrite Hcid. destruct Hown; [by left|right; auto].
  - intros q o' ev' Hin. rewrite Hcid.
    assert (Hold : (o', ev') ∈ delivered_to s q \/ (q = p /\ o' = o /\ ev' = ev)).
    { destruct ok; [|by left]. unfold delivered_to in Hin at 1. simpl in Hin.
      destruct (decide (q = p)) as [->|Hne].
      - rewrite lookup_insert_eq in Hin. simpl in Hin. apply elem_of_app in Hin as [?|Hin]; [by left|].
        apply list_elem_of_singleton in Hin as [= -> ->]. by right.
      - rewrite lookup_insert_ne in Hin by done. by left. }
    assert (Hgood : match o' with
      | None => exists ms, ev' = heartbeat (conn_id s q) ms
      | Some e => (e < nextEvent s)%nat /\ published e ls = Event ev' /\ own_session s q e ev' ls
      end) by (destruct Hold as [Hold|(-> & -> & ->)]; [by apply (ev_wire s ls He)|done]).
    destruct o' as [e|]; [|done]. destruct Hgood as (? & ? & Hown). rewrite Hpub. split_and!; [done..|].
    unfold own_session. rewrite Hcid. destruct Hown; [by left|right; auto].
Qed.

Lemma got_inflight s ls p e : order_inv s ls ->
  handlers s !! p = Some (HGot e) \/ handlers s !! p = Some (HStamped e) -> e ∈ accepted p ls.
Proof.
  intros Ho Hp. destruct (Ho p) as [_ Hq]. unfold pumping, inflight in Hq.
  destruct Hp as [Hp|Hp]; rewrite Hp in Hq; rewrite Hq; set_solver.
Qed.

Lemma event_inv_publish s ev ls : event_inv s ls ->
  event_inv (publish ev s).1 (ls ++ [SPublish (nextEvent s) ev]).
Proof.
  intros He. simpl.
  assert (Hpub : forall f, (f < nextEvent s)%nat ->
    published f (ls ++ [SPublish (nextEvent s) ev]) = published f ls) by (intros f; eapply published_snoc, serve_publish; reflexivity).
  split; simpl.
  + intros f ev'. rewrite lookup_insert_Some. intros [[<- <-]|[_ Hf]].
    * split; [lia|]. rewrite published_app, (ev_fresh s ls He) by done. unfold published. simpl.
      rewrite decide_True by done. by destruct (Event ev).
    * destruct (ev_published s ls He f ev' Hf) as [Hlt <-]. split; [lia|by apply Hpub].
  + intros f Hf. rewrite published_app, (ev_fresh s ls He) by lia. unfold published. simpl.
    by rewrite decide_False by lia.
  + intros p e. rewrite accepted_app, app_nil_r, lookup_insert_is_Some'. right. by eapply (ev_known s ls He).
  + intros p e Hp. destruct (ev_stamped s ls He p e Hp) as (ev' & Hl & Hown). exists ev'. split.
    * rewrite lookup_insert_ne; [done|]. apply (ev_published s ls He) in Hl as [? _]. lia.
    * destruct Hown; [by left|right; by apply shared_mono].
  + intros p o ev' Hin. pose proof (ev_wire s ls He p o ev' Hin) as Hw. destruct o as [e|]; [|done].
    destruct Hw as (Hlt & Hpe & Hown). rewrite Hpub by done. split_and!; [lia|done|].
    destruct Hown; [by left|right; by apply shared_mono].
Qed.

(** The write to the shared object. *)
Lemma event_inv_stamp s p e ls : order_inv s ls -> event_inv s ls -> handlers s !! p = Some (HGot e) ->
  event_inv (set_handler p (HStamped e) (stamp e (conn_id s p) s)) (ls ++ [SHandler p]).
Proof.
  intros Ho He Hp.
  assert (Hpub : forall f, published f (ls ++ [SHandler p]) = published f ls)
    by (intros f; rewrite published_app; by destruct (published f ls)).
  split; simpl; try setoid_rewrite Hpub.
  + intros f ev. rewrite lookup_alter_Some. intros [(<- & ev0 & Hl & ->)|[_ Hl]]; [|by apply (ev_published s ls He)].
    by destruct (ev_published s ls He e ev0 Hl).
  + apply He.
  + intros q f. rewrite accepted_app, app_nil_r, lookup_alter_is_Some. apply He.
  + intros q f. rewrite lookup_insert_Some. intros [[<- [= <-]]|[Hne Hq]].
    * destruct (ev_known s ls He p e) as [ev Hl]; [eapply got_inflight; eauto|].
      eexists. rewrite lookup_alter_eq, Hl. split; [done|by left].
    * destruct (ev_stamped s ls He q f Hq) as (ev & Hl & Hown). destruct (decide (f = e)) as [->|Hfe].
      { eexists. rewrite lookup_alter_eq, Hl. split; [done|]. right. exists p. split; [done|].
        rewrite accepted_app. apply elem_of_app. left. eapply got_inflight; eauto. }
      { exists ev. rewrite lookup_alter_ne by done. split; [done|].
        destruct Hown; [by left|right; by apply shared_mono]. }
  + intros q o ev Hin. pose proof (ev_wire s ls He q o ev Hin) as Hw. destruct o as [f|]; [|done].
    destruct Hw as (? & ? & Hown). rewrite Hpub. split_and!; [done..|].
    destruct Hown; [by left|right; by apply shared_mono].
Qed.

Lemma serve_step_events s l s' ls : reg_inv s -> order_inv s ls -> event_inv s ls -> serve_step h s l s' ->
  event_inv s' (ls ++ [l]).
Proof.
  intros Hi Ho He Hs. pose proof Hs as Hs0.
  destruct Hs as [s l1 l2 u t d id at_ p Hid Hn Hr|s s' ev e Hp|s l' p e ok Hp Hev Ht|s p ms ok Hp|s p ms ok Hp|
    s p Hp|s l' p e Hp Hr|s p e Hp|s p e ev ok Hp Hev|s l' p Hp Hu].
  - apply (event_inv_frame s); try done. simpl. intros q e. rewrite lookup_insert_Some. by intros [[_ ?]|[_ ?]].
  - unfold publish in Hp. injection Hp as <- <-. by apply (event_inv_publish s ev).
  - by apply (event_inv_frame s).
  - eapply event_inv_send; eauto.
  - eapply event_inv_send; eauto.
  - apply (event_inv_frame s); try done. simpl. intros q e. rewrite lookup_insert_Some. by intros [[_ ?]|[_ ?]].
  - apply (event_inv_frame s); try done. simpl. intros q f. rewrite lookup_insert_Some. by intros [[_ ?]|[_ ?]].
  - by apply event_inv_stamp.
  - eapply event_inv_send; eauto. destruct (ev_published s ls He e ev Hev) as [? ?]. split_and!; [done..|].
    destruct (ev_stamped s ls He p e Hp) as (ev' & Hl & Hown). by simplify_eq.
  - apply (event_inv_frame s); try done. simpl. intros q e. rewrite lookup_delete_Some. by intros [_ ?].
Qed.

Lemma serve_run s ls s' : steps (serve_step h) s ls s' -> forall ls0,
  reg_inv s -> order_inv s ls0 -> event_inv s ls0 ->
  reg_inv s' /\ order_inv s' (ls0 ++ ls) /\ event_inv s' (ls0 ++ ls).
Proof.
  induction 1 as [s|s l s1 ls s2 Hs _ IH]; intros ls0 Hr Ho He; [by rewrite app_nil_r|].
  replace (ls0 ++ l :: ls) with ((ls0 ++ [l]) ++ ls) by by rewrite <- app_assoc.
  apply IH; [by eapply serve_step_reg|by eapply serve_step_order|by eapply serve_step_events].
Qed.

Lemma reg_inv_start : reg_inv no_streams.
Proof.
  split; simpl.
  - apply live_inv_New.
  - intros p. rewrite lookup_empty. split; [by intros []|]. intros [u Hu].
    unfold registered, Connections in Hu. simpl in Hu. rewrite lookup_empty in Hu. by apply not_elem_of_nil in Hu.
  - intros p. rewrite lookup_empty. by intros [].
Qed.

Lemma order_inv_start : order_inv no_streams [].
Proof. intros p. split; [done|]. unfold pumping. simpl. rewrite lookup_empty. by exists []. Qed.

Lemma event_inv_start : event_inv no_streams [].
Proof.
  split; simpl.
  - intros e ev. by rewrite lookup_empty.
  - done.
  - intros p e Hin. by apply not_elem_of_nil in Hin.
  - intros p e. by rewrite lookup_empty.
  - intros p o ev Hin. unfold delivered_to in Hin. simpl in Hin. rewrite lookup_empty in Hin.
    by apply not_elem_of_nil in Hin.
Qed.

Lemma streams_reachable ls s : steps (serve_step h) no_streams ls s ->
  reg_inv s /\ order_inv s ls /\ event_inv s ls.
Proof.
  intros Hs. apply (serve_run _ _ _ Hs []); [apply reg_inv_start|apply order_inv_start|apply event_inv_start].
Qed.
End streams.

(** ** Properties *)

(** C32: Under any interleaving of publishing, pushing and stream goroutines, a
    connection is in the registry exactly while its stream goroutine has not
    returned: every way out of the handler (cancellation, a failed heartbeat or
    event send, the handshake included) unregisters it, and nothing else does. *)
Theorem stream_registration `{MapOrder} (h : streamHandler) (ls : list StreamLabel) (s : Streams) (p : nat) :
  steps (serve_step h) no_streams ls s ->
  is_Some (handlers s !! p) <-> exists u, registered (live s) u p.
Proof. intros Hs. apply streams_reachable in Hs as [Hi _]. apply Hi. Qed.

(** C19: What a client received on its stream, heartbeats aside, is an initial
    segment of the events its connection accepted, in order and without
    repetition or loss; while its goroutine runs, the rest is what it holds and
    what is queued; every event arrives with the payload it was published
    with, and every heartbeat carries the connection's own session id. *)
Theorem stream_delivery `{MapOrder} (h : streamHandler) (ls : list StreamLabel) (s : Streams) (p : nat) :
  steps (serve_step h) no_streams ls s ->
  (if pumping s p
   then accepted p ls = got s p ++ inflight s p ++ pending (live s) p
   else exists rest, accepted p ls = got s p ++ rest) /\
  (forall e ev, (Some e, ev) ∈ delivered_to s p -> published e ls = Event ev) /\
  (forall ev, (None, ev) ∈ delivered_to s p -> exists ms, ev = heartbeat (conn_id s p) ms).
Proof.
  intros Hs. apply streams_reachable in Hs as (_ & Ho & He). split_and!; [apply Ho| |].
  - intros e ev Hin. by destruct (ev_wire s ls He p _ _ Hin) as (_ & ? & _).
  - intros ev Hin. exact (ev_wire s ls He p _ _ Hin).
Qed.

(** C28: An event reaches a client with the session id of that client's own
    connection, provided no other connection accepted the same event object (a
    user with a single live connection). *)
Theorem stream_session `{MapOrder} (h : streamHandler) (ls : list StreamLabel) (s : Streams) (p e : nat)
    (ev : StreamEvent) :
  steps (serve_step h) no_streams ls s -> (Some e, ev) ∈ delivered_to s p ->
  (forall q, e ∈ accepted q ls -> q = p) -> SessionId ev = conn_id s p.
Proof.
  intros Hs Hin Hown. apply streams_reachable in Hs as (_ & _ & He).
  destruct (ev_wire s ls He p _ _ Hin) as (_ & _ & [?|(q & Hq & Hqe)]); [done|].
  by destruct Hq; apply Hown.
Qed.

(** The in-app provider never fails once it is built over a registry: the
    row of the message becomes one new event carrying its client view, offered
    to every live connection of the destination user and to no other; the
    receipt says delivered exactly when at least one of them had room, pending
    otherwise. *)
Theorem inapp_send (msg : Message) (n : Notification) (s : Streams) :
  live_inv (live s) -> mNotification msg = Some n ->
  let '(s', (receipt, err)) := Send newInAppProvider msg s in
  let e := nextEvent s in
  let ready := count (has_room (live s)) (Connections (mTo msg) (live s)) in
  err = None /\
  rStatus receipt = (if (ready =? 0)%nat then StatusPending else StatusDelivered) /\
  events s' !! e = Some (mkStreamEvent "" (Some (StreamEvent_Notification
    (mkNotificationEvent (Some (notification_view n)))))) /\
  forall p, heap (live s') !! p =
    if decide (registered (live s) (mTo msg) p) then offered e <$> heap (live s) !! p
    else heap (live s) !! p.
Proof.
  intros Hi Hn. simpl. unfold inapp_Send. rewrite Hn. simpl. unfold publish, lift_live. unfold_M. simpl.
  pose proof (push_loop_spec (Connections (mTo msg) (live s)) (nextEvent s)
    (Connections_NoDup _ _ Hi) 0 (live s)) as Hp.
  unfold Push. destruct (push_loop _ _ 0 (live s)) as [l' k]. destruct Hp as (-> & Hb & _ & Hh).
  set (ready := count (has_room (live s)) (Connections (mTo msg) (live s))).
  destruct (Z.eqb_spec (0 + Z.of_nat ready) 0) as [Hz|Hz], (Nat.eqb_spec ready 0) as [Hz'|Hz']; try lia;
    simpl; (split_and!; [done|done|by rewrite lookup_insert_eq|exact Hh]).
Qed.

(** The in-app provider looks at the destination user only: a connection of
    the same user id in another tenant that has room is sent the notification
    too. *)
Theorem inapp_crosses_tenants (msg : Message) (n : Notification) (s : Streams) (p : nat) (c : Conn nat) :
  live_inv (live s) -> mNotification msg = Some n ->
  registered (live s) (mTo msg) p -> heap (live s) !! p = Some c -> room c = true ->
  cTenantID c <> nTenantID n ->
  let '(s', (receipt, _)) := Send newInAppProvider msg s in
  rStatus receipt = StatusDelivered /\
  exists c', heap (live s') !! p = Some c' /\ cTenantID c' = cTenantID c /\
    cQueue c' = cQueue c ++ [nextEvent s] /\
    events s' !! nextEvent s = Some (inapp_event (Some n)).
Proof.
  intros Hi Hn Hp Hc Hroom _. simpl. unfold inapp_Send. rewrite Hn. simpl.
  unfold publish, lift_live. unfold_M. simpl.
  pose proof (push_loop_spec (Connections (mTo msg) (live s)) (nextEvent s)
    (Connections_NoDup _ _ Hi) 0 (live s)) as Hpush.
  unfold Push. destruct (push_loop _ _ 0 (live s)) as [l' k]. destruct Hpush as (-> & _ & _ & Hh).
  assert (Hready : (0 < count (has_room (live s)) (Connections (mTo msg) (live s)))%nat).
  { apply count_pos with p; [done|]. unfold has_room. by rewrite Hc. }
  destruct (Z.eqb_spec (0 + Z.of_nat (count (has_room (live s)) (Connections (mTo msg) (live s)))) 0) as [Hz|Hz]; [lia|].
  simpl. split; [done|]. exists (offered (nextEvent s) c). rewrite Hh, decide_True, Hc by done. simpl.
  unfold offered. rewrite Hroom. by rewrite lookup_insert_eq.
Qed.

(** ** Runs *)

Definition sample_handler : streamHandler := newStreamHandler 0 0.

Section runs.
Context `{MapOrder}.
Notation step := (serve_step sample_handler).

(** The executable form of the steps, for building runs. *)
Definition do_open (u t d id : string) (s : Streams) : Streams :=
  set_handler (nextConn (live s)) HHandshake (set_live (open_conn u t d 64 id (live s)) s).
Definition do_publish (ev : StreamEvent) (s : Streams) : Streams := (publish ev s).1.
Definition do_push (p e : nat) (s : Streams) : Streams := set_live (trySend p e (live s)).1 s.
Definition do_heartbeat (p : nat) (ms : Z) (s : Streams) : Streams :=
  stream_send p None (heartbeat (conn_id s p) ms) true HSelect s.
Definition do_recv (p : nat) (s : Streams) : Streams :=
  match recv p (live s) with
  | (l', Some e) => set_handler p (HGot e) (set_live l' s)
  | _ => s
  end.
Definition do_stamp (p e : nat) (s : Streams) : Streams := set_handler p (HStamped e) (stamp e (conn_id s p) s).
Definition do_send (p e : nat) (s : Streams) : Streams :=
  match events s !! e with Some ev => stream_send p (Some e) ev true HSelect s | None => s end.

Lemma step_open s u t d id s' :
  bool_decide (map_Forall (fun _ c => cID c <> id) (heap (live s))) = true -> do_open u t d id s = s' ->
  step s (SOpen (nextConn (live s)) u t) s'.
Proof.
  intros Hid <-. unfold do_open. eapply (serve_open _ _ _ _ u t d id 0); [by apply fresh_id|reflexivity|].
  unfold open_conn. by destruct (RegisterConn _ _) as [l []].
Qed.

Lemma step_publish s ev s' : do_publish ev s = s' -> step s (SPublish (nextEvent s) ev) s'.
Proof. intros <-. by apply serve_publish. Qed.

Lemma step_push s p e s' :
  is_Some (heap (live s) !! p) -> is_Some (events s !! e) -> do_push p e s = s' ->
  step s (SPush p e (trySend p e (live s)).2) s'.
Proof. intros Hp He <-. apply serve_push; [done..|]. by destruct (trySend p e (live s)). Qed.

Lemma step_handshake s p ms s' : handlers s !! p = Some HHandshake -> do_heartbeat p ms s = s' ->
  step s (SHandler p) s'.
Proof. intros Hp <-. by apply (serve_handshake _ _ p ms true). Qed.

Lemma step_recv s p e s' : handlers s !! p = Some HSelect -> (recv p (live s)).2 = Some e ->
  do_recv p s = s' -> step s (SHandler p) s'.
Proof.
  intros Hp He <-. unfold do_recv. destruct (recv p (live s)) as [l' [e'|]] eqn:Hr; [|done].
  by apply (serve_recv _ _ l' p e').
Qed.

Lemma step_stamp s p e s' : handlers s !! p = Some (HGot e) -> do_stamp p e s = s' -> step s (SHandler p) s'.
Proof. intros Hp <-. by apply serve_stamp. Qed.

Lemma step_send s p e s' : handlers s !! p = Some (HStamped e) -> is_Some (events s !! e) ->
  do_send p e s = s' -> step s (SHandler p) s'.
Proof. intros Hp [ev He] <-. unfold do_send. rewrite He. by apply (serve_send _ _ p e ev true). Qed.
End runs.

Ltac next_step lemma :=
  eapply steps_cons; [eapply lemma; vm_compute; first [reflexivity | eexists; reflexivity] |].

Definition one_stream_labels : list StreamLabel :=
  [ SOpen 0 "u1" "acme"; SHandler 0; SPublish 0 (inapp_event None); SPush 0 0 true;
    SHandler 0; SHandler 0; SHandler 0 ].

(** One client: handshake, one event received, stamped and sent. *)
Lemma one_stream_run `{MapOrder} :
  exists s, steps (serve_step sample_handler) no_streams one_stream_labels s /\
    delivered_to s 0 =
      [ (None, heartbeat "a" 5);
        (Some 0%nat, mkStreamEvent "a" (Some (StreamEvent_Notification (mkNotificationEvent None)))) ] /\
    conn_id s 0 = "a" /\ pumping s 0 = true.
Proof.
  eexists. split.
  - next_step (step_open no_streams "u1" "acme" "browser" "a").
    next_step (fun s => step_handshake s 0 5).
    next_step (fun s => step_publish s (inapp_event None)).
    next_step (fun s => step_push s 0 0).
    next_step (fun s => step_recv s 0 0).
    next_step (fun s => step_stamp s 0 0).
    next_step (fun s => step_send s 0 0).
    apply steps_nil.
  - split_and!; vm_compute; reflexivity.
Qed.

(** Two live connections of one user share the event object that Push hands
    to both, and each handler writes its own session id into it before sending:
    there is a run in which the first client receives the notification with the
    session id of the second connection. *)
Theorem session_id_race `{MapOrder} :
  exists ls s e ev, steps (serve_step sample_handler) no_streams ls s /\
    (Some e, ev) ∈ delivered_to s 0 /\ conn_id s 0 = "a" /\ conn_id s 1 = "b" /\ SessionId ev = "b".
Proof.
  eexists _, _, 0%nat, _. split.
  - next_step (step_open no_streams "u1" "acme" "browser" "a").
    next_step (fun s => step_open s "u1" "acme" "ios" "b").
    next_step (fun s => step_handshake s 0 5).
    next_step (fun s => step_handshake s 1 5).
    next_step (fun s => step_publish s (inapp_event None)).
    next_step (fun s => step_push s 0 0).
    next_step (fun s => step_push s 1 0).
    next_step (fun s => step_recv s 0 0).
    next_step (fun s => step_recv s 1 0).
    next_step (fun s => step_stamp s 0 0).
    next_step (fun s => step_stamp s 1 0).
    next_step (fun s => step_send s 0 0).
    apply steps_nil.
  - split; [vm_compute; right; left|]. split_and!; vm_compute; reflexivity.
Qed.

(** ** Witnesses *)

Lemma stream_registration_witness :
  exists s, steps (serve_step (H := sample_order) sample_handler) no_streams one_stream_labels s /\
    (is_Some (handlers s !! 0%nat) <-> exists u, registered (live s) u 0%nat).
Proof.
  destruct (@one_stream_run sample_order) as (s & Hs & _). exists s. split; [exact Hs|].
  exact (@stream_registration sample_order sample_handler one_stream_labels s 0%nat Hs).
Defined.

Lemma stream_delivery_witness :
  exists s, steps (serve_step (H := sample_order) sample_handler) no_streams one_stream_labels s /\
    ([0%nat] = got s 0 ++ inflight s 0 ++ pending (live s) 0) /\
    (forall e ev, (Some e, ev) ∈ delivered_to s 0 -> published e one_stream_labels = Event ev) /\
    (forall ev, (None, ev) ∈ delivered_to s 0 -> exists ms, ev = heartbeat (conn_id s 0) ms).
Proof.
  destruct (@one_stream_run sample_order) as (s & Hs & _ & _ & Hp). exists s. split; [exact Hs|].
  destruct (@stream_delivery sample_order sample_handler one_stream_labels s 0%nat Hs) as (H1 & H2 & H3).
  rewrite Hp in H1. split_and!; [exact H1|exact H2|exact H3].
Defined.

Lemma stream_session_witness :
  exists s ev, (Some 0%nat, ev) ∈ delivered_to s 0 /\ SessionId ev = conn_id s 0.
Proof.
  destruct (@one_stream_run sample_order) as (s & Hs & Hd & _).
  assert (Hin : (Some 0%nat, mkStreamEvent "a" (Some (StreamEvent_Notification (mkNotificationEvent None))))
    ∈ delivered_to s 0) by (rewrite Hd; right; left).
  eexists s, _. split; [exact Hin|].
  apply (@stream_session sample_order sample_handler one_stream_labels s 0%nat 0%nat _ Hs Hin).
  intros q Hq. unfold accepted in Hq. simpl in Hq. case_decide as Hd0; [by subst|].
  by apply not_elem_of_nil in Hq.
Defined.

Definition two_tenants : Streams :=
  do_open "u1" "beta" "ios" "b" (do_open "u1" "acme" "browser" "a" no_streams).

Lemma two_tenants_inv : live_inv (live two_tenants).
Proof.
  assert (Hs : steps (serve_step (H := sample_order) sample_handler) no_streams
    [SOpen 0 "u1" "acme"; SOpen 1 "u1" "beta"] two_tenants).
  { next_step (@step_open sample_order no_streams "u1" "acme" "browser" "a").
    next_step (fun s => @step_open sample_order s "u1" "beta" "ios" "b").
    apply steps_nil. }
  apply streams_reachable in Hs as [Hi _]. apply Hi.
Qed.

Definition row_of (tenant : string) : Notification :=
  mkNotification "id" "n1" tenant "u1" "" "" "t" "b" ChannelInApp StatusPending 1 0 0 0.

Definition message_to (user : string) : Message := mkMessage (Some (row_of "acme")) user "t" "b" ∅.

Lemma inapp_send_witness :
  let '(s', (receipt, err)) := Send newInAppProvider (message_to "u1") two_tenants in
  err = None /\ rStatus receipt = StatusDelivered /\
  events s' !! 0%nat = Some (mkStreamEvent "" (Some (StreamEvent_Notification
    (mkNotificationEvent (Some (notification_view (row_of "acme"))))))) /\
  forall p, heap (live s') !! p =
    if decide (registered (live two_tenants) "u1" p) then offered 0%nat <$> heap (live two_tenants) !! p
    else heap (live two_tenants) !! p.
Proof. exact (@inapp_send (message_to "u1") (row_of "acme") two_tenants two_tenants_inv eq_refl). Defined.

Lemma inapp_crosses_tenants_witness :
  exists c, heap (live two_tenants) !! 1%nat = Some c /\ cTenantID c = "beta" /\
  let '(s', (receipt, _)) := Send newInAppProvider (message_to "u1") two_tenants in
  rStatus receipt = StatusDelivered /\
  exists c', heap (live s') !! 1%nat = Some c' /\ cTenantID c' = cTenantID c /\
    cQueue c' = cQueue c ++ [0%nat] /\
    events s' !! 0%nat = Some (inapp_event (Some (row_of "acme"))).
Proof.
  eexists. split; [vm_compute; reflexivity|]. split; [reflexivity|].
  refine (@inapp_crosses_tenants (message_to "u1") (row_of "acme") two_tenants 1%nat _
    two_tenants_inv eq_refl _ _ _ _).
  - by apply (bool_decide_unpack _); vm_compute.
  - by vm_compute.
  - by vm_compute.
  - done.
Defined.
