(* ===== verification/Auth.v ===== *)
(** * internal/server/auth.go and middleware.go: who may call

    Validators turn an Authorization header into [Claims]; interceptors decide
    whether a handler runs and with which claims on its context.  The JWT parser
    (github.com/golang-jwt/jwt) is a parameter: a function of the options the
    code passes and the token. *)

From S2P Require Import Prelude GoErrors GoStrings Model.

Record Claims := mkClaims {
  UserID : string;
  TenantID : string;
  Email : string;
  ExpiresAt : option Z;  (* Unix seconds *)
}.

#[global] Instance Claims_eq_dec : EqDecision Claims.
Proof. solve_decision. Defined.

(** ** The Authorization header *)

Definition bearer_prefix : string := "bearer ".

Definition stripBearer (authz : string) : result error string :=
  if (authz =? "")%string then Err (ErrorsNew "missing Authorization header") else
  let low := ToLower authz in
  if negb (HasPrefix low bearer_prefix)
  then Err (ErrorsNew "Authorization header must use Bearer scheme") else
  let tok := TrimSpace (slice_from (String.length bearer_prefix) authz) in
  if (tok =? "")%string then Err (ErrorsNew "Authorization header has empty token") else
  Ok tok.

Definition unauthenticated (err : error) : error :=
  ConnectError CodeUnauthenticated (ErrorfW "notify: unauthenticated: %w" [] err).

(** An AuthValidator's Validate. *)
Definition AuthValidator : Type := string -> result error Claims.

(** ** DevValidator *)

Definition dev_Validate : AuthValidator := fun authz =>
  match stripBearer authz with
  | Err err => Err (unauthenticated err)
  | Ok tok =>
      let bad := Err (unauthenticated
        (ErrorsNew "dev token must be dev:<userid>:<tenant>[:<email>]")) in
      let accept user tenant email :=
        if (user =? "")%string || (tenant =? "")%string
        then Err (unauthenticated (ErrorsNew "dev token missing userid or tenant"))
        else Ok (mkClaims user tenant email None) in
      match Split tok ":"%char with
      | [scheme; user; tenant] => if (scheme =? "dev")%string then accept user tenant "" else bad
      | [scheme; user; tenant; email] =>
          if (scheme =? "dev")%string then accept user tenant email else bad
      | _ => bad
      end
  end.

(** ** JWTValidator *)

(** The values of [jwt.MapClaims] that the code tells apart; a float carries its
    conversion to int64. *)
Inductive JSONValue : Type :=
| JString (s : string)
| JFloat64 (trunc : Z)
| JInt64 (z : Z)
| JOther.

(** What [jwt.NewParser] and the key function are given. *)
Record ParserOptions := mkParserOptions {
  poMethods : list string;
  poLeeway : Z;
  poIssuer : option string;
  poAudience : option string;
  poKey : string;
}.

Record JWTValidator := mkJWTValidator {
  jSecret : string;
  jIssuer : string;
  jAudience : string;
  jLeeway : Z;
}.

Definition NewJWTValidator (secret issuer audience : string) (leeway : Z) : result error JWTValidator :=
  if (secret =? "")%string then Err (ErrorsNew "auth: jwt secret is empty")
  else if leeway <? 0 then Err (ErrorsNew "auth: jwt leeway must be >= 0")
  else Ok (mkJWTValidator secret issuer audience leeway).

(** Each [if] builds a new parser that replaces the previous one. *)
Definition jwt_parser (v : JWTValidator) : ParserOptions :=
  let parser := mkParserOptions ["HS256"] (jLeeway v) None None (jSecret v) in
  let parser := if negb (jIssuer v =? "")%string
                then mkParserOptions ["HS256"] (jLeeway v) (Some (jIssuer v)) None (jSecret v)
                else parser in
  if negb (jAudience v =? "")%string
  then mkParserOptions ["HS256"] (jLeeway v) (Some (jIssuer v)) (Some (jAudience v)) (jSecret v)
  else parser.

Definition claim_string (claims : gmap string JSONValue) (name : string) : option string :=
  match claims !! name with Some (JString s) => Some s | _ => None end.

Section jwt.
(** [parser.ParseWithClaims(tok, claims, key)]: the claims of an accepted token. *)
Context (parse : ParserOptions -> string -> result error (gmap string JSONValue)).

Definition jwt_claims (claims : gmap string JSONValue) : Claims :=
  mkClaims (default "" (claim_string claims "sub"))
    (match claim_string claims "tenant" with
     | Some t => t
     | None => default "" (claim_string claims "tenant_id")
     end)
    (default "" (claim_string claims "email"))
    (match claims !! "exp" with
     | Some (JFloat64 exp) => Some exp
     | Some (JInt64 exp) => Some exp
     | _ => None
     end).

Definition jwt_Validate (v : JWTValidator) : AuthValidator := fun authz =>
  match stripBearer authz with
  | Err err => Err (unauthenticated err)
  | Ok tok =>
      match parse (jwt_parser v) tok with
      | Err err => Err (unauthenticated err)
      | Ok claims =>
          let c := jwt_claims claims in
          if (UserID c =? "")%string
          then Err (unauthenticated (ErrorsNew "jwt missing sub claim"))
          else if (TenantID c =? "")%string
          then Err (unauthenticated (ErrorsNew "jwt missing tenant claim"))
          else Ok c
      end
  end.
End jwt.

(** ** Interceptors *)

(** A handler, given the claims on its context. [GoPanic] is a panic. *)
Definition Handler (W A : Type) : Type := option Claims -> M W (result error A).

Definition NewClientAuthInterceptor {W A} (v : AuthValidator) (authorization : string)
    (next : Handler W A) : M W (result error A) :=
  match v authorization with
  | Err err => mret (Err err)
  | Ok claims => next (Some claims)
  end.

(** The streaming RPC goes through [authenticateStreamReq] instead. *)
Definition authenticateStreamReq (v : AuthValidator) (header : string) : result error (option Claims) :=
  match v header with
  | Err err => Err err
  | Ok claims => Ok (Some claims)
  end.

Definition NewInternalAuthInterceptor {W A} (expected : string) (devMode : bool) (token : string)
    (next : Handler W A) : M W (result error A) :=
  if (expected =? "")%string then
    if devMode then next None
    else mret (Err (unauthenticated (ErrorsNew "internal token not configured")))
  else if (token =? "")%string
  then mret (Err (unauthenticated (ErrorsNew "missing X-Notify-Internal-Token header")))
  else if negb (token =? expected)%string
  then mret (Err (unauthenticated (ErrorsNew "internal token mismatch")))
  else next None.

(** The deferred recover of WrapUnary and WrapStreamingHandler. *)
Definition recovery {W A} (call : M W (result error A)) : M W (result error A) :=
  r ← call;
  mret (match r with
        | Err (GoPanic _) => Err (ConnectError CodeInternal (ErrorsNew "internal server error"))
        | r => r
        end).

(** ** Properties of the header *)

Lemma ToLower_bearer rest : ToLower ("Bearer " +:+ rest) = "bearer " +:+ ToLower rest.
Proof. rewrite !append_cons, append_nil. by rewrite !ToLower_ascii. Qed.

Lemma stripBearer_bearer tok : TrimSpace tok <> "" -> stripBearer ("Bearer " +:+ tok) = Ok (TrimSpace tok).
Proof.
  intros Hne. unfold stripBearer.
  rewrite (proj2 (String.eqb_neq _ _)) by done.
  rewrite ToLower_bearer. change bearer_prefix with "bearer ". rewrite HasPrefix_append. simpl negb. cbv iota.
  change (String.length "bearer ") with (String.length "Bearer "). rewrite slice_from_append.
  by rewrite (proj2 (String.eqb_neq _ _)).
Qed.

Lemma stripBearer_error authz err : stripBearer authz = Err err -> exists msg, err = ErrorsNew msg.
Proof. unfold stripBearer. repeat case_if; intros He; simplify_eq; eauto. Qed.

Lemma stripBearer_trimmed authz tok : stripBearer authz = Ok tok -> TrimSpace tok = tok /\ tok <> "".
Proof.
  unfold stripBearer. repeat case_if; intros He; simplify_eq.
  split; [apply TrimSpace_idemp|]. by apply String.eqb_neq.
Qed.

(** C37: The JWT validator accepts only what its parser accepts: claims come out
    only of a token that the parser, given HS256 as the only method, the
    configured secret and leeway and, when configured, the issuer and the
    audience to check, has verified; the user is the non-empty sub claim, the
    tenant the tenant claim or else tenant_id, and every refusal is an
    Unauthenticated error. *)
Theorem jwt_validate parse (v : JWTValidator) (authz : string) :
  match jwt_Validate parse v authz with
  | Ok c => exists tok claims o, stripBearer authz = Ok tok /\ parse o tok = Ok claims /\
      poMethods o = ["HS256"] /\ poKey o = jSecret v /\ poLeeway o = jLeeway v /\
      (jIssuer v <> "" -> poIssuer o = Some (jIssuer v)) /\
      (jAudience v <> "" -> poAudience o = Some (jAudience v)) /\
      claim_string claims "sub" = Some (UserID c) /\ UserID c <> "" /\
      (claim_string claims "tenant" = Some (TenantID c) \/
       claim_string claims "tenant" = None /\ claim_string claims "tenant_id" = Some (TenantID c)) /\
      TenantID c <> ""
  | Err err => code_of err = Some CodeUnauthenticated
  end.
Proof.
  unfold jwt_Validate. destruct (stripBearer authz) as [tok|err] eqn:Hs; [|done].
  destruct (parse (jwt_parser v) tok) as [claims|err] eqn:Hp; [|done]. cbv zeta.
  destruct (UserID (jwt_claims claims) =? "")%string eqn:Hu; [done|].
  destruct (TenantID (jwt_claims claims) =? "")%string eqn:Ht; [done|].
  bool_to_prop. exists tok, claims, (jwt_parser v). split_and!; try done.
  - unfold jwt_parser. by repeat case_if.
  - unfold jwt_parser. by repeat case_if.
  - unfold jwt_parser. by repeat case_if.
  - intros Hi. unfold jwt_parser. rewrite (proj2 (String.eqb_neq _ _) Hi). simpl. by case_if.
  - intros Ha. unfold jwt_parser. by rewrite (proj2 (String.eqb_neq _ _) Ha).
  - simpl in *. by destruct (claim_string claims "sub").
  - simpl in *. destruct (claim_string claims "tenant"); [by left|].
    right. split; [done|]. by destruct (claim_string claims "tenant_id").
Qed.

(** The development validator accepts exactly the tokens
    dev:<user>:<tenant> and dev:<user>:<tenant>:<email> with a non-empty user
    and tenant, and reads back the very user, tenant and e-mail the token was
    made from; no claims ever lack a user or a tenant. *)
Theorem dev_validate (user tenant email : string) :
  IndexByte user ":"%char = None -> IndexByte tenant ":"%char = None -> IndexByte email ":"%char = None ->
  user <> "" -> tenant <> "" ->
  let tok := "dev:" +:+ user +:+ String ":"%char (tenant +:+ String ":"%char email) in
  TrimSpace tok = tok ->
  dev_Validate ("Bearer " +:+ tok) = Ok (mkClaims user tenant email None) /\
  forall authz c, dev_Validate authz = Ok c -> UserID c <> "" /\ TenantID c <> "".
Proof.
  intros Hu Ht He Hune Htne tok Htrim. split.
  - unfold dev_Validate. rewrite stripBearer_bearer by by rewrite Htrim. rewrite Htrim. unfold tok.
    change ("dev:" +:+ user +:+ String ":"%char (tenant +:+ String ":"%char email)) with
      ("dev" +:+ String ":"%char (user +:+ String ":"%char (tenant +:+ String ":"%char email))).
    rewrite !Split_append, Split_no_sep by done. rewrite String.eqb_refl.
    by rewrite (proj2 (String.eqb_neq _ _) Hune), (proj2 (String.eqb_neq _ _) Htne).
  - intros authz c. unfold dev_Validate. destruct (stripBearer authz) as [t|]; [|done].
    destruct (Split t ":"%char) as [|a [|b [|c' [|d [|]]]]]; try done; case_if; try done; case_if; try done;
      bool_to_prop; by intros [= <-].
Qed.

Lemma dev_validate_witness :
  dev_Validate "Bearer dev:u1:acme:me@x" = Ok (mkClaims "u1" "acme" "me@x" None) /\
  forall authz c, dev_Validate authz = Ok c -> UserID c <> "" /\ TenantID c <> "".
Proof.
  exact (dev_validate "u1" "acme" "me@x" eq_refl eq_refl eq_refl ltac:(done) ltac:(done) ltac:(by vm_compute)).
Defined.
