(* ===== verification/Handlers.v ===== *)
(** * internal/server/handlers.go: the RPC handlers

    Each handler is the whole method, from the claims on the context to the
    response or the Connect error, over a store, a clock and, for
    AckDataChange, the retry tracker of the stream handler.  A request is an
    option because a Connect message pointer may be nil. *)

From S2P Require Import Prelude GoErrors GoStrings Model StoreSpec Notifier Wire Auth.

Definition CodeError (c : Code) (msg : string) : error := ConnectError c (ErrorsNew msg).

Definition claims_missing : error := CodeError CodeUnauthenticated "notify: claims missing on context".

(** ** NotificationInternalService *)

Definition validateNotifyRequest (r : option NotifyRequestPB) : option error :=
  if (TrimSpace (GetTenantId r) =? "")%string then Some (ErrorsNew "tenant_id is required")
  else if (TrimSpace (GetNotificationId r) =? "")%string
  then Some (ErrorsNew "notification_id is required")
  else if bool_decide (GetUserIds r = []) then Some (ErrorsNew "user_ids must be non-empty")
  else None.

Definition internal_Notify `{MapOrder} {W} (n : NotifierT W) (req : option NotifyRequestPB)
    : M W (result error NotifyResponse) :=
  match req with
  | None => mret (Err (CodeError CodeInvalidArgument "notify: nil request"))
  | Some _ =>
      match validateNotifyRequest req with
      | Some err => mret (Err (ConnectError CodeInvalidArgument err))
      | None =>
          '(res, err) ← Notify n (notifyRequestFromProto req);
          mret (match err with
                | Some err => Err (ConnectError CodeInternal (ErrorfW "notify: %w" [] err))
                | None => Ok (mkNotifyResponse (int32_of (Delivered res)) (int32_of (Pending res))
                                (int32_of (Failed res)))
                end)
      end
  end.

(** ** NotificationClientService *)

Definition decodeCursor (c : string) : result error Z :=
  match ParseInt c with
  | Err err => Err err
  | Ok ms => if ms <=? 0 then Err (ErrorsNew "non-positive cursor") else Ok ms
  end.

Record clientHandler (W : Type) := mkClientHandler {
  chStore : Store W;
  chStream : option (string -> string -> M W unit);  (* stream.retries.Ack; nil when disabled *)
  chNow : M W Z;
}.
Arguments mkClientHandler {W}.
Arguments chStore {W}.
Arguments chStream {W}.
Arguments chNow {W}.

Section client.
Context {W : Type} (h : clientHandler W).

(** The query of a page request. *)
Definition page_query (claims : Claims) (req : option GetNotificationsRequest) : result error Query :=
  let q cursorMS := mkQuery (TenantID claims) (UserID claims) cursorMS (GetLimit req) (GetUnreadOnly req) in
  let c := GetCursor req in
  if negb (c =? "")%string then
    match decodeCursor c with
    | Err err => Err (ConnectError CodeInvalidArgument (ErrorfW "notify: cursor: %w" [] err))
    | Ok ms => Ok (q (Some ms))
    end
  else Ok (q None).

Definition GetNotifications (claims : option Claims) (req : option GetNotificationsRequest)
    : M W (result error GetNotificationsResponse) :=
  match claims with
  | None => mret (Err claims_missing)
  | Some claims =>
      match page_query claims req with
      | Err err => mret (Err err)
      | Ok q =>
          r ← QueryUserNotifications (chStore h) q;
          mret (match r with
                | Err err => Err (ConnectError CodeInternal (ErrorfW "notify: query: %w" [] err))
                | Ok (items, next, unread) =>
                    Ok (mkGetNotificationsResponse (notification_view <$> items) next (int32_of unread))
                end)
      end
  end.

(** The error of a store call of AckNotification. *)
Definition ack_error (what : string) (err : error) : error :=
  if errors_is err ErrNotFound then ConnectError CodeNotFound err
  else ConnectError CodeInternal (ErrorfW what [] err).

Definition AckNotification (claims : option Claims) (req : option AckNotificationRequest)
    : M W (result error AckNotificationResponse) :=
  match claims with
  | None => mret (Err claims_missing)
  | Some claims =>
      let id := TrimSpace (GetId req) in
      if (id =? "")%string then mret (Err (CodeError CodeInvalidArgument "id is required")) else
      r ← GetNotification (chStore h) (TenantID claims) (UserID claims) id;
      match r with
      | Err err => mret (Err (ack_error "notify: ack lookup: %w" err))
      | Ok _ =>
          ms ← chNow h;
          e ← UpdateStatus (chStore h) (TenantID claims) id StatusRead ms;
          mret (match e with
                | Some err => Err (ack_error "notify: ack: %w" err)
                | None => Ok mkAckNotificationResponse
                end)
      end
  end.

Definition AckDataChange (claims : option Claims) (req : option AckDataChangeRequest)
    : M W (result error AckDataChangeResponse) :=
  match claims with
  | None => mret (Err claims_missing)
  | Some _ =>
      let key := TrimSpace (GetIdempotencyKey req) in
      let sess := TrimSpace (GetSessionId req) in
      if (key =? "")%string || (sess =? "")%string
      then mret (Err (CodeError CodeInvalidArgument "idempotency_key and session_id are required")) else
      match chStream h with
      | None => mret (Ok mkAckDataChangeResponse)
      | Some ack => _ ← ack key sess; mret (Ok mkAckDataChangeResponse)
      end
  end.

Definition RegisterPushToken (claims : option Claims) (req : option RegisterPushTokenRequest)
    : M W (result error RegisterPushTokenResponse) :=
  match claims with
  | None => mret (Err claims_missing)
  | Some claims =>
      let dt := deviceTypeFromProto (GetTokenDeviceType req) in
      if (dt =? "")%string then mret (Err (CodeError CodeInvalidArgument "device_type must be set")) else
      let token := TrimSpace (GetToken req) in
      if (token =? "")%string then mret (Err (CodeError CodeInvalidArgument "token is required")) else
      ms ← chNow h;
      '(_, r) ← UpsertDevice (chStore h) (mkDevice "" (TenantID claims) (UserID claims) dt token 0 ms);
      mret (match r with
            | Err err => Err (ConnectError CodeInternal (ErrorfW "notify: upsert device: %w" [] err))
            | Ok _ => Ok mkRegisterPushTokenResponse
            end)
  end.

(** StreamEvents up to the handover to [serve]: the user, tenant and device type
    of the stream. *)
Definition StreamEvents (claims : option Claims) (req : option StreamEventsRequest)
    : result error (string * string * string) :=
  match chStream h with
  | None => Err (CodeError CodeUnimplemented "notify: live connections disabled")
  | Some _ =>
      match claims with
      | None => Err claims_missing
      | Some claims => Ok (UserID claims, TenantID claims, deviceTypeFromProto (GetStreamDeviceType req))
      end
  end.

End client.

(** ** The RPC surface: interceptors around the handlers *)

(** buildClientServer: recovery outside, then authentication. *)
Definition client_rpc {W A} (v : AuthValidator) (authorization : string) (handler : Handler W A)
    : M W (result error A) :=
  recovery (NewClientAuthInterceptor v authorization handler).

Definition internal_rpc {W A} (token : string) (devMode : bool) (header : string) (handler : Handler W A)
    : M W (result error A) :=
  recovery (NewInternalAuthInterceptor token devMode header handler).

(** A client that follows next_cursor through the RPC, as the conformance walk
    does on the store. *)
Fixpoint client_walk {W} (h : clientHandler W) (fuel : nat) (claims : Claims)
    (req : GetNotificationsRequest) : M W (option (list NotificationPB)) :=
  match fuel with
  | O => mret None
  | Datatypes.S fuel =>
      r ← GetNotifications h (Some claims) (Some req);
      match r with
      | Err _ => mret None
      | Ok page =>
          if (gnNextCursor page =? "")%string then mret (Some (gnNotifications page)) else
          rest ← client_walk h fuel claims
                   (mkGetNotificationsRequest (gnNextCursor page) (gnLimit req) (gnUnreadOnly req));
          mret (app (gnNotifications page) <$> rest)
      end
  end.
