(* ===== verification/HandlersProps.v ===== *)
(** * What the RPCs guarantee

    Ownership of an acknowledgement, isolation and completeness of the inbox,
    validation and accounting of Notify, the device registration, and the
    authentication in front of them, for every store that keeps its contract and
    every clock that leaves the rows alone. *)

From S2P Require Import Prelude GoErrors GoStrings Model StoreSpec StoreOps Memory MemoryProps.
From S2P Require Import Paging Notifier NotifierProps Wire Auth Handlers.

(** A clock that leaves the rows alone. *)
Class ClockLaws {W} (S : Store W) `{HS : !StoreLaws S} (now : M W Z) : Prop := {
  clock_frame : forall w, store_inv w -> let w' := (now w).1 in
    rows w' = rows w /\ devs w' = devs w /\ store_inv w';
}.

(** C3: AckNotification marks a row read only for its owner. With a non-blank id
    that names a row of the caller's tenant and user, the row becomes read at
    the time that the handler's clock shows once the row is found, and nothing else
    changes; in every other case (no such row, a row of another user,
    a row of another tenant) the caller gets the very same NotFound error and
    no row or device changes, so the existence of someone else's row is not revealed; a
    blank id is an InvalidArgument and touches nothing. *)
Theorem ack_notification {W} (h : clientHandler W) {HS : StoreLaws (chStore h)}
    {HC : ClockLaws (chStore h) (chNow h)} (claims : Claims) (req : option AckNotificationRequest) (w : W) :
  store_inv w ->
  let id := TrimSpace (GetId req) in
  let mine r := rows w !! id = Some r /\ owned (TenantID claims) (UserID claims) r in
  let found := (GetNotification (chStore h) (TenantID claims) (UserID claims) id w).1 in
  let '(w', res) := AckNotification h (Some claims) req w in
  (id = "" -> res = Err (ConnectError CodeInvalidArgument (ErrorsNew "id is required")) /\ w' = w) /\
  (id <> "" -> forall r, mine r -> res = Ok mkAckNotificationResponse /\
     rows w' = <[id := stamped StatusRead (chNow h found).2 r]> (rows w) /\ devs w' = devs w) /\
  (id <> "" -> (forall r, ~ mine r) ->
     res = Err (ConnectError CodeNotFound ErrNotFound) /\ rows w' = rows w /\ devs w' = devs w).
Proof.
  intros Hi id mine found. unfold AckNotification. fold id.
  destruct (String.eqb_spec id "") as [Hid|Hid]; [by split_and!|]. unfold found. unfold_M.
  destruct (law_get w (TenantID claims) (UserID claims) id Hi) as (w1 & -> & Hr1 & Hd1 & Hi1).
  destruct (rows w !! id) as [r|] eqn:Hr; [destruct (decide (owned (TenantID claims) (UserID claims) r)) as [Ho|Ho]|].
  - pose proof (clock_frame w1 Hi1) as Hc. cbn [fst]. destruct (chNow h w1) as [w2 ms]. simpl in Hc.
    destruct Hc as (Hr2 & Hd2 & Hi2).
    destruct (law_update_hit w2 (TenantID claims) id r StatusRead ms Hi2) as (w3 & -> & Hr3 & Hd3 & _);
      [congruence|apply Ho|].
    split_and!; [done| |].
    + intros _ r' [Hr' _]. simplify_eq. split_and!; [done| |congruence]. cbn. congruence.
    + intros _ Hno. by destruct (Hno r).
  - split_and!; [done| |].
    + intros _ r' [Hr' Ho']. by simplify_eq.
    + intros _ _. done.
  - split_and!; [done| |].
    + intros _ r' [Hr' _]. done.
    + intros _ _. done.
Qed.

(** C7: Through the authenticating interceptor, the inbox shows a caller only
    the caller's own rows.  A request whose Authorization header is refused
    fails with the validator's very error and touches nothing; an accepted one whose cursor is no
    positive int64 is an InvalidArgument that wraps the reason, and touches nothing either; every
    other one answers with the client views of one page of exactly the tenant and user of
    the token: at most 100 stored rows, older than the cursor, unread only when asked, with the
    next cursor and the unread count of that user, and changes no row or device. *)
Theorem inbox_isolation {W} (h : clientHandler W) {HS : StoreLaws (chStore h)} (v : AuthValidator)
    (authorization : string) (req : option GetNotificationsRequest) (w : W) :
  store_inv w ->
  let c := GetCursor req in
  let '(w', res) := client_rpc v authorization (fun claims => GetNotifications h claims req) w in
  match v authorization with
  | Err err => w' = w /\ ((forall msg, err <> GoPanic msg) -> res = Err err)
  | Ok claims =>
      (forall err, c <> "" -> decodeCursor c = Err err ->
         w' = w /\ res = Err (ConnectError CodeInvalidArgument (ErrorfW "notify: cursor: %w" [] err))) /\
      (forall cursorMS, (c = "" /\ cursorMS = None) \/ (c <> "" /\ Ok <$> cursorMS = Some (decodeCursor c)) ->
         rows w' = rows w /\ devs w' = devs w /\
         exists page items unread, res = Ok page /\
           is_page (mkQuery (TenantID claims) (UserID claims) cursorMS (GetLimit req) (GetUnreadOnly req)) (rows w)
             items (gnNextCursor page) unread /\
           gnNotifications page = notification_view <$> items /\
           Z.of_nat (length items) <= MaxPageLimit /\
           gnUnreadCount page = int32_of (unread_count (TenantID claims) (UserID claims) (rows w)) /\
           forall n, n ∈ items -> (exists id, rows w !! id = Some n) /\
             owned (TenantID claims) (UserID claims) n /\ (GetUnreadOnly req = true -> nStatus n <> StatusRead))
  end.
Proof.
  intros Hi c. unfold client_rpc, recovery, NewClientAuthInterceptor. unfold_M.
  destruct (v authorization) as [claims|err] eqn:Hv.
  2:{ split; [done|]. intros Hp. by destruct err; try destruct (Hp _ eq_refl). }
  unfold GetNotifications, page_query. fold c. unfold_M.
  assert (Hpage : forall cursorMS, let q := mkQuery (TenantID claims) (UserID claims) cursorMS (GetLimit req) (GetUnreadOnly req) in
    exists w' items cursor unread, QueryUserNotifications (chStore h) q w = (w', Ok (items, cursor, unread)) /\
      rows w' = rows w /\ devs w' = devs w /\ is_page q (rows w) items cursor unread /\
      Z.of_nat (length items) <= MaxPageLimit /\ unread = unread_count (TenantID claims) (UserID claims) (rows w) /\
      forall n, n ∈ items -> (exists id, rows w !! id = Some n) /\
        owned (TenantID claims) (UserID claims) n /\ (GetUnreadOnly req = true -> nStatus n <> StatusRead)).
  { intros cursorMS q. destruct (law_query w q Hi) as (w' & items & cursor & unread & He & Hp & Hr & Hd & _).
    pose proof (ClampLimit_range (qLimit q)) as Hc. pose proof (is_page_length _ _ _ _ _ Hp) as Hlen.
    exists w', items, cursor, unread. split_and!; [done..|lia| |].
    - by destruct Hp as (? & _ & _ & _ & ->).
    - intros n Hn. destruct (is_page_elem _ _ _ _ _ _ Hp Hn) as (Hin & Ho & Hun & _). done. }
  destruct (String.eqb_spec c "") as [Hc|Hc]; cbn [negb].
  - destruct (Hpage None) as (w' & items & cursor & unread & -> & Hr & Hd & Hp & Hl & -> & Hn). split; [done|].
    intros cursorMS [[_ ->]|[? _]]; [|done]. split_and!; [done..|]. eexists _, items, _. by split_and!.
  - destruct (decodeCursor c) as [ms|err].
    + destruct (Hpage (Some ms)) as (w' & items & cursor & unread & -> & Hr & Hd & Hp & Hl & -> & Hn). split; [done|].
      intros cursorMS [[? _]|[_ Hms]]; [done|]. destruct cursorMS as [ms'|]; [|done]. injection Hms as ->.
      split_and!; [done..|]. eexists _, items, _. by split_and!.
    + split; [intros err' _ [= ->]; by split|]. intros cursorMS [[? _]|[_ Hms]]; [done|]. by destruct cursorMS.
Qed.

(** ** Following the cursor through the RPC *)

Lemma decodeCursor_format ms : 0 < ms < 2 ^ 63 -> decodeCursor (FormatInt ms) = Ok ms.
Proof.
  intros Hms. unfold decodeCursor, ParseInt. rewrite parse_format by lia.
  by rewrite (proj2 (Z.leb_gt _ _)) by lia.
Qed.

Lemma client_walk_spec {W} (h : clientHandler W) {HS : StoreLaws (chStore h)} claims fuel :
  forall req q w w' items,
  store_inv w ->
  (forall i a, rows w !! i = Some a -> owned (TenantID claims) (UserID claims) a -> 0 < nCreatedAtMS a < 2 ^ 63) ->
  page_query claims (Some req) = Ok q ->
  walk (chStore h) fuel q w = (w', Some items) ->
  client_walk h fuel claims req w = (w', Some (notification_view <$> items)).
Proof.
  induction fuel as [|fuel IH]; intros req q w w' items Hi Hpos Hq; [done|].
  cbn [walk client_walk]. unfold GetNotifications. rewrite Hq. unfold_M.
  assert (Hqs : q = mkQuery (TenantID claims) (UserID claims) (qCursorMS q) (gnLimit req) (gnUnreadOnly req)).
  { unfold page_query in Hq. destruct (negb _); [destruct (decodeCursor _)|]; by simplify_eq/=. }
  destruct (law_query w q Hi) as (w1 & its & cursor & unread & -> & Hp & Hr & _ & Hi1). simpl.
  destruct (String.eqb_spec cursor "") as [->|Hne]; [by intros [= <- <-]|].
  destruct (ParseInt cursor) as [v|] eqn:Hv; [|done].
  assert (Hcur : page_query claims (Some (mkGetNotificationsRequest cursor (gnLimit req) (gnUnreadOnly req)))
    = Ok (with_cursor v q)).
  { destruct Hp as (l & Hsel & _ & Hc & _). unfold page_cursor in Hc.
    destruct (_ <? _); [|done]. destruct (last _) as [x|] eqn:Hx; [|done].
    pose proof (last_take_elem _ _ _ Hx) as Hin. rewrite (proj1 Hsel) in Hin.
    apply list_elem_of_filter in Hin as [[Ho _] [i Hxi]%elem_of_all_rows].
    rewrite Hqs in Ho. simpl in Ho. pose proof (Hpos i x Hxi Ho) as Hx0.
    unfold page_query. simpl. rewrite (proj2 (String.eqb_neq cursor "") Hne). simpl. subst cursor.
    rewrite decodeCursor_format by done. unfold ParseInt in Hv. rewrite parse_format in Hv by lia.
    injection Hv as <-. unfold with_cursor. by rewrite Hqs. }
  destruct (walk (chStore h) fuel (with_cursor v q) w1) as [w2 [rest|]] eqn:Hw; [|done].
  intros [= <- <-]. erewrite (IH _ _ w1 w2 rest Hi1 _ Hcur Hw). { simpl. by rewrite fmap_app. }
  Unshelve. by rewrite Hr.
Qed.

(** C20: A client that keeps asking for the next page with the cursor it was
    given reads its whole inbox: the walk through the RPC ends and yields the
    client view of every stored row of the caller exactly once, newest first,
    for any limit it asks for, provided the caller's rows have positive and
    pairwise distinct creation times. *)
Theorem inbox_complete {W} (h : clientHandler W) {HS : StoreLaws (chStore h)} (claims : Claims)
    (limit : Z) (unreadOnly : bool) (w : W) (fuel : nat) :
  store_inv w ->
  distinct_created (TenantID claims) (UserID claims) (rows w) ->
  (forall i a, rows w !! i = Some a -> owned (TenantID claims) (UserID claims) a -> 0 < nCreatedAtMS a < 2 ^ 63) ->
  let q := mkQuery (TenantID claims) (UserID claims) None limit unreadOnly in
  (length (filter (selected q) (all_rows (rows w))) < fuel)%nat ->
  exists w' items,
    client_walk h fuel claims (mkGetNotificationsRequest "" limit unreadOnly) w =
      (w', Some (notification_view <$> items)) /\
    rows w' = rows w /\ StronglySorted newer items /\
    forall n, n ∈ items <-> (exists id, rows w !! id = Some n) /\ selected q n.
Proof.
  intros Hi Hd Hpos q Hf. pose proof (law_rows w Hi) as Hok.
  destruct (selection_exists q (rows w) Hok) as [sorted Hsel].
  assert (Hlen : length sorted = length (filter (selected q) (all_rows (rows w)))) by by rewrite (proj1 Hsel).
  destruct (walk_selection (chStore h) fuel q w sorted Hi Hd) as (w' & Hw & Hrows & _); [|done|lia|].
  { intros i a Ha Ho. specialize (Hpos i a Ha Ho). lia. }
  exists w', sorted. split_and!; [|done|apply Hsel|].
  - by eapply client_walk_spec.
  - intros n. rewrite (proj1 Hsel), list_elem_of_filter, elem_of_all_rows. tauto.
Qed.

(** ** The producer surface *)

Lemma int32_sum_small (a b c k : Z) :
  0 <= a -> 0 <= b -> 0 <= c -> a + b + c = k -> k < 2 ^ 31 ->
  int32_of a + int32_of b + int32_of c = k.
Proof. intros. rewrite !int32_of_id; lia. Qed.

Lemma recovery_result {W A} (call : M W (result error A)) w w' (res : result error A) :
  call w = (w', res) -> (forall msg, res <> Err (GoPanic msg)) -> recovery call w = (w', res).
Proof.
  intros Hc Hp. unfold recovery. unfold_M. rewrite Hc. destruct res as [|err]; [done|].
  destruct err; try done. by destruct (Hp msg).
Qed.

Definition notify_valid (req : option NotifyRequestPB) : Prop :=
  TrimSpace (GetTenantId req) <> "" /\ TrimSpace (GetNotificationId req) <> "" /\ GetUserIds req <> [].

Lemma validate_spec req : match validateNotifyRequest req with
  | Some _ => ~ notify_valid req
  | None => notify_valid req
  end.
Proof.
  unfold validateNotifyRequest, notify_valid.
  destruct (String.eqb_spec (TrimSpace (GetTenantId req)) ""); [tauto|].
  destruct (String.eqb_spec (TrimSpace (GetNotificationId req)) ""); [tauto|].
  case_bool_decide; tauto.
Qed.

Lemma valid_dec req : notify_valid req \/ ~ notify_valid req.
Proof. pose proof (validate_spec req). destruct (validateNotifyRequest req); tauto. Qed.

Lemma internal_Notify_spec {W} `{MapOrder} (n : NotifierT W) {HS : StoreLaws (nStore n)}
    {HE : NotifyEnv n} req w : store_inv w ->
  let '(w', res) := internal_Notify n req w in
  (~ notify_valid req -> w' = w /\ exists u, res = Err (ConnectError CodeInvalidArgument u)) /\
  (notify_valid req -> let r := notifyRequestFromProto req in
    let pairs := Z.of_nat (length (rUserIDs r)) * Z.of_nat (length (channels_of n r)) in
    w' = (Notify n r w).1 /\ exists rsp, res = Ok rsp /\
      (pairs < 2 ^ 31 -> pDelivered rsp + pPending rsp + pFailed rsp = pairs)).
Proof.
  intros Hi. unfold internal_Notify. destruct req as [i|].
  2:{ unfold_M. split; [intros _; split; [done|by eexists]|by intros [? _]]. }
  pose proof (validate_spec (Some i)) as Hv. destruct (validateNotifyRequest (Some i)) as [err|].
  { unfold_M. split; [intros _; split; [done|by eexists]|done]. }
  unfold_M. destruct (notify_stage n (notifyRequestFromProto (Some i)) w Hi)
    as (w' & res & -> & Hst & _).
  destruct Hst as [_ _ _ Htot Hle]. unfold total, counts_le in *.
  cbn [Delivered Pending Failed] in Htot, Hle.
  split; [done|]. intros _. split; [done|]. eexists. split; [done|].
  intros Hsmall. cbn [pDelivered pPending pFailed]. apply int32_sum_small; lia.
Qed.

(** Through the internal interceptor, Notify runs only for a caller that
    presents the configured token (or in dev mode without one); it refuses a
    nil request and a blank tenant, blank notification id or empty audience
    with InvalidArgument before anything is stored; otherwise it answers the
    counters of the fan-out, which add up to recipients times channels as long
    as that product fits an int32. *)
Theorem notify_rpc {W} `{MapOrder} (n : NotifierT W) {HS : StoreLaws (nStore n)}
    {HE : NotifyEnv n} (token : string) (devMode : bool) (header : string)
    (req : option NotifyRequestPB) (w : W) :
  store_inv w ->
  let admitted := (token <> "" /\ header = token) \/ (token = "" /\ devMode = true) in
  let valid := notify_valid req in
  let '(w', res) := internal_rpc token devMode header (fun _ => internal_Notify n req) w in
  (~ admitted -> w' = w /\ exists err, res = Err err /\ code_of err = Some CodeUnauthenticated) /\
  (admitted -> ~ valid -> w' = w /\ exists err, res = Err err /\ code_of err = Some CodeInvalidArgument) /\
  (admitted -> valid ->
     let r := notifyRequestFromProto req in
     let pairs := Z.of_nat (length (rUserIDs r)) * Z.of_nat (length (channels_of n r)) in
     w' = (Notify n r w).1 /\ exists rsp, res = Ok rsp /\
       (pairs < 2 ^ 31 -> pDelivered rsp + pPending rsp + pFailed rsp = pairs)).
Proof.
  intros Hi admitted valid. pose proof (internal_Notify_spec n req w Hi) as Hbody.
  destruct (internal_Notify n req w) as [w1 res1] eqn:Hcall. fold valid in Hbody.
  assert (Hrun : NewInternalAuthInterceptor token devMode header (fun _ => internal_Notify n req) w =
      (w1, res1) /\ admitted \/
    ~ admitted /\ exists msg, NewInternalAuthInterceptor token devMode header
      (fun _ => internal_Notify n req) w = (w, Err (unauthenticated (ErrorsNew msg)))).
  { unfold NewInternalAuthInterceptor, admitted.
    destruct (String.eqb_spec token "") as [->|Htok]; [destruct devMode|].
    - left. split; [done|by right].
    - right. split; [|by eexists]. intros [[? _]|[_ ?]]; done.
    - destruct (String.eqb_spec header "") as [->|Hh].
      { right. split; [|by eexists]. intros [[_ ?]|[? _]]; congruence. }
      destruct (String.eqb_spec header token) as [->|Hht].
      + left. split; [done|by left].
      + right. split; [|by eexists]. intros [[_ ?]|[? _]]; congruence. }
  unfold internal_rpc. destruct Hrun as [[Hc Ha]|[Ha [msg Hc]]].
  - assert (Hnp : forall msg, res1 <> Err (GoPanic msg)).
    { intros msg ->. destruct Hbody as [Hb1 Hb2]. destruct (valid_dec req) as [Hv|Hv].
      - by destruct (Hb2 Hv) as (_ & ? & ? & _).
      - by destruct (Hb1 Hv) as (_ & ? & ?). }
    rewrite (recovery_result _ w w1 res1 Hc Hnp). destruct Hbody as [Hb1 Hb2].
    split_and!; [done| |by intros _].
    intros _ Hnv. destruct (Hb1 Hnv) as (-> & u & ->). split; [done|]. by eexists.
  - rewrite (recovery_result _ w w _ Hc) by done. split_and!; [|done..].
    intros _. split; [done|]. by eexists.
Qed.

(** A Notify request whose listed channels are all UNSPECIFIED or unknown to
    this version is not rejected and not limited to nothing: it is delivered on
    every enabled channel, exactly as a request that lists no channel. *)
Theorem unknown_channels_widen {W} `{MapOrder} (n : NotifierT W) (i : NotifyRequestPB) :
  (forall c, c ∈ pChannels i -> channelKindFromProto c = "") ->
  channels_of n (notifyRequestFromProto (Some i)) = Enabled (nProviders n).
Proof.
  intros Hc. unfold channels_of. simpl.
  assert (He : List.filter (fun k : string => negb (k =? "")%string) (channelKindFromProto <$> pChannels i) = []).
  { induction (pChannels i) as [|c cs IH]; [done|]. rewrite fmap_cons. cbn [List.filter].
    rewrite Hc by (by left). apply IH. intros c' Hc'. apply Hc. by right. }
  unfold GetChannels, from_option. by rewrite He.
Qed.

(** RegisterPushToken stores the trimmed token under the caller's own
    (tenant, user, device type): afterwards exactly that key holds the token
    with the current time as last activity, a row that existed keeps its id and
    creation time, and no other device row and no notification changes; an
    unspecified device type or a blank token is refused with nothing stored. *)
Theorem register_push_token {W} (h : clientHandler W) {HS : StoreLaws (chStore h)}
    {HC : ClockLaws (chStore h) (chNow h)} (claims : Claims) (req : option RegisterPushTokenRequest) (w : W) :
  store_inv w ->
  let dt := deviceTypeFromProto (GetTokenDeviceType req) in
  let token := TrimSpace (GetToken req) in
  let key := mkDevKey (TenantID claims) (UserID claims) dt in
  let '(w', res) := RegisterPushToken h (Some claims) req w in
  ((dt = "" \/ token = "") -> w' = w /\ exists u, res = Err (ConnectError CodeInvalidArgument u)) /\
  (dt <> "" -> token <> "" -> res = Ok mkRegisterPushTokenResponse /\ rows w' = rows w /\
     exists id d, devs w' = <[id := d]> (devs w) /\ dkey_of d = key /\ dID d = id /\ dToken d = token /\
       (forall d0, devs w !! id = Some d0 -> dkey_of d0 = key /\ dCreatedAtMS d = dCreatedAtMS d0) /\
       (devs w !! id = None -> absent dkey_of (devs w) key)).
Proof.
  intros Hi dt token key. unfold RegisterPushToken. fold dt token.
  destruct (String.eqb_spec dt "") as [Hdt|Hdt].
  { unfold_M. split; [intros _; split; [done|by eexists]|done]. }
  destruct (String.eqb_spec token "") as [Htok|Htok].
  { unfold_M. split; [intros _; split; [done|by eexists]|done]. }
  unfold_M. pose proof (clock_frame w Hi) as Hc. destruct (chNow h w) as [w1 ms]. simpl in Hc.
  destruct Hc as (Hr1 & Hd1 & Hi1). set (d := mkDevice "" (TenantID claims) (UserID claims) dt token 0 ms).
  destruct (absent_dec dkey_of (devs w1) (dkey_of d)) as [Ha|(id & d0 & Hd0 & Hk)].
  - destruct (law_upsert_new w1 d Hi1 eq_refl Ha) as (id & w2 & d' & -> & _ & Hnew & Hd2 & Hr2 & _).
    split; [by intros [?|?]|]. intros _ _. split_and!; [done|congruence|].
    exists id, (set_dID id d). rewrite Hd2, Hd1. split_and!; try done.
    + intros d0 Hd0. congruence.
    + intros _. by rewrite <- Hd1.
  - destruct (law_upsert_hit w1 d id d0 Hi1 Hd0 Hk) as (w2 & d' & -> & Hd2 & Hr2 & _).
    split; [by intros [?|?]|]. intros _ _. split_and!; [done|congruence|].
    exists id, (rotate d0 d). rewrite Hd2, Hd1. split_and!; try done.
    + exact (proj1 (law_devs w1 Hi1) id d0 Hd0).
    + intros d1 Hd1'. assert (d1 = d0) as -> by congruence. done.
    + intros Hnone. congruence.
Qed.

(** ** Witnesses *)

#[export] Instance sample_clock : ClockLaws (nStore sample_notifier) world_now.
Proof. split. done. Qed.

Definition sample_client : clientHandler World :=
  mkClientHandler (nStore sample_notifier) None world_now.

Definition sample_claims (tenant user : string) : Claims := mkClaims user tenant "" None.

Definition inbox_world : World := mkWorld sample_state 1000 [].

Lemma ack_notification_witness :
  (AckNotification sample_client (Some (sample_claims "acme" "u1"))
     (Some (mkAckNotificationRequest " uuid-0 ")) inbox_world).2 = Ok mkAckNotificationResponse /\
  (AckNotification sample_client (Some (sample_claims "acme" "u2"))
     (Some (mkAckNotificationRequest "uuid-0")) inbox_world).2 = Err (ConnectError CodeNotFound ErrNotFound).
Proof.
  split.
  - pose proof (@ack_notification _ sample_client sample_world_laws sample_clock (sample_claims "acme" "u1")
      (Some (mkAckNotificationRequest " uuid-0 ")) inbox_world sample_state_inv) as Ht. cbv zeta in Ht.
    destruct (AckNotification sample_client _ _ inbox_world) as [w' res]. destruct Ht as (_ & Ht & _).
    destruct (Ht ltac:(by vm_compute) (set_nID "uuid-0" (sample_notif "acme" "u1" "n1" 10))
      ltac:(split; [by vm_compute|by split])) as [-> _]. done.
  - pose proof (@ack_notification _ sample_client sample_world_laws sample_clock (sample_claims "acme" "u2")
      (Some (mkAckNotificationRequest "uuid-0")) inbox_world sample_state_inv) as Ht. cbv zeta in Ht.
    destruct (AckNotification sample_client _ _ inbox_world) as [w' res]. destruct Ht as (_ & _ & Ht).
    destruct (Ht ltac:(by vm_compute)) as [-> _]; [|done]. intros r [Hr [_ Ho]].
    assert (He : r = set_nID "uuid-0" (sample_notif "acme" "u1" "n1" 10)).
    { revert Hr. vm_compute. congruence. }
    subst r. vm_compute in Ho. discriminate Ho.
Defined.

Lemma inbox_isolation_witness :
  store_inv (StoreLaws := sample_world_laws) inbox_world /\
  let '(w', res) := client_rpc dev_Validate "Bearer dev:u1:acme"
      (fun claims => GetNotifications sample_client claims (Some (mkGetNotificationsRequest "" 10 false))) inbox_world in
  notifications (wStore w') = notifications (wStore inbox_world).
Proof.
  split; [exact sample_state_inv|].
  pose proof (@inbox_isolation _ sample_client sample_world_laws dev_Validate "Bearer dev:u1:acme"
    (Some (mkGetNotificationsRequest "" 10 false)) inbox_world sample_state_inv) as Ht.
  cbv zeta in Ht. destruct (client_rpc _ _ _ inbox_world) as [w' res].
  destruct Ht as [_ Ht]. exact (proj1 (Ht None (or_introl (conj eq_refl eq_refl)))).
Defined.

Definition positive_rows : list StoreOp := take 4 sample_rows.
Definition positive_world : World := mkWorld (run_ops sample_store positive_rows New).1 1000 [].

Lemma positive_world_inv : store_inv (StoreLaws := sample_world_laws) positive_world.
Proof.
  destruct (@run_ops_refines _ _ sample_laws positive_rows New) as (s & outs & He & _ & _ & Hi).
  - apply mem_inv_New.
  - repeat constructor.
  - change (mem_inv sample_uuid (run_ops sample_store positive_rows New).1). by rewrite He.
Qed.

Lemma inbox_complete_witness :
  exists w' items,
    client_walk sample_client 4 (sample_claims "acme" "u1") (mkGetNotificationsRequest "" 2 false) positive_world =
      (w', Some (notification_view <$> items)) /\
    notifications (wStore w') = notifications (wStore positive_world) /\ StronglySorted newer items /\
    forall n, n ∈ items <-> (exists id, notifications (wStore positive_world) !! id = Some n) /\
      selected (mkQuery "acme" "u1" None 2 false) n.
Proof.
  refine (@inbox_complete _ sample_client sample_world_laws (sample_claims "acme" "u1") 2 false positive_world 4
    positive_world_inv _ _ _).
  - by apply distinct_createdb_ok; vm_compute.
  - assert (Hb : bool_decide (map_Forall (fun _ a => owned "acme" "u1" a -> 0 < nCreatedAtMS a < 2 ^ 63)
      (notifications (wStore positive_world))) = true) by by vm_compute.
    apply bool_decide_eq_true in Hb. intros i a Ha. exact (Hb i a Ha).
  - assert (He : length (filter (selected (mkQuery "acme" "u1" None 2 false))
      (all_rows (notifications (wStore positive_world)))) = 3%nat) by by vm_compute.
    change (length (filter (selected (mkQuery "acme" "u1" None 2 false))
      (all_rows (notifications (wStore positive_world)))) < 4)%nat. rewrite He. lia.
Defined.

Lemma notify_rpc_witness :
  let '(w', res) := internal_rpc "secret" false "secret"
      (fun _ => internal_Notify (H := sample_order) sample_notifier (Some sample_wire_request)) start in
  exists rsp, res = Ok rsp /\ pDelivered rsp + pPending rsp + pFailed rsp = 2.
Proof.
  pose proof (@notify_rpc _ sample_order sample_notifier sample_world_laws sample_env "secret" false "secret"
    (Some sample_wire_request) start start_inv) as Ht. cbv zeta in Ht.
  destruct (internal_rpc _ _ _ _ start) as [w' res]. destruct Ht as (_ & _ & Ht).
  destruct Ht as (_ & rsp & -> & Hsum); [left; done|split_and!; by vm_compute|].
  exists rsp. split; [done|]. apply Hsum. by vm_compute.
Defined.

Lemma unknown_channels_widen_witness :
  channels_of (H := sample_order) sample_notifier (notifyRequestFromProto (H := sample_order)
    (Some (mkNotifyRequestPB "acme" "n1" ["u1"] [0; 99] "" "" "" "" ∅))) =
  Enabled (H := sample_order) (nProviders sample_notifier).
Proof.
  apply (@unknown_channels_widen _ sample_order sample_notifier
    (mkNotifyRequestPB "acme" "n1" ["u1"] [0; 99] "" "" "" "" ∅)).
  intros c. simpl. rewrite !elem_of_cons, elem_of_nil. by intros [->|[->|[]]].
Defined.

Lemma register_push_token_witness :
  let '(w', res) := RegisterPushToken sample_client (Some (sample_claims "acme" "u1"))
    (Some (mkRegisterPushTokenRequest DEVICE_TYPE_IOS " tok ")) inbox_world in
  res = Ok mkRegisterPushTokenResponse /\ notifications (wStore w') = notifications (wStore inbox_world).
Proof.
  pose proof (@register_push_token _ sample_client sample_world_laws sample_clock (sample_claims "acme" "u1")
    (Some (mkRegisterPushTokenRequest DEVICE_TYPE_IOS " tok ")) inbox_world sample_state_inv) as Ht. cbv zeta in Ht.
  destruct (RegisterPushToken sample_client _ _ inbox_world) as [w' res]. destruct Ht as (_ & Ht).
  destruct (Ht ltac:(done) ltac:(by vm_compute)) as (-> & Hr & _). split; [done|exact Hr].
Defined.
