(* ===== verification/Duration.v ===== *)
(** * time.ParseDuration

    The standard library's parser of durations such as "30s" or "1h2.5m", as
    loadConfig uses it: digits, an optional fraction and a unit, repeated.  The
    integer part is a [uint64] with the code's overflow checks; the fraction is
    scaled in [float64], here by the IEEE operations of SpecFloat. *)

From Stdlib Require Import Floats.SpecFloat.
From S2P Require Import Prelude GoErrors GoStrings.

Definition Nanosecond : Z := 1.
Definition Microsecond : Z := 1000.
Definition Millisecond : Z := 1000 * Microsecond.
Definition Second : Z := 1000 * Millisecond.
Definition Minute : Z := 60 * Second.
Definition Hour : Z := 60 * Minute.

(** ** float64 *)

Definition float64 : Type := spec_float.
Definition float64_of (n : Z) : float64 := binary_normalize 53 1024 n 0 false.
Definition fmul (a b : float64) : float64 := SFmul 53 1024 a b.
Definition fdiv (a b : float64) : float64 := SFdiv 53 1024 a b.

(** [uint64(f)] for a non-negative finite [f]: truncation. *)
Definition uint64_of_float (f : float64) : Z :=
  match f with
  | S754_finite false m e => Z.shiftl (Z.pos m) e
  | _ => 0
  end.

(** ** The scanners *)

Definition leadingInt_limit : Z := 2 ^ 63.

(** [None] is errLeadingInt. *)
Fixpoint leadingInt (s : string) (x : Z) : option (Z * string) :=
  match s with
  | EmptyString => Some (x, s)
  | String c s' =>
      if negb (is_digit c) then Some (x, s)
      else if leadingInt_limit / 10 <? x then None
      else let x := x * 10 + (byte c - 48) in
           if leadingInt_limit <? x then None else leadingInt s' x
  end.

Fixpoint leadingFraction (s : string) (x : Z) (scale : float64) (overflow : bool)
    : Z * float64 * string :=
  match s with
  | EmptyString => (x, scale, s)
  | String c s' =>
      if negb (is_digit c) then (x, scale, s)
      else if overflow then leadingFraction s' x scale true
      else if (2 ^ 63 - 1) / 10 <? x then leadingFraction s' x scale true
      else let y := x * 10 + (byte c - 48) in
           if 2 ^ 63 <? y then leadingFraction s' x scale true
           else leadingFraction s' y (fmul scale (float64_of 10)) false
  end.

(** Everything up to the next digit or period. *)
Fixpoint scan_unit (s : string) : string * string :=
  match s with
  | EmptyString => ("", "")
  | String c s' =>
      if Ascii.eqb c "."%char || is_digit c then ("", s)
      else let '(u, rest) := scan_unit s' in (String c u, rest)
  end.

(** The two spellings of the micro sign, U+00B5 and U+03BC, in UTF-8. *)
Definition micro_sign : string := String (chr 194) (String (chr 181) "s").
Definition greek_mu : string := String (chr 206) (String (chr 188) "s").

Definition unitMap (u : string) : option Z :=
  if (u =? "ns")%string then Some Nanosecond
  else if (u =? "us")%string then Some Microsecond
  else if (u =? micro_sign)%string then Some Microsecond
  else if (u =? greek_mu)%string then Some Microsecond
  else if (u =? "ms")%string then Some Millisecond
  else if (u =? "s")%string then Some Second
  else if (u =? "m")%string then Some Minute
  else if (u =? "h")%string then Some Hour
  else None.

(** ** ParseDuration *)

Definition invalid (orig : string) : error := Errorf "time: invalid duration %s" [FStr orig].

(** The loop, on the remaining string and the sum so far; every round consumes
    at least its unit, so the length of the string is enough fuel. *)
Fixpoint parse_loop (fuel : nat) (orig s : string) (d : Z) : result error Z :=
  match s with
  | EmptyString => Ok d
  | String c _ =>
      match fuel with
      | O => Err (invalid orig)
      | S fuel =>
          if negb (Ascii.eqb c "."%char || is_digit c) then Err (invalid orig) else
          match leadingInt s 0 with
          | None => Err (invalid orig)
          | Some (v, s1) =>
              let pre := negb (String.length s =? String.length s1)%nat in
              let '(f, scale, s2, post) :=
                match s1 with
                | String "."%char s1' =>
                    let '(f, scale, s2) := leadingFraction s1' 0 (float64_of 1) false in
                    (f, scale, s2, negb (String.length s1' =? String.length s2)%nat)
                | _ => (0, float64_of 1, s1, false)
                end in
              if negb pre && negb post then Err (invalid orig) else
              let '(u, s3) := scan_unit s2 in
              if (u =? "")%string
              then Err (Errorf "time: missing unit in duration %s" [FStr orig]) else
              match unitMap u with
              | None => Err (Errorf "time: unknown unit %s in duration %s" [FStr u; FStr orig])
              | Some unit =>
                  if 2 ^ 63 / unit <? v then Err (invalid orig) else
                  let v := v * unit in
                  let v := if 0 <? f
                           then v + uint64_of_float (fmul (float64_of f) (fdiv (float64_of unit) scale))
                           else v in
                  if 2 ^ 63 <? v then Err (invalid orig) else
                  let d := (d + v) mod 2 ^ 64 in
                  if 2 ^ 63 <? d then Err (invalid orig) else
                  parse_loop fuel orig s3 d
              end
          end
      end
  end.

Definition ParseDuration (s : string) : result error Z :=
  let '(neg, rest) :=
    match s with
    | String c s' => if Ascii.eqb c "-"%char then (true, s')
                     else if Ascii.eqb c "+"%char then (false, s') else (false, s)
    | EmptyString => (false, s)
    end in
  if (rest =? "0")%string then Ok 0
  else if (rest =? "")%string then Err (invalid s)
  else match parse_loop (String.length rest) s rest 0 with
       | Err e => Err e
       | Ok d =>
           if neg then Ok (if d =? 2 ^ 63 then d - 2 ^ 64 else - d)
           else if 2 ^ 63 - 1 <? d then Err (invalid s) else Ok d
       end.

(** ** What it answers *)

Example parse_30s : ParseDuration "30s" = Ok (30 * Second).
Proof. by vm_compute. Qed.
Example parse_mixed : ParseDuration "1h2.5m-" = Err (Errorf "time: unknown unit %s in duration %s" [FStr "m-"; FStr "1h2.5m-"]).
Proof. by vm_compute. Qed.
Example parse_fraction : ParseDuration "-1.5h" = Ok (- (90 * Minute)).
Proof. by vm_compute. Qed.
Example parse_tenth : ParseDuration "0.1s" = Ok (100 * Millisecond).
Proof. by vm_compute. Qed.
Example parse_bare : ParseDuration "30" = Err (Errorf "time: missing unit in duration %s" [FStr "30"]).
Proof. by vm_compute. Qed.

(** A parsed duration is an int64. *)
Lemma parse_loop_range fuel : forall orig s d z, 0 <= d <= 2 ^ 63 ->
  parse_loop fuel orig s d = Ok z -> 0 <= z <= 2 ^ 63.
Proof.
  induction fuel as [|fuel IH]; intros orig s d z Hd; destruct s as [|c s]; cbn [parse_loop]; try done;
    try (by intros [= <-]).
  destruct (negb _); [done|]. destruct (leadingInt _ 0) as [[v s1]|]; [|done].
  destruct (match s1 with EmptyString => _ | String _ _ => _ end) as [[[f scale] s2] post].
  destruct (_ && _); [done|]. destruct (scan_unit s2) as [u s3]. destruct (u =? "")%string; [done|].
  destruct (unitMap u) as [unit|]; [|done]. destruct (2 ^ 63 / unit <? v); [done|].
  set (v' := if 0 <? f then _ else _). destruct (2 ^ 63 <? v'); [done|].
  destruct (Z.ltb_spec (2 ^ 63) ((d + v') mod 2 ^ 64)) as [|Hle]; [done|].
  apply IH. pose proof (Z.mod_pos_bound (d + v') (2 ^ 64) ltac:(lia)). lia.
Qed.

Lemma ParseDuration_range s z : ParseDuration s = Ok z -> is_int64 z.
Proof.
  unfold ParseDuration, is_int64, min_int64, max_int64.
  destruct (match s with EmptyString => _ | String _ _ => _ end) as [neg rest].
  destruct (rest =? "0")%string; [intros [= <-]; lia|]. destruct (rest =? "")%string; [done|].
  destruct (parse_loop _ s rest 0) as [d|] eqn:Hd; [|done].
  apply parse_loop_range in Hd; [|lia]. destruct neg.
  - destruct (Z.eqb_spec d (2 ^ 63)); intros [= <-]; lia.
  - destruct (Z.ltb_spec (2 ^ 63 - 1) d); [done|]. intros [= <-]. lia.
Qed.

(** ** Nanoseconds, written and read *)

Lemma leadingInt_digits s t : forall x, all_digits s = true -> 0 <= x -> dec_value s x <= max_int64 ->
  (forall c t', t = String c t' -> is_digit c = false) -> leadingInt (s +:+ t) x = Some (dec_value s x, t).
Proof.
  induction s as [|a s IH]; intros x Hs Hx Hmax Ht.
  - rewrite append_nil. destruct t as [|c t]; [done|]. cbn. by rewrite (Ht c t).
  - cbn [all_digits dec_value] in *. apply andb_true_iff in Hs as [Ha Hs]. rewrite append_cons. cbn [leadingInt].
    rewrite Ha. cbn [negb]. apply is_digit_byte in Ha.
    pose proof (dec_value_mono s (x * 10 + (byte a - 48)) Hs ltac:(lia)) as Hm. unfold leadingInt_limit, max_int64 in *.
    rewrite !(proj2 (Z.ltb_ge _ _)) by (try apply Z.div_le_lower_bound; lia). by apply IH; [|lia|lia|].
Qed.

(** A duration in nanoseconds. *)
Definition FormatNanoseconds (d : Z) : string := FormatInt d +:+ "ns".

Lemma ParseDuration_ns d : 0 <= d <= max_int64 -> ParseDuration (FormatNanoseconds d) = Ok d.
Proof.
  intros Hd. unfold FormatNanoseconds, FormatInt. rewrite (proj2 (Z.ltb_ge d 0)) by lia.
  pose proof (leadingInt_digits (format_uint d) "ns" 0 (format_uint_digits d) ltac:(lia)) as Hlead.
  rewrite format_uint_value in Hlead by lia. specialize (Hlead ltac:(lia) ltac:(by intros c t [= <- _])).
  pose proof (format_uint_digits d) as Hdig. pose proof (format_uint_nonempty d ltac:(lia)) as Hne.
  destruct (format_uint d) as [|c s] eqn:He; [done|]. cbn in Hdig. apply andb_true_iff in Hdig as [Hc _].
  pose proof (is_digit_byte c Hc) as Hb. unfold ParseDuration. rewrite append_cons in Hlead |- *.
  destruct (Ascii.eqb_spec c "-"%char) as [->|_]; [by vm_compute in Hc|].
  destruct (Ascii.eqb_spec c "+"%char) as [->|_]; [by vm_compute in Hc|].
  rewrite (proj2 (String.eqb_neq _ "0")) by (destruct s; by intros [= _ ?]).
  rewrite (proj2 (String.eqb_neq _ "")) by done.
  assert (Hloop : forall fuel orig, parse_loop (S fuel) orig (String c (s +:+ "ns")) 0 = Ok d).
  { intros fuel orig. unfold parse_loop at 1. fold parse_loop. rewrite Hc, orb_true_r. cbn [negb]. rewrite Hlead.
    assert (Hlen : (String.length (String c (s +:+ "ns")) =? String.length "ns")%nat = false).
    { apply Nat.eqb_neq. rewrite <- append_cons, length_append. cbn. lia. }
    rewrite Hlen. change (scan_unit "ns") with ("ns", ""). cbn [negb andb]. cbv beta iota.
    change ("ns" =? "")%string with false. change (unitMap "ns") with (Some 1). change (0 <? 0) with false. cbv beta iota zeta.
    rewrite Z.div_1_r, Z.mul_1_r, Z.add_0_l. unfold max_int64 in *. rewrite Z.mod_small by lia.
    rewrite !(proj2 (Z.ltb_ge _ d)) by lia. by destruct fuel. }
  change (String.length (String c (s +:+ "ns"))) with (S (String.length (s +:+ "ns"))). rewrite Hloop.
  unfold max_int64 in *. by rewrite (proj2 (Z.ltb_ge _ d)) by lia.
Qed.
