(* ===== verification/Config.v ===== *)
(** * internal/server/config.go: configuration from the environment

    loadConfig reads the environment through a function; [setErr] keeps the
    first error, so every block returns its value and the errors it would set,
    in order, and the whole reports the first of them. *)

From S2P Require Import Prelude GoErrors GoStrings Duration.

(** ** The configuration of the library: config.go *)

Record LiveConnectionsConfig := mkLiveConnections {
  lcEnabled : bool;
  lcHeartbeatInterval : Z;
  lcRetryMaxAttempts : Z;
  lcRetryInterval : Z;
  lcAllowedOrigins : list string;
}.

Record StoreConfig := mkStoreConfig {
  scDriver : string;
  scEntDBAddress : string;
  scTenantID : string;
  scPostgresDSN : string;
  scPostgresAutoMigrate : bool;
}.

Record EmailConfig := mkEmailConfig {
  ecProvider : string;
  ecFrom : string;
  ecEmailServiceAddress : string;
  ecSMTPHost : string;
  ecSMTPPort : Z;
  ecSMTPUsername : string;
  ecSMTPPassword : string;
  ecAPIKey : string;
  ecEndpoint : string;
  ecRegion : string;
}.

Record TwilioConfig := mkTwilioConfig {
  tcProvider : string;
  tcAccountSID : string;
  tcAuthToken : string;
  tcMessagingServiceSID : string;
  tcFrom : string;
}.

Record WebPushConfig := mkWebPushConfig {
  wcProvider : string;
  wcVAPIDPublic : string;
  wcVAPIDPrivate : string;
  wcContactEmail : string;
}.

Record MobilePushConfig := mkMobilePushConfig {
  mcProvider : string;
  mcFCMCredentialsJSON : string;
  mcFCMProjectID : string;
  mcAPNSKeyP8 : string;
  mcAPNSKeyID : string;
  mcAPNSTeamID : string;
  mcAPNSTopic : string;
  mcAPNSSandbox : bool;
}.

(** ** The configuration of the server *)

Record AuthConfig := mkAuthConfig {
  acJWTSecret : string;
  acJWTIssuer : string;
  acJWTAudience : string;
  acJWTLeeway : Z;
  acInternalToken : string;
  acDevMode : bool;
}.

Record Config := mkConfig {
  ClientPort : Z;
  InternalPort : Z;
  MetricsPort : Z;
  LogLevel : string;
  ShutdownTimeout : Z;
  cfgStore : StoreConfig;
  cfgEmail : EmailConfig;
  cfgSMS : TwilioConfig;
  cfgWhatsApp : TwilioConfig;
  cfgWebPush : WebPushConfig;
  cfgMobilePush : MobilePushConfig;
  LiveConnections : LiveConnectionsConfig;
  cfgAuth : AuthConfig;
}.

Definition DefaultClientPort : Z := 8080.
Definition DefaultInternalPort : Z := 8081.
Definition DefaultMetricsPort : Z := 9090.
Definition DefaultShutdownTimeout : Z := 30 * Second.
Definition DefaultHeartbeatInterval : Z := 30 * Second.
Definition DefaultRetryMaxAttempts : Z := 3.
Definition DefaultRetryInterval : Z := 5 * Second.
Definition DefaultStoreDriver : string := "memory".
Definition DefaultJWTLeeway : Z := 30 * Second.
Definition DefaultLogLevel : string := "info".

(** ** Parsers *)

Definition parsePort (name v : string) : result error Z :=
  match Atoi v with
  | Err err => Err (ErrorfW "%s: %w" [FStr name] err)
  | Ok p => if (p <? 1) || (65535 <? p)
            then Err (Errorf "%s: must be in 1..65535, got %d" [FStr name; FInt p])
            else Ok p
  end.

(** The slog levels. *)
Definition LevelDebug : Z := -4.
Definition LevelInfo : Z := 0.
Definition LevelWarn : Z := 4.
Definition LevelError : Z := 8.

Definition parseLogLevel (v : string) : result error Z :=
  let l := ToLower v in
  if (l =? "debug")%string then Ok LevelDebug
  else if (l =? "info")%string || (l =? "")%string then Ok LevelInfo
  else if (l =? "warn")%string || (l =? "warning")%string then Ok LevelWarn
  else if (l =? "error")%string then Ok LevelError
  else Err (Errorf "NOTIFY_LOG_LEVEL: unknown level %q (want debug|info|warn|error)" [FStr v]).

Definition parseBoolDefault (v : string) (def : bool) : bool :=
  if (v =? "")%string then def else
  match ParseBool v with Err _ => def | Ok b => b end.

Definition strOrDefault (v def : string) : string := if (v =? "")%string then def else v.

Definition splitList (v : string) : list string :=
  if (v =? "")%string then [] else
  List.filter (fun p => negb (p =? "")%string) (TrimSpace <$> Split v ","%char).

Definition SlogLevel (c : Config) : Z :=
  match parseLogLevel (LogLevel c) with Ok l => l | Err _ => 0 end.

(** ** loadConfig, block by block *)

Section load.
Context (get : string -> string).

Definition blank (v : string) : bool := (v =? "")%string.

Definition port_block (name : string) (def : Z) : Z * list error :=
  let v := get name in
  if blank v then (def, []) else
  match parsePort name v with Err err => (def, [err]) | Ok p => (p, []) end.

(** A duration with its admissible range. *)
Definition duration_block (name : string) (def : Z) (bad : Z -> bool) (why : string) : Z * list error :=
  let v := get name in
  if blank v then (def, []) else
  match ParseDuration v with
  | Err err => (def, [ErrorfW "%s: %w" [FStr name] err])
  | Ok d => if bad d then (def, [Errorf "%s: %s" [FStr name; FStr why]]) else (d, [])
  end.

Definition log_block : string * list error :=
  let v := get "NOTIFY_LOG_LEVEL" in
  let level := if blank v then DefaultLogLevel else ToLower v in
  (level, match parseLogLevel level with Err err => [err] | Ok _ => [] end).

Definition require (b : bool) (msg : string) : list error := if b then [] else [ErrorsNew msg].

Definition store_block : StoreConfig * list error :=
  let driver := ToLower (strOrDefault (get "NOTIFY_STORE_DRIVER") DefaultStoreDriver) in
  if (driver =? "memory")%string then (mkStoreConfig driver "" "" "" false, [])
  else if (driver =? "postgres")%string then
    let dsn := get "NOTIFY_POSTGRES_DSN" in
    (mkStoreConfig driver "" "" dsn (parseBoolDefault (get "NOTIFY_POSTGRES_AUTOMIGRATE") true),
     require (negb (blank dsn)) "NOTIFY_POSTGRES_DSN is required when NOTIFY_STORE_DRIVER=postgres")
  else if (driver =? "entdb")%string then
    let addr := get "NOTIFY_ENTDB_ADDRESS" in
    let tenant := get "NOTIFY_ENTDB_TENANT_ID" in
    (mkStoreConfig driver addr tenant "" false,
     require (negb (blank addr)) "NOTIFY_ENTDB_ADDRESS is required when NOTIFY_STORE_DRIVER=entdb" ++
     require (negb (blank tenant)) "NOTIFY_ENTDB_TENANT_ID is required when NOTIFY_STORE_DRIVER=entdb")
  else (mkStoreConfig driver "" "" "" false,
    [Errorf "NOTIFY_STORE_DRIVER: unknown driver %q (want memory|postgres|entdb)" [FStr driver]]).

Definition auth_block : AuthConfig * list error :=
  let devMode := parseBoolDefault (get "NOTIFY_AUTH_DEV_MODE") false in
  let secret := get "NOTIFY_AUTH_JWT_SECRET" in
  let token := get "NOTIFY_INTERNAL_TOKEN" in
  let '(leeway, errs) :=
    duration_block "NOTIFY_AUTH_JWT_LEEWAY" DefaultJWTLeeway (fun d => d <? 0) "must be >= 0" in
  (mkAuthConfig secret (get "NOTIFY_AUTH_JWT_ISSUER") (get "NOTIFY_AUTH_JWT_AUDIENCE") leeway token devMode,
   errs ++
   if negb devMode then
     require (negb (blank secret)) "NOTIFY_AUTH_JWT_SECRET is required unless NOTIFY_AUTH_DEV_MODE=true" ++
     require (negb (blank token)) "NOTIFY_INTERNAL_TOKEN is required unless NOTIFY_AUTH_DEV_MODE=true"
   else []).

Definition attempts_block : Z * list error :=
  let v := get "NOTIFY_LIVE_RETRY_MAX_ATTEMPTS" in
  if blank v then (DefaultRetryMaxAttempts, []) else
  match Atoi v with
  | Err err => (DefaultRetryMaxAttempts, [ErrorfW "NOTIFY_LIVE_RETRY_MAX_ATTEMPTS: %w" [] err])
  | Ok n => if n <? 0
            then (DefaultRetryMaxAttempts, [Errorf "NOTIFY_LIVE_RETRY_MAX_ATTEMPTS: must be >= 0" []])
            else (n, [])
  end.

Definition live_block : LiveConnectionsConfig * list error :=
  let origins := splitList (get "NOTIFY_ALLOWED_ORIGINS") in
  let enabled := parseBoolDefault (get "NOTIFY_LIVE_CONNECTIONS_ENABLED") true in
  let '(heartbeat, e1) :=
    duration_block "NOTIFY_LIVE_HEARTBEAT_INTERVAL" DefaultHeartbeatInterval (fun d => d <=? 0) "must be > 0" in
  let '(attempts, e2) := attempts_block in
  let '(interval, e3) :=
    duration_block "NOTIFY_LIVE_RETRY_INTERVAL" DefaultRetryInterval (fun d => d <=? 0) "must be > 0" in
  (mkLiveConnections enabled heartbeat attempts interval origins, e1 ++ e2 ++ e3).

Definition email_block : EmailConfig * list error :=
  let provider := ToLower (strOrDefault (get "NOTIFY_EMAIL_PROVIDER") "none") in
  let from := get "NOTIFY_EMAIL_FROM" in
  let addr := get "NOTIFY_EMAIL_SERVICE_ADDRESS" in
  let v := get "NOTIFY_EMAIL_SMTP_PORT" in
  let bad := (0, [Errorf "NOTIFY_EMAIL_SMTP_PORT: must be in 1..65535" []]) in
  let '(port, errs) :=
    if blank v then (0, []) else
    match Atoi v with
    | Err _ => bad
    | Ok p => if (p <? 1) || (65535 <? p) then bad else (p, [])
    end in
  (mkEmailConfig provider from addr (get "NOTIFY_EMAIL_SMTP_HOST") port
     (get "NOTIFY_EMAIL_SMTP_USERNAME") (get "NOTIFY_EMAIL_SMTP_PASSWORD") (get "NOTIFY_EMAIL_API_KEY")
     (get "NOTIFY_EMAIL_ENDPOINT") (get "NOTIFY_EMAIL_REGION"),
   errs ++
   require (negb ((provider =? "emailservice")%string && blank addr))
     "NOTIFY_EMAIL_SERVICE_ADDRESS is required when NOTIFY_EMAIL_PROVIDER=emailservice" ++
   require (negb (negb (provider =? "none")%string && blank from))
     "NOTIFY_EMAIL_FROM is required when an email provider is configured").

Definition twilioBlock (prefix : string) : TwilioConfig :=
  mkTwilioConfig (ToLower (get (prefix +:+ "PROVIDER"))) (get (prefix +:+ "ACCOUNT_SID"))
    (get (prefix +:+ "AUTH_TOKEN")) (get (prefix +:+ "MESSAGING_SERVICE_SID")) (get (prefix +:+ "FROM")).

Definition twilio_errors (c : TwilioConfig) (msg : string) : list error :=
  require (negb ((tcProvider c =? "twilio")%string && (blank (tcAccountSID c) || blank (tcAuthToken c)))) msg.

Definition webpush_block : WebPushConfig * list error :=
  let c := mkWebPushConfig (ToLower (get "NOTIFY_WEBPUSH_PROVIDER")) (get "NOTIFY_WEBPUSH_VAPID_PUBLIC")
             (get "NOTIFY_WEBPUSH_VAPID_PRIVATE") (get "NOTIFY_WEBPUSH_CONTACT_EMAIL") in
  (c, require (negb ((wcProvider c =? "vapid")%string && (blank (wcVAPIDPublic c) || blank (wcVAPIDPrivate c))))
        "NOTIFY_WEBPUSH_VAPID_PUBLIC and NOTIFY_WEBPUSH_VAPID_PRIVATE are required when NOTIFY_WEBPUSH_PROVIDER=vapid").

Definition mobile_block : MobilePushConfig * list error :=
  let c := mkMobilePushConfig (ToLower (get "NOTIFY_MOBILEPUSH_PROVIDER")) (get "NOTIFY_FCM_CREDENTIALS_JSON")
             (get "NOTIFY_FCM_PROJECT_ID") (get "NOTIFY_APNS_KEY_P8") (get "NOTIFY_APNS_KEY_ID")
             (get "NOTIFY_APNS_TEAM_ID") (get "NOTIFY_APNS_TOPIC")
             (parseBoolDefault (get "NOTIFY_APNS_SANDBOX") false) in
  (c, require (negb ((mcProvider c =? "fcm")%string &&
                     (blank (mcFCMCredentialsJSON c) || blank (mcFCMProjectID c))))
        "NOTIFY_FCM_CREDENTIALS_JSON and NOTIFY_FCM_PROJECT_ID are required when NOTIFY_MOBILEPUSH_PROVIDER=fcm").

Definition loadConfig : result error Config :=
  let '(clientPort, e1) := port_block "NOTIFY_CLIENT_PORT" DefaultClientPort in
  let '(internalPort, e2) := port_block "NOTIFY_INTERNAL_PORT" DefaultInternalPort in
  let '(metricsPort, e3) := port_block "NOTIFY_METRICS_PORT" DefaultMetricsPort in
  let '(level, e4) := log_block in
  let '(timeout, e5) :=
    duration_block "NOTIFY_SHUTDOWN_TIMEOUT" DefaultShutdownTimeout (fun d => d <=? 0) "must be > 0" in
  let '(store, e6) := store_block in
  let '(auth, e7) := auth_block in
  let '(live, e8) := live_block in
  let '(email, e9) := email_block in
  let sms := twilioBlock "NOTIFY_SMS_" in
  let whatsapp := twilioBlock "NOTIFY_WHATSAPP_" in
  let e10 := twilio_errors sms
    "NOTIFY_SMS_ACCOUNT_SID and NOTIFY_SMS_AUTH_TOKEN are required when NOTIFY_SMS_PROVIDER=twilio" in
  let e11 := twilio_errors whatsapp
    "NOTIFY_WHATSAPP_ACCOUNT_SID and NOTIFY_WHATSAPP_AUTH_TOKEN are required when NOTIFY_WHATSAPP_PROVIDER=twilio" in
  let '(webpush, e12) := webpush_block in
  let '(mobile, e13) := mobile_block in
  match e1 ++ e2 ++ e3 ++ e4 ++ e5 ++ e6 ++ e7 ++ e8 ++ e9 ++ e10 ++ e11 ++ e12 ++ e13 with
  | firstErr :: _ => Err firstErr
  | [] => Ok (mkConfig clientPort internalPort metricsPort level timeout store email sms whatsapp
                webpush mobile live auth)
  end.

End load.
