(* ===== verification/ConfigProps.v ===== *)
(** * What a loaded configuration guarantees

    loadConfig's contract: an [Ok] configuration satisfies [valid_config], an
    environment without NOTIFY_ variables loads only in development mode, and
    the one kind of value that is not validated. *)

From S2P Require Import Prelude GoErrors GoStrings Duration Config.

Definition is_port (p : Z) : Prop := 1 <= p <= 65535.

Definition valid_store (c : StoreConfig) : Prop :=
  scDriver c = "memory" \/
  (scDriver c = "postgres" /\ scPostgresDSN c <> "") \/
  (scDriver c = "entdb" /\ scEntDBAddress c <> "" /\ scTenantID c <> "").

Definition valid_auth (c : AuthConfig) : Prop :=
  0 <= acJWTLeeway c /\
  (acDevMode c = true \/ (acJWTSecret c <> "" /\ acInternalToken c <> "")).

Definition valid_live (c : LiveConnectionsConfig) : Prop :=
  0 < lcHeartbeatInterval c /\ 0 <= lcRetryMaxAttempts c /\ 0 < lcRetryInterval c /\
  Forall (fun o => o <> "" /\ TrimSpace o = o) (lcAllowedOrigins c).

Definition valid_email (c : EmailConfig) : Prop :=
  (ecProvider c <> "none" -> ecFrom c <> "") /\
  (ecProvider c = "emailservice" -> ecEmailServiceAddress c <> "") /\
  (ecSMTPPort c = 0 \/ is_port (ecSMTPPort c)).

Definition valid_twilio (c : TwilioConfig) : Prop :=
  tcProvider c = "twilio" -> tcAccountSID c <> "" /\ tcAuthToken c <> "".

Definition valid_webpush (c : WebPushConfig) : Prop :=
  wcProvider c = "vapid" -> wcVAPIDPublic c <> "" /\ wcVAPIDPrivate c <> "".

Definition valid_mobile (c : MobilePushConfig) : Prop :=
  mcProvider c = "fcm" -> mcFCMCredentialsJSON c <> "" /\ mcFCMProjectID c <> "".

Record valid_config (c : Config) : Prop := {
  vc_ports : is_port (ClientPort c) /\ is_port (InternalPort c) /\ is_port (MetricsPort c);
  vc_level : parseLogLevel (LogLevel c) = Ok (SlogLevel c);
  vc_shutdown : 0 < ShutdownTimeout c <= max_int64;
  vc_store : valid_store (cfgStore c);
  vc_auth : valid_auth (cfgAuth c);
  vc_live : valid_live (LiveConnections c);
  vc_email : valid_email (cfgEmail c);
  vc_sms : valid_twilio (cfgSMS c);
  vc_whatsapp : valid_twilio (cfgWhatsApp c);
  vc_webpush : valid_webpush (cfgWebPush c);
  vc_mobile : valid_mobile (cfgMobilePush c);
}.

(** ** The blocks: what holds when a block reports no error *)

Lemma require_nil b msg : require b msg = [] <-> b = true.
Proof. unfold require. by destruct b. Qed.

Lemma blank_false v : blank v = false <-> v <> "".
Proof. apply String.eqb_neq. Qed.

Lemma parsePort_range name v p : parsePort name v = Ok p -> is_port p.
Proof.
  unfold parsePort, is_port. destruct (Atoi v) as [z|]; [|done].
  destruct ((z <? 1) || (65535 <? z)) eqn:Hz; [done|]. intros [= <-].
  bool_to_prop. lia.
Qed.

Section blocks.
Context (get : string -> string).

Lemma port_block_ok name def p : is_port def -> port_block get name def = (p, []) -> is_port p.
Proof.
  unfold port_block. intros Hdef. destruct (blank (get name)); [by intros [= <-]|].
  destruct (parsePort name (get name)) as [z|] eqn:Hz; [|done].
  intros [= <-]. by eapply parsePort_range.
Qed.

Lemma duration_block_ok name def bad why d :
  bad def = false -> is_int64 def -> duration_block get name def bad why = (d, []) ->
  bad d = false /\ is_int64 d.
Proof.
  unfold duration_block. intros Hdef Hr. destruct (blank (get name)); [by intros [= <-]|].
  destruct (ParseDuration (get name)) as [z|] eqn:Hz; [|done].
  destruct (bad z) eqn:Hb; [done|]. intros [= <-]. split; [done|]. by eapply ParseDuration_range.
Qed.

Lemma log_block_ok level : log_block get = (level, []) -> exists l, parseLogLevel level = Ok l.
Proof.
  unfold log_block. intros [= <- H]. destruct (parseLogLevel _) as [l|]; [by exists l|done].
Qed.

Lemma store_block_ok c : store_block get = (c, []) -> valid_store c.
Proof.
  unfold store_block, valid_store.
  set (driver := ToLower _). clearbody driver.
  destruct (String.eqb_spec driver "memory") as [->|]; [intros [= <-]; by left|].
  destruct (String.eqb_spec driver "postgres") as [->|].
  { intros [= <- H]. right. left. apply require_nil, negb_true_iff, blank_false in H. done. }
  destruct (String.eqb_spec driver "entdb") as [->|]; [|done].
  intros [= <- [H1 H2]%app_eq_nil]. right. right.
  apply require_nil, negb_true_iff, blank_false in H1, H2. done.
Qed.

Lemma auth_block_ok c : auth_block get = (c, []) -> valid_auth c.
Proof.
  unfold auth_block, valid_auth.
  destruct (duration_block _ _ _ _ _) as [leeway errs] eqn:Hd.
  intros [= <- [-> H]%app_eq_nil]. simpl. split.
  - apply duration_block_ok in Hd as [Hd _]; [|done|by split]. apply Z.ltb_ge in Hd. done.
  - destruct (parseBoolDefault _ _); [by left|right]. simpl in H.
    apply app_eq_nil in H as [H1 H2].
    apply require_nil, negb_true_iff, blank_false in H1, H2. done.
Qed.

Lemma splitList_trimmed v : Forall (fun o => o <> "" /\ TrimSpace o = o) (splitList v).
Proof.
  unfold splitList. destruct (v =? "")%string; [constructor|].
  apply Forall_forall. intros o Ho. apply list_elem_of_In, filter_In in Ho as [Ho Hne].
  split; [by apply negb_true_iff, String.eqb_neq in Hne|].
  apply list_elem_of_In, list_elem_of_fmap in Ho as (p & -> & _). apply TrimSpace_idemp.
Qed.

Lemma attempts_block_ok n : attempts_block get = (n, []) -> 0 <= n.
Proof.
  unfold attempts_block. destruct (blank _); [intros [= <-]; done|].
  destruct (Atoi _) as [z|]; [|done]. destruct (Z.ltb_spec z 0); [done|]. intros [= <-]. done.
Qed.

Lemma live_block_ok c : live_block get = (c, []) -> valid_live c.
Proof.
  unfold live_block, valid_live.
  destruct (duration_block _ "NOTIFY_LIVE_HEARTBEAT_INTERVAL" _ _ _) as [h e1] eqn:H1.
  destruct (attempts_block get) as [n e2] eqn:H2.
  destruct (duration_block _ "NOTIFY_LIVE_RETRY_INTERVAL" _ _ _) as [i e3] eqn:H3.
  intros [= <- [-> [-> ->]%app_eq_nil]%app_eq_nil]. simpl.
  apply duration_block_ok in H1 as [H1 _], H3 as [H3 _]; [|done|by split|done|by split].
  apply Z.leb_gt in H1, H3. apply attempts_block_ok in H2.
  split_and!; auto using splitList_trimmed.
Qed.

Lemma email_block_ok c : email_block get = (c, []) -> valid_email c.
Proof.
  unfold email_block, valid_email.
  set (provider := ToLower _). clearbody provider.
  match goal with |- context [let '(port, errs) := ?b in _] => destruct b as [port errs] eqn:Hp end.
  intros [= <- [-> [H1 H2]%app_eq_nil]%app_eq_nil]. simpl.
  apply require_nil, negb_true_iff in H1, H2. split_and!.
  - intros Hne. destruct (String.eqb_spec provider "none"); [done|]. by apply blank_false in H2.
  - intros ->. by apply blank_false in H1.
  - destruct (blank (get "NOTIFY_EMAIL_SMTP_PORT")); [injection Hp as <-; by left|].
    destruct (Atoi _) as [z|]; [|done]. destruct ((z <? 1) || (65535 <? z)) eqn:Hz; [done|].
    injection Hp as <-. right. bool_to_prop. unfold is_port. lia.
Qed.

Lemma twilio_ok c msg : twilio_errors c msg = [] -> valid_twilio c.
Proof.
  unfold twilio_errors, valid_twilio. intros H%require_nil%negb_true_iff Hp.
  rewrite Hp in H. simpl in H. apply orb_false_iff in H as [H1 H2].
  by apply blank_false in H1, H2.
Qed.

Lemma webpush_block_ok c : webpush_block get = (c, []) -> valid_webpush c.
Proof.
  unfold webpush_block, valid_webpush. intros [= <- H%require_nil%negb_true_iff] Hp. simpl in Hp.
  cbn [wcProvider wcVAPIDPublic wcVAPIDPrivate] in *. rewrite Hp in H. simpl in H.
  apply orb_false_iff in H as [H1 H2]. by apply blank_false in H1, H2.
Qed.

Lemma mobile_block_ok c : mobile_block get = (c, []) -> valid_mobile c.
Proof.
  unfold mobile_block, valid_mobile. intros [= <- H%require_nil%negb_true_iff] Hp.
  cbn [mcProvider mcFCMCredentialsJSON mcFCMProjectID] in *. rewrite Hp in H. simpl in H.
  apply orb_false_iff in H as [H1 H2]. by apply blank_false in H1, H2.
Qed.
End blocks.

(** ** loadConfig, field by field *)

Section loaded.
Context (get : string -> string).

Definition positive_block (name : string) (def : Z) : Z * list error :=
  duration_block get name def (fun d => d <=? 0) "must be > 0".

(** Every block returns its field of the configuration and no error. *)
Record loaded (c : Config) : Prop := {
  l_client : port_block get "NOTIFY_CLIENT_PORT" DefaultClientPort = (ClientPort c, []);
  l_internal : port_block get "NOTIFY_INTERNAL_PORT" DefaultInternalPort = (InternalPort c, []);
  l_metrics : port_block get "NOTIFY_METRICS_PORT" DefaultMetricsPort = (MetricsPort c, []);
  l_level : log_block get = (LogLevel c, []);
  l_shutdown : positive_block "NOTIFY_SHUTDOWN_TIMEOUT" DefaultShutdownTimeout = (ShutdownTimeout c, []);
  l_store : store_block get = (cfgStore c, []);
  l_auth : auth_block get = (cfgAuth c, []);
  l_live : live_block get = (LiveConnections c, []);
  l_email : email_block get = (cfgEmail c, []);
  l_sms : twilioBlock get "NOTIFY_SMS_" = cfgSMS c;
  l_whatsapp : twilioBlock get "NOTIFY_WHATSAPP_" = cfgWhatsApp c;
  l_sms_set : exists msg, twilio_errors (cfgSMS c) msg = [];
  l_whatsapp_set : exists msg, twilio_errors (cfgWhatsApp c) msg = [];
  l_webpush : webpush_block get = (cfgWebPush c, []);
  l_mobile : mobile_block get = (cfgMobilePush c, []);
}.

Lemma loadConfig_loaded c : loadConfig get = Ok c -> loaded c.
Proof.
  unfold loadConfig.
  destruct (port_block get "NOTIFY_CLIENT_PORT" _) as [p1 e1] eqn:H1.
  destruct (port_block get "NOTIFY_INTERNAL_PORT" _) as [p2 e2] eqn:H2.
  destruct (port_block get "NOTIFY_METRICS_PORT" _) as [p3 e3] eqn:H3.
  destruct (log_block get) as [level e4] eqn:H4.
  destruct (duration_block get "NOTIFY_SHUTDOWN_TIMEOUT" _ _ _) as [timeout e5] eqn:H5.
  destruct (store_block get) as [store e6] eqn:H6. destruct (auth_block get) as [auth e7] eqn:H7.
  destruct (live_block get) as [live e8] eqn:H8. destruct (email_block get) as [email e9] eqn:H9.
  destruct (webpush_block get) as [webpush e12] eqn:H12.
  destruct (mobile_block get) as [mobile e13] eqn:H13. intros Hok.
  match type of Hok with match ?l with _ => _ end = _ => destruct l eqn:He in Hok end; [|done].
  injection Hok as <-.
  repeat (let E := fresh "E" in apply app_eq_nil in He as [E He]; subst). subst. by split; try by eexists.
Qed.
End loaded.

Lemma loaded_valid (get : string -> string) cfg : loadConfig get = Ok cfg -> valid_config cfg.
Proof.
  intros Hl%loadConfig_loaded. destruct Hl as [H1 H2 H3 H4 H5 H6 H7 H8 H9 H10 H11 H12 H13 H14 H15].
  apply log_block_ok in H4 as [l Hl]. apply duration_block_ok in H5 as [Hd1%Z.leb_gt [_ Hd2]]; [|done|by split].
  split; eauto using store_block_ok, auth_block_ok, live_block_ok, email_block_ok, webpush_block_ok, mobile_block_ok.
  - split_and!; (eapply port_block_ok; [|eassumption]); by vm_compute.
  - unfold SlogLevel. by rewrite Hl.
  - destruct H12 as [msg ?]. by eapply twilio_ok.
  - destruct H13 as [msg ?]. by eapply twilio_ok.
Qed.

(** ** The properties *)

(** An environment given as a table. *)
Definition env_of (table : list (string * string)) (name : string) : string :=
  default "" (list_to_map (M := gmap string string) table !! name).

Definition production_env : string -> string :=
  env_of [("NOTIFY_AUTH_JWT_SECRET", "s3cret"); ("NOTIFY_INTERNAL_TOKEN", "token");
          ("NOTIFY_STORE_DRIVER", "Postgres"); ("NOTIFY_POSTGRES_DSN", "postgres://db");
          ("NOTIFY_SHUTDOWN_TIMEOUT", "1m30s"); ("NOTIFY_ALLOWED_ORIGINS", "https://a , ,https://b")].

Definition production_config : Config :=
  mkConfig 8080 8081 9090 "info" (90 * Second)
    (mkStoreConfig "postgres" "" "" "postgres://db" true)
    (mkEmailConfig "none" "" "" "" 0 "" "" "" "" "")
    (mkTwilioConfig "" "" "" "" "") (mkTwilioConfig "" "" "" "" "") (mkWebPushConfig "" "" "" "")
    (mkMobilePushConfig "" "" "" "" "" "" "" false)
    (mkLiveConnections true (30 * Second) 3 (5 * Second) ["https://a"; "https://b"])
    (mkAuthConfig "s3cret" "" "" (30 * Second) "token" false).

Example production_loaded : loadConfig production_env = Ok production_config.
Proof. vm_compute. reflexivity. Qed.

(** The configuration of an environment that sets nothing but dev mode. *)
Definition dev_config : Config :=
  mkConfig DefaultClientPort DefaultInternalPort DefaultMetricsPort DefaultLogLevel
    DefaultShutdownTimeout (mkStoreConfig DefaultStoreDriver "" "" "" false)
    (mkEmailConfig "none" "" "" "" 0 "" "" "" "" "")
    (mkTwilioConfig "" "" "" "" "") (mkTwilioConfig "" "" "" "" "") (mkWebPushConfig "" "" "" "")
    (mkMobilePushConfig "" "" "" "" "" "" "" false)
    (mkLiveConnections true DefaultHeartbeatInterval DefaultRetryMaxAttempts DefaultRetryInterval [])
    (mkAuthConfig "" "" "" DefaultJWTLeeway "" true).

(** An environment in which no NOTIFY variable but NOTIFY_AUTH_DEV_MODE is set starts only
    in dev mode: if the variable parses as true, the documented defaults are the configuration;
    otherwise loading stops at the missing JWT secret. *)
Theorem load_defaults (get : string -> string) :
  (forall name, name <> "NOTIFY_AUTH_DEV_MODE" -> get name = "") ->
  loadConfig get =
    if parseBoolDefault (get "NOTIFY_AUTH_DEV_MODE") false then Ok dev_config
    else Err (ErrorsNew "NOTIFY_AUTH_JWT_SECRET is required unless NOTIFY_AUTH_DEV_MODE=true").
Proof.
  intros Hg.
  unfold loadConfig, port_block, log_block, duration_block, store_block, auth_block, live_block,
    attempts_block, email_block, webpush_block, mobile_block, twilioBlock, duration_block.
  remember (get "NOTIFY_AUTH_DEV_MODE") as v.
  rewrite !Hg by (intros H; vm_compute in H; discriminate).
  by destruct (parseBoolDefault v false).
Qed.

Lemma load_defaults_witness :
  let env := env_of [("NOTIFY_AUTH_DEV_MODE", "1")] in loadConfig env = Ok dev_config.
Proof.
  intros env. rewrite (load_defaults env); [vm_compute; reflexivity|].
  intros name Hne. unfold env, env_of. simpl. by rewrite lookup_insert_ne.
Defined.

(** The boolean settings are the exception to failing fast: a value that is not a boolean is
    taken for the default without an error, so NOTIFY_LIVE_CONNECTIONS_ENABLED=off leaves live
    connections on, and an unreadable NOTIFY_AUTH_DEV_MODE leaves dev mode off. *)
Theorem invalid_bool_ignored (get get' : string -> string) :
  (forall name, name <> "NOTIFY_LIVE_CONNECTIONS_ENABLED" -> get' name = get name) ->
  get "NOTIFY_LIVE_CONNECTIONS_ENABLED" = "" ->
  is_ok (ParseBool (get' "NOTIFY_LIVE_CONNECTIONS_ENABLED")) = false ->
  loadConfig get' = loadConfig get /\
  (forall cfg, loadConfig get' = Ok cfg -> lcEnabled (LiveConnections cfg) = true).
Proof.
  intros Hsame Hunset Hbad.
  assert (Hb : parseBoolDefault (get' "NOTIFY_LIVE_CONNECTIONS_ENABLED") true = true).
  { unfold parseBoolDefault. destruct (_ =? _)%string; [done|].
    by destruct (ParseBool (get' "NOTIFY_LIVE_CONNECTIONS_ENABLED")). }
  assert (Hlive : live_block get' = live_block get).
  { unfold live_block, attempts_block, duration_block. rewrite Hb, Hunset.
    by rewrite !Hsame by (intros H; vm_compute in H; discriminate). }
  split.
  - unfold loadConfig. rewrite Hlive.
    unfold port_block, log_block, duration_block, store_block, auth_block,
      email_block, webpush_block, mobile_block, twilioBlock, duration_block.
    by rewrite !Hsame by (intros H; vm_compute in H; discriminate).
  - intros cfg. unfold loadConfig. destruct (live_block get') as [live e8] eqn:H8.
    unfold live_block in H8. rewrite Hb in H8.
    repeat match goal with |- context [let '(x, y) := ?b in _] => destruct b end.
    repeat match type of H8 with context [let '(x, y) := ?b in _] => destruct b end.
    injection H8 as <- _. match goal with |- context [match ?l with _ => _ end] => destruct l end; [|done].
    by intros [= <-].
Qed.

Lemma invalid_bool_ignored_witness :
  let base := [("NOTIFY_AUTH_DEV_MODE", "true")] in
  let off := env_of (("NOTIFY_LIVE_CONNECTIONS_ENABLED", "off") :: base) in
  loadConfig off = Ok dev_config /\ lcEnabled (LiveConnections dev_config) = true.
Proof.
  intros base off. destruct (invalid_bool_ignored (env_of base) off) as [He Hon].
  - intros name Hne. unfold off, env_of. simpl. by rewrite lookup_insert_ne.
  - reflexivity.
  - vm_compute. reflexivity.
  - split; [rewrite He; vm_compute; reflexivity|]. apply Hon. rewrite He. vm_compute. reflexivity.
Defined.
