(* ===== verification/ConfigExact.v ===== *)
(** * Which configurations can be loaded

    loadConfig reads every field of Config from a variable of its own.  [environment]
    writes them back; the configurations that some environment loads are exactly the
    [loadable] ones, each of them from its own [environment]. *)

From S2P Require Import Prelude GoErrors GoStrings Duration Config ConfigProps.

(** What [splitList] makes of a text, and what text makes it. *)
Lemma splitList_free v : Forall comma_free (splitList v).
Proof.
  unfold splitList. destruct (v =? "")%string; [constructor|]. apply Forall_forall. intros o Ho.
  apply list_elem_of_In, filter_In in Ho as [Ho _]. apply list_elem_of_In, list_elem_of_fmap in Ho as (p & -> & Hp).
  apply trim_free. pose proof (Split_parts v) as Hv. rewrite Forall_forall in Hv. by apply Hv.
Qed.

Lemma Split_join l : l <> [] -> Forall comma_free l -> Split (join l) comma = l.
Proof.
  intros Hl Hf. induction Hf as [|o l Ho Hf IH]; [done|]. destruct l as [|o' l]; [by apply Split_no_sep|].
  change (join (o :: o' :: l)) with (o +:+ String comma (join (o' :: l))). by rewrite Split_append, IH.
Qed.

Lemma splitList_join l : Forall (fun o => o <> "" /\ TrimSpace o = o) l -> Forall comma_free l ->
  splitList (join l) = l.
Proof.
  intros Ht Hf. destruct l as [|o l]; [done|]. unfold splitList. rewrite Split_join by done.
  assert (Hne : join (o :: l) <> "").
  { destruct l; cbn [join]; [by apply Forall_cons in Ht as [[? _] _]|]. by destruct o. }
  rewrite (proj2 (String.eqb_neq _ _)) by done.
  clear Hne Hf. induction Ht as [|x xs [Hx Htx] _ IH]; [done|]. cbn. rewrite Htx, (proj2 (String.eqb_neq _ _)) by done.
  cbn. by f_equal.
Qed.

(** ** The environment of a configuration *)

Fixpoint table_get (table : list (string * string)) (name : string) : string :=
  match table with
  | [] => ""
  | (key, v) :: table => if (name =? key)%string then v else table_get table name
  end.

Definition FormatBool (b : bool) : string := if b then "true" else "false".

Definition twilio_environment (prefix : string) (c : TwilioConfig) : list (string * string) :=
  [(prefix +:+ "PROVIDER", tcProvider c); (prefix +:+ "ACCOUNT_SID", tcAccountSID c);
   (prefix +:+ "AUTH_TOKEN", tcAuthToken c); (prefix +:+ "MESSAGING_SERVICE_SID", tcMessagingServiceSID c);
   (prefix +:+ "FROM", tcFrom c)].

Definition environment (c : Config) : list (string * string) :=
  let email := cfgEmail c in
  let push := cfgMobilePush c in
  [("NOTIFY_CLIENT_PORT", FormatInt (ClientPort c));
   ("NOTIFY_INTERNAL_PORT", FormatInt (InternalPort c));
   ("NOTIFY_METRICS_PORT", FormatInt (MetricsPort c));
   ("NOTIFY_LOG_LEVEL", LogLevel c);
   ("NOTIFY_SHUTDOWN_TIMEOUT", FormatNanoseconds (ShutdownTimeout c));
   ("NOTIFY_STORE_DRIVER", scDriver (cfgStore c));
   ("NOTIFY_POSTGRES_DSN", scPostgresDSN (cfgStore c));
   ("NOTIFY_POSTGRES_AUTOMIGRATE", FormatBool (scPostgresAutoMigrate (cfgStore c)));
   ("NOTIFY_ENTDB_ADDRESS", scEntDBAddress (cfgStore c));
   ("NOTIFY_ENTDB_TENANT_ID", scTenantID (cfgStore c));
   ("NOTIFY_AUTH_DEV_MODE", FormatBool (acDevMode (cfgAuth c)));
   ("NOTIFY_AUTH_JWT_SECRET", acJWTSecret (cfgAuth c));
   ("NOTIFY_AUTH_JWT_ISSUER", acJWTIssuer (cfgAuth c));
   ("NOTIFY_AUTH_JWT_AUDIENCE", acJWTAudience (cfgAuth c));
   ("NOTIFY_AUTH_JWT_LEEWAY", FormatNanoseconds (acJWTLeeway (cfgAuth c)));
   ("NOTIFY_INTERNAL_TOKEN", acInternalToken (cfgAuth c));
   ("NOTIFY_ALLOWED_ORIGINS", join (lcAllowedOrigins (LiveConnections c)));
   ("NOTIFY_LIVE_CONNECTIONS_ENABLED", FormatBool (lcEnabled (LiveConnections c)));
   ("NOTIFY_LIVE_HEARTBEAT_INTERVAL", FormatNanoseconds (lcHeartbeatInterval (LiveConnections c)));
   ("NOTIFY_LIVE_RETRY_MAX_ATTEMPTS", FormatInt (lcRetryMaxAttempts (LiveConnections c)));
   ("NOTIFY_LIVE_RETRY_INTERVAL", FormatNanoseconds (lcRetryInterval (LiveConnections c)));
   ("NOTIFY_EMAIL_PROVIDER", ecProvider email); ("NOTIFY_EMAIL_FROM", ecFrom email);
   ("NOTIFY_EMAIL_SERVICE_ADDRESS", ecEmailServiceAddress email); ("NOTIFY_EMAIL_SMTP_HOST", ecSMTPHost email);
   ("NOTIFY_EMAIL_SMTP_PORT", if ecSMTPPort email =? 0 then "" else FormatInt (ecSMTPPort email));
   ("NOTIFY_EMAIL_SMTP_USERNAME", ecSMTPUsername email); ("NOTIFY_EMAIL_SMTP_PASSWORD", ecSMTPPassword email);
   ("NOTIFY_EMAIL_API_KEY", ecAPIKey email); ("NOTIFY_EMAIL_ENDPOINT", ecEndpoint email);
   ("NOTIFY_EMAIL_REGION", ecRegion email)] ++
  twilio_environment "NOTIFY_SMS_" (cfgSMS c) ++ twilio_environment "NOTIFY_WHATSAPP_" (cfgWhatsApp c) ++
  [("NOTIFY_WEBPUSH_PROVIDER", wcProvider (cfgWebPush c)); ("NOTIFY_WEBPUSH_VAPID_PUBLIC", wcVAPIDPublic (cfgWebPush c));
   ("NOTIFY_WEBPUSH_VAPID_PRIVATE", wcVAPIDPrivate (cfgWebPush c));
   ("NOTIFY_WEBPUSH_CONTACT_EMAIL", wcContactEmail (cfgWebPush c));
   ("NOTIFY_MOBILEPUSH_PROVIDER", mcProvider push); ("NOTIFY_FCM_CREDENTIALS_JSON", mcFCMCredentialsJSON push);
   ("NOTIFY_FCM_PROJECT_ID", mcFCMProjectID push); ("NOTIFY_APNS_KEY_P8", mcAPNSKeyP8 push);
   ("NOTIFY_APNS_KEY_ID", mcAPNSKeyID push); ("NOTIFY_APNS_TEAM_ID", mcAPNSTeamID push);
   ("NOTIFY_APNS_TOPIC", mcAPNSTopic push); ("NOTIFY_APNS_SANDBOX", FormatBool (mcAPNSSandbox push))].

(** ** What can be loaded *)

(** The fields of the drivers that are not chosen are blank. *)
Definition only_own_fields (c : StoreConfig) : Prop :=
  (scDriver c <> "postgres" -> scPostgresDSN c = "" /\ scPostgresAutoMigrate c = false) /\
  (scDriver c <> "entdb" -> scEntDBAddress c = "" /\ scTenantID c = "").

Definition providers_of (c : Config) : list string :=
  [ecProvider (cfgEmail c); tcProvider (cfgSMS c); tcProvider (cfgWhatsApp c); wcProvider (cfgWebPush c);
   mcProvider (cfgMobilePush c)].

Record loadable (c : Config) : Prop := {
  ld_valid : valid_config c;
  ld_level : LogLevel c ∈ ["debug"; "info"; "warn"; "warning"; "error"];
  ld_store : only_own_fields (cfgStore c);
  ld_width : Forall (fun z => z <= max_int64) [acJWTLeeway (cfgAuth c); lcHeartbeatInterval (LiveConnections c);
               lcRetryMaxAttempts (LiveConnections c); lcRetryInterval (LiveConnections c)];
  ld_origins : Forall comma_free (lcAllowedOrigins (LiveConnections c));
  ld_providers : Forall (fun p => ToLower p = p) (providers_of c) /\ ecProvider (cfgEmail c) <> "";
}.

Lemma twilio_errors_nil t msg : valid_twilio t -> twilio_errors t msg = [].
Proof.
  intros Ht. apply require_nil, negb_true_iff, andb_false_iff.
  destruct (String.eqb_spec (tcProvider t) "twilio") as [Hp|]; [right|by left].
  destruct (Ht Hp). apply orb_false_iff. by rewrite !blank_false.
Qed.

Lemma loaded_loadConfig get c : loaded get c -> loadConfig get = Ok c.
Proof.
  intros [H1 H2 H3 H4 H5 H6 H7 H8 H9 H10 H11 [m1 Hs%twilio_ok] [m2 Hw%twilio_ok] H12 H13]. unfold positive_block in H5. unfold loadConfig.
  rewrite H1, H2, H3, H4, H5, H6, H7, H8, H9, H10, H11, H12, H13, !twilio_errors_nil by done. by destruct c.
Qed.

Section loads.
Context (get : string -> string) (c : Config) (Hl : loaded get c).

Lemma loaded_level : LogLevel c ∈ ["debug"; "info"; "warn"; "warning"; "error"].
Proof.
  pose proof (l_level _ _ Hl) as H. unfold log_block in H. injection H as Hv Hp.
  assert (Hlow : ToLower (LogLevel c) = LogLevel c /\ LogLevel c <> "").
  { rewrite <- Hv. unfold blank. destruct (String.eqb_spec (get "NOTIFY_LOG_LEVEL") ""); [done|].
    split; [apply ToLower_idemp|by apply ToLower_nonempty]. }
  destruct Hlow as [Hlow Hne]. rewrite Hv in Hp. unfold parseLogLevel in Hp. rewrite Hlow in Hp. rewrite !elem_of_cons.
  destruct (String.eqb_spec (LogLevel c) "debug"); [by left|]. destruct (String.eqb_spec (LogLevel c) "info"); [by right; left|].
  destruct (String.eqb_spec (LogLevel c) ""); [done|]. destruct (String.eqb_spec (LogLevel c) "warn"); [by do 2 right; left|].
  destruct (String.eqb_spec (LogLevel c) "warning"); [by do 3 right; left|].
  destruct (String.eqb_spec (LogLevel c) "error"); [by do 4 right; left|done].
Qed.

Lemma loaded_store : only_own_fields (cfgStore c).
Proof.
  pose proof (l_store _ _ Hl) as H. revert H. unfold store_block, only_own_fields. generalize (ToLower (strOrDefault (get "NOTIFY_STORE_DRIVER") DefaultStoreDriver)).
  intros driver. destruct (String.eqb_spec driver "memory") as [->|]; [by intros [= <-]|].
  destruct (String.eqb_spec driver "postgres") as [->|]; [by intros [= <- _]|].
  destruct (String.eqb_spec driver "entdb") as [->|]; [by intros [= <- _]|done].
Qed.

Lemma duration_width name def bad why d : bad def = false -> is_int64 def ->
  duration_block get name def bad why = (d, []) -> d <= max_int64.
Proof. intros Hb Hr Hd. apply (duration_block_ok get name def bad why d Hb Hr) in Hd as [_ [_ Hd]]. exact Hd. Qed.

Lemma loaded_width : Forall (fun z => z <= max_int64) [acJWTLeeway (cfgAuth c); lcHeartbeatInterval (LiveConnections c);
  lcRetryMaxAttempts (LiveConnections c); lcRetryInterval (LiveConnections c)].
Proof.
  pose proof (l_auth _ _ Hl) as Ha. unfold auth_block in Ha.
  destruct (duration_block _ _ _ _ _) as [leeway e0] eqn:H0 in Ha. injection Ha as <- [-> _]%app_eq_nil.
  pose proof (l_live _ _ Hl) as Hv. unfold live_block in Hv.
  destruct (duration_block _ "NOTIFY_LIVE_HEARTBEAT_INTERVAL" _ _ _) as [h e1] eqn:H1 in Hv.
  destruct (attempts_block get) as [n e2] eqn:H2 in Hv.
  destruct (duration_block _ "NOTIFY_LIVE_RETRY_INTERVAL" _ _ _) as [i e3] eqn:H3 in Hv.
  injection Hv as <- [-> [-> ->]%app_eq_nil]%app_eq_nil. repeat constructor; cbn.
  - by eapply duration_width; [| |exact H0].
  - by eapply duration_width; [| |exact H1].
  - unfold attempts_block in H2. destruct (blank _); [by injection H2 as <-|].
    destruct (Atoi _) as [z|] eqn:Hz; [|done]. destruct (z <? 0); [done|]. injection H2 as <-.
    by apply parse_int_range in Hz as [_ Hz].
  - by eapply duration_width; [| |exact H3].
Qed.

Lemma loaded_origins : Forall comma_free (lcAllowedOrigins (LiveConnections c)).
Proof.
  pose proof (l_live _ _ Hl) as Hv. unfold live_block in Hv.
  repeat match type of Hv with context [let '(x, y) := ?b in _] => destruct b end.
  injection Hv as <- _. apply splitList_free.
Qed.

Lemma loaded_providers : Forall (fun p => ToLower p = p) (providers_of c) /\ ecProvider (cfgEmail c) <> "".
Proof.
  pose proof (l_email _ _ Hl) as He. pose proof (l_webpush _ _ Hl) as Hw. pose proof (l_mobile _ _ Hl) as Hm.
  unfold email_block in He. match type of He with context [let '(port, errs) := ?b in _] => destruct b as [port errs] end.
  injection He as He _. injection Hw as Hw _. injection Hm as Hm _. unfold providers_of.
  rewrite <- He, <- Hw, <- Hm, <- (l_sms _ _ Hl), <- (l_whatsapp _ _ Hl). split.
  - repeat constructor; apply ToLower_idemp.
  - apply ToLower_nonempty. unfold strOrDefault. by destruct (String.eqb_spec (get "NOTIFY_EMAIL_PROVIDER") "").
Qed.
End loads.

(** ** Writing and reading back *)

Lemma parseBool_format b def : parseBoolDefault (FormatBool b) def = b.
Proof. by destruct b, def; vm_compute. Qed.

Section blocks.
Context (get : string -> string).

Lemma port_block_format name def p : get name = FormatInt p -> is_port p -> port_block get name def = (p, []).
Proof.
  unfold port_block, is_port. intros -> Hp. rewrite (proj2 (blank_false _) (FormatInt_nonempty p)).
  unfold parsePort, Atoi. rewrite parse_format by lia. by rewrite (proj2 (Z.ltb_ge p 1)), (proj2 (Z.ltb_ge 65535 p)) by lia.
Qed.

Lemma duration_block_format name def bad why d : get name = FormatNanoseconds d -> 0 <= d <= max_int64 -> bad d = false ->
  duration_block get name def bad why = (d, []).
Proof.
  unfold duration_block. intros -> Hd Hb. unfold blank, FormatNanoseconds at 1.
  rewrite (proj2 (String.eqb_neq _ _)) by by destruct (FormatInt d). by rewrite ParseDuration_ns, Hb.
Qed.
End blocks.

(** Looks a variable of the [environment] up. *)
#[local] Arguments String.append !_ _ /.

Ltac look := cbn [table_get environment twilio_environment app String.app String.append String.eqb Ascii.eqb Bool.eqb eqb].

Section environment.
Context (c : Config) (Hc : loadable c).
Local Notation get := (table_get (environment c)).

Lemma lower_provider p : p ∈ providers_of c -> ToLower p = p.
Proof. destruct (ld_providers c Hc) as [Hp _]. rewrite Forall_forall in Hp. apply Hp. Qed.

Lemma env_level : log_block get = (LogLevel c, []).
Proof.
  unfold log_block. look. pose proof (ld_level c Hc) as Hl. rewrite !elem_of_cons, elem_of_nil in Hl.
  by destruct Hl as [->|[->|[->|[->|[->|[]]]]]].
Qed.

Lemma env_store : store_block get = (cfgStore c, []).
Proof.
  pose proof (vc_store c (ld_valid c Hc)) as Hv. destruct (ld_store c Hc) as [Hpg Hent]. unfold valid_store in Hv. unfold store_block. look.
  destruct (cfgStore c) as [driver addr tenant dsn auto]. cbn in *. rewrite parseBool_format.
  destruct Hv as [->|[[-> Hd]|(-> & Ha & Ht)]]; cbn [strOrDefault].
  - destruct (Hpg ltac:(done)) as [-> ->], (Hent ltac:(done)) as [-> ->]. done.
  - destruct (Hent ltac:(done)) as [-> ->]. unfold require, blank. by rewrite (proj2 (String.eqb_neq dsn "")).
  - destruct (Hpg ltac:(done)) as [-> ->]. unfold require, blank. by rewrite (proj2 (String.eqb_neq addr "")), (proj2 (String.eqb_neq tenant "")).
Qed.

Lemma env_auth : auth_block get = (cfgAuth c, []).
Proof.
  destruct (vc_auth c (ld_valid c Hc)) as [Hl Hs]. pose proof (ld_width c Hc) as Hw. apply Forall_cons in Hw as [Hw _].
  unfold auth_block. rewrite (duration_block_format get _ _ _ _ (acJWTLeeway (cfgAuth c))); [look|by look|done|by apply Z.ltb_ge].
  rewrite parseBool_format. destruct (cfgAuth c) as [secret iss aud leeway token dev]. cbn in *. f_equal.
  destruct dev; [done|]. destruct Hs as [|[H1 H2]]; [done|]. unfold require, blank. by rewrite (proj2 (String.eqb_neq secret "")), (proj2 (String.eqb_neq token "")).
Qed.

Lemma env_attempts : attempts_block get = (lcRetryMaxAttempts (LiveConnections c), []).
Proof.
  destruct (vc_live c (ld_valid c Hc)) as (_ & Hn & _). pose proof (ld_width c Hc) as Hw.
  do 2 apply Forall_cons in Hw as [_ Hw]. apply Forall_cons in Hw as [Hw _].
  unfold attempts_block. look. rewrite (proj2 (blank_false _) (FormatInt_nonempty _)). unfold Atoi, max_int64 in *.
  rewrite parse_format by lia. by rewrite (proj2 (Z.ltb_ge _ 0)).
Qed.

Lemma env_live : live_block get = (LiveConnections c, []).
Proof.
  destruct (vc_live c (ld_valid c Hc)) as (Hh & _ & Hi & Ho). pose proof (ld_width c Hc) as Hw.
  apply Forall_cons in Hw as [_ Hw]. apply Forall_cons in Hw as [Hw1 Hw]. apply Forall_cons in Hw as [_ Hw]. apply Forall_cons in Hw as [Hw3 _].
  unfold live_block. rewrite env_attempts.
  rewrite (duration_block_format get "NOTIFY_LIVE_HEARTBEAT_INTERVAL" _ _ _ (lcHeartbeatInterval (LiveConnections c)));
    [|by look|lia|by apply Z.leb_gt].
  rewrite (duration_block_format get "NOTIFY_LIVE_RETRY_INTERVAL" _ _ _ (lcRetryInterval (LiveConnections c)));
    [|by look|lia|by apply Z.leb_gt].
  look. rewrite parseBool_format, splitList_join by (done || apply (ld_origins c Hc)). by destruct (LiveConnections c).
Qed.

Lemma env_email : email_block get = (cfgEmail c, []).
Proof.
  destruct (vc_email c (ld_valid c Hc)) as (Hf & Ha & Hp). destruct (ld_providers c Hc) as [_ Hne].
  unfold email_block. look. pose proof (lower_provider (ecProvider (cfgEmail c)) ltac:(by left)) as Hlow.
  destruct (cfgEmail c) as [provider from addr host port user pw key ep region]. cbn in *.
  unfold strOrDefault. rewrite (proj2 (String.eqb_neq provider "")), Hlow by done.
  assert (Hreq : forall msg1 msg2,
    require (negb ((provider =? "emailservice")%string && blank addr)) msg1 ++
    require (negb (negb (provider =? "none")%string && blank from)) msg2 = []).
  { intros msg1 msg2. unfold require, blank.
    destruct (String.eqb_spec provider "emailservice") as [He|]; [rewrite (proj2 (String.eqb_neq addr "") (Ha He))|];
      (destruct (String.eqb_spec provider "none"); [|rewrite (proj2 (String.eqb_neq from "") (Hf ltac:(done)))]); done. }
  destruct (Z.eqb_spec port 0) as [->|Hport]; [cbn [blank String.eqb]; by rewrite Hreq|].
  destruct Hp as [|Hp]; [done|]. unfold is_port in Hp. rewrite (proj2 (blank_false _) (FormatInt_nonempty _)). unfold Atoi.
  rewrite parse_format, (proj2 (Z.ltb_ge port 1)), (proj2 (Z.ltb_ge 65535 port)) by lia. cbn [orb]. by rewrite Hreq.
Qed.

Lemma env_webpush : webpush_block get = (cfgWebPush c, []).
Proof.
  unfold webpush_block. look. rewrite (lower_provider (wcProvider (cfgWebPush c))) by (do 3 right; by left).
  pose proof (vc_webpush c (ld_valid c Hc)) as Hv. destruct (cfgWebPush c) as [p pub priv mail]. cbn in *. f_equal.
  unfold require, blank. destruct (String.eqb_spec p "vapid") as [He|]; [|done]. destruct (Hv He).
  by rewrite (proj2 (String.eqb_neq pub "")), (proj2 (String.eqb_neq priv "")).
Qed.

Lemma env_mobile : mobile_block get = (cfgMobilePush c, []).
Proof.
  unfold mobile_block. look. rewrite (lower_provider (mcProvider (cfgMobilePush c))) by (do 4 right; by left).
  pose proof (vc_mobile c (ld_valid c Hc)) as Hv. destruct (cfgMobilePush c) as [p cred proj k kid team topic sb].
  rewrite parseBool_format. cbn in *. f_equal.
  unfold require, blank. destruct (String.eqb_spec p "fcm") as [He|]; [|done]. destruct (Hv He).
  by rewrite (proj2 (String.eqb_neq cred "")), (proj2 (String.eqb_neq proj "")).
Qed.

Lemma environment_loaded : loaded get c.
Proof.
  destruct (vc_ports c (ld_valid c Hc)) as (H1 & H2 & H3). pose proof (vc_shutdown c (ld_valid c Hc)) as Ht.
  split; auto using env_level, env_store, env_auth, env_live, env_email, env_webpush, env_mobile.
  - by apply port_block_format; [look|].
  - by apply port_block_format; [look|].
  - by apply port_block_format; [look|].
  - apply duration_block_format; [by look|lia|apply Z.leb_gt; lia].
  - unfold twilioBlock. look. rewrite (lower_provider (tcProvider (cfgSMS c))) by (do 1 right; by left). by destruct (cfgSMS c).
  - unfold twilioBlock. look. rewrite (lower_provider (tcProvider (cfgWhatsApp c))) by (do 2 right; by left). by destruct (cfgWhatsApp c).
  - exists "". apply twilio_errors_nil, (vc_sms c (ld_valid c Hc)).
  - exists "". apply twilio_errors_nil, (vc_whatsapp c (ld_valid c Hc)).
Qed.
End environment.

(** ** The property *)

(** C31: LoadConfigFromEnv hands out exactly the valid configurations.  Whatever
    loadConfig returns is loadable: the three ports lie in 1..65535, the log level is one of
    the five names, timeouts and intervals are positive int64 durations and the retry budget and
    leeway are not negative, the store driver is one of the three with its required fields and
    with the fields of the other drivers blank, both secrets are set unless dev mode is on,
    an e-mail provider other than none has a sender and emailservice its address, twilio has its
    account and token, vapid its two keys and fcm its credentials and project (of the other
    provider names, smtp, ses, apns or meta included, nothing is asked), provider names are in
    lower case, and the allowed origins are non-empty, trimmed and without a comma.  Conversely every loadable
    configuration is what loadConfig returns on the environment with its fields written out, so
    that no setting is out of the environment's reach and none is confused with another. *)
Theorem load_exact (c : Config) :
  (forall get, loadConfig get = Ok c -> loadable c) /\
  (loadable c -> loadConfig (table_get (environment c)) = Ok c).
Proof.
  split.
  - intros get Hg. pose proof (loadConfig_loaded get c Hg) as Hl.
    split; eauto using loaded_valid, loaded_level, loaded_store, loaded_width, loaded_origins, loaded_providers.
  - intros Hc. apply loaded_loadConfig. by apply environment_loaded.
Qed.

Lemma load_exact_witness :
  loadable production_config /\
  table_get (environment production_config) "NOTIFY_ALLOWED_ORIGINS" = "https://a,https://b" /\
  table_get (environment production_config) "NOTIFY_SHUTDOWN_TIMEOUT" = "90000000000ns" /\
  loadConfig (table_get (environment production_config)) = Ok production_config.
Proof.
  destruct (load_exact production_config) as [Hload Hback].
  assert (Hl : loadable production_config) by (apply (Hload production_env); vm_compute; reflexivity).
  split; [exact Hl|]. split; [vm_compute; reflexivity|]. split; [vm_compute; reflexivity|]. exact (Hback Hl).
Defined.

(** Provider names are the other settings without a check: a misspelt one loads, its
    credentials are not asked for, and the channel is none that anyone builds. *)
Definition misspelt_env : string -> string :=
  env_of [("NOTIFY_AUTH_JWT_SECRET", "s3cret"); ("NOTIFY_INTERNAL_TOKEN", "token"); ("NOTIFY_SMS_PROVIDER", "Twillio")].

Lemma misspelt_provider_loads :
  exists c, loadConfig misspelt_env = Ok c /\ tcProvider (cfgSMS c) = "twillio" /\ tcAccountSID (cfgSMS c) = "".
Proof. eexists. split; [vm_compute; reflexivity|]. by split. Qed.
