(* ===== verification/Server.v ===== *)
(** * internal/server/server.go: wiring and lifecycle

    NewWithDeps resolves the dependencies and wires store, notifier, live engine
    and handlers; Run binds the listeners and serves until a signal or a listener
    error; Shutdown drains.  [Process] is everything of the process these act
    on: the memory store that buildStore makes, the live engine, the retry
    tracker, the readiness flag, the open sockets and the running http.Servers,
    and [ext] for whatever the given dependencies act on.  net.Listen's and
    http.Server.Shutdown's failures come from outside and are parameters. *)

From S2P Require Import Prelude GoErrors GoStrings Model StoreSpec Memory Notifier Wire Realtime.
From S2P Require Import Retry Stream Auth Handlers Config.

(** ** The process *)

Record Process (X : Type) := mkProcess {
  mem : MemStore;
  streams : Streams;
  tracker : RetryTracker;
  ready : bool;             (* healthState.ready *)
  sockets : gset nat;       (* open listeners *)
  nextSocket : nat;
  serving : gmap nat nat;   (* http.Server number to its listener *)
  ext : X;
}.
Arguments mkProcess {X}.
Arguments mem {X}.
Arguments streams {X}.
Arguments tracker {X}.
Arguments ready {X}.
Arguments sockets {X}.
Arguments nextSocket {X}.
Arguments serving {X}.
Arguments ext {X}.

Section process.
Context {X : Type}.
Implicit Types (w : Process X).

Definition set_mem (m : MemStore) w : Process X :=
  mkProcess m (streams w) (tracker w) (ready w) (sockets w) (nextSocket w) (serving w) (ext w).
Definition set_streams (s : Streams) w : Process X :=
  mkProcess (mem w) s (tracker w) (ready w) (sockets w) (nextSocket w) (serving w) (ext w).
Definition set_tracker (t : RetryTracker) w : Process X :=
  mkProcess (mem w) (streams w) t (ready w) (sockets w) (nextSocket w) (serving w) (ext w).
Definition set_ready (b : bool) w : Process X :=
  mkProcess (mem w) (streams w) (tracker w) b (sockets w) (nextSocket w) (serving w) (ext w).
Definition set_net (ss : gset nat) (n : nat) (sv : gmap nat nat) w : Process X :=
  mkProcess (mem w) (streams w) (tracker w) (ready w) ss n sv (ext w).

Definition modify (f : Process X -> Process X) : M (Process X) unit := fun w => (f w, tt).

Definition markReady : M (Process X) unit := modify (set_ready true).
Definition markNotReady : M (Process X) unit := modify (set_ready false).

(** The /healthz answer: status code and body. *)
Definition health_ServeHTTP w : Z * string :=
  if negb (ready w) then (503, "not_ready") else (200, "ok").

(** ** Dependencies and the server *)

Record Dependencies := mkDependencies {
  depStore : option (Store (Process X));
  depStoreCloser : option (M (Process X) (option error));
  depProviders : option (ProviderRegistry (Process X));
  depAuthValidator : option AuthValidator;
  depClock : option (M (Process X) Z);
}.

(** [srvLive]: the registry and the retry tracker are non-nil. *)
Record Server := mkServer {
  srvCfg : Config;
  srvNotifier : NotifierT (Process X);
  srvCloser : option (M (Process X) (option error));
  srvLive : bool;
  srvAuth : AuthValidator;
  srvHandler : clientHandler (Process X);
  srvStream : option streamHandler;
  clientAddr : string;
  internalAddr : string;
  metricsAddr : string;
  clientListener : option nat;
  internalListener : option nat;
  metricsListener : option nat;
}.

Context `{MapOrder} (newUUID : nat -> string)
  (parse : ParserOptions -> string -> result error (gmap string JSONValue))
  (timeNow : M (Process X) Z).

Definition process_store : Store (Process X) := lift_store mem set_mem (MemoryStore newUUID).

Definition inapp_provider : Provider (Process X) :=
  mkProvider (Kind newInAppProvider) (Name newInAppProvider)
    (fun msg => lift streams set_streams (Send newInAppProvider msg)).

(** The store and the closer; [memory.New()] starts an empty one. *)
Definition buildStore (cfg : StoreConfig)
    : M (Process X) (result error (Store (Process X) * option (M (Process X) (option error)))) :=
  if (scDriver cfg =? "memory")%string then
    _ ← modify (set_mem New); mret (Ok (process_store, None))
  else if (scDriver cfg =? "postgres")%string then
    mret (Err (Errorf "server: postgres driver: configure via Dependencies.Store; cmd/notifyd wires it" []))
  else if (scDriver cfg =? "entdb")%string then
    mret (Err (Errorf "server: entdb driver: configure via Dependencies.Store; cmd/notifyd wires it" []))
  else mret (Err (Errorf "server: unknown store driver %q" [FStr (scDriver cfg)])).

Definition buildValidator (cfg : AuthConfig) : result error AuthValidator :=
  if negb (acJWTSecret cfg =? "")%string then
    match NewJWTValidator (acJWTSecret cfg) (acJWTIssuer cfg) (acJWTAudience cfg) (acJWTLeeway cfg) with
    | Err err => Err err
    | Ok v => Ok (jwt_Validate parse v)
    end
  else if acDevMode cfg then Ok dev_Validate
  else Err (ErrorsNew "auth: jwt secret required (or set NOTIFY_AUTH_DEV_MODE=true)").

Definition maybeStreamHandler (live : bool) (cfg : Config) : option streamHandler :=
  if negb live then None
  else Some (newStreamHandler (lcHeartbeatInterval (LiveConnections cfg)) DefaultEventBufferPerConn).

Definition addr_of (port : Z) : string := ":" +:+ FormatInt port.

Definition resolve_store (cfg : Config) (deps : Dependencies)
    : M (Process X) (result error (Store (Process X) * option (M (Process X) (option error)))) :=
  match depStore deps with
  | Some store => mret (Ok (store, depStoreCloser deps))
  | None =>
      r ← buildStore (cfgStore cfg);
      mret (match r with
            | Err err => Err (ErrorfW "server: build store: %w" [] err)
            | Ok (s, c) => Ok (s, match depStoreCloser deps with None => c | some => some end)
            end)
  end.

Definition resolve_auth (cfg : Config) (deps : Dependencies) : result error AuthValidator :=
  match depAuthValidator deps with
  | Some a => Ok a
  | None => match buildValidator (cfgAuth cfg) with
            | Err err => Err (ErrorfW "server: build auth: %w" [] err)
            | Ok a => Ok a
            end
  end.

(** The live engine is created and the in-app provider registered only when
    live connections are enabled, the provider only where none is present. *)
Definition wire_live (cfg : Config) (providers : ProviderRegistry (Process X))
    : M (Process X) (ProviderRegistry (Process X)) :=
  if lcEnabled (LiveConnections cfg) then
    _ ← modify (set_streams no_streams);
    _ ← modify (set_tracker (NewRetryTracker (lcRetryMaxAttempts (LiveConnections cfg))));
    mret (match Get providers ChannelInApp with
          | None => Register providers inapp_provider
          | Some _ => providers
          end)
  else mret providers.

(** newHealthState is not ready. *)
Definition NewWithDeps (cfg : Config) (deps : Dependencies) : M (Process X) (result error Server) :=
  let clock := default timeNow (depClock deps) in
  st ← resolve_store cfg deps;
  match st with
  | Err err => mret (Err err)
  | Ok (store, closer) =>
      match resolve_auth cfg deps with
      | Err err => mret (Err err)
      | Ok auth =>
          let live := lcEnabled (LiveConnections cfg) in
          providers ← wire_live cfg (default NewProviderRegistry (depProviders deps));
          let notifier := NewNotifier timeNow store (Some providers) (Some clock) in
          _ ← modify (set_ready false);
          let ack key sess := modify (fun w => set_tracker (Ack key sess (tracker w)) w) in
          let handler := mkClientHandler store (if live then Some ack else None) clock in
          mret (Ok (mkServer cfg notifier closer live auth handler (maybeStreamHandler live cfg)
                      (addr_of (ClientPort cfg)) (addr_of (InternalPort cfg))
                      (addr_of (MetricsPort cfg)) None None None))
      end
  end.

(** ** The RPC surface of the two servers *)

Definition rpc_Notify (s : Server) (token : string) (req : option NotifyRequestPB)
    : M (Process X) (result error NotifyResponse) :=
  internal_rpc (acInternalToken (cfgAuth (srvCfg s))) (acDevMode (cfgAuth (srvCfg s))) token
    (fun _ => internal_Notify (srvNotifier s) req).

Definition rpc_GetNotifications (s : Server) (authz : string) (req : option GetNotificationsRequest)
    : M (Process X) (result error GetNotificationsResponse) :=
  client_rpc (srvAuth s) authz (fun claims => GetNotifications (srvHandler s) claims req).

Definition rpc_AckNotification (s : Server) (authz : string) (req : option AckNotificationRequest)
    : M (Process X) (result error AckNotificationResponse) :=
  client_rpc (srvAuth s) authz (fun claims => AckNotification (srvHandler s) claims req).

Definition rpc_AckDataChange (s : Server) (authz : string) (req : option AckDataChangeRequest)
    : M (Process X) (result error AckDataChangeResponse) :=
  client_rpc (srvAuth s) authz (fun claims => AckDataChange (srvHandler s) claims req).

Definition rpc_RegisterPushToken (s : Server) (authz : string) (req : option RegisterPushTokenRequest)
    : M (Process X) (result error RegisterPushTokenResponse) :=
  client_rpc (srvAuth s) authz (fun claims => RegisterPushToken (srvHandler s) claims req).

(** The streaming RPC, up to the handover to serve: the shim authenticates. *)
Definition rpc_StreamEvents (s : Server) (authz : string) (req : option StreamEventsRequest)
    : result error (string * string * string) :=
  match authenticateStreamReq (srvAuth s) authz with
  | Err err => Err err
  | Ok claims => StreamEvents (srvHandler s) claims req
  end.

(** ** Listeners *)

Context (listen_error : string -> Process X -> option error)
  (shutdown_error : Z -> nat -> Process X -> option error).

Definition net_Listen (addr : string) : M (Process X) (result error nat) := fun w =>
  match listen_error addr w with
  | Some err => (w, Err err)
  | None => (set_net ({[nextSocket w]} ∪ sockets w) (S (nextSocket w)) (serving w) w, Ok (nextSocket w))
  end.

Definition ln_Close (ln : option nat) : M (Process X) unit := fun w =>
  match ln with
  | Some l => (set_net (sockets w ∖ {[l]}) (nextSocket w) (serving w) w, tt)
  | None => (w, tt)
  end.

(** One slot: keep a listener that is there, else bind. *)
Definition bind_slot (slot : option nat) (addr : string) : M (Process X) (result error nat) :=
  match slot with
  | Some l => mret (Ok l)
  | None => net_Listen addr
  end.

Definition with_listeners (c i m : option nat) (s : Server) : Server :=
  mkServer (srvCfg s) (srvNotifier s) (srvCloser s) (srvLive s) (srvAuth s) (srvHandler s) (srvStream s)
    (clientAddr s) (internalAddr s) (metricsAddr s) c i m.

Definition bindListeners (s : Server) : M (Process X) (Server * option error) :=
  rc ← bind_slot (clientListener s) (clientAddr s);
  match rc with
  | Err err => mret (s, Some (ErrorfW "client listener: %w" [] err))
  | Ok c =>
      let s := with_listeners (Some c) (internalListener s) (metricsListener s) s in
      ri ← bind_slot (internalListener s) (internalAddr s);
      match ri with
      | Err err =>
          _ ← ln_Close (Some c);
          mret (s, Some (ErrorfW "internal listener: %w" [] err))
      | Ok i =>
          let s := with_listeners (Some c) (Some i) (metricsListener s) s in
          rm ← bind_slot (metricsListener s) (metricsAddr s);
          match rm with
          | Err err =>
              _ ← ln_Close (Some c);
              _ ← ln_Close (Some i);
              mret (s, Some (ErrorfW "metrics listener: %w" [] err))
          | Ok m => mret (with_listeners (Some c) (Some i) (Some m) s, None)
          end
      end
  end.

Definition UseTestListeners (client internal metrics : option nat) (s : Server) : Server :=
  let pick new old := match new with Some l => Some l | None => old end in
  with_listeners (pick client (clientListener s)) (pick internal (internalListener s))
    (pick metrics (metricsListener s)) s.

(** ** Run and Shutdown *)

(** [srv.Serve(ln)] of server number [i], in its own goroutine. *)
Definition startServer (i : nat) (ln : option nat) : M (Process X) unit := modify (fun w =>
  set_net (sockets w) (nextSocket w)
    (match ln with Some l => <[i := l]> (serving w) | None => serving w end) w).

(** [srv.Shutdown(ctx)]: the listener is closed whatever the outcome. *)
Definition http_Shutdown (timeout : Z) (i : nat) : M (Process X) (option error) := fun w =>
  (set_net (match serving w !! i with Some l => sockets w ∖ {[l]} | None => sockets w end)
     (nextSocket w) (delete i (serving w)) w,
   shutdown_error timeout i w).

Definition first_error (firstErr err : option error) : option error :=
  match firstErr with None => err | some => some end.

Fixpoint shutdown_loop (timeout : Z) (srvs : list nat) (firstErr : option error)
    : M (Process X) (option error) :=
  match srvs with
  | [] => mret firstErr
  | i :: srvs =>
      err ← http_Shutdown timeout i;
      shutdown_loop timeout srvs (first_error firstErr err)
  end.

Definition Shutdown (s : Server) : M (Process X) (option error) :=
  _ ← markNotReady;
  let timeout := ShutdownTimeout (srvCfg s) in
  let timeout := if timeout <=? 0 then DefaultShutdownTimeout else timeout in
  firstErr ← shutdown_loop timeout [0; 1; 2]%nat None;
  _ ← (if srvLive s then modify (fun w => set_tracker (CancelAll (tracker w)) w) else mret tt);
  match srvCloser s with
  | Some close => err ← close; mret (first_error firstErr err)
  | None => mret firstErr
  end.

(** Everything before the select: the listeners, the servers, readiness. *)
Definition run_start (s : Server) : M (Process X) (Server * option error) :=
  '(s, err) ← bindListeners s;
  match err with
  | Some err => mret (s, Some err)
  | None =>
      _ ← startServer 0 (clientListener s);
      _ ← startServer 1 (internalListener s);
      _ ← startServer 2 (metricsListener s);
      _ ← markReady;
      mret (s, None)
  end.

(** After the select, which received a server's error or the cancellation. *)
Definition run_stop (s : Server) (event : option error) : M (Process X) (option error) :=
  match event with
  | Some err => _ ← Shutdown s; mret (Some err)
  | None => Shutdown s
  end.

(** Requests are served between the two; [during] is what they do. *)
Definition Run (s : Server) (during : M (Process X) (option error)) : M (Process X) (option error) :=
  '(s, err) ← run_start s;
  match err with
  | Some err => mret (Some err)
  | None => event ← during; run_stop s event
  end.

End process.
Arguments Dependencies : clear implicits.
Arguments Server : clear implicits.
