(* ===== verification/ServerProps.v ===== *)
(** * What the wired server guarantees

    Which validator a loaded configuration gives, that production refuses every
    unauthenticated call before it touches anything, which channels a built
    server has, the all-or-nothing binding of the listeners, the completeness of
    Shutdown and the errors that it and Run report. *)

From S2P Require Import Prelude GoErrors GoStrings Model StoreSpec Memory MemoryProps Notifier.
From S2P Require Import Wire Realtime Retry Stream Auth Handlers Duration Config ConfigProps.
From S2P Require Import Server.

Section server.
Context {X : Type} `{MapOrder} (newUUID : nat -> string)
  (parse : ParserOptions -> string -> result error (gmap string JSONValue))
  (timeNow : M (Process X) Z).
Implicit Types (w : Process X) (s : Server X) (cfg : Config) (deps : Dependencies X).

(** ** Building *)

(** The validator of a valid configuration. *)
Lemma valid_validator cfg : valid_config cfg ->
  buildValidator parse (cfgAuth cfg) =
    Ok (if (acJWTSecret (cfgAuth cfg) =? "")%string then dev_Validate
        else jwt_Validate parse (mkJWTValidator (acJWTSecret (cfgAuth cfg)) (acJWTIssuer (cfgAuth cfg))
               (acJWTAudience (cfgAuth cfg)) (acJWTLeeway (cfgAuth cfg)))).
Proof.
  intros Hv. destruct (vc_auth _ Hv) as [Hl Hs]. unfold buildValidator, NewJWTValidator.
  destruct (String.eqb_spec (acJWTSecret (cfgAuth cfg)) "") as [He|He]; simpl.
  - destruct Hs as [->|[? _]]; done.
  - by rewrite (proj2 (Z.ltb_ge _ _) Hl).
Qed.

Lemma resolve_auth_valid cfg deps : valid_config cfg -> exists a, resolve_auth parse cfg deps = Ok a.
Proof.
  intros Hv. unfold resolve_auth. destruct (depAuthValidator deps); [eauto|].
  rewrite valid_validator by done. eauto.
Qed.

(** What a successful NewWithDeps built. *)
Lemma built_server cfg deps w w' s :
  NewWithDeps newUUID parse timeNow cfg deps w = (w', Ok s) ->
  srvCfg s = cfg /\ resolve_auth parse cfg deps = Ok (srvAuth s) /\
  srvLive s = lcEnabled (LiveConnections cfg) /\
  nProviders (srvNotifier s) =
    (let providers := default NewProviderRegistry (depProviders deps) in
     if lcEnabled (LiveConnections cfg) then
       match Get providers ChannelInApp with
       | None => Register providers inapp_provider
       | Some _ => providers
       end
     else providers) /\
  nStore (srvNotifier s) = chStore (srvHandler s) /\
  (depStore deps = None -> chStore (srvHandler s) = process_store newUUID /\ mem w' = New) /\
  (depStore deps = None -> depStoreCloser deps = None -> srvCloser s = None) /\
  clientListener s = None /\ internalListener s = None /\ metricsListener s = None /\ ready w' = false.
Proof.
  unfold NewWithDeps, wire_live. unfold_M.
  destruct (resolve_store newUUID cfg deps w) as [w1 [[store closer]|]] eqn:Hst; [|done].
  destruct (resolve_auth parse cfg deps) as [auth|]; [|done].
  assert (Hs : depStore deps = None -> store = process_store newUUID /\ mem w1 = New /\
    (depStoreCloser deps = None -> closer = None)).
  { intros Hn. unfold resolve_store, buildStore in Hst. rewrite Hn in Hst. unfold_M.
    destruct (scDriver _ =? "memory")%string; [injection Hst as <- <- <-|by repeat case_match].
    split_and!; [done..|]. by intros ->. }
  destruct (lcEnabled (LiveConnections cfg)); simpl; intros [= <- <-]; simpl;
    split_and!; try done; try (intros Hn; destruct (Hs Hn) as (? & ? & ?); auto).
Qed.

(** The channel a built server has without providers of its own. *)
Lemma wired_channels cfg :
  Enabled (if lcEnabled (LiveConnections cfg) then Register NewProviderRegistry (inapp_provider (X := X))
           else NewProviderRegistry) =
  if lcEnabled (LiveConnections cfg) then [ChannelInApp] else [].
Proof.
  destruct (lcEnabled (LiveConnections cfg)).
  - apply Permutation_singleton_r. unfold Enabled, Register, NewProviderRegistry. simpl.
    by rewrite range_perm, map_to_list_insert, map_to_list_empty by done.
  - apply Permutation_nil_r. unfold Enabled, NewProviderRegistry. simpl.
    by rewrite range_perm, map_to_list_empty.
Qed.

(** For every valid configuration, NewWithDeps never fails on authentication, and fails at
    all only when it has to build a store itself for a driver other than memory, with the error
    of buildStore wrapped; given a store, or with the memory driver, it returns a server that is
    not ready yet.  A failure touches nothing. *)
Theorem new_with_deps cfg deps w : valid_config cfg ->
  let '(w', r) := NewWithDeps newUUID parse timeNow cfg deps w in
  (is_ok r = true <-> is_Some (depStore deps) \/ scDriver (cfgStore cfg) = "memory") /\
  match r with
  | Ok s => srvCfg s = cfg /\ ready w' = false
  | Err err => w' = w /\ exists why, err = ErrorfW "server: build store: %w" [] why
  end.
Proof.
  intros Hv. destruct (resolve_auth_valid cfg deps Hv) as [a Ha].
  destruct (NewWithDeps newUUID parse timeNow cfg deps w) as [w' [s|err]] eqn:Hn.
  - destruct (built_server _ _ _ _ _ Hn) as (Hc & _ & _ & _ & _ & _ & _ & _ & _ & _ & Hr).
    split; [|done]. split; [intros _|done]. unfold NewWithDeps, resolve_store in Hn. unfold_M.
    destruct (depStore deps); [by left|right]. unfold buildStore in Hn. unfold_M.
    destruct (String.eqb_spec (scDriver (cfgStore cfg)) "memory"); [done|].
    by repeat case_match.
  - unfold NewWithDeps in Hn. rewrite Ha in Hn. unfold_M.
    destruct (resolve_store newUUID cfg deps w) as [w1 [[store closer]|why]] eqn:Hst.
    { by destruct (wire_live cfg _ _). }
    injection Hn as <- <-. unfold resolve_store in Hst. unfold_M.
    destruct (depStore deps); [done|]. unfold buildStore in Hst. unfold_M.
    destruct (String.eqb_spec (scDriver (cfgStore cfg)) "memory"); [by destruct (depStoreCloser deps)|].
    split; [split; [done|by intros [[? ?]|?]]|].
    destruct (_ =? _)%string; [injection Hst as <- <-; eauto|].
    destruct (_ =? _)%string; injection Hst as <- <-; eauto.
Qed.

(** A kind that no provider of a server without explicit providers serves. *)
Lemma unwired_kind cfg deps w w' s kind : depProviders deps = None ->
  NewWithDeps newUUID parse timeNow cfg deps w = (w', Ok s) -> kind <> ChannelInApp ->
  Get (nProviders (srvNotifier s)) kind = None.
Proof.
  intros Hp Hn Hk. destruct (built_server _ _ _ _ _ Hn) as (_ & _ & _ & Hr & _).
  rewrite Hp in Hr. simpl in Hr. unfold Get at 1 in Hr. simpl in Hr. rewrite lookup_empty in Hr.
  unfold Get. rewrite Hr. destruct (lcEnabled (LiveConnections cfg)); simpl; [|by rewrite lookup_empty].
  by rewrite lookup_insert_ne, lookup_empty by done.
Qed.

Lemma enabled_channels cfg deps w w' s : depProviders deps = None ->
  NewWithDeps newUUID parse timeNow cfg deps w = (w', Ok s) ->
  Enabled (nProviders (srvNotifier s)) = (if lcEnabled (LiveConnections cfg) then [ChannelInApp] else []).
Proof.
  intros Hp Hn. destruct (built_server _ _ _ _ _ Hn) as (_ & _ & _ & Hr & _).
  rewrite Hp in Hr. simpl in Hr. unfold Get at 1 in Hr. simpl in Hr. rewrite lookup_empty in Hr.
  rewrite Hr. apply wired_channels.
Qed.

(** A call that authentication refuses. *)
Definition refused {A} w (r : Process X * result error A) : Prop :=
  r.1 = w /\ exists err, r.2 = Err err /\ code_of err = Some CodeUnauthenticated.

Lemma client_refused {A} (v : AuthValidator) authz (handler : Handler (Process X) A) w err :
  v authz = Err err -> code_of err = Some CodeUnauthenticated ->
  refused w (client_rpc v authz handler w).
Proof.
  intros Hv Hc. unfold client_rpc, recovery, NewClientAuthInterceptor, refused. rewrite Hv.
  unfold_M. simpl. split; [done|]. exists err. by destruct err.
Qed.

Lemma jwt_refuses v authz :
  (forall claims, jwt_Validate parse v authz <> Ok claims) ->
  exists err, jwt_Validate parse v authz = Err err /\ code_of err = Some CodeUnauthenticated.
Proof.
  unfold jwt_Validate. destruct (stripBearer authz) as [tok|]; [|by eauto].
  destruct (parse (jwt_parser v) tok) as [claims|]; [|by eauto]. cbv zeta.
  destruct (_ =? _)%string; [by eauto|]. destruct (_ =? _)%string; [by eauto|].
  intros Hn. by destruct (Hn (jwt_claims claims)).
Qed.

(** C8: Outside dev mode nobody gets in without credentials.  In a server built from a valid
    configuration with dev mode off and no validator of its own, every client RPC, the event
    stream included, whose Authorization header is not a bearer token that the JWT parser
    accepts for the configured secret, issuer and audience is refused as Unauthenticated with the
    process untouched, and so is every internal Notify whose token differs from the configured,
    non-empty one; dev tokens are no exception. *)
Theorem production_auth cfg deps w w' s w1 :
  valid_config cfg -> acDevMode (cfgAuth cfg) = false -> depAuthValidator deps = None ->
  NewWithDeps newUUID parse timeNow cfg deps w = (w', Ok s) ->
  let v := mkJWTValidator (acJWTSecret (cfgAuth cfg)) (acJWTIssuer (cfgAuth cfg))
             (acJWTAudience (cfgAuth cfg)) (acJWTLeeway (cfgAuth cfg)) in
  (forall token req, token <> acInternalToken (cfgAuth cfg) -> refused w1 (rpc_Notify s token req w1)) /\
  (forall authz, (forall claims, jwt_Validate parse v authz <> Ok claims) ->
     (forall req, refused w1 (rpc_GetNotifications s authz req w1)) /\
     (forall req, refused w1 (rpc_AckNotification s authz req w1)) /\
     (forall req, refused w1 (rpc_AckDataChange s authz req w1)) /\
     (forall req, refused w1 (rpc_RegisterPushToken s authz req w1)) /\
     (forall req, exists err, rpc_StreamEvents s authz req = Err err /\
        code_of err = Some CodeUnauthenticated)).
Proof.
  intros Hv Hdev Hnone Hn v. destruct (built_server _ _ _ _ _ Hn) as (Hc & Ha & _).
  destruct (vc_auth _ Hv) as [_ [?|[Hsec Htok]]]; [congruence|].
  unfold resolve_auth in Ha. rewrite Hnone, valid_validator in Ha by done.
  rewrite (proj2 (String.eqb_neq _ _) Hsec) in Ha. injection Ha as Ha. fold v in Ha. split.
  - intros token req Hne. unfold rpc_Notify, internal_rpc, recovery, NewInternalAuthInterceptor, refused.
    rewrite Hc, (proj2 (String.eqb_neq _ _) Htok), (proj2 (String.eqb_neq _ _) Hne). unfold_M.
    destruct (token =? "")%string; simpl; eauto.
  - intros authz Hno. destruct (jwt_refuses v authz Hno) as (err & He & Hcode).
    unfold rpc_GetNotifications, rpc_AckNotification, rpc_AckDataChange, rpc_RegisterPushToken,
      rpc_StreamEvents, authenticateStreamReq. rewrite <- Ha.
    split_and!; try (intros req; by eapply client_refused). intros req. rewrite He. eauto.
Qed.

End server.

(** ** Listeners *)

Section lifecycle.
Context {X : Type} (listen_error : string -> Process X -> option error)
  (shutdown_error : Z -> nat -> Process X -> option error).
Implicit Types (w : Process X) (s : Server X).

(** The fields of a server that binding leaves alone. *)
Definition same_server s s' : Prop := exists c i m, s' = with_listeners c i m s.

(** BindListeners is all or nothing.  It binds only the slots that hold no listener yet, and
    touches nothing of the process but its sockets.  On success the three slots hold open
    listeners, supplied ones unchanged; on failure the error names the first listener that could
    not be bound and no socket that this call opened stays open. *)
Theorem bind_all_or_nothing s w :
  (forall l, l ∈ sockets w -> (l < nextSocket w)%nat) ->
  (forall l, Some l ∈ [clientListener s; internalListener s; metricsListener s] -> l ∈ sockets w) ->
  let '(w', (s', err)) := bindListeners listen_error s w in
  same_server s s' /\ (exists ss n, w' = set_net ss n (serving w) w) /\
  (forall l, clientListener s = Some l -> clientListener s' = Some l) /\
  (forall l, internalListener s = Some l -> internalListener s' = Some l) /\
  (forall l, metricsListener s = Some l -> metricsListener s' = Some l) /\
  match err with
  | None => exists c i m, clientListener s' = Some c /\ internalListener s' = Some i /\
      metricsListener s' = Some m /\ sockets w ⊆ sockets w' /\ {[c; i; m]} ⊆ sockets w'
  | Some err => sockets w' ⊆ sockets w /\ exists name why, err = ErrorfW name [] why /\
      name ∈ ["client listener: %w"; "internal listener: %w"; "metrics listener: %w"]
  end.
Proof.
  intros Hfresh Hopen. unfold same_server, bindListeners, bind_slot, net_Listen. unfold_M.
  destruct s as [cfg' nt cl lv au ha st ca ia ma c i m], w as [me str tr rd ss nx sv ex].
  unfold with_listeners, ln_Close, set_net in *. simpl in *.
  repeat match goal with
  | |- context [match ?o with Some _ => _ | None => _ end] => is_var o; destruct o; simpl
  | |- context [listen_error ?a ?w] => destruct (listen_error a w); simpl
  end; split_and!; intros; simplify_eq/=; try done;
    try (by eexists _, _, _); try (by eexists _, _); try (by eexists _, _; split; [done|set_solver]);
    try (eexists _, _, _; split_and!; [done|done|done|set_solver|set_solver]); set_solver.
Qed.

(** ** Shutdown *)

Lemma first_error_None a b : first_error a b = None <-> a = None /\ b = None.
Proof. destruct a; simpl; naive_solver. Qed.

(** [e] is the error of a sequence of steps that met [errs]: nil only when none failed, and
    otherwise the first of them. *)
Definition reports (errs : list (option error)) (e : option error) : Prop :=
  (e = None <-> Forall (eq None) errs) /\
  (is_Some e -> exists before after, errs = before ++ e :: after /\ Forall (eq None) before).

Lemma first_error_reports errs : reports errs (fold_left first_error errs None).
Proof.
  assert (Hkeep : forall es e, fold_left first_error es (Some e) = Some e) by (induction es; auto).
  unfold reports. induction errs as [|[e|] errs [IH1 IH2]]; simpl.
  - split; [by rewrite Forall_nil|by intros [? ?]].
  - rewrite Hkeep. split; [rewrite Forall_cons; naive_solver|]. intros _. by exists [], errs.
  - split; [rewrite Forall_cons; tauto|]. intros Hsome. destruct (IH2 Hsome) as (b & a & Heq & Hb).
    exists (None :: b), a. rewrite Heq at 1. split; [done|by constructor].
Qed.

(** The errors of a whole shutdown: those of the http.Servers, then the closer's. *)
Definition shutdown_errors s w1 (errs : list (option error)) : list (option error) :=
  match srvCloser s with None => errs | Some close => errs ++ [(close w1).2] end.

(** The process once the closer, if there is one, has run. *)
Definition closed s w1 : Process X :=
  match srvCloser s with None => w1 | Some close => (close w1).1 end.

(** The process after the servers are down: [e] is the first of their errors. *)
Lemma shutdown_loop_spec timeout srvs : forall first w,
  let '(w', e) := shutdown_loop shutdown_error timeout srvs first w in
  (forall i, i ∈ srvs -> serving w' !! i = None) /\
  (forall i, i ∉ srvs -> serving w' !! i = serving w !! i) /\
  (forall i l, i ∈ srvs -> serving w !! i = Some l -> l ∉ sockets w') /\
  sockets w' ⊆ sockets w /\
  (exists n, w' = set_net (sockets w') n (serving w') w) /\
  (exists errs, length errs = length srvs /\ e = fold_left first_error errs first /\
     Forall2 (fun i err => exists v, err = shutdown_error timeout i v) srvs errs).
Proof.
  induction srvs as [|i srvs IH]; intros first w; cbn [shutdown_loop]; unfold_M.
  { split_and!; try set_solver; [exists (nextSocket w); by destruct w|by exists []]. }
  unfold http_Shutdown at 1. simpl.
  match goal with |- context [shutdown_loop _ _ _ ?f ?w1] => specialize (IH f w1); set (w2 := w1) in * end.
  destruct (shutdown_loop shutdown_error timeout srvs _ w2) as [w' e].
  destruct IH as (H1 & H2 & H3 & H4 & (n & Hn) & (errs & Hl & He & Hf)).
  assert (Hss : sockets w2 ⊆ sockets w) by (simpl; destruct (serving w !! i); set_solver).
  split_and!.
  - intros j [->|Hj]%elem_of_cons; [|auto]. destruct (decide (i ∈ srvs)); [auto|].
    rewrite H2 by done. simpl. apply lookup_delete_eq.
  - intros j Hj. rewrite H2 by set_solver. simpl. apply lookup_delete_ne. set_solver.
  - intros j l Hj Hsv. destruct (decide (j = i)) as [->|Hji].
    + intros Hin. apply H4 in Hin. simpl in Hin. rewrite Hsv in Hin. set_solver.
    + apply (H3 j); [set_solver|]. simpl. by rewrite lookup_delete_ne.
  - set_solver.
  - exists n. rewrite Hn at 1. done.
  - exists (shutdown_error timeout i w :: errs). simpl. split_and!; [by rewrite Hl|done|]. constructor; eauto.
Qed.

(** The three http.Servers are down: they serve no listener, and the ones they served are
    closed. *)
Definition drained w w' : Prop :=
  (forall i, (i < 3)%nat -> serving w' !! i = None) /\
  (forall i l, (i < 3)%nat -> serving w !! i = Some l -> l ∉ sockets w') /\
  sockets w' ⊆ sockets w.

(** The part of Shutdown before the closer. *)
Definition shut s w w1 (errs : list (option error)) : Prop :=
  drained w w1 /\ ready w1 = false /\ mem w1 = mem w /\ streams w1 = streams w /\ ext w1 = ext w /\
  tracker w1 = (if srvLive s then CancelAll (tracker w) else tracker w) /\
  exists timeout, 0 < timeout /\
    Forall2 (fun i err => exists v, err = shutdown_error timeout i v) [0; 1; 2]%nat errs.

Lemma shutdown_spec s w :
  exists w1 errs, shut s w w1 errs /\
    Shutdown shutdown_error s w = (closed s w1, fold_left first_error (shutdown_errors s w1 errs) None).
Proof.
  unfold Shutdown, markNotReady, modify. unfold_M.
  set (timeout := if ShutdownTimeout (srvCfg s) <=? 0 then DefaultShutdownTimeout
                  else ShutdownTimeout (srvCfg s)).
  assert (Ht : 0 < timeout).
  { unfold timeout. destruct (Z.leb_spec (ShutdownTimeout (srvCfg s)) 0); [done|lia]. }
  pose proof (shutdown_loop_spec timeout [0; 1; 2]%nat None (set_ready false w)) as Hl.
  destruct (shutdown_loop shutdown_error timeout [0; 1; 2]%nat None (set_ready false w)) as [w1 e].
  destruct Hl as (H1 & _ & H3 & H4 & (n & Hn) & errs & Hlen & -> & Hf).
  set (w2 := if srvLive s then set_tracker (CancelAll (tracker w1)) w1 else w1).
  assert (Hin : forall i, (i < 3)%nat -> i ∈ [0; 1; 2]%nat) by (intros [|[|[|]]] ?; [set_solver..|lia]).
  assert (Hw1 : ready w1 = false /\ mem w1 = mem w /\ streams w1 = streams w /\ ext w1 = ext w /\
    tracker w1 = tracker w) by (by rewrite Hn).
  destruct Hw1 as (Hr & Hm & Hs & Hx & Htr).
  exists w2, errs. split.
  - split_and!.
    + unfold w2. split_and!; destruct (srvLive s); simpl; auto; intros i l Hi Hsv; apply (H3 i l); auto.
    + unfold w2. by destruct (srvLive s).
    + unfold w2. by destruct (srvLive s).
    + unfold w2. by destruct (srvLive s).
    + unfold w2. by destruct (srvLive s).
    + unfold w2. destruct (srvLive s); simpl; by rewrite Htr.
    + by exists timeout.
  - unfold w2, shutdown_errors, closed. destruct (srvLive s), (srvCloser s) as [close|]; try done;
      unfold_M; destruct (close _) as [w3 e3]; by rewrite fold_left_app.
Qed.

(** Shutdown always goes all the way, whatever fails on the way: the server is not ready, all
    three http.Servers are shut down under a positive timeout and their listeners closed, every
    pending retry is cancelled when live connections are on, and then the store is closed, once;
    the error returned is the first one met, and nil only when every step succeeded. *)
Theorem shutdown_complete s w :
  exists w1 errs, shut s w w1 errs /\
    (Shutdown shutdown_error s w).1 = closed s w1 /\
    reports (shutdown_errors s w1 errs) (Shutdown shutdown_error s w).2.
Proof.
  destruct (shutdown_spec s w) as (w1 & errs & Hs & ->). exists w1, errs.
  split_and!; [done|done|apply first_error_reports].
Qed.

(** The process right after run_start. *)
Definition started w w1 (err : option error) : Prop :=
  match err with
  | Some _ => ready w1 = ready w /\ serving w1 = serving w /\ sockets w1 ⊆ sockets w
  | None => health_ServeHTTP w1 = (200, "ok") /\ exists c i m,
      serving w1 = <[2%nat := m]> (<[1%nat := i]> (<[0%nat := c]> (serving w))) /\
      {[c; i; m]} ⊆ sockets w1
  end.

Lemma run_start_spec s w :
  (forall l, Some l ∈ [clientListener s; internalListener s; metricsListener s] -> l ∈ sockets w) ->
  let '(w1, (s1, err)) := run_start listen_error s w in
  started w w1 err /\ srvLive s1 = srvLive s /\ srvCloser s1 = srvCloser s.
Proof.
  intros Hopen. unfold run_start, bindListeners, bind_slot, net_Listen, startServer, markReady, modify.
  unfold_M. destruct s as [cfg' nt cl lv au ha st ca ia ma c i m], w as [me str tr rd ss nx sv ex].
  unfold with_listeners, ln_Close, set_net, started in *. simpl in *.
  repeat match goal with
  | |- context [match ?o with Some _ => _ | None => _ end] => is_var o; destruct o; simpl
  | |- context [listen_error ?a ?w] => destruct (listen_error a w); simpl
  end; split_and!; try done; try set_solver;
    try (eexists _, _, _; split; [done|set_solver]).
Qed.

(** C26: Run's lifecycle.  If the listeners cannot be bound, Run returns that error having served
    nothing and left no new socket open.  Otherwise it reports healthy exactly once all three
    servers serve their open listeners; when the signal or a server error ends it, whatever
    happened in between, all three servers are shut down, the process is not ready, live retries
    are cancelled and only then the store is closed, when there is one to close; a server error is
    the one returned, and a clean stop returns the first error of the shutdown, the one of closing
    the store included, and nil exactly when it met none. *)
Theorem run_lifecycle s w during :
  (forall l, Some l ∈ [clientListener s; internalListener s; metricsListener s] -> l ∈ sockets w) ->
  let '(w1, (s1, err)) := run_start listen_error s w in
  started w w1 err /\
  match err with
  | Some e => Run listen_error shutdown_error s during w = (w1, Some e)
  | None =>
      let '(w2, event) := during w1 in
      let '(w4, res) := Run listen_error shutdown_error s during w in
      exists w3 errs, shut s w2 w3 errs /\ health_ServeHTTP w3 = (503, "not_ready") /\
        w4 = closed s w3 /\
        match event with
        | Some e => res = Some e
        | None => reports (shutdown_errors s w3 errs) res
        end
  end.
Proof.
  intros Hopen. pose proof (run_start_spec s w Hopen) as Hs. unfold Run. unfold_M.
  destruct (run_start listen_error s w) as [w1 [s1 [e|]]]; destruct Hs as (Hst & Hlive & Hcl);
    [done|split; [done|]].
  destruct (during w1) as [w2 event].
  destruct (shutdown_spec s1 w2) as (w3 & errs & Hsh & Heq).
  assert (Hsh' : shut s w2 w3 errs) by (unfold shut in *; by rewrite <- Hlive).
  assert (Hh : health_ServeHTTP w3 = (503, "not_ready")).
  { unfold health_ServeHTTP. destruct Hsh as (_ & -> & _). done. }
  assert (Hc : closed s1 w3 = closed s w3 /\ shutdown_errors s1 w3 errs = shutdown_errors s w3 errs)
    by (unfold closed, shutdown_errors; by rewrite Hcl).
  destruct Hc as [Hc1 Hc2]. unfold run_stop. unfold_M.
  destruct event as [e|]; rewrite Heq, Hc1, ?Hc2; exists w3, errs; split_and!; try done.
  apply first_error_reports.
Qed.
End lifecycle.

(** ** Witnesses *)

Definition sample_process : Process nat :=
  mkProcess New no_streams (NewRetryTracker 3) false ∅ 0 ∅ 0%nat.
Definition no_deps : Dependencies nat := mkDependencies None None None None None.
Definition sample_clock : M (Process nat) Z := mret 1700000000000.
Definition refuse_all (o : ParserOptions) (tok : string) : result error (gmap string JSONValue) :=
  Err (ErrorsNew "signature is invalid").

(** Closes the fields of [valid_config] on a closed configuration. *)
Ltac check_implication :=
  first [intros H; discriminate H | intros H; destruct H; reflexivity | intros _; discriminate
        | intros _; split; discriminate].
Ltac check_config :=
  split;
  [ split_and!; vm_compute; split; discriminate
  | vm_compute; reflexivity
  | split; vm_compute; [reflexivity | discriminate]
  | left; reflexivity
  | split; [vm_compute; discriminate | first [left; reflexivity | right; split; discriminate]]
  | split_and!; [reflexivity | vm_compute; discriminate | reflexivity | constructor]
  | split_and!; [check_implication | check_implication | left; reflexivity]
  | check_implication .. ].

Lemma dev_config_valid : valid_config dev_config.
Proof. check_config. Qed.

(** A production configuration over the memory driver. *)
Definition memory_config : Config :=
  mkConfig 8080 8081 9090 "info" (30 * Second) (mkStoreConfig "memory" "" "" "" false)
    (mkEmailConfig "emailservice" "no-reply@acme" "http://mail" "" 0 "" "" "" "" "")
    (mkTwilioConfig "twilio" "AC1" "t" "" "+15550001") (mkTwilioConfig "" "" "" "" "")
    (mkWebPushConfig "" "" "" "") (mkMobilePushConfig "" "" "" "" "" "" "" false)
    (mkLiveConnections true (30 * Second) 3 (5 * Second) [])
    (mkAuthConfig "s3cret" "" "" (30 * Second) "token" false).

Lemma memory_config_valid : valid_config memory_config.
Proof. check_config. Qed.

Lemma new_with_deps_witness :
  let '(w', r) := NewWithDeps (H := sample_order) sample_uuid refuse_all sample_clock dev_config no_deps sample_process in
  is_ok r = true.
Proof.
  pose proof (new_with_deps (H := sample_order) sample_uuid refuse_all sample_clock dev_config no_deps sample_process
    dev_config_valid) as H.
  destruct (NewWithDeps _ _ _ _ _ _) as [w' r]. destruct H as [[_ H] _]. apply H. by right.
Defined.

Definition sample_build cfg : Process nat * result error (Server nat) :=
  NewWithDeps (H := sample_order) sample_uuid refuse_all sample_clock cfg no_deps sample_process.

Lemma built_ok cfg : valid_config cfg -> scDriver (cfgStore cfg) = "memory" ->
  exists w' s, sample_build cfg = (w', Ok s).
Proof.
  intros Hv Hd. unfold sample_build, NewWithDeps, resolve_store, buildStore, wire_live. simpl. rewrite Hd. simpl.
  destruct (resolve_auth_valid refuse_all cfg no_deps Hv) as [a ->]. simpl.
  destruct (lcEnabled (LiveConnections cfg)); eauto.
Qed.

Lemma production_auth_witness :
  exists w' s, sample_build memory_config = (w', Ok s) /\
    refused w' (rpc_Notify (H := sample_order) s "guess" None w') /\
    refused w' (rpc_GetNotifications s "Bearer dev:u1:acme" None w').
Proof.
  destruct (built_ok memory_config memory_config_valid eq_refl) as (w' & s & Hb). exists w', s.
  split; [exact Hb|].
  destruct (production_auth (H := sample_order) sample_uuid refuse_all sample_clock memory_config
    no_deps sample_process w' s w' memory_config_valid eq_refl eq_refl Hb) as [H1 H2]. split.
  - apply H1. discriminate.
  - apply (H2 "Bearer dev:u1:acme"). intros claims. unfold jwt_Validate.
    destruct (stripBearer _); discriminate.
Defined.

(** Listeners: the metrics port is taken. *)
Definition metrics_taken (addr : string) (w : Process nat) : option error :=
  if (addr =? ":9090")%string then Some (External ExtPlain "address already in use") else None.
Definition clean_stop (timeout : Z) (i : nat) (w : Process nat) : option error := None.

Definition bare_server : Server nat :=
  mkServer dev_config (NewNotifier sample_clock (process_store (H := sample_order) sample_uuid) None None)
    None true dev_Validate
    (mkClientHandler (process_store (H := sample_order) sample_uuid) None sample_clock) None
    ":8080" ":8081" ":9090" None None None.

Lemma bind_all_or_nothing_witness :
  let '(w', (_, err)) := bindListeners metrics_taken bare_server sample_process in
  sockets w' = ∅ /\ is_Some err.
Proof.
  pose proof (bind_all_or_nothing metrics_taken bare_server sample_process) as H.
  assert (Hs : is_Some (bindListeners metrics_taken bare_server sample_process).2.2)
    by (vm_compute; eexists; reflexivity).
  destruct (bindListeners metrics_taken bare_server sample_process) as [w' [s' err]].
  destruct H as (_ & _ & _ & _ & _ & H); [intros l Hl; set_solver|intros l Hl; simpl in Hl; set_solver|].
  destruct Hs as [e He]. simpl in He. rewrite He in H |- *. split; [|by exists e].
  destruct H as [H _]. simpl in H. set_solver.
Defined.

(** A store whose closing fails. *)
Definition stuck_closer (w : Process nat) : Process nat * option error :=
  (w, Some (External ExtPlain "connection lost")).
Definition stuck_server : Server nat :=
  mkServer dev_config (NewNotifier sample_clock (process_store (H := sample_order) sample_uuid) None None)
    (Some stuck_closer) true dev_Validate
    (mkClientHandler (process_store (H := sample_order) sample_uuid) None sample_clock) None
    ":8080" ":8081" ":9090" None None None.

(** A clean stop whose store cannot be closed is down and does not return nil. *)
Lemma run_lifecycle_witness :
  let '(w4, res) := Run (fun _ _ => None) clean_stop stuck_server (mret None) sample_process in
  health_ServeHTTP w4 = (503, "not_ready") /\ res <> None.
Proof.
  pose proof (run_lifecycle (fun _ _ => None) clean_stop stuck_server sample_process (mret None)) as H.
  assert (Hs : (run_start (fun _ _ => None) stuck_server sample_process).2.2 = None) by (vm_compute; reflexivity).
  destruct (run_start _ stuck_server sample_process) as [w1 [s1 err]]. simpl in Hs. rewrite Hs in H.
  destruct H as [_ H]; [intros l Hl; simpl in Hl; set_solver|].
  unfold_M. cbv beta iota in H.
  match type of H with context [Run ?a ?b ?c ?d ?e] => destruct (Run a b c d e) as [w4 res] end.
  destruct H as (w3 & errs & _ & Hh & -> & Hn & _). split; [exact Hh|].
  rewrite Hn. unfold shutdown_errors. simpl. rewrite Forall_app, Forall_singleton. by intros [_ ?].
Defined.
