(* ===== verification/Entdb.v ===== *)
(** * store/entdb: the tenant-shard-db driver

    The driver over the EntDB SDK (github.com/elloloop/tenant-shard-db), which is
    a record of the calls the driver makes: [SDK].  A node is a typed message;
    every write is a Plan that is committed with WithWaitApplied, so a commit is
    one step.  An SDK error keeps its kind and text, which the driver inspects
    with errors.As and isTenantNotOpened.  The contexts are left out. *)

From S2P Require Import Prelude GoErrors GoStrings Model StoreSpec.

(** ** gen/go/entdb_notify: the node types *)

Record UserNotification := mkUserNotification {
  unNotificationId : string;
  unTenantId : string;
  unUserId : string;
  unSubjectRef : string;
  unSubjectType : string;
  unTitle : string;
  unBody : string;
  unChannel : string;
  unDeliveryStatus : string;
  unCreatedAtMs : Z;
  unDeliveredAtMs : Z;
  unAckAtMs : Z;
  unReadAtMs : Z;
  unCompositeKey : string;
}.

Record DeviceRegistration := mkDeviceRegistration {
  drTenantId : string;
  drUserId : string;
  drDeviceType : string;
  drToken : string;
  drCreatedAtMs : Z;
  drLastActiveMs : Z;
  drCompositeKey : string;
}.

(** A [proto.Message] of the schema; SchemaMessages lists one of each. *)
Inductive NodeMsg : Type :=
| MNotification (p : UserNotification)
| MDevice (p : DeviceRegistration).

Definition SchemaMessages : list NodeMsg :=
  [MNotification (mkUserNotification "" "" "" "" "" "" "" "" "" 0 0 0 0 "");
   MDevice (mkDeviceRegistration "" "" "" "" 0 0 "")].

Definition typeIDUserNotification : Z := 1.
Definition typeIDDeviceRegistration : Z := 2.
Definition unFieldTenantID : Z := 2.
Definition unFieldUserID : Z := 3.
Definition unFieldCompositeKey : Z := 14.
Definition drFieldTenantID : Z := 1.
Definition drFieldUserID : Z := 2.
Definition drFieldCompositeKey : Z := 7.

(** ** The SDK *)

Record UniqueKey := mkUniqueKey { TypeID : Z; FieldID : Z; KeyName : string }.

Definition notifByCompositeKey : UniqueKey :=
  mkUniqueKey typeIDUserNotification unFieldCompositeKey "composite_key".
Definition deviceByCompositeKey : UniqueKey :=
  mkUniqueKey typeIDDeviceRegistration drFieldCompositeKey "composite_key".

Record CommitResult := mkCommitResult {
  crSuccess : bool;
  crError : string;
  CreatedNodeIDs : list string;
}.

Inductive PlanOp : Type :=
| PlanCreate (msg : NodeMsg)
| PlanUpdate (nodeID : string) (patch : NodeMsg)
| PlanUpdateFields (nodeID : string) (patch : NodeMsg) (fields : list string).

(** The tenant and the parsed actor. *)
Record Scope := mkScope { scTenant : string; scActor : string }.

Definition SdkResult (A : Type) : Type := result (ExternalKind * string) A.

Record SDK (E : Type) := mkSDK {
  ParseActor : string -> SdkResult string;
  Commit : Scope -> list PlanOp -> bool -> M E (SdkResult (option CommitResult));
  GetByKey : Scope -> UniqueKey -> string -> M E (SdkResult (option string));
  sdk_Get : Scope -> Z -> string -> M E (SdkResult (option NodeMsg));
  Transport : bool;
  QueryNodes : string -> string -> Z -> gmap string string -> Z -> M E (SdkResult (list (option string)));
}.
Arguments ParseActor {E}.
Arguments Commit {E}.
Arguments GetByKey {E}.
Arguments sdk_Get {E}.
Arguments Transport {E}.
Arguments QueryNodes {E}.

(** The error value of an SDK call. *)
Definition sdk_error (e : ExternalKind * string) : error := External e.1 e.2.

Definition isTenantNotOpened (err : ExternalKind * string) : bool :=
  Contains err.2 "tenant not opened" || Contains err.2 "tenant not found".

(** ** Keys *)

Definition lpEncode (s : string) : string :=
  FormatInt (Z.of_nat (String.length s)) +:+ ":" +:+ s.

Definition notificationCompositeKey (tenantID userID notificationID : string) : string :=
  lpEncode tenantID +:+ lpEncode userID +:+ lpEncode notificationID.

Definition deviceCompositeKey (tenantID userID deviceType : string) : string :=
  lpEncode tenantID +:+ lpEncode userID +:+ lpEncode deviceType.

(** The digits are written from the end of a 20-byte buffer, which holds every
    int; [dec_loop] is that loop. *)
Definition decString (n : Z) : string :=
  if n =? 0 then "0" else dec_loop 20 n "".

Definition fieldKey (fieldID : Z) : string := decString fieldID.

(** ** Conversions *)

Definition notificationToProto (n : Notification) : UserNotification :=
  mkUserNotification (nNotificationID n) (nTenantID n) (nUserID n) (nSubjectRef n) (nSubjectType n)
    (nTitle n) (nBody n) (nChannel n) (nStatus n) (nCreatedAtMS n) (nDeliveredAtMS n) (nAckAtMS n)
    (nReadAtMS n) (notificationCompositeKey (nTenantID n) (nUserID n) (nNotificationID n)).

Definition notificationFromProto (id : string) (p : UserNotification) : Notification :=
  mkNotification id (unNotificationId p) (unTenantId p) (unUserId p) (unSubjectRef p) (unSubjectType p)
    (unTitle p) (unBody p) (unChannel p) (unDeliveryStatus p) (unCreatedAtMs p) (unDeliveredAtMs p)
    (unAckAtMs p) (unReadAtMs p).

Definition deviceToProto (d : Device) : DeviceRegistration :=
  mkDeviceRegistration (dTenantID d) (dUserID d) (dDeviceType d) (dToken d) (dCreatedAtMS d)
    (dLastActiveMS d) (deviceCompositeKey (dTenantID d) (dUserID d) (dDeviceType d)).

Definition deviceFromProto (id : string) (p : DeviceRegistration) : Device :=
  mkDevice id (drTenantId p) (drUserId p) (drDeviceType p) (drToken p) (drCreatedAtMs p)
    (drLastActiveMs p).

Definition systemActor : string := "system:notify".
Definition notifActor (userID : string) : string := systemActor.

Section driver.
Context {E : Type} (sdk : SDK E) (tenant : string).

(** ** helpers.go: one SDK round trip each *)

Definition scope (actor : string) : result error Scope :=
  match ParseActor sdk actor with
  | Err err => Err (sdk_error err)
  | Ok a => Ok (mkScope tenant a)
  end.

Definition find_by_key (key_token : UniqueKey) (actor key : string) : M E (result error string) :=
  match scope actor with
  | Err err => mret (Err err)
  | Ok sc =>
      r ← GetByKey sdk sc key_token key;
      mret (match r with
            | Err err => if isTenantNotOpened err then Ok "" else Err (sdk_error err)
            | Ok None => Ok ""
            | Ok (Some nodeID) => Ok nodeID
            end)
  end.

Definition findNotificationByKey : string -> string -> M E (result error string) :=
  find_by_key notifByCompositeKey.
Definition findDeviceByKey : string -> string -> M E (result error string) :=
  find_by_key deviceByCompositeKey.

Definition firstCreatedID (res : option CommitResult) : result error string :=
  match res with
  | None => Err (ErrorsNew "entdb: nil commit result")
  | Some res =>
      if negb (crSuccess res) then
        if negb (crError res =? "")%string
        then Err (Errorf "entdb: commit failed: %s" [FStr (crError res)])
        else Err (ErrorsNew "entdb: commit not successful")
      else match CreatedNodeIDs res with
           | [] => Err (ErrorsNew "entdb: commit succeeded but no node id returned")
           | id :: _ => Ok id
           end
  end.

Definition commitCreate (actor : string) (msg : NodeMsg) : M E (result error string) :=
  match scope actor with
  | Err err => mret (Err err)
  | Ok sc =>
      r ← Commit sdk sc [PlanCreate msg] true;
      mret (match r with Err err => Err (sdk_error err) | Ok res => firstCreatedID res end)
  end.

(** The result of the commit is not looked at. *)
Definition commitUpdateFields (actor nodeID : string) (patch : NodeMsg) (fields : list string)
    : M E (option error) :=
  match scope actor with
  | Err err => mret (Some err)
  | Ok sc =>
      r ← Commit sdk sc [PlanUpdateFields nodeID patch fields] true;
      mret (match r with Err err => Some (sdk_error err) | Ok _ => None end)
  end.

(** Plan.Update; no operation of the store uses it. *)
Definition commitUpdate (actor nodeID : string) (patch : NodeMsg) : M E (option error) :=
  match scope actor with
  | Err err => mret (Some err)
  | Ok sc =>
      r ← Commit sdk sc [PlanUpdate nodeID patch] true;
      mret (match r with Err err => Some (sdk_error err) | Ok _ => None end)
  end.

(** A typed Get: a missing node and one of another type are both nil. *)
Definition getUserNotification (actor nodeID : string) : M E (result error (option UserNotification)) :=
  match scope actor with
  | Err err => mret (Err err)
  | Ok sc =>
      r ← sdk_Get sdk sc typeIDUserNotification nodeID;
      mret (match r with
            | Err err => Err (sdk_error err)
            | Ok (Some (MNotification p)) => Ok (Some p)
            | Ok _ => Ok None
            end)
  end.

Definition getDevice (actor nodeID : string) : M E (result error (option DeviceRegistration)) :=
  match scope actor with
  | Err err => mret (Err err)
  | Ok sc =>
      r ← sdk_Get sdk sc typeIDDeviceRegistration nodeID;
      mret (match r with
            | Err err => Err (sdk_error err)
            | Ok (Some (MDevice p)) => Ok (Some p)
            | Ok _ => Ok None
            end)
  end.

Definition query_nodes (actor : string) (typeID tenantField userField : Z) (tenantID userID : string)
    : M E (result error (list (option string))) :=
  if negb (Transport sdk) then mret (Err (ErrorsNew "entdb: raw transport unavailable")) else
  let filter := <[fieldKey tenantField := tenantID]> (<[fieldKey userField := userID]> ∅) in
  r ← QueryNodes sdk tenant actor typeID filter 0;
  mret (match r with
        | Err err => if isTenantNotOpened err then Ok [] else Err (sdk_error err)
        | Ok nodes => Ok nodes
        end).

Definition queryUserNotifications (actor tenantID userID : string)
    : M E (result error (list (option string))) :=
  query_nodes actor typeIDUserNotification unFieldTenantID unFieldUserID tenantID userID.

Definition queryDevices (actor tenantID userID : string) : M E (result error (list (option string))) :=
  query_nodes actor typeIDDeviceRegistration drFieldTenantID drFieldUserID tenantID userID.

Definition unmarshalNotification (actor : string) (node : option string)
    : M E (result error (string * option UserNotification)) :=
  match node with
  | None => mret (Ok ("", None))
  | Some nodeID =>
      r ← getUserNotification actor nodeID;
      mret (match r with Err err => Err err | Ok msg => Ok (nodeID, msg) end)
  end.

Definition unmarshalDevice (actor : string) (node : option string)
    : M E (result error (string * option DeviceRegistration)) :=
  match node with
  | None => mret (Ok ("", None))
  | Some nodeID =>
      r ← getDevice actor nodeID;
      mret (match r with Err err => Err err | Ok msg => Ok (nodeID, msg) end)
  end.

(** ** store.go: notifications *)

Definition ent_CreateNotification (n : Notification) : M E (Notification * result error bool) :=
  let actor := notifActor (nUserID n) in
  r ← commitCreate actor (MNotification (notificationToProto n));
  match r with
  | Ok canonicalID => mret (set_nID canonicalID n, Ok true)
  | Err err =>
      if negb (is_unique_constraint err) then mret (n, Err err) else
      let key := notificationCompositeKey (nTenantID n) (nUserID n) (nNotificationID n) in
      f ← findNotificationByKey actor key;
      mret (match f with
            | Err ferr => (n, Err ferr)
            | Ok existingID =>
                if (existingID =? "")%string
                then (n, Err (Errorf "entdb: unique constraint hit but key %q not resolvable" [FStr key]))
                else (set_nID existingID n, Ok false)
            end)
  end.

Definition ent_GetNotification (tenantID userID id : string) : M E (result error Notification) :=
  let check got :=
    if negb (unTenantId got =? tenantID)%string || negb (unUserId got =? userID)%string
    then Err ErrNotFound else Ok (notificationFromProto id got) in
  r ← getUserNotification (notifActor userID) id;
  match r with
  | Err err => mret (Err err)
  | Ok (Some got) => mret (check got)
  | Ok None =>
      r ← getUserNotification systemActor id;
      mret (match r with
            | Err err => Err err
            | Ok None => Err ErrNotFound
            | Ok (Some got) => check got
            end)
  end.

(** The patch and the fields of UpdateStatus. *)
Definition status_patch (status : DeliveryStatus) (atMS : Z) : UserNotification * list string :=
  let patch delivered ack read :=
    mkUserNotification "" "" "" "" "" "" "" "" status 0 delivered ack read "" in
  if (status =? StatusDelivered)%string then (patch atMS 0 0, ["delivery_status"; "delivered_at_ms"])
  else if (status =? StatusAcked)%string then (patch 0 atMS 0, ["delivery_status"; "ack_at_ms"])
  else if (status =? StatusRead)%string then (patch 0 0 atMS, ["delivery_status"; "read_at_ms"])
  else (patch 0 0 0, ["delivery_status"]).

Definition ent_UpdateStatus (tenantID id : string) (status : DeliveryStatus) (atMS : Z)
    : M E (option error) :=
  r ← getUserNotification systemActor id;
  match r with
  | Err err => mret (Some err)
  | Ok None => mret (Some ErrNotFound)
  | Ok (Some got) =>
      if negb (unTenantId got =? tenantID)%string then mret (Some ErrNotFound) else
      let '(patch, fields) := status_patch status atMS in
      commitUpdateFields (notifActor (unUserId got)) id (MNotification patch) fields
  end.

(** The loop body of QueryUserNotifications after the re-read. *)
Definition ent_query_step (q : Query) (acc : list Notification * Z)
    (node : string * option UserNotification) : list Notification * Z :=
  let '(rows, unread) := acc in
  match node with
  | (_, None) => acc
  | (id, Some msg) =>
      if negb (unTenantId msg =? qTenantID q)%string || negb (unUserId msg =? qUserID q)%string then acc else
      let unread := if negb (unDeliveryStatus msg =? StatusRead)%string then unread + 1 else unread in
      if qUnreadOnly q && (unDeliveryStatus msg =? StatusRead)%string then (rows, unread) else
      if match qCursorMS q with Some c => c <=? unCreatedAtMs msg | None => false end
      then (rows, unread)
      else (notificationFromProto id msg :: rows, unread)
  end.

(** A loop over nodes that re-reads each of them; the first error ends it. *)
Fixpoint node_loop {N A : Type} (read : option string -> M E (result error N)) (f : A -> N -> A)
    (nodes : list (option string)) (acc : A) : M E (result error A) :=
  match nodes with
  | [] => mret (Ok acc)
  | node :: nodes =>
      r ← read node;
      match r with
      | Err err => mret (Err err)
      | Ok msg => node_loop read f nodes (f acc msg)
      end
  end.

Definition ent_QueryUserNotifications (q : Query) : M E (result error (list Notification * string * Z)) :=
  let limit := ClampLimit (qLimit q) in
  r ← queryUserNotifications systemActor (qTenantID q) (qUserID q);
  match r with
  | Err err => mret (Err err)
  | Ok nodes =>
      r ← node_loop (unmarshalNotification systemActor) (ent_query_step q) nodes ([], 0);
      mret (match r with
            | Err err => Err err
            | Ok (rows, unread) =>
                let rows := sort_slice newer (rev rows) in
                if limit <? Z.of_nat (length rows) then
                  let page := take (Z.to_nat limit) rows in
                  Ok (page, match last page with Some n => FormatInt (nCreatedAtMS n) | None => "" end, unread)
                else Ok (rows, "", unread)
            end)
  end.

(** ** store.go: devices *)

Definition readDeviceBack (actor id : string) (fallback : Device) : M E (result error Device) :=
  r ← getDevice actor id;
  mret (match r with
        | Err err => Err err
        | Ok None => Ok (set_dID id fallback)
        | Ok (Some got) => Ok (deviceFromProto id got)
        end).

Definition ent_UpsertDevice (d : Device) : M E (Device * result error Device) :=
  let actor := notifActor (dUserID d) in
  r ← commitCreate actor (MDevice (deviceToProto d));
  match r with
  | Ok canonicalID =>
      let d := set_dID canonicalID d in
      r ← readDeviceBack actor canonicalID d;
      mret (d, r)
  | Err err =>
      if negb (is_unique_constraint err) then mret (d, Err err) else
      let key := deviceCompositeKey (dTenantID d) (dUserID d) (dDeviceType d) in
      f ← findDeviceByKey actor key;
      match f with
      | Err ferr => mret (d, Err ferr)
      | Ok existingID =>
          if (existingID =? "")%string
          then mret (d, Err (Errorf "entdb: UpsertDevice: unique constraint hit but key %q not resolvable"
                               [FStr key]))
          else
            let patch := mkDeviceRegistration "" "" "" (dToken d) 0 (dLastActiveMS d) "" in
            e ← commitUpdateFields actor existingID (MDevice patch) ["token"; "last_active_ms"];
            match e with
            | Some err => mret (d, Err err)
            | None => r ← readDeviceBack actor existingID d; mret (d, r)
            end
      end
  end.

Definition ent_list_step (tenantID userID : string) (out : list Device)
    (node : string * option DeviceRegistration) : list Device :=
  match node with
  | (_, None) => out
  | (id, Some msg) =>
      if negb (drTenantId msg =? tenantID)%string || negb (drUserId msg =? userID)%string then out
      else out ++ [deviceFromProto id msg]
  end.

Definition ent_ListDevices (tenantID userID : string) : M E (result error (list Device)) :=
  r ← queryDevices systemActor tenantID userID;
  match r with
  | Err err => mret (Err err)
  | Ok nodes =>
      r ← node_loop (unmarshalDevice systemActor) (ent_list_step tenantID userID) nodes [];
      mret (match r with Err err => Err err | Ok out => Ok (sort_slice dev_before out) end)
  end.

Definition EntdbStore : Store E :=
  mkStore ent_CreateNotification ent_GetNotification ent_UpdateStatus ent_QueryUserNotifications
    ent_UpsertDevice ent_ListDevices.

End driver.
