(* ===== verification/EntdbProps.v ===== *)
(** * The EntDB driver fulfils the store contract

    [EntdbLaws] states the documented behaviour of the EntDB SDK that the driver
    relies on: unique composite keys enforced by a commit, reads after a waited
    commit, named-field updates, keyed and filtered reads, and the two
    fresh-tenant signals.  Over any such SDK the driver is a [StoreLaws] store,
    so every theorem about stores holds of it. *)

From S2P Require Import Prelude GoErrors GoStrings Model StoreSpec StoreOps Memory MemoryProps.
From S2P Require Import Entdb.

(** ** Keys *)

Lemma lpEncode_inj a b x y : lpEncode a +:+ x = lpEncode b +:+ y -> a = b /\ x = y.
Proof.
  unfold lpEncode. rewrite !append_assoc, !append_cons, !append_nil. intros He.
  assert (Hd : forall s, all_digits (FormatInt (Z.of_nat (String.length s))) = true).
  { intros s. unfold FormatInt. rewrite (proj2 (Z.ltb_ge _ _)) by lia. apply format_uint_digits. }
  apply digits_sep_inj in He as [Hl He]; [|done|apply Hd|apply Hd].
  apply append_inj_length in He as [-> ->]; [done|].
  unfold FormatInt in Hl. rewrite !(proj2 (Z.ltb_ge _ _)) in Hl by lia.
  apply format_uint_inj in Hl; lia.
Qed.

Lemma composite_inj a b c a' b' c' :
  lpEncode a +:+ lpEncode b +:+ lpEncode c = lpEncode a' +:+ lpEncode b' +:+ lpEncode c' ->
  a = a' /\ b = b' /\ c = c'.
Proof.
  intros [-> [-> He]%lpEncode_inj]%lpEncode_inj. split_and!; [done..|].
  apply (f_equal (fun s => s +:+ "")) in He. by apply lpEncode_inj in He as [-> _].
Qed.

(** ** What the SDK promises *)

(** A node's type, composite key and string fields by number. *)
Definition node_type (m : NodeMsg) : Z :=
  match m with MNotification _ => typeIDUserNotification | MDevice _ => typeIDDeviceRegistration end.
Definition node_key (m : NodeMsg) : string :=
  match m with MNotification p => unCompositeKey p | MDevice p => drCompositeKey p end.

Definition node_field (m : NodeMsg) (field : string) : option string :=
  match m with
  | MNotification p =>
      list_to_map (M := gmap string string)
        [("1", unNotificationId p); ("2", unTenantId p); ("3", unUserId p); ("4", unSubjectRef p);
         ("5", unSubjectType p); ("6", unTitle p); ("7", unBody p); ("8", unChannel p);
         ("9", unDeliveryStatus p); ("14", unCompositeKey p)] !! field
  | MDevice p =>
      list_to_map (M := gmap string string)
        [("1", drTenantId p); ("2", drUserId p); ("3", drDeviceType p); ("4", drToken p);
         ("7", drCompositeKey p)] !! field
  end.

Definition matches (typeID : Z) (f : gmap string string) (m : NodeMsg) : Prop :=
  node_type m = typeID /\ map_Forall (fun k v => node_field m k = Some v) f.

#[global] Instance matches_dec typeID f m : Decision (matches typeID f m).
Proof. unfold matches. apply _. Defined.

(** A named-field update: the listed fields come from the patch. *)
Definition patched (fields : list string) (patch m : NodeMsg) : NodeMsg :=
  let pick {A} (name : string) (new old : A) : A := if decide (name ∈ fields) then new else old in
  match patch, m with
  | MNotification a, MNotification b => MNotification (mkUserNotification
      (pick "notification_id" (unNotificationId a) (unNotificationId b))
      (pick "tenant_id" (unTenantId a) (unTenantId b)) (pick "user_id" (unUserId a) (unUserId b))
      (pick "subject_ref" (unSubjectRef a) (unSubjectRef b))
      (pick "subject_type" (unSubjectType a) (unSubjectType b))
      (pick "title" (unTitle a) (unTitle b)) (pick "body" (unBody a) (unBody b))
      (pick "channel" (unChannel a) (unChannel b))
      (pick "delivery_status" (unDeliveryStatus a) (unDeliveryStatus b))
      (pick "created_at_ms" (unCreatedAtMs a) (unCreatedAtMs b))
      (pick "delivered_at_ms" (unDeliveredAtMs a) (unDeliveredAtMs b))
      (pick "ack_at_ms" (unAckAtMs a) (unAckAtMs b)) (pick "read_at_ms" (unReadAtMs a) (unReadAtMs b))
      (pick "composite_key" (unCompositeKey a) (unCompositeKey b)))
  | MDevice a, MDevice b => MDevice (mkDeviceRegistration
      (pick "tenant_id" (drTenantId a) (drTenantId b)) (pick "user_id" (drUserId a) (drUserId b))
      (pick "device_type" (drDeviceType a) (drDeviceType b)) (pick "token" (drToken a) (drToken b))
      (pick "created_at_ms" (drCreatedAtMs a) (drCreatedAtMs b))
      (pick "last_active_ms" (drLastActiveMs a) (drLastActiveMs b))
      (pick "composite_key" (drCompositeKey a) (drCompositeKey b)))
  | _, _ => m
  end.

Definition same_unique (a b : NodeMsg) : Prop := node_type a = node_type b /\ node_key a = node_key b.

(** The fresh-tenant signal: only a tenant without nodes gives it. *)
Definition fresh_tenant {A} (nodes : gmap string NodeMsg) (r : SdkResult A) : Prop :=
  nodes = ∅ /\ exists err, r = Err err /\ isTenantNotOpened err = true.

Class EntdbLaws {E : Type} (sdk : SDK E) (tenant : string) := {
  nodes : E -> gmap string NodeMsg;
  sdk_inv : E -> Prop;

  ent_actor : exists a, ParseActor sdk systemActor = Ok a;
  ent_transport : Transport sdk = true;
  ent_ids : forall e id m, sdk_inv e -> nodes e !! id = Some m -> id <> "";
  ent_unique : forall e i j a b, sdk_inv e -> nodes e !! i = Some a -> nodes e !! j = Some b ->
    same_unique a b -> i = j;

  ent_create : forall e sc msg, sdk_inv e -> scTenant sc = tenant ->
    (forall id m, nodes e !! id = Some m -> ~ same_unique m msg) ->
    exists id ids e', Commit sdk sc [PlanCreate msg] true e =
        (e', Ok (Some (mkCommitResult true "" (id :: ids)))) /\
      id <> "" /\ nodes e !! id = None /\ nodes e' = <[id := msg]> (nodes e) /\ sdk_inv e';
  ent_duplicate : forall e sc msg id m, sdk_inv e -> scTenant sc = tenant ->
    nodes e !! id = Some m -> same_unique m msg ->
    exists text e', Commit sdk sc [PlanCreate msg] true e = (e', Err (ExtUniqueConstraint, text)) /\
      nodes e' = nodes e /\ sdk_inv e';
  ent_update : forall e sc id m patch fields, sdk_inv e -> scTenant sc = tenant ->
    nodes e !! id = Some m -> node_type patch = node_type m -> "composite_key" ∉ fields ->
    exists r e', Commit sdk sc [PlanUpdateFields id patch fields] true e = (e', Ok r) /\
      nodes e' = <[id := patched fields patch m]> (nodes e) /\ sdk_inv e';

  ent_key : forall e sc tok key, sdk_inv e -> scTenant sc = tenant ->
    tok ∈ [notifByCompositeKey; deviceByCompositeKey] ->
    exists r e', GetByKey sdk sc tok key e = (e', r) /\ nodes e' = nodes e /\ sdk_inv e' /\
      (forall id m, nodes e !! id = Some m -> node_type m = TypeID tok -> node_key m = key ->
         r = Ok (Some id)) /\
      ((forall id m, nodes e !! id = Some m -> ~ (node_type m = TypeID tok /\ node_key m = key)) ->
         r = Ok None \/ fresh_tenant (nodes e) r);
  ent_get : forall e sc typeID id, sdk_inv e -> scTenant sc = tenant ->
    exists e', sdk_Get sdk sc typeID id e =
        (e', Ok (match nodes e !! id with
                 | Some m => if decide (node_type m = typeID) then Some m else None
                 | None => None
                 end)) /\ nodes e' = nodes e /\ sdk_inv e';
  ent_query : forall e actor typeID f, sdk_inv e ->
    exists r e', QueryNodes sdk tenant actor typeID f 0 e = (e', r) /\ nodes e' = nodes e /\ sdk_inv e' /\
      (fresh_tenant (nodes e) r \/
       exists ids, r = Ok (Some <$> ids) /\
         ids ≡ₚ (filter (fun im => matches typeID f im.2) (map_to_list (nodes e))).*1);
}.

(** ** The rows behind the nodes *)

Definition row_of (id : string) (m : NodeMsg) : option Notification :=
  match m with MNotification p => Some (notificationFromProto id p) | MDevice _ => None end.
Definition dev_of (id : string) (m : NodeMsg) : option Device :=
  match m with MDevice p => Some (deviceFromProto id p) | MNotification _ => None end.

(** The composite key a node must carry. *)
Definition msg_key (m : NodeMsg) : string :=
  match m with
  | MNotification p => notificationCompositeKey (unTenantId p) (unUserId p) (unNotificationId p)
  | MDevice p => deviceCompositeKey (drTenantId p) (drUserId p) (drDeviceType p)
  end.

Definition keyed (ns : gmap string NodeMsg) : Prop :=
  map_Forall (fun _ m => node_key m = msg_key m) ns.

Section rows_of.
Context {R : Type} (view : string -> NodeMsg -> option R).

Lemma imap_insert ns id m r : view id m = Some r ->
  map_imap view (<[id := m]> ns) = <[id := r]> (map_imap view ns).
Proof. intros Hr. rewrite map_imap_insert. by rewrite Hr. Qed.

Lemma imap_insert_other ns id m :
  view id m = None -> map_imap view ns !! id = None -> map_imap view (<[id := m]> ns) = map_imap view ns.
Proof.
  intros Hm Hn. apply map_eq. intros i. rewrite !map_lookup_imap.
  destruct (decide (i = id)) as [->|Hne]; [|by rewrite lookup_insert_ne].
  rewrite lookup_insert_eq. simpl. rewrite Hm. by rewrite map_lookup_imap in Hn.
Qed.

Lemma imap_lookup ns id r : map_imap view ns !! id = Some r <->
  exists m, ns !! id = Some m /\ view id m = Some r.
Proof. rewrite map_lookup_imap, bind_Some. done. Qed.

Lemma imap_lookup_None ns id : ns !! id = None -> map_imap view ns !! id = None.
Proof. intros Hn. by rewrite map_lookup_imap, Hn. Qed.
End rows_of.

Lemma key_of_row id p : key_of (notificationFromProto id p) =
  mkNotifKey (unTenantId p) (unUserId p) (unNotificationId p).
Proof. done. Qed.

Lemma notification_key_inj p p' id id' :
  msg_key (MNotification p) = msg_key (MNotification p') <->
  key_of (notificationFromProto id p) = key_of (notificationFromProto id' p').
Proof.
  simpl. unfold notificationCompositeKey, key_of. simpl. split.
  - by intros (-> & -> & ->)%composite_inj.
  - by intros [= -> -> ->].
Qed.

Lemma device_key_inj p p' id id' :
  msg_key (MDevice p) = msg_key (MDevice p') <->
  dkey_of (deviceFromProto id p) = dkey_of (deviceFromProto id' p').
Proof.
  simpl. unfold deviceCompositeKey, dkey_of. simpl. split.
  - by intros (-> & -> & ->)%composite_inj.
  - by intros [= -> -> ->].
Qed.

(** Reading the rows of a list of ids gives the rows the ids were selected by. *)
Lemma lookup_list_perm {R : Type} (id_of : R -> string) (P : R -> Prop) `{!forall r, Decision (P r)}
    (m : gmap string R) ids :
  (forall id r, m !! id = Some r -> id_of r = id) -> NoDup ids ->
  (forall id r, m !! id = Some r -> P r -> id ∈ ids) ->
  filter P (omap (fun id => m !! id) ids) ≡ₚ filter P (map_to_list m).*2.
Proof.
  intros Hid Hnd Hin.
  assert (Hnd' : NoDup (omap (fun id => m !! id) ids)).
  { clear Hin. induction Hnd as [|id ids Hn Hnd IH]; [constructor|]. simpl.
    destruct (m !! id) as [r|] eqn:Hr; [|done]. constructor; [|done].
    intros (j & Hj & Hrj)%list_elem_of_omap. apply Hid in Hr, Hrj. congruence. }
  apply NoDup_Permutation; [by apply NoDup_filter|apply NoDup_filter|].
  - apply (NoDup_fmap_1 id_of). rewrite <- list_fmap_compose.
    rewrite (list_fmap_ext _ fst); [apply NoDup_fst_map_to_list|].
    intros i [id r] Hl. simpl. apply Hid, elem_of_map_to_list. by apply list_elem_of_lookup_2 in Hl.
  - intros r. rewrite !list_elem_of_filter, list_elem_of_omap, list_elem_of_fmap. split.
    + intros (Hp & id & _ & Hr). split; [done|]. exists (id, r). split; [done|]. by apply elem_of_map_to_list.
    + intros (Hp & [id r'] & -> & Hr%elem_of_map_to_list). simpl in *. split; [done|]. exists id. eauto.
Qed.

Section laws.
Context {E : Type} (sdk : SDK E) (tenant : string) {HL : EntdbLaws sdk tenant}.

Definition ent_inv (e : E) : Prop := sdk_inv e /\ keyed (nodes e).
Definition ent_rows (e : E) : gmap string Notification := map_imap row_of (nodes e).
Definition ent_devs (e : E) : gmap string Device := map_imap dev_of (nodes e).

Lemma ent_rows_lookup e id r : ent_rows e !! id = Some r <->
  exists p, nodes e !! id = Some (MNotification p) /\ r = notificationFromProto id p.
Proof.
  unfold ent_rows. rewrite imap_lookup. split.
  - intros ([p|p] & Hm & Hr); [|done]. injection Hr as <-. eauto.
  - intros (p & Hm & ->). eauto.
Qed.

Lemma ent_devs_lookup e id d : ent_devs e !! id = Some d <->
  exists p, nodes e !! id = Some (MDevice p) /\ d = deviceFromProto id p.
Proof.
  unfold ent_devs. rewrite imap_lookup. split.
  - intros ([p|p] & Hm & Hr); [done|]. injection Hr as <-. eauto.
  - intros (p & Hm & ->). eauto.
Qed.

Lemma ent_rows_ok e : ent_inv e -> rows_ok nID key_of (ent_rows e).
Proof.
  intros [Hi Hk]. split.
  - intros id r (p & _ & ->)%ent_rows_lookup. done.
  - intros i j a b (p & Hp & ->)%ent_rows_lookup (p' & Hp' & ->)%ent_rows_lookup He.
    apply notification_key_inj in He. eapply ent_unique; eauto. split; [done|].
    rewrite (Hk _ _ Hp), (Hk _ _ Hp'). done.
Qed.

Lemma ent_devs_ok e : ent_inv e -> rows_ok dID dkey_of (ent_devs e).
Proof.
  intros [Hi Hk]. split.
  - intros id r (p & _ & ->)%ent_devs_lookup. done.
  - intros i j a b (p & Hp & ->)%ent_devs_lookup (p' & Hp' & ->)%ent_devs_lookup He.
    apply device_key_inj in He. eapply ent_unique; eauto. split; [done|].
    rewrite (Hk _ _ Hp), (Hk _ _ Hp'). done.
Qed.

Lemma scope_ok : exists a, scope sdk tenant systemActor = Ok (mkScope tenant a).
Proof. unfold scope. destruct ent_actor as [a ->]. eauto. Qed.

(** ** The round trips *)

Lemma commitCreate_new e msg : ent_inv e -> node_key msg = msg_key msg ->
  (forall id m, nodes e !! id = Some m -> ~ same_unique m msg) ->
  exists id e', commitCreate sdk tenant systemActor msg e = (e', Ok id) /\
    id <> "" /\ nodes e !! id = None /\ nodes e' = <[id := msg]> (nodes e) /\ ent_inv e'.
Proof.
  intros [Hi Hk] Hm Hno. unfold commitCreate. destruct scope_ok as [a ->]. unfold_M.
  destruct (ent_create e (mkScope tenant a) msg Hi eq_refl Hno) as (id & ids & e' & -> & Hne & Hn & He' & Hi').
  exists id, e'. split_and!; [done..|]. split; [done|]. rewrite He'. by apply map_Forall_insert_2.
Qed.

Lemma commitCreate_dup e msg id m : ent_inv e -> nodes e !! id = Some m -> same_unique m msg ->
  exists text e', commitCreate sdk tenant systemActor msg e = (e', Err (External ExtUniqueConstraint text)) /\
    nodes e' = nodes e /\ ent_inv e'.
Proof.
  intros [Hi Hk] Hm Hs. unfold commitCreate. destruct scope_ok as [a ->]. unfold_M.
  destruct (ent_duplicate e (mkScope tenant a) msg id m Hi eq_refl Hm Hs) as (text & e' & -> & He' & Hi').
  exists text, e'. split_and!; [done..|]. split; [done|]. by rewrite He'.
Qed.

Lemma commitUpdateFields_ok e id m patch fields : ent_inv e -> nodes e !! id = Some m ->
  node_type patch = node_type m -> "composite_key" ∉ fields ->
  msg_key (patched fields patch m) = msg_key m -> node_key (patched fields patch m) = node_key m ->
  exists e', commitUpdateFields sdk tenant systemActor id patch fields e = (e', None) /\
    nodes e' = <[id := patched fields patch m]> (nodes e) /\ ent_inv e'.
Proof.
  intros [Hi Hk] Hm Ht Hf Hmk Hnk. unfold commitUpdateFields. destruct scope_ok as [a ->]. unfold_M.
  destruct (ent_update e (mkScope tenant a) id m patch fields Hi eq_refl Hm Ht Hf) as (r & e' & -> & He' & Hi').
  exists e'. split_and!; [done..|]. split; [done|]. rewrite He'.
  apply map_Forall_insert_2; [|done]. rewrite Hmk, Hnk. by apply (Hk id).
Qed.

Lemma find_by_key_hit e tok key id m : ent_inv e -> tok ∈ [notifByCompositeKey; deviceByCompositeKey] ->
  nodes e !! id = Some m -> node_type m = TypeID tok -> node_key m = key ->
  exists e', find_by_key sdk tenant tok systemActor key e = (e', Ok id) /\
    nodes e' = nodes e /\ ent_inv e'.
Proof.
  intros [Hi Hk] Htok Hm Ht Hkey. unfold find_by_key. destruct scope_ok as [a ->]. unfold_M.
  destruct (ent_key e (mkScope tenant a) tok key Hi eq_refl Htok) as (r & e' & -> & He' & Hi' & Hhit & _).
  rewrite (Hhit id m Hm Ht Hkey). exists e'. split_and!; [done..|]. split; [done|]. by rewrite He'.
Qed.

Lemma getUserNotification_ok e id : ent_inv e ->
  exists e', getUserNotification sdk tenant systemActor id e =
      (e', Ok (match nodes e !! id with Some (MNotification p) => Some p | _ => None end)) /\
    nodes e' = nodes e /\ ent_inv e'.
Proof.
  intros [Hi Hk]. unfold getUserNotification. destruct scope_ok as [a ->]. unfold_M.
  destruct (ent_get e (mkScope tenant a) typeIDUserNotification id Hi eq_refl) as (e' & -> & He' & Hi').
  exists e'. split_and!; [|done|split; [done|by rewrite He']]. f_equal.
  by destruct (nodes e !! id) as [[p|p]|].
Qed.

Lemma getDevice_ok e id : ent_inv e ->
  exists e', getDevice sdk tenant systemActor id e =
      (e', Ok (match nodes e !! id with Some (MDevice p) => Some p | _ => None end)) /\
    nodes e' = nodes e /\ ent_inv e'.
Proof.
  intros [Hi Hk]. unfold getDevice. destruct scope_ok as [a ->]. unfold_M.
  destruct (ent_get e (mkScope tenant a) typeIDDeviceRegistration id Hi eq_refl) as (e' & -> & He' & Hi').
  exists e'. split_and!; [|done|split; [done|by rewrite He']]. f_equal.
  by destruct (nodes e !! id) as [[p|p]|].
Qed.

Lemma query_nodes_ok e actor typeID tf uf t u : ent_inv e ->
  exists ids e', query_nodes sdk tenant actor typeID tf uf t u e = (e', Ok (Some <$> ids)) /\
    nodes e' = nodes e /\ ent_inv e' /\
    ids ≡ₚ (filter (fun im => matches typeID (<[fieldKey tf := t]> (<[fieldKey uf := u]> ∅)) im.2)
              (map_to_list (nodes e))).*1.
Proof.
  intros [Hi Hk]. unfold query_nodes. rewrite ent_transport. simpl. unfold_M.
  destruct (ent_query e actor typeID (<[fieldKey tf := t]> (<[fieldKey uf := u]> ∅)) Hi)
    as (r & e' & -> & He' & Hi' & [[Hempty (err & -> & Hf)]|(ids & -> & Hids)]).
  - exists [], e'. rewrite Hf. split_and!; [done..| |]; [split; [done|by rewrite He']|].
    by rewrite Hempty, map_to_list_empty.
  - exists ids, e'. split_and!; [done..| |done]. split; [done|by rewrite He'].
Qed.

(** A loop that re-reads nodes folds over what they hold. *)
Lemma node_loop_ok {N A} (read : option string -> M E (result error N)) (f : A -> N -> A)
    (val : gmap string NodeMsg -> string -> N) ids : forall e acc, ent_inv e ->
  (forall e id, ent_inv e -> exists e', read (Some id) e = (e', Ok (val (nodes e) id)) /\
     nodes e' = nodes e /\ ent_inv e') ->
  exists e', node_loop read f (Some <$> ids) acc e = (e', Ok (fold_left f (val (nodes e) <$> ids) acc)) /\
    nodes e' = nodes e /\ ent_inv e'.
Proof.
  induction ids as [|id ids IH]; intros e acc Hi Hread; [by exists e|].
  rewrite !fmap_cons. cbn [node_loop fold_left]. unfold_M.
  destruct (Hread e id Hi) as (e1 & -> & He1 & Hi1).
  destruct (IH e1 (f acc (val (nodes e) id)) Hi1 Hread) as (e2 & He2 & Hn2 & Hi2).
  exists e2. rewrite He1 in *. by rewrite He2.
Qed.

(** ** The operations *)

(** The round trips of CreateNotification. *)
Lemma commitCreate_fresh e n : ent_inv e -> absent key_of (ent_rows e) (key_of n) ->
  exists id e', commitCreate sdk tenant systemActor (MNotification (notificationToProto n)) e = (e', Ok id) /\
    id <> "" /\ ent_rows e !! id = None /\
    ent_rows e' = <[id := set_nID id n]> (ent_rows e) /\ ent_devs e' = ent_devs e /\ ent_inv e'.
Proof.
  intros Hi Habs.
  edestruct (commitCreate_new e (MNotification (notificationToProto n)) Hi eq_refl)
    as (id & e' & -> & Hne & Hnew & Hn & Hi').
  { intros id [p|p] Hp [Ht Hkey]; [|done]. destruct Hi as [_ Hk]. rewrite (Hk _ _ Hp) in Hkey.
    apply (notification_key_inj p (notificationToProto n) id "") in Hkey.
    apply (Habs id (notificationFromProto id p)); [by apply ent_rows_lookup; eauto|]. by rewrite Hkey. }
  exists id, e'. unfold ent_rows, ent_devs. rewrite Hn. split_and!; try done.
  - by apply imap_lookup_None.
  - by apply imap_insert.
  - apply imap_insert_other; [done|by apply imap_lookup_None].
Qed.

Lemma row_key_eq e id p n : ent_inv e -> nodes e !! id = Some (MNotification p) ->
  key_of (notificationFromProto id p) = key_of n ->
  node_key (MNotification p) = notificationCompositeKey (nTenantID n) (nUserID n) (nNotificationID n).
Proof.
  intros [_ Hk] Hp Hkey. rewrite (Hk _ _ Hp). by apply (notification_key_inj p (notificationToProto n) id "").
Qed.

Lemma commitCreate_taken e n id r : ent_inv e -> ent_rows e !! id = Some r -> key_of r = key_of n ->
  exists text e', commitCreate sdk tenant systemActor (MNotification (notificationToProto n)) e =
      (e', Err (External ExtUniqueConstraint text)) /\ nodes e' = nodes e /\ ent_inv e'.
Proof.
  intros Hi (p & Hp & ->)%ent_rows_lookup Hkey. eapply commitCreate_dup; [done..|].
  split; [done|]. by eapply row_key_eq.
Qed.

Lemma findNotification_hit e n id r : ent_inv e -> ent_rows e !! id = Some r -> key_of r = key_of n ->
  exists e', findNotificationByKey sdk tenant systemActor
      (notificationCompositeKey (nTenantID n) (nUserID n) (nNotificationID n)) e = (e', Ok id) /\
    id <> "" /\ nodes e' = nodes e /\ ent_inv e'.
Proof.
  intros Hi (p & Hp & ->)%ent_rows_lookup Hkey.
  destruct (find_by_key_hit e notifByCompositeKey _ id _ Hi ltac:(by left) Hp eq_refl (row_key_eq e id p n Hi Hp Hkey))
    as (e' & Hf & He & Hi').
  exists e'. split_and!; [done| |done..]. eapply (ent_ids e); [apply Hi|done].
Qed.

Lemma create_new_any e n : ent_inv e -> absent key_of (ent_rows e) (key_of n) ->
  exists id e', ent_CreateNotification sdk tenant n e = (e', (set_nID id n, Ok true)) /\
    id <> "" /\ ent_rows e !! id = None /\
    ent_rows e' = <[id := set_nID id n]> (ent_rows e) /\ ent_devs e' = ent_devs e /\ ent_inv e'.
Proof.
  intros Hi Habs. unfold ent_CreateNotification, notifActor. unfold_M.
  destruct (commitCreate_fresh e n Hi Habs) as (id & e' & -> & H). by exists id, e'.
Qed.

Lemma create_dup_ok e n id r : ent_inv e -> ent_rows e !! id = Some r -> key_of r = key_of n ->
  exists e', ent_CreateNotification sdk tenant n e = (e', (set_nID id n, Ok false)) /\
    nodes e' = nodes e /\ ent_inv e'.
Proof.
  intros Hi Hr Hkey. unfold ent_CreateNotification, notifActor. unfold_M.
  destruct (commitCreate_taken e n id r Hi Hr Hkey) as (text & e1 & -> & He1 & Hi1).
  change (is_unique_constraint (External ExtUniqueConstraint text)) with true. simpl.
  destruct (findNotification_hit e1 n id r Hi1) as (e2 & -> & Hne & He2 & Hi2); [unfold ent_rows; by rewrite He1|done|].
  rewrite (proj2 (String.eqb_neq _ _) Hne). exists e2. split_and!; [done|congruence|done].
Qed.

Lemma same_nodes e e' : nodes e' = nodes e -> ent_rows e' = ent_rows e /\ ent_devs e' = ent_devs e.
Proof. unfold ent_rows, ent_devs. by intros ->. Qed.

Lemma get_ok e t u id : ent_inv e ->
  exists e', ent_GetNotification sdk tenant t u id e =
      (e', match ent_rows e !! id with
           | Some r => if decide (owned t u r) then Ok r else Err ErrNotFound
           | None => Err ErrNotFound
           end) /\ nodes e' = nodes e /\ ent_inv e'.
Proof.
  intros Hi. unfold ent_GetNotification, notifActor. unfold_M.
  destruct (getUserNotification_ok e id Hi) as (e1 & -> & He1 & Hi1).
  destruct (ent_rows e !! id) as [r|] eqn:Hr.
  - apply ent_rows_lookup in Hr as (p & Hp & ->). rewrite Hp. exists e1. split_and!; [|done..].
    pose proof (not_owned_bool t u (notificationFromProto id p)) as Hb. simpl in Hb. rewrite Hb.
    f_equal. by case_decide; case_bool_decide.
  - assert (Hn : match nodes e !! id with Some (MNotification p) => Some p | _ => None end = None).
    { destruct (nodes e !! id) as [[p|p]|] eqn:Hm; [|done..].
      assert (ent_rows e !! id = Some (notificationFromProto id p)) by (apply ent_rows_lookup; eauto). congruence. }
    rewrite Hn. destruct (getUserNotification_ok e1 id Hi1) as (e2 & -> & He2 & Hi2).
    rewrite He1, Hn. exists e2. split_and!; [done|congruence|done].
Qed.

Lemma status_patch_ok status ms p id :
  let '(patch, fields) := status_patch status ms in
  "composite_key" ∉ fields /\
  exists p', patched fields (MNotification patch) (MNotification p) = MNotification p' /\
    unCompositeKey p' = unCompositeKey p /\ unTenantId p' = unTenantId p /\ unUserId p' = unUserId p /\
    unNotificationId p' = unNotificationId p /\
    notificationFromProto id p' = stamped status ms (notificationFromProto id p).
Proof.
  unfold status_patch.
  destruct (String.eqb_spec status StatusDelivered) as [->|H1]; [|
    destruct (String.eqb_spec status StatusAcked) as [->|H2]; [|
      destruct (String.eqb_spec status StatusRead) as [->|H3]]];
    (split; [refine (bool_decide_eq_false_1 _ _); vm_compute; reflexivity|]);
    eexists; (split; [reflexivity|]); split_and!; try (vm_compute; reflexivity); unfold stamped.
  rewrite (decide_False (P := status = StatusDelivered)), (decide_False (P := status = StatusAcked)),
    (decide_False (P := status = StatusRead)) by done. reflexivity.
Qed.

(** The round trip of UpdateStatus that writes. *)
Lemma commit_status_ok e id r st ms : ent_inv e -> ent_rows e !! id = Some r ->
  exists e', commitUpdateFields sdk tenant systemActor id (MNotification (status_patch st ms).1)
      (status_patch st ms).2 e = (e', None) /\
    ent_rows e' = <[id := stamped st ms r]> (ent_rows e) /\ ent_devs e' = ent_devs e /\ ent_inv e'.
Proof.
  intros Hi (p & Hp & ->)%ent_rows_lookup. pose proof (status_patch_ok st ms p id) as Hs.
  destruct (status_patch st ms) as [patch fields]. destruct Hs as (Hf & p' & Hpt & Hck & Ht & Hu & Hn & Hr).
  destruct (commitUpdateFields_ok e id (MNotification p) (MNotification patch) fields Hi)
    as (e2 & Hc & He2 & Hi2); [done..|rewrite Hpt; simpl; by rewrite Ht, Hu, Hn|by rewrite Hpt|].
  exists e2. rewrite Hpt in He2. unfold ent_rows, ent_devs. rewrite He2. split_and!; [done| | |done].
  - apply imap_insert. simpl. by rewrite Hr.
  - apply imap_insert_other; [done|]. by rewrite map_lookup_imap, Hp.
Qed.

Lemma update_hit_ok e t id r st ms : ent_inv e -> ent_rows e !! id = Some r -> nTenantID r = t ->
  exists e', ent_UpdateStatus sdk tenant t id st ms e = (e', None) /\
    ent_rows e' = <[id := stamped st ms r]> (ent_rows e) /\ ent_devs e' = ent_devs e /\ ent_inv e'.
Proof.
  intros Hi Hr <-. pose proof Hr as (p & Hp & ->)%ent_rows_lookup. unfold ent_UpdateStatus. unfold_M.
  destruct (getUserNotification_ok e id Hi) as (e1 & -> & He1 & Hi1). rewrite Hp. simpl.
  rewrite String.eqb_refl. simpl.
  destruct (commit_status_ok e1 id (notificationFromProto id p) st ms Hi1) as (e2 & Hc & H2);
    [unfold ent_rows; by rewrite He1|].
  destruct (status_patch st ms) as [patch fields]. cbn [fst snd] in Hc. exists e2.
  unfold notifActor, ent_rows, ent_devs in *. by rewrite Hc, <- He1.
Qed.

Lemma update_miss_ok e t id st ms : ent_inv e ->
  (forall r, ent_rows e !! id = Some r -> nTenantID r <> t) ->
  exists e', ent_UpdateStatus sdk tenant t id st ms e = (e', Some ErrNotFound) /\
    nodes e' = nodes e /\ ent_inv e'.
Proof.
  intros Hi Hmiss. unfold ent_UpdateStatus. unfold_M.
  destruct (getUserNotification_ok e id Hi) as (e1 & -> & He1 & Hi1). exists e1.
  destruct (nodes e !! id) as [[p|p]|] eqn:Hp; [|done..].
  rewrite (proj2 (String.eqb_neq _ _)); [done|].
  apply (Hmiss (notificationFromProto id p)). apply ent_rows_lookup. eauto.
Qed.

(** ** Queries *)

Lemma elem_of_matching (ns : gmap string NodeMsg) (P : NodeMsg -> Prop) `{!forall m, Decision (P m)} id :
  id ∈ (filter (fun im => P im.2) (map_to_list ns)).*1 <-> exists m, ns !! id = Some m /\ P m.
Proof.
  rewrite list_elem_of_fmap. split.
  - intros ([i m] & -> & [Hp Hm]%list_elem_of_filter). apply elem_of_map_to_list in Hm. eauto.
  - intros (m & Hm & Hp). exists (id, m). split; [done|]. apply list_elem_of_filter. split; [done|].
    by apply elem_of_map_to_list.
Qed.

Lemma NoDup_matching (ns : gmap string NodeMsg) (P : NodeMsg -> Prop) `{!forall m, Decision (P m)} :
  NoDup (filter (fun im => P im.2) (map_to_list ns)).*1.
Proof. apply NoDup_fmap_filter, NoDup_fst_map_to_list. Qed.

Definition notif_value (ns : gmap string NodeMsg) (id : string) : string * option UserNotification :=
  (id, match ns !! id with Some (MNotification p) => Some p | _ => None end).
Definition device_value (ns : gmap string NodeMsg) (id : string) : string * option DeviceRegistration :=
  (id, match ns !! id with Some (MDevice p) => Some p | _ => None end).

(** The loop of the code is the memory driver's loop on the rows it re-read. *)
Lemma query_steps q ns ids : forall acc,
  fold_left (ent_query_step q) (notif_value ns <$> ids) acc =
  fold_left (query_step q) (omap (fun id => map_imap row_of ns !! id) ids) acc.
Proof.
  induction ids as [|id ids IH]; intros [l u]; [done|]. rewrite fmap_cons. cbn [fold_left omap list_omap].
  rewrite IH. unfold notif_value. rewrite map_lookup_imap. simpl.
  by destruct (ns !! id) as [[p|p]|].
Qed.

Lemma list_steps t u ns ids : forall acc,
  fold_left (ent_list_step t u) (device_value ns <$> ids) acc =
  acc ++ filter (dev_owned t u) (omap (fun id => map_imap dev_of ns !! id) ids).
Proof.
  induction ids as [|id ids IH]; intros acc; [by rewrite app_nil_r|]. rewrite fmap_cons.
  cbn [fold_left omap list_omap]. rewrite IH. unfold device_value. rewrite map_lookup_imap. simpl.
  destruct (ns !! id) as [[p|p]|]; [done| |done]. simpl. rewrite filter_cons. unfold dev_owned at 2. simpl.
  destruct (String.eqb_spec (drTenantId p) t), (String.eqb_spec (drUserId p) u); simpl;
    case_decide; try tauto. by rewrite <- app_assoc.
Qed.

Lemma matches_pair typeID k1 v1 k2 v2 m : k1 <> k2 ->
  matches typeID (<[k1 := v1]> (<[k2 := v2]> ∅)) m <->
  node_type m = typeID /\ node_field m k1 = Some v1 /\ node_field m k2 = Some v2.
Proof.
  intros Hne. unfold matches. split.
  - intros [Ht Hf]. split_and!; [done|..]; apply (map_Forall_lookup_1 _ _ _ _ Hf).
    + apply lookup_insert_eq.
    + rewrite lookup_insert_ne by done. apply lookup_insert_eq.
  - intros (Ht & H1 & H2). split; [done|]. apply map_Forall_insert_2; [done|].
    apply map_Forall_insert_2; [done|apply map_Forall_empty].
Qed.

(** The ids a query finds are those of the rows of the user. *)
Lemma queryUserNotifications_ok e t u : ent_inv e ->
  exists ids e', queryUserNotifications sdk tenant systemActor t u e = (e', Ok (Some <$> ids)) /\
    nodes e' = nodes e /\ ent_inv e' /\ NoDup ids /\
    forall id, id ∈ ids <-> exists r, ent_rows e !! id = Some r /\ owned t u r.
Proof.
  intros Hi. destruct (query_nodes_ok e systemActor typeIDUserNotification unFieldTenantID unFieldUserID t u Hi)
    as (ids & e1 & Hq & He1 & Hi1 & Hids).
  exists ids, e1. split_and!; [exact Hq|done|done|rewrite Hids; apply (NoDup_matching (nodes e) (matches _ _))|].
  intros id. rewrite Hids, (elem_of_matching (nodes e) (matches _ _)). setoid_rewrite ent_rows_lookup. split.
  - intros (m & Hm & (Ht & H1 & H2)%matches_pair); [|done]. destruct m as [p|p]; [|done].
    injection H1 as H1. injection H2 as H2. exists (notificationFromProto id p). split; [by exists p|by split].
  - intros (r & (p & Hp & ->) & Ht & Hu). exists (MNotification p). split; [done|].
    apply matches_pair; [done|]. simpl in Ht, Hu. subst. done.
Qed.

Lemma queryDevices_ok e t u : ent_inv e ->
  exists ids e', queryDevices sdk tenant systemActor t u e = (e', Ok (Some <$> ids)) /\
    nodes e' = nodes e /\ ent_inv e' /\ NoDup ids /\
    forall id, id ∈ ids <-> exists d, ent_devs e !! id = Some d /\ dev_owned t u d.
Proof.
  intros Hi. destruct (query_nodes_ok e systemActor typeIDDeviceRegistration drFieldTenantID drFieldUserID t u Hi)
    as (ids & e1 & Hq & He1 & Hi1 & Hids).
  exists ids, e1. split_and!; [exact Hq|done|done|rewrite Hids; apply (NoDup_matching (nodes e) (matches _ _))|].
  intros id. rewrite Hids, (elem_of_matching (nodes e) (matches _ _)). setoid_rewrite ent_devs_lookup. split.
  - intros (m & Hm & (Ht & H1 & H2)%matches_pair); [|done]. destruct m as [p|p]; [done|].
    injection H1 as H1. injection H2 as H2. exists (deviceFromProto id p). split; [by exists p|by split].
  - intros (r & (p & Hp & ->) & Ht & Hu). exists (MDevice p). split; [done|].
    apply matches_pair; [done|]. simpl in Ht, Hu. subst. done.
Qed.

Lemma query_ok e q : ent_inv e ->
  exists e' items cursor unread,
    ent_QueryUserNotifications sdk tenant q e = (e', Ok (items, cursor, unread)) /\
    is_page q (ent_rows e) items cursor unread /\ nodes e' = nodes e /\ ent_inv e'.
Proof.
  intros Hi. unfold ent_QueryUserNotifications. unfold_M.
  destruct (queryUserNotifications_ok e (qTenantID q) (qUserID q) Hi) as (ids & e1 & -> & He1 & Hi1 & Hnd & Hids).
  destruct (node_loop_ok (unmarshalNotification sdk tenant systemActor) (ent_query_step q) notif_value
    ids e1 ([], 0) Hi1) as (e2 & -> & He2 & Hi2).
  { intros e0 id Hi0. unfold unmarshalNotification. unfold_M.
    destruct (getUserNotification_ok e0 id Hi0) as (e0' & -> & He0 & Hi0'). by exists e0'. }
  rewrite He1, query_steps. fold (ent_rows e). set (l := omap (fun id => ent_rows e !! id) ids).
  rewrite query_loop_spec, app_nil_r, rev_involutive.
  assert (Hin : forall id r, ent_rows e !! id = Some r -> owned (qTenantID q) (qUserID q) r -> id ∈ ids)
    by (intros id r Hr Ho; apply Hids; eauto).
  destruct (ent_rows_ok e Hi) as [Hid Hkey].
  edestruct (page_answer q (ent_rows e) l) as (items & cursor & He & Hp); [by split| |reflexivity|].
  { apply (lookup_list_perm nID); [done..|]. intros id r Hr Hs. apply (Hin id r Hr). apply Hs. }
  exists e2, items, cursor, (unread_count (qTenantID q) (qUserID q) (ent_rows e)).
  split_and!; [|done|congruence|done]. rewrite <- He. f_equal. rewrite Z.add_0_l.
  assert (Hu : Z.of_nat (length (filter (fun n => owned (qTenantID q) (qUserID q) n /\
      nStatus n <> StatusRead) l)) = unread_count (qTenantID q) (qUserID q) (ent_rows e)).
  { unfold unread_count, all_rows. f_equal. apply Permutation_length.
    apply (lookup_list_perm nID); [done..|]. intros id r Hr [Ho _]. by apply (Hin id r). }
  rewrite Hu. cbv zeta. by case_match.
Qed.

Lemma list_ok e t u : ent_inv e ->
  exists e' out, ent_ListDevices sdk tenant t u e = (e', Ok out) /\
    is_device_list t u (ent_devs e) out /\ nodes e' = nodes e /\ ent_inv e'.
Proof.
  intros Hi. unfold ent_ListDevices. unfold_M.
  destruct (queryDevices_ok e t u Hi) as (ids & e1 & -> & He1 & Hi1 & Hnd & Hids).
  destruct (node_loop_ok (unmarshalDevice sdk tenant systemActor) (ent_list_step t u) device_value
    ids e1 [] Hi1) as (e2 & -> & He2 & Hi2).
  { intros e0 id Hi0. unfold unmarshalDevice. unfold_M.
    destruct (getDevice_ok e0 id Hi0) as (e0' & -> & He0 & Hi0'). by exists e0'. }
  rewrite He1, list_steps. fold (ent_devs e). eexists e2, _. split_and!; [done| |congruence|done].
  destruct (ent_devs_ok e Hi) as [Hid Hkey]. apply list_answer; [by split|]. simpl.
  apply (lookup_list_perm dID); [done..|].
  intros id d Hd Ho. apply Hids. eauto.
Qed.

Lemma readDeviceBack_ok e id d p : ent_inv e -> nodes e !! id = Some (MDevice p) ->
  exists e', readDeviceBack sdk tenant systemActor id d e = (e', Ok (deviceFromProto id p)) /\
    nodes e' = nodes e /\ ent_inv e'.
Proof.
  intros Hi Hp. unfold readDeviceBack. unfold_M.
  destruct (getDevice_ok e id Hi) as (e' & -> & He' & Hi'). rewrite Hp. by exists e'.
Qed.

(** The round trips of UpsertDevice. *)
Lemma commitDevice_fresh e d : ent_inv e -> absent dkey_of (ent_devs e) (dkey_of d) ->
  exists id e', commitCreate sdk tenant systemActor (MDevice (deviceToProto d)) e = (e', Ok id) /\
    id <> "" /\ ent_devs e !! id = None /\
    ent_devs e' = <[id := set_dID id d]> (ent_devs e) /\ ent_rows e' = ent_rows e /\ ent_inv e'.
Proof.
  intros Hi Habs.
  edestruct (commitCreate_new e (MDevice (deviceToProto d)) Hi eq_refl)
    as (id & e1 & -> & Hne & Hnew & Hn & Hi1).
  { intros id [p|p] Hp [Ht Hkey]; [done|]. destruct Hi as [_ Hk]. rewrite (Hk _ _ Hp) in Hkey.
    apply (device_key_inj p (deviceToProto d) id "") in Hkey.
    apply (Habs id (deviceFromProto id p)); [by apply ent_devs_lookup; eauto|]. by rewrite Hkey. }
  exists id, e1. unfold ent_rows, ent_devs. rewrite Hn. split_and!; try done.
  - by apply imap_lookup_None.
  - by apply imap_insert.
  - apply imap_insert_other; [done|by apply imap_lookup_None].
Qed.

Lemma device_key_eq e id p d : ent_inv e -> nodes e !! id = Some (MDevice p) ->
  dkey_of (deviceFromProto id p) = dkey_of d ->
  node_key (MDevice p) = deviceCompositeKey (dTenantID d) (dUserID d) (dDeviceType d).
Proof.
  intros [_ Hk] Hp Hkey. rewrite (Hk _ _ Hp). by apply (device_key_inj p (deviceToProto d) id "").
Qed.

Lemma commitDevice_taken e d id d0 : ent_inv e -> ent_devs e !! id = Some d0 -> dkey_of d0 = dkey_of d ->
  exists text e', commitCreate sdk tenant systemActor (MDevice (deviceToProto d)) e =
      (e', Err (External ExtUniqueConstraint text)) /\ nodes e' = nodes e /\ ent_inv e'.
Proof.
  intros Hi (p & Hp & ->)%ent_devs_lookup Hkey. eapply commitCreate_dup; [done..|].
  split; [done|]. by eapply device_key_eq.
Qed.

Lemma findDevice_hit e d id d0 : ent_inv e -> ent_devs e !! id = Some d0 -> dkey_of d0 = dkey_of d ->
  exists e', findDeviceByKey sdk tenant systemActor
      (deviceCompositeKey (dTenantID d) (dUserID d) (dDeviceType d)) e = (e', Ok id) /\
    id <> "" /\ nodes e' = nodes e /\ ent_inv e'.
Proof.
  intros Hi (p & Hp & ->)%ent_devs_lookup Hkey.
  destruct (find_by_key_hit e deviceByCompositeKey _ id _ Hi ltac:(right; by left) Hp eq_refl
    (device_key_eq e id p d Hi Hp Hkey)) as (e' & Hf & He & Hi').
  exists e'. split_and!; [done| |done..]. eapply (ent_ids e); [apply Hi|done].
Qed.

Lemma commit_rotate_ok e d id d0 : ent_inv e -> ent_devs e !! id = Some d0 ->
  exists e', commitUpdateFields sdk tenant systemActor id
      (MDevice (mkDeviceRegistration "" "" "" (dToken d) 0 (dLastActiveMS d) "")) ["token"; "last_active_ms"] e =
      (e', None) /\
    ent_devs e' = <[id := rotate d0 d]> (ent_devs e) /\ ent_rows e' = ent_rows e /\ ent_inv e'.
Proof.
  intros Hi (p & Hp & ->)%ent_devs_lookup.
  set (patch := mkDeviceRegistration "" "" "" (dToken d) 0 (dLastActiveMS d) "").
  set (p' := mkDeviceRegistration (drTenantId p) (drUserId p) (drDeviceType p) (dToken d)
               (drCreatedAtMs p) (dLastActiveMS d) (drCompositeKey p)).
  assert (Hpt : patched ["token"; "last_active_ms"] (MDevice patch) (MDevice p) = MDevice p') by reflexivity.
  destruct (commitUpdateFields_ok e id (MDevice p) (MDevice patch) ["token"; "last_active_ms"] Hi)
    as (e3 & -> & He3 & Hi3); [done|done|refine (bool_decide_eq_false_1 _ _); vm_compute; reflexivity|done|done|].
  exists e3. rewrite Hpt in He3. unfold ent_rows, ent_devs. rewrite He3. split_and!; [done| | |done].
  - by apply imap_insert.
  - apply imap_insert_other; [done|]. by rewrite map_lookup_imap, Hp.
Qed.

Lemma readDeviceBack_dev e id d d0 : ent_inv e -> ent_devs e !! id = Some d0 ->
  exists e', readDeviceBack sdk tenant systemActor id d e = (e', Ok d0) /\ nodes e' = nodes e /\ ent_inv e'.
Proof. intros Hi (p & Hp & ->)%ent_devs_lookup. by apply readDeviceBack_ok. Qed.

Lemma upsert_new_any e d : ent_inv e -> absent dkey_of (ent_devs e) (dkey_of d) ->
  exists id e' d', ent_UpsertDevice sdk tenant d e = (e', (d', Ok (set_dID id d))) /\
    id <> "" /\ ent_devs e !! id = None /\
    ent_devs e' = <[id := set_dID id d]> (ent_devs e) /\ ent_rows e' = ent_rows e /\ ent_inv e'.
Proof.
  intros Hi Habs. unfold ent_UpsertDevice, notifActor. unfold_M.
  destruct (commitDevice_fresh e d Hi Habs) as (id & e1 & -> & Hne & Hnew & Hd & Hr & Hi1).
  destruct (readDeviceBack_dev e1 id (set_dID id d) (set_dID id d) Hi1) as (e2 & -> & [Hr2 Hd2]%same_nodes & Hi2);
    [by rewrite Hd, lookup_insert_eq|].
  exists id, e2, (set_dID id d). by rewrite Hr2, Hd2.
Qed.

Lemma upsert_hit_ok e d id d0 : ent_inv e -> ent_devs e !! id = Some d0 -> dkey_of d0 = dkey_of d ->
  exists e' d', ent_UpsertDevice sdk tenant d e = (e', (d', Ok (rotate d0 d))) /\
    ent_devs e' = <[id := rotate d0 d]> (ent_devs e) /\ ent_rows e' = ent_rows e /\ ent_inv e'.
Proof.
  intros Hi Hd Hkey. unfold ent_UpsertDevice, notifActor. unfold_M.
  destruct (commitDevice_taken e d id d0 Hi Hd Hkey) as (text & e1 & -> & [Hr1 Hd1]%same_nodes & Hi1).
  change (is_unique_constraint (External ExtUniqueConstraint text)) with true. simpl.
  destruct (findDevice_hit e1 d id d0 Hi1) as (e2 & -> & Hne & [Hr2 Hd2]%same_nodes & Hi2); [by rewrite Hd1|done|].
  rewrite (proj2 (String.eqb_neq _ _) Hne).
  destruct (commit_rotate_ok e2 d id d0 Hi2) as (e3 & -> & Hd3 & Hr3 & Hi3); [by rewrite Hd2, Hd1|].
  destruct (readDeviceBack_dev e3 id d (rotate d0 d) Hi3) as (e4 & -> & [Hr4 Hd4]%same_nodes & Hi4);
    [by rewrite Hd3, lookup_insert_eq|].
  exists e4, d. split_and!; [done|congruence|congruence|done].
Qed.

#[export] Instance entdb_laws : StoreLaws (EntdbStore sdk tenant).
Proof.
  refine {| rows := ent_rows; devs := ent_devs; store_inv := ent_inv |}.
  - exact ent_rows_ok.
  - exact ent_devs_ok.
  - intros e n Hi _. by apply create_new_any.
  - intros e n id r Hi Hr Hk. destruct (create_dup_ok e n id r Hi Hr Hk) as (e' & He & [Hr' Hd']%same_nodes & Hi').
    by exists e'.
  - intros e t u id Hi. destruct (get_ok e t u id Hi) as (e' & He & [Hr' Hd']%same_nodes & Hi'). by exists e'.
  - exact update_hit_ok.
  - intros e t id st ms Hi Hm. destruct (update_miss_ok e t id st ms Hi Hm) as (e' & He & [Hr' Hd']%same_nodes & Hi').
    by exists e'.
  - intros e q Hi. destruct (query_ok e q Hi) as (e' & i & c & u & He & Hp & [Hr' Hd']%same_nodes & Hi').
    by exists e', i, c, u.
  - intros e d Hi _. by apply upsert_new_any.
  - exact upsert_hit_ok.
  - intros e t u Hi. destruct (list_ok e t u Hi) as (e' & out & He & Hl & [Hr' Hd']%same_nodes & Hi').
    by exists e', out.
Defined.
End laws.

(** ** Properties *)

(** C4: The EntDB driver implements the store contract: over every SDK that behaves as documented
    (unique composite keys, waited commits, fresh-tenant signals), any sequence of the six store
    operations, whatever ids the notifications and devices come with, answers exactly as the
    abstract store machine may, from the rows that the stored nodes stand for; a new row or device
    gets a node id that was not in use, so that no create overwrites a row. *)
Theorem entdb_refines {E} (sdk : SDK E) tenant {HL : EntdbLaws sdk tenant} ops e :
  ent_inv sdk tenant e ->
  let '(e', outs) := run_ops (EntdbStore sdk tenant) ops e in
  length outs = length ops /\
  steps spec_step (mkAbs (ent_rows sdk tenant e) (ent_devs sdk tenant e)) (zip ops outs)
    (mkAbs (ent_rows sdk tenant e') (ent_devs sdk tenant e')) /\ ent_inv sdk tenant e'.
Proof.
  intros Hi. destruct (ops_refine (EntdbStore sdk tenant) (HS := entdb_laws sdk tenant) ops) with (w := e)
    as (e' & outs & -> & H); [|done|tauto].
  intros op w _ Hw. destruct op; cbn; eauto using create_new_any, upsert_new_any.
Qed.

(** Composite keys are collision-free: two notifications (or devices) have the same
    composite_key exactly when tenant, user and notification id (device type) all agree, whatever
    bytes these contain, so the unique index is the (tenant, user, id) uniqueness of the contract. *)
Theorem composite_key_faithful (t u n t' u' n' : string) :
  (notificationCompositeKey t u n = notificationCompositeKey t' u' n' <-> t = t' /\ u = u' /\ n = n') /\
  (deviceCompositeKey t u n = deviceCompositeKey t' u' n' <-> t = t' /\ u = u' /\ n = n').
Proof.
  unfold notificationCompositeKey, deviceCompositeKey.
  split; (split; [apply composite_inj|by intros (-> & -> & ->)]).
Qed.

(** A field update that the server reports as unsuccessful is taken for a success: when the
    commit of UpdateStatus comes back without an SDK error but with Success unset, UpdateStatus
    returns nil although nothing was written, whereas a create with the very same result is an
    error. *)
Theorem failed_update_ignored {E} (sdk : SDK E) tenant (res : option CommitResult) e id got t st ms n :
  (forall sc ops w, Commit sdk sc ops true w = (w, Ok res)) ->
  (forall res', res = Some res' -> crSuccess res' = false) ->
  (exists a, ParseActor sdk systemActor = Ok a) ->
  (forall sc w, sdk_Get sdk sc typeIDUserNotification id w = (w, Ok (Some (MNotification got)))) ->
  unTenantId got = t ->
  ent_UpdateStatus sdk tenant t id st ms e = (e, None) /\
  exists err, ent_CreateNotification sdk tenant n e = (e, (n, Err err)).
Proof.
  intros Hc Hres [a Ha] Hg <-. split.
  - unfold ent_UpdateStatus, getUserNotification, commitUpdateFields, notifActor, scope. rewrite Ha.
    unfold_M. rewrite Hg, String.eqb_refl. simpl. destruct (status_patch st ms) as [patch fields].
    by rewrite Hc.
  - unfold ent_CreateNotification, commitCreate, notifActor, scope. rewrite Ha. unfold_M. rewrite Hc.
    destruct res as [res|]; simpl; [|by eexists]. rewrite (Hres res eq_refl). simpl.
    destruct (crError res =? "")%string; simpl; by eexists.
Qed.

Lemma dec_loop_fuel f1 : forall f2 n acc, 0 <= n < 10 ^ Z.of_nat f1 -> n < 10 ^ Z.of_nat f2 ->
  dec_loop f1 n acc = dec_loop f2 n acc.
Proof.
  induction f1 as [|f1 IH]; intros [|f2] n acc H1 H2; cbn [dec_loop]; [done| | |].
  - rewrite (proj2 (Z.leb_le n 0)); [done|]. simpl in H1. lia.
  - rewrite (proj2 (Z.leb_le n 0)); [done|]. simpl in H2. lia.
  - destruct (Z.leb_spec n 0); [done|].
    rewrite !Nat2Z.inj_succ, !Z.pow_succ_r in * by lia.
    apply IH; [split; [apply Z.div_pos; lia|]|]; apply Z.div_lt_upper_bound; lia.
Qed.

(** DecString is decimal formatting: for every non-negative int64 the hand-written digit loop
    with its 20-byte buffer writes what strconv.Itoa writes, so the numeric field keys of the raw
    transport's filters are the field numbers. *)
Theorem decString_is_Itoa n : 0 <= n <= max_int64 -> decString n = FormatInt n.
Proof.
  unfold max_int64, decString, FormatInt, format_uint. intros Hn.
  rewrite (proj2 (Z.ltb_ge _ _)) by lia. destruct (n =? 0); [done|].
  apply dec_loop_fuel; [split; [lia|]|].
  - assert (2 ^ 63 < 10 ^ Z.of_nat 20) by done. lia.
  - pose proof (dec_fuel_enough n ltac:(lia)).
    assert (2 ^ Z.of_nat (dec_fuel n) <= 10 ^ Z.of_nat (dec_fuel n)) by (apply Z.pow_le_mono_l; lia). lia.
Qed.

Lemma decString_is_Itoa_witness : decString 1234567890123456789 = "1234567890123456789".
Proof.
  rewrite (decString_is_Itoa 1234567890123456789) by (vm_compute; split; discriminate).
  vm_compute. reflexivity.
Defined.

(** ** An EntDB to run against *)

(** The nodes and how many ids were drawn. *)
Record MemEnt := mkMemEnt { meNodes : gmap string NodeMsg; meDrawn : nat }.

Definition same_uniqueb (msg m : NodeMsg) : bool :=
  bool_decide (node_type m = node_type msg) && bool_decide (node_key m = node_key msg).

Definition mem_commit (sc : Scope) (ops : list PlanOp) (wait : bool)
    : M MemEnt (SdkResult (option CommitResult)) := fun e =>
  match ops with
  | [PlanCreate msg] =>
      if existsb (same_uniqueb msg) (map_to_list (meNodes e)).*2
      then (e, Err (ExtUniqueConstraint, "unique constraint violated"))
      else (mkMemEnt (<[sample_uuid (meDrawn e) := msg]> (meNodes e)) (S (meDrawn e)),
            Ok (Some (mkCommitResult true "" [sample_uuid (meDrawn e)])))
  | [PlanUpdateFields id patch fields] =>
      (mkMemEnt (alter (patched fields patch) id (meNodes e)) (meDrawn e),
       Ok (Some (mkCommitResult true "" [])))
  | _ => (e, Err (ExtPlain, "unsupported plan"))
  end.

Definition mem_sdk : SDK MemEnt := {|
  ParseActor := Ok;
  Commit := mem_commit;
  GetByKey := fun _ tok key e =>
    (e, Ok (fst <$> head (filter (fun im => node_type im.2 = TypeID tok /\ node_key im.2 = key)
                            (map_to_list (meNodes e)))));
  sdk_Get := fun _ typeID id e =>
    (e, Ok (match meNodes e !! id with
            | Some m => if decide (node_type m = typeID) then Some m else None
            | None => None
            end));
  Transport := true;
  QueryNodes := fun _ _ typeID f _ e =>
    if decide (meNodes e = ∅) then (e, Err (ExtPlain, "rpc error: tenant not opened")) else
    (e, Ok (Some <$> (filter (fun im => matches typeID f im.2) (map_to_list (meNodes e))).*1));
|}.

Definition mem_ent_inv (e : MemEnt) : Prop :=
  drawn sample_uuid (meDrawn e) (meNodes e) /\
  forall i j a b, meNodes e !! i = Some a -> meNodes e !! j = Some b -> same_unique a b -> i = j.

Lemma same_uniqueb_spec msg (ns : gmap string NodeMsg) :
  existsb (same_uniqueb msg) (map_to_list ns).*2 = true <->
  exists id m, ns !! id = Some m /\ same_unique m msg.
Proof.
  rewrite existsb_exists. unfold same_uniqueb, same_unique. split.
  - intros (m & Hm & [H1 H2]%andb_true_iff). bool_to_prop.
    apply list_elem_of_In, list_elem_of_fmap in Hm as ([id m'] & -> & Hm%elem_of_map_to_list). eauto.
  - intros (id & m & Hm & H1 & H2). exists m. split; [|by rewrite !bool_decide_eq_true_2].
    apply list_elem_of_In, list_elem_of_fmap. exists (id, m). split; [done|]. by apply elem_of_map_to_list.
Qed.

Lemma patched_keeps fields patch m : node_type patch = node_type m -> "composite_key" ∉ fields ->
  node_type (patched fields patch m) = node_type m /\ node_key (patched fields patch m) = node_key m.
Proof.
  destruct patch as [a|a], m as [b|b]; intros Ht Hf; try done; simpl;
    by rewrite (decide_False (P := "composite_key" ∈ fields)).
Qed.

Lemma alter_as_insert {A} (f : A -> A) (ns : gmap string A) id m :
  ns !! id = Some m -> alter f id ns = <[id := f m]> ns.
Proof.
  intros Hm. apply map_eq. intros i. destruct (decide (i = id)) as [->|Hne].
  - by rewrite lookup_alter_eq, lookup_insert_eq, Hm.
  - by rewrite lookup_alter_ne, lookup_insert_ne.
Qed.

(** The node that the search by key comes up with. *)
Lemma mem_find (ns : gmap string NodeMsg) tok key :
  match fst <$> head (filter (fun im : string * NodeMsg => node_type im.2 = TypeID tok /\ node_key im.2 = key) (map_to_list ns)) with
  | Some id => exists m, ns !! id = Some m /\ node_type m = TypeID tok /\ node_key m = key
  | None => forall id m, ns !! id = Some m -> ~ (node_type m = TypeID tok /\ node_key m = key)
  end.
Proof.
  destruct (head _) as [[id m]|] eqn:Hf; cbn.
  - apply head_Some_elem_of, list_elem_of_filter in Hf as [Hm Hin%elem_of_map_to_list]. by exists m.
  - apply head_None in Hf. intros id m Hm Hk. apply (not_elem_of_nil (id, m)). rewrite <- Hf.
    apply list_elem_of_filter. split; [done|by apply elem_of_map_to_list].
Qed.

Lemma mem_sdk_laws tenant : EntdbLaws mem_sdk tenant.
Proof.
  refine {| nodes := meNodes; sdk_inv := mem_ent_inv |}; simpl.
  - by eexists.
  - done.
  - intros e id m [Hd _] Hm. destruct (Hd id ltac:(eauto)) as (k & _ & ->). apply sample_uuid_nonempty.
  - intros e i j a b [_ Hu]. apply Hu.
  - intros e sc msg [Hd Hu] _ Hno. unfold mem_commit.
    destruct (existsb _ _) eqn:Hex; [apply same_uniqueb_spec in Hex as (id & m & Hm & Hs); by destruct (Hno id m Hm)|].
    assert (Hn : meNodes e !! sample_uuid (meDrawn e) = None).
    { destruct (meNodes e !! sample_uuid (meDrawn e)) as [m|] eqn:Hm; [|done].
      destruct (Hd _ ltac:(eauto)) as (k & Hk & He). apply sample_uuid_inj in He. lia. }
    eexists _, _, _. split; [reflexivity|]. simpl. split_and!; [apply sample_uuid_nonempty|done..|].
    split; simpl; [by apply drawn_insert_new|].
    intros i j a b. rewrite !lookup_insert_Some.
    intros [[<- <-]|[Hi Ha]] [[<- <-]|[Hj Hb]] Hs; [done| | |by eapply Hu].
    + destruct (Hno _ _ Hb). destruct Hs. by split.
    + by destruct (Hno _ _ Ha).
  - intros e sc msg id m [Hd Hu] _ Hm Hs. unfold mem_commit.
    rewrite (proj2 (same_uniqueb_spec msg (meNodes e))) by eauto. by eexists _, _.
  - intros e sc id m patch fields [Hd Hu] _ Hm Ht Hf. unfold mem_commit.
    eexists _, _. split; [reflexivity|]. simpl. destruct (patched_keeps fields patch m Ht Hf) as [Kt Kk].
    rewrite (alter_as_insert _ _ _ m Hm). split; [done|]. split; simpl.
    + apply drawn_insert; eauto.
    + intros i j a b. rewrite !lookup_insert_Some. unfold same_unique in *.
      intros [[<- <-]|[Hi Ha]] [[<- <-]|[Hj Hb]] Hs; [done| | |by eapply Hu];
        eapply Hu; eauto; by rewrite Kt, Kk in Hs.
  - intros e sc tok key [Hd Hu] _ _. eexists _, _. split; [reflexivity|]. split_and!; [done|done| |].
    + intros id m Hm Ht Hk. do 2 f_equal. pose proof (mem_find (meNodes e) tok key) as Hf.
      destruct (fst <$> _) as [i|]; [|by destruct (Hf id m Hm)]. destruct Hf as (m' & Hm' & Ht' & Hk').
      f_equal. eapply Hu; [exact Hm'|exact Hm|]. split; congruence.
    + intros Hno. left. do 2 f_equal. pose proof (mem_find (meNodes e) tok key) as Hf.
      destruct (fst <$> _) as [i|]; [|done]. destruct Hf as (m & Hm & Hmk). by destruct (Hno i m Hm).
  - intros e sc typeID id Hi _. by exists e.
  - intros e actor typeID f Hi. destruct (decide (meNodes e = ∅)) as [He|He]; eexists _, _;
      (split; [reflexivity|]); split_and!; try done.
    + left. split; [done|]. eexists. split; [reflexivity|]. vm_compute. reflexivity.
    + right. eexists. split; [reflexivity|]. done.
Defined.

Definition empty_ent : MemEnt := mkMemEnt ∅ 0.

Lemma empty_ent_inv : @ent_inv _ mem_sdk "main" (mem_sdk_laws "main") empty_ent.
Proof.
  split; [split|]; simpl; [apply drawn_empty| |apply map_Forall_empty].
  intros i j a b Ha. by rewrite lookup_empty in Ha.
Qed.

(** A create that comes with the id of a stored row. *)
Definition given_id : list StoreOp := sample_ops ++ [OpCreate (set_nID "uuid-0" (sample_notif "acme" "u1" "n9" 90))].

Lemma entdb_refines_witness :
  exists e' outs, run_ops (EntdbStore mem_sdk "main") given_id empty_ent = (e', outs) /\
    length outs = length given_id /\ outs !! 1%nat = Some (OutCreate "uuid-0" (Ok false)) /\
    last outs = Some (OutCreate "uuid-3" (Ok true)).
Proof.
  pose proof (@entdb_refines _ mem_sdk "main" (mem_sdk_laws "main") given_id empty_ent empty_ent_inv) as H.
  assert (Hout : (run_ops (EntdbStore mem_sdk "main") given_id empty_ent).2 !! 1%nat =
    Some (OutCreate "uuid-0" (Ok false))) by (vm_compute; reflexivity).
  assert (Hlast : last (run_ops (EntdbStore mem_sdk "main") given_id empty_ent).2 = Some (OutCreate "uuid-3" (Ok true)))
    by (vm_compute; reflexivity).
  destruct (run_ops (EntdbStore mem_sdk "main") given_id empty_ent) as [e' outs].
  exists e', outs. destruct H as [H _]. split; [reflexivity|]. split; [exact H|]. split; [exact Hout|exact Hlast].
Defined.

(** A server that answers every commit with a result that is not a success. *)
Definition stale_row : UserNotification :=
  notificationToProto (sample_notif "acme" "u1" "n1" 10).

Definition stale_sdk : SDK unit := {|
  ParseActor := Ok;
  Commit := fun _ _ _ e => (e, Ok (Some (mkCommitResult false "stale offset" [])));
  GetByKey := fun _ _ _ e => (e, Ok None);
  sdk_Get := fun _ _ _ e => (e, Ok (Some (MNotification stale_row)));
  Transport := true;
  QueryNodes := fun _ _ _ _ _ e => (e, Ok []);
|}.

Lemma failed_update_ignored_witness :
  ent_UpdateStatus stale_sdk "main" "acme" "id" StatusRead 11 tt = (tt, None).
Proof.
  apply (failed_update_ignored stale_sdk "main" (Some (mkCommitResult false "stale offset" [])) tt "id"
    stale_row "acme" StatusRead 11 (sample_notif "acme" "u1" "n1" 10)); try reflexivity.
  - intros res' [= <-]. reflexivity.
  - exists systemActor. reflexivity.
Defined.
