(* ===== verification/Postgres.v ===== *)
(** * store/postgres: the Postgres driver

    The driver over a connection pool (github.com/jackc/pgx), which is a record
    of the calls the driver makes: statements are SQL text with positional
    arguments, answers are rows of values.  A pool error keeps its kind (no rows,
    an SQLSTATE) and its text, which isInvalidUUID searches.  Contexts and the
    pool's timeouts are left out. *)

From S2P Require Import Prelude GoErrors GoStrings Model StoreSpec Duration.

(** ** config.go, errors.go *)

Record PgConfig := mkPgConfig { DSN : string; MaxConns : Z; ConnTimeout : Z; AutoMigrate : bool }.

Definition DefaultMaxConns : Z := 25.
Definition DefaultConnTimeout : Z := 5 * Second.

Definition applyDefaults (c : PgConfig) : PgConfig :=
  mkPgConfig (DSN c) (if MaxConns c =? 0 then DefaultMaxConns else MaxConns c)
    (if ConnTimeout c =? 0 then DefaultConnTimeout else ConnTimeout c) (AutoMigrate c).

Definition validate (c : PgConfig) : option error :=
  if (TrimSpace (DSN c) =? "")%string then Some (ErrorsNew "postgres: DSN is required") else None.

Definition pgErrCodeUniqueViolation : string := "23505".

Definition isUniqueViolation (err : error) : bool :=
  is_external (fun k => bool_decide (k = ExtPgError pgErrCodeUniqueViolation)) err.

(** ** isInvalidUUID *)

(** The two ASCII cases of a byte made equal. *)
Definition fold_byte (a : ascii) : Z :=
  if (65 <=? byte a) && (byte a <=? 90) then byte a + 32 else byte a.

(** The inner loop: does [substr] match at the start of [s]? *)
Fixpoint match_at (s substr : string) : bool :=
  match substr, s with
  | EmptyString, _ => true
  | String b substr, String a s => (fold_byte a =? fold_byte b) && match_at s substr
  | String _ _, EmptyString => false
  end.

(** The outer loop over the positions where [substr] still fits. *)
Fixpoint containsFold_loop (s substr : string) : bool :=
  match_at s substr ||
  match s with
  | EmptyString => false
  | String _ s' => containsFold_loop s' substr
  end.

Definition containsFold (s substr : string) : bool :=
  if (String.length substr =? 0)%nat then true
  else if (String.length s <? String.length substr)%nat then false
  else containsFold_loop s substr.

(** A pool error: its kind and its text. *)
Definition PgErr : Type := ExternalKind * string.
Definition pg_error (e : PgErr) : error := External e.1 e.2.

Definition isInvalidUUID (err : PgErr) : bool :=
  existsb (containsFold err.2)
    ["invalid input syntax for type uuid"; "cannot parse"; "invalid UUID"; "invalid byte sequence"].

(** ** SQL *)

Definition nl : string := String (chr 10) "".

Definition insertSQL : string :=
  nl +:+ "INSERT INTO notify_notifications (" +:+ nl +:+
  "    id, tenant_id, user_id, notification_id," +:+ nl +:+
  "    subject_ref, subject_type, title, body," +:+ nl +:+
  "    channel, status," +:+ nl +:+
  "    created_at_ms, delivered_at_ms, ack_at_ms, read_at_ms" +:+ nl +:+
  ") VALUES (" +:+ nl +:+
  "    $1, $2, $3, $4," +:+ nl +:+
  "    $5, $6, $7, $8," +:+ nl +:+
  "    $9, $10," +:+ nl +:+
  "    $11, $12, $13, $14" +:+ nl +:+
  ")" +:+ nl +:+
  "ON CONFLICT (tenant_id, user_id, notification_id) DO NOTHING" +:+ nl +:+
  "RETURNING id".

Definition existingSQL : string :=
  nl +:+ "SELECT id FROM notify_notifications" +:+ nl +:+
  "WHERE tenant_id = $1 AND user_id = $2 AND notification_id = $3".

Definition notification_columns : string :=
  nl +:+ "SELECT id, tenant_id, user_id, notification_id," +:+ nl +:+
  "       subject_ref, subject_type, title, body," +:+ nl +:+
  "       channel, status," +:+ nl +:+
  "       created_at_ms, delivered_at_ms, ack_at_ms, read_at_ms" +:+ nl +:+
  "FROM notify_notifications" +:+ nl +:+ "WHERE ".

Definition getSQL : string := notification_columns +:+ "tenant_id = $1 AND user_id = $2 AND id = $3".

Definition updateSQL : string :=
  nl +:+ "UPDATE notify_notifications" +:+ nl +:+
  "SET status         = $3," +:+ nl +:+
  "    delivered_at_ms = CASE WHEN $3 = 'delivered' THEN $4 ELSE delivered_at_ms END," +:+ nl +:+
  "    ack_at_ms       = CASE WHEN $3 = 'acked'     THEN $4 ELSE ack_at_ms       END," +:+ nl +:+
  "    read_at_ms      = CASE WHEN $3 = 'read'      THEN $4 ELSE read_at_ms      END" +:+ nl +:+
  "WHERE tenant_id = $1 AND id = $2".

Definition countSQL : string :=
  nl +:+ "SELECT count(*) FROM notify_notifications" +:+ nl +:+
  "WHERE tenant_id = $1 AND user_id = $2 AND status <> 'read'".

Definition upsertSQL : string :=
  nl +:+ "INSERT INTO notify_devices (" +:+ nl +:+
  "    id, tenant_id, user_id, device_type, token, created_at_ms, last_active_ms" +:+ nl +:+
  ") VALUES (" +:+ nl +:+
  "    $1, $2, $3, $4, $5, $6, $7" +:+ nl +:+
  ")" +:+ nl +:+
  "ON CONFLICT (tenant_id, user_id, device_type) DO UPDATE" +:+ nl +:+
  "SET token          = EXCLUDED.token," +:+ nl +:+
  "    last_active_ms = EXCLUDED.last_active_ms" +:+ nl +:+
  "RETURNING id, tenant_id, user_id, device_type, token, created_at_ms, last_active_ms".

Definition listSQL : string :=
  nl +:+ "SELECT id, tenant_id, user_id, device_type, token, created_at_ms, last_active_ms" +:+ nl +:+
  "FROM notify_devices" +:+ nl +:+
  "WHERE tenant_id = $1 AND user_id = $2" +:+ nl +:+
  "ORDER BY device_type ASC".

(** ** The pool *)

Inductive PgVal : Type := PText (s : string) | PInt (z : Z).

(** [Query] streams rows that may end in an error ([rows.Err]). *)
Record Pool (D : Type) := mkPool {
  QueryRow : string -> list PgVal -> M D (result PgErr (list PgVal));
  pgQuery : string -> list PgVal -> M D (result PgErr (list (list PgVal) * option PgErr));
  Exec : string -> list PgVal -> M D (result PgErr Z);
  ScanError : list PgVal -> PgErr;
}.
Arguments QueryRow {D}.
Arguments pgQuery {D}.
Arguments Exec {D}.
Arguments ScanError {D}.

Definition notification_args (n : Notification) : list PgVal :=
  [PText (nID n); PText (nTenantID n); PText (nUserID n); PText (nNotificationID n);
   PText (nSubjectRef n); PText (nSubjectType n); PText (nTitle n); PText (nBody n);
   PText (nChannel n); PText (nStatus n);
   PInt (nCreatedAtMS n); PInt (nDeliveredAtMS n); PInt (nAckAtMS n); PInt (nReadAtMS n)].

Definition device_args (d : Device) : list PgVal :=
  [PText (dID d); PText (dTenantID d); PText (dUserID d); PText (dDeviceType d); PText (dToken d);
   PInt (dCreatedAtMS d); PInt (dLastActiveMS d)].

Section driver.
Context {D : Type} (pool : Pool D) (newUUID : M D string).

Definition scanNotification (row : list PgVal) : result PgErr Notification :=
  match row with
  | [PText id; PText t; PText u; PText k; PText sr; PText st; PText title; PText body;
     PText channel; PText status; PInt c; PInt d; PInt a; PInt r] =>
      Ok (mkNotification id k t u sr st title body channel status c d a r)
  | _ => Err (ScanError pool row)
  end.

Definition scanDevice (row : list PgVal) : result PgErr Device :=
  match row with
  | [PText id; PText t; PText u; PText ty; PText tok; PInt c; PInt l] => Ok (mkDevice id t u ty tok c l)
  | _ => Err (ScanError pool row)
  end.

Definition scan_text (row : list PgVal) : result PgErr string :=
  match row with [PText s] => Ok s | _ => Err (ScanError pool row) end.
Definition scan_int (row : list PgVal) : result PgErr Z :=
  match row with [PInt z] => Ok z | _ => Err (ScanError pool row) end.

(** [QueryRow(...).Scan(...)] *)
Definition query_scan {A} (scan : list PgVal -> result PgErr A) (sql : string) (args : list PgVal)
    : M D (result PgErr A) :=
  r ← QueryRow pool sql args;
  mret (match r with Err err => Err err | Ok row => scan row end).

(** The loop over [rows.Next()]. *)
Fixpoint scan_rows {A} (scan : list PgVal -> result PgErr A) (rows : list (list PgVal)) (acc : list A)
    : result PgErr (list A) :=
  match rows with
  | [] => Ok acc
  | row :: rows => match scan row with Err err => Err err | Ok a => scan_rows scan rows (acc ++ [a]) end
  end.

Definition assign_id (id : string) : M D string :=
  if (id =? "")%string then newUUID else mret id.

Definition pg_CreateNotification (n : Notification) : M D (Notification * result error bool) :=
  id ← assign_id (nID n);
  let n := set_nID id n in
  r ← query_scan scan_text insertSQL (notification_args n);
  match r with
  | Ok insertedID => mret (set_nID insertedID n, Ok true)
  | Err err =>
      if bool_decide (err.1 = ExtNoRows) then
        e ← query_scan scan_text existingSQL
              [PText (nTenantID n); PText (nUserID n); PText (nNotificationID n)];
        mret (match e with
              | Err err => (n, Err (ErrorfW "postgres: select existing notification: %w" [] (pg_error err)))
              | Ok existingID => (set_nID existingID n, Ok false)
              end)
      else if isUniqueViolation (pg_error err)
      then mret (n, Err (ErrorfW "postgres: insert notification: %w" [] ErrConflict))
      else mret (n, Err (ErrorfW "postgres: insert notification: %w" [] (pg_error err)))
  end.

Definition pg_GetNotification (tenantID userID id : string) : M D (result error Notification) :=
  r ← query_scan scanNotification getSQL [PText tenantID; PText userID; PText id];
  mret (match r with
        | Ok n => Ok n
        | Err err =>
            if bool_decide (err.1 = ExtNoRows) then Err ErrNotFound
            else if isInvalidUUID err then Err ErrNotFound
            else Err (ErrorfW "postgres: select notification: %w" [] (pg_error err))
        end).

Definition pg_UpdateStatus (tenantID id : string) (status : DeliveryStatus) (atMS : Z)
    : M D (option error) :=
  r ← Exec pool updateSQL [PText tenantID; PText id; PText status; PInt atMS];
  mret (match r with
        | Err err =>
            if isInvalidUUID err then Some ErrNotFound
            else Some (ErrorfW "postgres: update status: %w" [] (pg_error err))
        | Ok affected => if affected =? 0 then Some ErrNotFound else None
        end).

(** The WHERE clause and the arguments of a page, before the limit. *)
Definition page_where (q : Query) : string * list PgVal :=
  let args := [PText (qTenantID q); PText (qUserID q)] in
  let clause := "tenant_id = $1 AND user_id = $2" in
  let '(clause, args) :=
    match qCursorMS q with
    | Some c =>
        let args := args ++ [PInt c] in
        (clause +:+ " AND created_at_ms < $" +:+ FormatInt (Z.of_nat (length args)), args)
    | None => (clause, args)
    end in
  (if qUnreadOnly q then clause +:+ " AND status <> 'read'" else clause, args).

Definition page_query (q : Query) (limit : Z) : string * list PgVal :=
  let '(clause, args) := page_where q in
  let args := args ++ [PInt (limit + 1)] in
  (notification_columns +:+ clause +:+ nl +:+
   "ORDER BY created_at_ms DESC, id DESC" +:+ nl +:+
   "LIMIT $" +:+ FormatInt (Z.of_nat (length args)), args).

Definition pg_QueryUserNotifications (q : Query) : M D (result error (list Notification * string * Z)) :=
  let limit := ClampLimit (qLimit q) in
  let '(sel, args) := page_query q limit in
  r ← pgQuery pool sel args;
  match r with
  | Err err => mret (Err (ErrorfW "postgres: query notifications: %w" [] (pg_error err)))
  | Ok (rows, rows_err) =>
      match scan_rows scanNotification rows [] with
      | Err err => mret (Err (ErrorfW "postgres: scan notification: %w" [] (pg_error err)))
      | Ok items =>
          match rows_err with
          | Some err => mret (Err (ErrorfW "postgres: iterate notifications: %w" [] (pg_error err)))
          | None =>
              let '(items, nextCursor) :=
                if limit <? Z.of_nat (length items) then
                  let page := take (Z.to_nat limit) items in
                  (page, match last page with Some n => FormatInt (nCreatedAtMS n) | None => "" end)
                else (items, "") in
              c ← query_scan scan_int countSQL [PText (qTenantID q); PText (qUserID q)];
              mret (match c with
                    | Err err => Err (ErrorfW "postgres: count unread: %w" [] (pg_error err))
                    | Ok unread => Ok (items, nextCursor, unread)
                    end)
          end
      end
  end.

Definition pg_UpsertDevice (d : Device) : M D (Device * result error Device) :=
  id ← assign_id (dID d);
  let d := set_dID id d in
  r ← query_scan scanDevice upsertSQL (device_args d);
  mret (d, match r with
           | Err err => Err (ErrorfW "postgres: upsert device: %w" [] (pg_error err))
           | Ok out => Ok out
           end).

Definition pg_ListDevices (tenantID userID : string) : M D (result error (list Device)) :=
  r ← pgQuery pool listSQL [PText tenantID; PText userID];
  mret (match r with
        | Err err => Err (ErrorfW "postgres: list devices: %w" [] (pg_error err))
        | Ok (rows, rows_err) =>
            match scan_rows scanDevice rows [] with
            | Err err => Err (ErrorfW "postgres: scan device: %w" [] (pg_error err))
            | Ok out =>
                match rows_err with
                | Some err => Err (ErrorfW "postgres: iterate devices: %w" [] (pg_error err))
                | None => Ok out
                end
            end
        end).

Definition PostgresStore : Store D :=
  mkStore pg_CreateNotification pg_GetNotification pg_UpdateStatus pg_QueryUserNotifications
    pg_UpsertDevice pg_ListDevices.

Definition TruncateAll : M D (option error) :=
  r ← Exec pool "TRUNCATE notify_notifications, notify_devices RESTART IDENTITY" [];
  mret (match r with
        | Err err => Some (ErrorfW "postgres: truncate: %w" [] (pg_error err))
        | Ok _ => None
        end).

End driver.

(** ** migrations.go *)

Record Migration := mkMigration { version : Z; mig_name : string; mig_sql : string }.

Definition init_sql : string := "
CREATE TABLE IF NOT EXISTS notify_notifications (
    id              uuid PRIMARY KEY,
    tenant_id       text   NOT NULL,
    user_id         text   NOT NULL,
    notification_id text   NOT NULL,
    subject_ref     text   NOT NULL DEFAULT '',
    subject_type    text   NOT NULL DEFAULT '',
    title           text   NOT NULL DEFAULT '',
    body            text   NOT NULL DEFAULT '',
    channel         text   NOT NULL DEFAULT '',
    status          text   NOT NULL,
    created_at_ms   bigint NOT NULL,
    delivered_at_ms bigint NOT NULL DEFAULT 0,
    ack_at_ms       bigint NOT NULL DEFAULT 0,
    read_at_ms      bigint NOT NULL DEFAULT 0,
    CONSTRAINT notify_notifications_tenant_user_nid_uq
        UNIQUE (tenant_id, user_id, notification_id)
);

CREATE INDEX IF NOT EXISTS notify_notifications_user_created
    ON notify_notifications (tenant_id, user_id, created_at_ms DESC, id DESC);

CREATE INDEX IF NOT EXISTS notify_notifications_user_unread
    ON notify_notifications (tenant_id, user_id)
    WHERE status <> 'read';

CREATE TABLE IF NOT EXISTS notify_devices (
    id             uuid PRIMARY KEY,
    tenant_id      text   NOT NULL,
    user_id        text   NOT NULL,
    device_type    text   NOT NULL,
    token          text   NOT NULL DEFAULT '',
    created_at_ms  bigint NOT NULL DEFAULT 0,
    last_active_ms bigint NOT NULL DEFAULT 0,
    CONSTRAINT notify_devices_tenant_user_type_uq
        UNIQUE (tenant_id, user_id, device_type)
);

CREATE INDEX IF NOT EXISTS notify_devices_user
    ON notify_devices (tenant_id, user_id, device_type);
".

Definition migrations : list Migration := [mkMigration 1 "init" init_sql].

Definition migrationAdvisoryLockKey : Z := 31084793213384960.
Definition lockSQL : string := "SELECT pg_advisory_lock($1)".
Definition unlockSQL : string := "SELECT pg_advisory_unlock($1)".
Definition ensureSQL : string := "
CREATE TABLE IF NOT EXISTS notify_schema_migrations (
    version    integer PRIMARY KEY,
    name       text    NOT NULL,
    applied_at timestamptz NOT NULL DEFAULT now()
)".
Definition versionsSQL : string := "SELECT version FROM notify_schema_migrations".
Definition recordSQL : string := "INSERT INTO notify_schema_migrations (version, name) VALUES ($1, $2)".

(** The life cycle of the pool; [conn] runs statements on an acquired connection. *)
Record PoolCycle (D : Type) := mkPoolCycle {
  ParseConfig : string -> option PgErr;
  NewWithConfig : PgConfig -> M D (option PgErr);
  Ping : M D (option PgErr);
  PoolClose : M D unit;
  Acquire : M D (option PgErr);
  Release : M D unit;
  conn : Pool D;
}.
Arguments ParseConfig {D}.
Arguments NewWithConfig {D}.
Arguments Ping {D}.
Arguments PoolClose {D}.
Arguments Acquire {D}.
Arguments Release {D}.
Arguments conn {D}.

Section migrate.
Context {D : Type} (cycle : PoolCycle D).

(** The loop over the bundle. *)
Fixpoint migrate_loop (ms : list Migration) (applied : gset Z) : M D (option error) :=
  match ms with
  | [] => mret None
  | m :: ms =>
      if decide (version m ∈ applied) then migrate_loop ms applied else
      r ← Exec (conn cycle) (mig_sql m) [];
      match r with
      | Err err => mret (Some (ErrorfW "postgres: apply migration %d (%s): %w"
                                 [FInt (version m); FStr (mig_name m)] (pg_error err)))
      | Ok _ =>
          r ← Exec (conn cycle) recordSQL [PInt (version m); PText (mig_name m)];
          match r with
          | Err err => mret (Some (ErrorfW "postgres: record migration %d: %w" [FInt (version m)] (pg_error err)))
          | Ok _ => migrate_loop ms applied
          end
      end
  end.

(** Everything under the advisory lock. *)
Definition migrate_locked (ms : list Migration) : M D (option error) :=
  r ← Exec (conn cycle) ensureSQL [];
  match r with
  | Err err => mret (Some (ErrorfW "postgres: ensure schema_migrations: %w" [] (pg_error err)))
  | Ok _ =>
      r ← pgQuery (conn cycle) versionsSQL [];
      match r with
      | Err err => mret (Some (ErrorfW "postgres: read applied migrations: %w" [] (pg_error err)))
      | Ok (rows, rows_err) =>
          match scan_rows (scan_int (conn cycle)) rows [] with
          | Err err => mret (Some (ErrorfW "postgres: scan applied migration: %w" [] (pg_error err)))
          | Ok vs =>
              match rows_err with
              | Some err => mret (Some (ErrorfW "postgres: iterate applied migrations: %w" [] (pg_error err)))
              | None => migrate_loop ms (list_to_set vs)
              end
          end
      end
  end.

(** The deferred calls run last in, first out: unlock, then release. *)
Definition applyMigrations (ms : list Migration) : M D (option error) :=
  a ← Acquire cycle;
  match a with
  | Some err => mret (Some (ErrorfW "postgres: acquire migration conn: %w" [] (pg_error err)))
  | None =>
      r ← Exec (conn cycle) lockSQL [PInt migrationAdvisoryLockKey];
      match r with
      | Err err =>
          _ ← Release cycle;
          mret (Some (ErrorfW "postgres: acquire migration lock: %w" [] (pg_error err)))
      | Ok _ =>
          e ← migrate_locked ms;
          _ ← Exec (conn cycle) unlockSQL [PInt migrationAdvisoryLockKey];
          _ ← Release cycle;
          mret e
      end
  end.

(** The pool is closed on every failure after it was opened. *)
Definition pg_New (cfg : PgConfig) : M D (option error) :=
  let cfg := applyDefaults cfg in
  match validate cfg with
  | Some err => mret (Some err)
  | None =>
      match ParseConfig cycle (DSN cfg) with
      | Some err => mret (Some (ErrorfW "postgres: parse DSN: %w" [] (pg_error err)))
      | None =>
          o ← NewWithConfig cycle cfg;
          match o with
          | Some err => mret (Some (ErrorfW "postgres: open pool: %w" [] (pg_error err)))
          | None =>
              p ← Ping cycle;
              match p with
              | Some err => _ ← PoolClose cycle; mret (Some (ErrorfW "postgres: ping: %w" [] (pg_error err)))
              | None =>
                  if AutoMigrate cfg then
                    e ← applyMigrations migrations;
                    match e with
                    | Some err => _ ← PoolClose cycle; mret (Some err)
                    | None => mret None
                    end
                  else mret None
              end
          end
      end
  end.
End migrate.
