(* ===== verification/PostgresProps.v ===== *)
(** * The Postgres driver against the store contract

    [PgLaws] states what Postgres documents for the statements of the driver: the
    unique constraints with ON CONFLICT, the uuid type's syntax, ORDER BY and
    LIMIT, and which texts a text column can hold.  Over such a database every
    history of calls refines the abstract store machine, given that texts are
    storable, ids are canonical (or no uuids at all) and device types collate
    bytewise; what happens to an id that is a uuid in another spelling is a
    theorem of its own. *)

From S2P Require Import Prelude GoErrors GoStrings Model StoreSpec StoreOps Memory MemoryProps.
From S2P Require Import Postgres.

(** ** containsFold *)

Definition folded (s : string) : list Z := fold_byte <$> s2l s.

Lemma match_at_spec substr : forall s,
  match_at s substr = true <-> exists mid post, s = mid +:+ post /\ folded mid = folded substr.
Proof.
  unfold folded. induction substr as [|b substr IH]; intros s.
  - split; [intros _; exists "", s; done|]. destruct s; done.
  - destruct s as [|a s]; simpl.
    + split; [done|]. intros ([|x mid] & post & He & Hf); done.
    + rewrite andb_true_iff, Z.eqb_eq, IH. split.
      * intros (Hab & mid & post & -> & Hf). exists (String a mid), post. rewrite append_cons.
        split; [done|].
        change (fold_byte a :: (fold_byte <$> s2l mid) = fold_byte b :: (fold_byte <$> s2l substr)).
        by rewrite Hab, Hf.
      * intros ([|x mid] & post & He & Hf); [done|]. rewrite append_cons in He. injection He as -> ->.
        simpl in Hf. injection Hf as Hx Hf. split; [done|]. by exists mid, post.
Qed.

Lemma containsFold_loop_spec substr s :
  containsFold_loop s substr = true <->
  exists pre mid post, s = pre +:+ mid +:+ post /\ folded mid = folded substr.
Proof.
  induction s as [|a s IH]; cbn [containsFold_loop]; rewrite orb_true_iff, match_at_spec.
  - split.
    + intros [(mid & post & He & Hf)|]; [by exists "", mid, post|done].
    + intros ([|x pre] & mid & post & He & Hf); [left; by exists mid, post|done].
  - rewrite IH. split.
    + intros [(mid & post & He & Hf)|(pre & mid & post & -> & Hf)]; [by exists "", mid, post|].
      by exists (String a pre), mid, post.
    + intros ([|x pre] & mid & post & He & Hf); [left; by exists mid, post|right].
      rewrite append_cons in He. injection He as -> ->. by exists pre, mid, post.
Qed.

Lemma length_folded s : length (folded s) = String.length s.
Proof. unfold folded. rewrite length_fmap. induction s; simpl; congruence. Qed.

(** ContainsFold is substring search up to ASCII case: it answers true exactly when some part
    of the text equals the needle after both are folded to lower case, so no error text that
    names an invalid uuid is missed because of its case. *)
Theorem containsFold_spec s substr :
  containsFold s substr = true <->
  exists pre mid post, s = pre +:+ mid +:+ post /\ folded mid = folded substr.
Proof.
  unfold containsFold. destruct (Nat.eqb_spec (String.length substr) 0) as [H0|H0].
  - split; [intros _|done]. exists "", "", s. destruct substr; done.
  - destruct (Nat.ltb_spec (String.length s) (String.length substr)) as [Hlt|Hge];
      [|apply containsFold_loop_spec].
    split; [done|]. intros (pre & mid & post & -> & Hf). exfalso.
    assert (String.length mid = String.length substr) by (by rewrite <- !length_folded, Hf).
    rewrite !length_append in Hlt. lia.
Qed.

(** ** What Postgres promises *)

(** The page statements, as Postgres is sent them. *)
Definition page_sql (cursor unreadOnly : bool) : string :=
  notification_columns +:+
  (match cursor, unreadOnly with
   | false, false => "tenant_id = $1 AND user_id = $2
ORDER BY created_at_ms DESC, id DESC
LIMIT $3"
   | false, true => "tenant_id = $1 AND user_id = $2 AND status <> 'read'
ORDER BY created_at_ms DESC, id DESC
LIMIT $3"
   | true, false => "tenant_id = $1 AND user_id = $2 AND created_at_ms < $3
ORDER BY created_at_ms DESC, id DESC
LIMIT $4"
   | true, true => "tenant_id = $1 AND user_id = $2 AND created_at_ms < $3 AND status <> 'read'
ORDER BY created_at_ms DESC, id DESC
LIMIT $4"
   end).

Definition page_args (q : Query) (limit : Z) : list PgVal :=
  [PText (qTenantID q); PText (qUserID q)] ++
  match qCursorMS q with Some c => [PInt c] | None => [] end ++ [PInt limit].

Class PgLaws {D : Type} (pool : Pool D) (newUUID : M D string) := {
  nrows : D -> gmap string Notification;   (* notify_notifications by id *)
  drows : D -> gmap string Device;         (* notify_devices by id *)
  pg_inv : D -> Prop;
  storable : string -> Prop;               (* valid UTF-8 without NUL *)
  uuid_of : string -> option string;       (* the canonical spelling of a uuid *)
  collate : string -> string -> Prop;      (* the order of text columns *)
  issued : D -> string -> Prop;            (* the uuids the generator has returned *)

  pg_rows_ok : forall w, pg_inv w -> rows_ok nID key_of (nrows w);
  pg_devs_ok : forall w, pg_inv w -> rows_ok dID dkey_of (drows w);
  pg_ids : forall w id n, pg_inv w -> nrows w !! id = Some n -> uuid_of id = Some id;
  pg_new_uuid : forall w, pg_inv w -> exists w' id, newUUID w = (w', id) /\
    id <> "" /\ issued w' id /\ nrows w' !! id = None /\ drows w' !! id = None /\
    nrows w' = nrows w /\ drows w' = drows w /\ pg_inv w';

  pg_insert_new : forall w n, pg_inv w -> issued w (nID n) -> nrows w !! nID n = None ->
    Forall storable (notification_texts n) -> absent key_of (nrows w) (key_of n) ->
    exists w', QueryRow pool insertSQL (notification_args n) w = (w', Ok [PText (nID n)]) /\
      nrows w' = <[nID n := n]> (nrows w) /\ drows w' = drows w /\ pg_inv w';
  pg_insert_dup : forall w n id r, pg_inv w -> issued w (nID n) ->
    Forall storable (notification_texts n) -> nrows w !! id = Some r -> key_of r = key_of n ->
    exists w' text, QueryRow pool insertSQL (notification_args n) w = (w', Err (ExtNoRows, text)) /\
      nrows w' = nrows w /\ drows w' = drows w /\ pg_inv w';
  pg_existing : forall w id r, pg_inv w -> nrows w !! id = Some r ->
    exists w', QueryRow pool existingSQL [PText (nTenantID r); PText (nUserID r); PText (nNotificationID r)] w =
        (w', Ok [PText id]) /\
      nrows w' = nrows w /\ drows w' = drows w /\ pg_inv w';

  pg_get : forall w t u id, pg_inv w -> storable t -> storable u ->
    exists w' r, QueryRow pool getSQL [PText t; PText u; PText id] w = (w', r) /\
      nrows w' = nrows w /\ drows w' = drows w /\ pg_inv w' /\
      match uuid_of id with
      | None => exists err, r = Err err /\ isInvalidUUID err = true
      | Some c =>
          match nrows w !! c with
          | Some n => if decide (owned t u n) then r = Ok (notification_args n)
                      else exists text, r = Err (ExtNoRows, text)
          | None => exists text, r = Err (ExtNoRows, text)
          end
      end;
  pg_update : forall w t id st ms, pg_inv w -> storable t -> storable st ->
    exists w' r, Exec pool updateSQL [PText t; PText id; PText st; PInt ms] w = (w', r) /\
      drows w' = drows w /\ pg_inv w' /\
      match uuid_of id with
      | None => nrows w' = nrows w /\ exists err, r = Err err /\ isInvalidUUID err = true
      | Some c =>
          match nrows w !! c with
          | Some n => if decide (nTenantID n = t)
                      then r = Ok 1 /\ nrows w' = <[c := stamped st ms n]> (nrows w)
                      else r = Ok 0 /\ nrows w' = nrows w
          | None => r = Ok 0 /\ nrows w' = nrows w
          end
      end;
  pg_page : forall w q limit, pg_inv w -> storable (qTenantID q) -> storable (qUserID q) -> 0 <= limit ->
    exists w' sorted,
      pgQuery pool (page_sql (bool_decide (is_Some (qCursorMS q))) (qUnreadOnly q)) (page_args q limit) w =
        (w', Ok (notification_args <$> take (Z.to_nat limit) sorted, None)) /\
      selection q (nrows w) sorted /\ nrows w' = nrows w /\ drows w' = drows w /\ pg_inv w';
  pg_count : forall w t u, pg_inv w -> storable t -> storable u ->
    exists w', QueryRow pool countSQL [PText t; PText u] w = (w', Ok [PInt (unread_count t u (nrows w))]) /\
      nrows w' = nrows w /\ drows w' = drows w /\ pg_inv w';

  pg_upsert_new : forall w d, pg_inv w -> issued w (dID d) -> drows w !! dID d = None ->
    Forall storable (device_texts d) -> absent dkey_of (drows w) (dkey_of d) ->
    exists w', QueryRow pool upsertSQL (device_args d) w = (w', Ok (device_args d)) /\
      drows w' = <[dID d := d]> (drows w) /\ nrows w' = nrows w /\ pg_inv w';
  pg_upsert_hit : forall w d id d0, pg_inv w -> issued w (dID d) ->
    Forall storable (device_texts d) -> drows w !! id = Some d0 -> dkey_of d0 = dkey_of d ->
    exists w', QueryRow pool upsertSQL (device_args d) w = (w', Ok (device_args (rotate d0 d))) /\
      drows w' = <[id := rotate d0 d]> (drows w) /\ nrows w' = nrows w /\ pg_inv w';
  pg_list : forall w t u, pg_inv w -> storable t -> storable u ->
    exists w' out, pgQuery pool listSQL [PText t; PText u] w = (w', Ok (device_args <$> out, None)) /\
      out ≡ₚ filter (dev_owned t u) (all_devices (drows w)) /\
      StronglySorted (fun a b => collate (dDeviceType a) (dDeviceType b)) out /\
      nrows w' = nrows w /\ drows w' = drows w /\ pg_inv w';
}.

(** ** The operations *)

Section ops.
Context {D : Type} (pool : Pool D) (newUUID : M D string) {HP : PgLaws pool newUUID}.

Lemma scan_notification n : scanNotification pool (notification_args n) = Ok n.
Proof. by destruct n. Qed.
Lemma scan_device d : scanDevice pool (device_args d) = Ok d.
Proof. by destruct d. Qed.

Lemma scan_rows_ok {A} (scan : list PgVal -> result PgErr A) (args : A -> list PgVal) l :
  (forall a, scan (args a) = Ok a) -> forall acc, scan_rows scan (args <$> l) acc = Ok (acc ++ l).
Proof.
  intros Hs. induction l as [|a l IH]; intros acc; [by rewrite app_nil_r|].
  rewrite fmap_cons. cbn [scan_rows]. by rewrite Hs, IH, <- app_assoc.
Qed.

(** The page statement the code assembles is the one Postgres is promised for. *)
Lemma page_query_sql q limit :
  page_query q limit = (page_sql (bool_decide (is_Some (qCursorMS q))) (qUnreadOnly q), page_args q (limit + 1)).
Proof.
  destruct q as [t u [c|] lim []]; unfold page_query, page_where, page_args, page_sql; simpl; f_equal;
    rewrite !append_assoc; reflexivity.
Qed.

(** The answers of a call that may read ids in any canonical or invalid form. *)
Definition canonical_id (id : string) : Prop := uuid_of id = Some id \/ uuid_of id = None.

Definition pg_ready : StoreOp -> Prop := op_fits storable canonical_id.

Definition pg_abs (w : D) : AbsStore := mkAbs (nrows w) (drows w).

(** What refining one call means. *)
Definition refines (w : D) (op : StoreOp) : Prop :=
  exists w' out, run_op (PostgresStore pool newUUID) op w = (w', out) /\
    spec_step (pg_abs w) (op, out) (pg_abs w') /\ pg_inv w'.

Lemma pg_create_refines w n : pg_inv w -> pg_ready (OpCreate n) -> refines w (OpCreate n).
Proof.
  intros Hi [He Ht]. unfold refines. cbn [run_op]. simpl. unfold pg_CreateNotification, assign_id, query_scan.
  rewrite He. simpl. unfold_M.
  destruct (pg_new_uuid w Hi) as (w1 & id & -> & Hne & Hu & Hn & Hd & Hr1 & Hd1 & Hi1).
  destruct (absent_dec key_of (nrows w) (key_of n)) as [Ha|(id0 & r & Hr & Hk)].
  - destruct (pg_insert_new w1 (set_nID id n) Hi1 Hu) as (w2 & -> & Hr2 & Hd2 & Hi2);
      [done|done|by rewrite Hr1|].
    eexists _, _. split; [reflexivity|]. split; [|done]. simpl. unfold pg_abs. rewrite Hr2, Hd2, Hr1, Hd1. simpl.
    apply (spec_create_new (mkAbs (nrows w) (drows w))); simpl; [done| |done]. by rewrite <- Hr1.
  - destruct (pg_insert_dup w1 (set_nID id n) id0 r Hi1 Hu) as (w2 & text & -> & Hr2 & Hd2 & Hi2);
      [done|by rewrite Hr1|done|]. simpl.
    destruct (pg_existing w2 id0 r Hi2) as (w3 & Hq & Hr3 & Hd3 & Hi3); [by rewrite Hr2, Hr1|].
    injection Hk as Hk1 Hk2 Hk3. rewrite Hk1, Hk2, Hk3 in Hq. rewrite Hq.
    eexists _, _. split; [reflexivity|]. split; [|done]. simpl. unfold pg_abs.
    rewrite Hr3, Hd3, Hr2, Hd2, Hr1, Hd1.
    eapply (spec_create_dup (mkAbs (nrows w) (drows w))); [done|]. unfold key_of. congruence.
Qed.

(** What GetNotification answers for any id. *)
Lemma pg_get_spec w t u id : pg_inv w -> storable t -> storable u ->
  exists w', pg_GetNotification pool t u id w =
      (w', match uuid_of id ≫= (fun c => nrows w !! c) with
           | Some n => if decide (owned t u n) then Ok n else Err ErrNotFound
           | None => Err ErrNotFound
           end) /\ nrows w' = nrows w /\ drows w' = drows w /\ pg_inv w'.
Proof.
  intros Hi Ht Hu. unfold pg_GetNotification, query_scan. unfold_M.
  destruct (pg_get w t u id Hi Ht Hu) as (w' & r & -> & Hr' & Hd' & Hi' & Hres).
  exists w'. split; [|done]. destruct (uuid_of id) as [c|]; simpl.
  - destruct (nrows w !! c) as [n|]; [case_decide|].
    + subst r. by rewrite scan_notification.
    + destruct Hres as [text ->]. done.
    + destruct Hres as [text ->]. done.
  - destruct Hres as (err & -> & He). destruct (bool_decide _); [done|]. by rewrite He.
Qed.

(** What UpdateStatus does for any id. *)
Lemma pg_update_spec w t id st ms : pg_inv w -> storable t -> storable st ->
  exists w' e, pg_UpdateStatus pool t id st ms w = (w', e) /\ drows w' = drows w /\ pg_inv w' /\
    match uuid_of id with
    | Some c =>
        match nrows w !! c with
        | Some n => if decide (nTenantID n = t) then e = None /\ nrows w' = <[c := stamped st ms n]> (nrows w)
                    else e = Some ErrNotFound /\ nrows w' = nrows w
        | None => e = Some ErrNotFound /\ nrows w' = nrows w
        end
    | None => e = Some ErrNotFound /\ nrows w' = nrows w
    end.
Proof.
  intros Hi Ht Hst. unfold pg_UpdateStatus. unfold_M.
  destruct (pg_update w t id st ms Hi Ht Hst) as (w' & r & -> & Hd' & Hi' & Hres).
  eexists w', _. split; [reflexivity|]. split_and!; [done..|].
  destruct (uuid_of id) as [c|].
  - destruct (nrows w !! c) as [n|]; [case_decide|]; destruct Hres as [-> Hres]; done.
  - destruct Hres as [Hres (err & -> & He)]. by rewrite He.
Qed.

Lemma canonical_lookup w id : pg_inv w -> canonical_id id ->
  (uuid_of id ≫= fun c => nrows w !! c) = nrows w !! id.
Proof.
  intros Hi [Hc|Hc]; rewrite Hc; simpl; [done|].
  destruct (nrows w !! id) as [n|] eqn:Hn; [|done]. apply (pg_ids w id n Hi) in Hn. congruence.
Qed.

Lemma pg_abs_eq w w' : nrows w' = nrows w -> drows w' = drows w -> pg_abs w' = pg_abs w.
Proof. unfold pg_abs. congruence. Qed.

Lemma pg_get_refines w t u id : pg_inv w -> pg_ready (OpGet t u id) -> refines w (OpGet t u id).
Proof.
  intros Hi (Ht & Hu & Hc). unfold refines. cbn [run_op]. unfold_M. simpl.
  destruct (pg_get_spec w t u id Hi Ht Hu) as (w' & -> & Hr' & Hd' & Hi').
  rewrite canonical_lookup by done. eexists _, _. split; [reflexivity|].
  rewrite (pg_abs_eq w w') by done. split; [|done].
  destruct (nrows w !! id) as [n|] eqn:Hn; [case_decide|].
  - by apply (spec_get_hit (pg_abs w)).
  - apply (spec_get_miss (pg_abs w)). simpl. intros r Hr. congruence.
  - apply (spec_get_miss (pg_abs w)). simpl. intros r Hr. congruence.
Qed.

Lemma pg_update_refines w t id st ms : pg_inv w -> pg_ready (OpUpdate t id st ms) ->
  refines w (OpUpdate t id st ms).
Proof.
  intros Hi (Ht & Hst & Hc). unfold refines. cbn [run_op]. unfold_M. simpl.
  destruct (pg_update_spec w t id st ms Hi Ht Hst) as (w' & e & -> & Hd' & Hi' & Hres).
  eexists _, _. split; [reflexivity|]. split; [|done].
  assert (Hmiss : (forall r, nrows w !! id = Some r -> nTenantID r <> t) -> e = Some ErrNotFound ->
    nrows w' = nrows w -> spec_step (pg_abs w) (OpUpdate t id st ms, OutUpdate e) (pg_abs w')).
  { intros Hm -> Hr'. rewrite (pg_abs_eq w w') by done. by apply (spec_update_miss (pg_abs w)). }
  destruct Hc as [Hc|Hc]; rewrite Hc in Hres.
  - destruct (nrows w !! id) as [n|] eqn:Hn; [case_decide as Htn|]; destruct Hres as [-> Hr'].
    + unfold pg_abs. rewrite Hr', Hd'. by apply (spec_update_hit (mkAbs (nrows w) (drows w))).
    + apply Hmiss; [|done..]. intros r Hr. congruence.
    + apply Hmiss; [|done..]. intros r Hr. congruence.
  - destruct Hres as [-> Hr']. apply Hmiss; [|done..]. intros r Hr. apply (pg_ids w id r Hi) in Hr. congruence.
Qed.

(** The first statement of a query. *)
Lemma pg_page_ok w q : pg_inv w -> pg_ready (OpQuery q) ->
  let limit := ClampLimit (qLimit q) in
  let '(sel, args) := page_query q limit in
  exists w' rows page items cursor, pgQuery pool sel args w = (w', Ok (rows, None)) /\
    scan_rows (scanNotification pool) rows [] = Ok page /\
    (if limit <? Z.of_nat (length page) then
       (take (Z.to_nat limit) page,
        match last (take (Z.to_nat limit) page) with Some n => FormatInt (nCreatedAtMS n) | None => "" end)
     else (page, "")) = (items, cursor) /\
    is_page q (nrows w) items cursor (unread_count (qTenantID q) (qUserID q) (nrows w)) /\
    nrows w' = nrows w /\ drows w' = drows w /\ pg_inv w'.
Proof.
  intros Hi [Ht Hu]. cbv zeta. rewrite page_query_sql.
  pose proof (ClampLimit_range (qLimit q)) as Hl. set (limit := ClampLimit (qLimit q)) in *.
  destruct (pg_page w q (limit + 1) Hi Ht Hu) as (w1 & sorted & -> & Hsel & Hr1 & Hd1 & Hi1); [lia|].
  exists w1, (notification_args <$> take (Z.to_nat (limit + 1)) sorted), (take (Z.to_nat (limit + 1)) sorted),
    (take (Z.to_nat limit) sorted), (page_cursor limit sorted). split_and!; [done| | |by exists sorted|done..].
  - rewrite (scan_rows_ok _ notification_args) by apply scan_notification. by rewrite app_nil_l.
  - assert (Hmore : (limit <? Z.of_nat (length (take (Z.to_nat (limit + 1)) sorted))) =
      (limit <? Z.of_nat (length sorted))).
    { rewrite length_take. apply Bool.eq_iff_eq_true. rewrite !Z.ltb_lt. lia. }
    assert (Htake : take (Z.to_nat limit) (take (Z.to_nat (limit + 1)) sorted) = take (Z.to_nat limit) sorted).
    { rewrite take_take. f_equal. lia. }
    rewrite Hmore, Htake. unfold page_cursor.
    destruct (Z.ltb_spec limit (Z.of_nat (length sorted))) as [?|Hge]; [done|]. by rewrite !take_ge by lia.
Qed.

(** The second one. *)
Lemma pg_count_ok w t u : pg_inv w -> storable t -> storable u ->
  exists w', query_scan pool (scan_int pool) countSQL [PText t; PText u] w = (w', Ok (unread_count t u (nrows w))) /\
    nrows w' = nrows w /\ drows w' = drows w /\ pg_inv w'.
Proof.
  intros Hi Ht Hu. unfold query_scan. unfold_M. destruct (pg_count w t u Hi Ht Hu) as (w' & -> & H). by exists w'.
Qed.

Lemma pg_query_refines w q : pg_inv w -> pg_ready (OpQuery q) -> refines w (OpQuery q).
Proof.
  intros Hi Hready. pose proof (pg_page_ok w q Hi Hready) as Hp. destruct Hready as [Ht Hu].
  unfold refines. cbn [run_op]. unfold_M. simpl. unfold pg_QueryUserNotifications. cbv zeta in Hp.
  destruct (page_query q _) as [sel args]. unfold_M.
  destruct Hp as (w1 & rows & page & items & cursor & -> & -> & -> & Hpage & Hr1 & Hd1 & Hi1).
  destruct (pg_count_ok w1 (qTenantID q) (qUserID q) Hi1 Ht Hu) as (w2 & -> & Hr2 & Hd2 & Hi2).
  eexists _, _. split; [reflexivity|]. rewrite (pg_abs_eq w w2) by congruence. split; [|done].
  apply (spec_query (pg_abs w)). by rewrite Hr1.
Qed.

Lemma pg_upsert_refines w d : pg_inv w -> pg_ready (OpUpsert d) -> refines w (OpUpsert d).
Proof.
  intros Hi [He Ht]. unfold refines. cbn [run_op]. unfold_M. simpl. unfold pg_UpsertDevice, assign_id, query_scan.
  rewrite He. simpl. unfold_M.
  destruct (pg_new_uuid w Hi) as (w1 & id & -> & Hne & Hu & Hn & Hd & Hr1 & Hd1 & Hi1).
  destruct (absent_dec dkey_of (drows w) (dkey_of d)) as [Ha|(id0 & d0 & Hd0 & Hk)].
  - destruct (pg_upsert_new w1 (set_dID id d) Hi1 Hu) as (w2 & -> & Hd2 & Hr2 & Hi2);
      [done|done|by rewrite Hd1|].
    rewrite scan_device. eexists _, _. split; [reflexivity|]. split; [|done].
    unfold pg_abs. rewrite Hr2, Hd2, Hr1, Hd1. simpl.
    apply (spec_upsert_new (mkAbs (nrows w) (drows w))); simpl; [done| |done]. by rewrite <- Hd1.
  - destruct (pg_upsert_hit w1 (set_dID id d) id0 d0 Hi1 Hu) as (w2 & -> & Hd2 & Hr2 & Hi2);
      [done|by rewrite Hd1|done|].
    rewrite scan_device. eexists _, _. split; [reflexivity|]. split; [|done].
    unfold pg_abs. rewrite Hr2, Hd2, Hr1, Hd1.
    change (rotate d0 (set_dID id d)) with (rotate d0 d).
    by apply (spec_upsert_hit (mkAbs (nrows w) (drows w))).
Qed.

Lemma pg_list_refines w t u : (forall a b, collate a b <-> str_lt a b) ->
  pg_inv w -> pg_ready (OpList t u) -> refines w (OpList t u).
Proof.
  intros Hc Hi [Ht Hu]. unfold refines. cbn [run_op]. unfold_M. simpl. unfold pg_ListDevices. unfold_M.
  destruct (pg_list w t u Hi Ht Hu) as (w' & out & -> & Hp & Hs & Hr' & Hd' & Hi').
  rewrite (scan_rows_ok _ device_args) by apply scan_device.
  eexists _, _. split; [reflexivity|]. rewrite (pg_abs_eq w w') by done. split; [|done].
  apply (spec_list (pg_abs w)). split; [done|]. simpl.
  clear -Hs Hc. induction Hs as [|a l Hs IH Ha]; constructor; [done|].
  eapply Forall_impl; [exact Ha|]. intros b Hb. by apply Hc.
Qed.

Lemma pg_op_refines w op : (forall a b, collate a b <-> str_lt a b) ->
  pg_inv w -> pg_ready op -> refines w op.
Proof.
  destruct op; eauto using pg_create_refines, pg_get_refines, pg_update_refines, pg_query_refines,
    pg_upsert_refines, pg_list_refines.
Qed.

Lemma pg_ops_refine ops : (forall a b, collate a b <-> str_lt a b) -> forall w, pg_inv w -> Forall pg_ready ops ->
  exists w' outs, run_ops (PostgresStore pool newUUID) ops w = (w', outs) /\ length outs = length ops /\
    steps spec_step (pg_abs w) (zip ops outs) (pg_abs w') /\ pg_inv w'.
Proof.
  intros Hc. induction ops as [|op ops IH]; intros w Hi Hr; cbn [run_ops]; unfold_M.
  - exists w, []. split_and!; try done. constructor.
  - apply Forall_cons in Hr as [Hr Hrs].
    destruct (pg_op_refines w op Hc Hi Hr) as (w1 & o & -> & Hs & Hi1).
    destruct (IH w1 Hi1 Hrs) as (w2 & os & -> & Hlen & Hss & Hi2).
    exists w2, (o :: os). split_and!; [done|simpl; congruence| |done]. by econstructor.
Qed.
End ops.

(** ** Properties of the driver *)

(** C5: The Postgres driver refines the abstract store machine: over a database that behaves as
    Postgres documents, every history of calls whose texts a text column can hold, whose ids are
    canonical uuids or no uuids at all, and whose device types collate bytewise, answers exactly as
    the abstract machine may, and a Create leaves the id choice to the store. *)
Theorem postgres_refines {D} (pool : Pool D) newUUID {HP : PgLaws pool newUUID} ops w :
  (forall a b, collate a b <-> str_lt a b) -> pg_inv w -> Forall (pg_ready pool newUUID) ops ->
  let '(w', outs) := run_ops (PostgresStore pool newUUID) ops w in
  length outs = length ops /\
  steps spec_step (mkAbs (nrows w) (drows w)) (zip ops outs) (mkAbs (nrows w') (drows w')) /\ pg_inv w'.
Proof.
  intros Hc Hi Hr. destruct (pg_ops_refine pool newUUID ops Hc w Hi Hr) as (w' & outs & -> & H). tauto.
Qed.

(** The Postgres driver reads ids as uuids, not as texts: an id in any spelling Postgres
    accepts (upper case, braces) that names a stored row of the caller finds it and updates it,
    under its canonical id, where the other drivers answer ErrNotFound. *)
Theorem postgres_id_alias {D} (pool : Pool D) newUUID {HP : PgLaws pool newUUID} w t u st ms alias c n :
  pg_inv w -> storable t -> storable u -> storable st ->
  alias <> c -> uuid_of alias = Some c -> nrows w !! c = Some n -> owned t u n ->
  nrows w !! alias = None /\ nID n = c /\
  (exists w', pg_GetNotification pool t u alias w = (w', Ok n)) /\
  (exists w', pg_UpdateStatus pool t alias st ms w = (w', None) /\
     nrows w' = <[c := stamped st ms n]> (nrows w)).
Proof.
  intros Hi Ht Hu Hst Hne Ha Hn Ho. split_and!.
  - destruct (nrows w !! alias) as [n'|] eqn:Hal; [|done]. apply (pg_ids w alias n' Hi) in Hal. congruence.
  - by apply (pg_rows_ok w Hi) in Hn.
  - destruct (pg_get_spec pool newUUID w t u alias Hi Ht Hu) as (w' & He & _). exists w'.
    by rewrite He, Ha; simpl; rewrite Hn, decide_True.
  - destruct (pg_update_spec pool newUUID w t alias st ms Hi Ht Hst) as (w' & e & He & _ & _ & Hres).
    rewrite Ha, Hn, decide_True in Hres by apply Ho. destruct Hres as [-> Hr]. by exists w'.
Qed.

(** ** Migrations *)

(** The schema table, the migrations that ran, and which statements touch them;
    every call may fail, and then it changed nothing. *)
Class MigrationLaws {D : Type} (cycle : PoolCycle D) (ms : list Migration) := {
  applied : D -> gset Z;
  ran : D -> list string;
  mig_acquire : forall w, let w' := (Acquire cycle w).1 in applied w' = applied w /\ ran w' = ran w;
  mig_release : forall w, let w' := (Release cycle w).1 in applied w' = applied w /\ ran w' = ran w;
  mig_aux : forall sql args w, sql ∈ [lockSQL; unlockSQL; ensureSQL] ->
    let w' := (Exec (conn cycle) sql args w).1 in applied w' = applied w /\ ran w' = ran w;
  mig_versions : forall w, let '(w', r) := pgQuery (conn cycle) versionsSQL [] w in
    applied w' = applied w /\ ran w' = ran w /\
    forall rows, r = Ok (rows, None) ->
      exists vs, rows = (fun v => [PInt v]) <$> vs /\ list_to_set vs = applied w;
  mig_run : forall m w, m ∈ ms -> let '(w', r) := Exec (conn cycle) (mig_sql m) [] w in
    applied w' = applied w /\ ran w' = if is_ok r then ran w ++ [mig_sql m] else ran w;
  mig_record : forall v name w, let '(w', r) := Exec (conn cycle) recordSQL [PInt v; PText name] w in
    ran w' = ran w /\ applied w' = if is_ok r then {[v]} ∪ applied w else applied w;
}.

Section migrations.
Context {D : Type} (cycle : PoolCycle D) (ms : list Migration) {HM : MigrationLaws cycle ms}.

Definition pending (done : gset Z) (l : list Migration) : list Migration :=
  filter (fun m => version m ∉ done) l.

(** How far a run got: it ran the first [k] pending migrations, recorded some of
    them, and all of them when it succeeded. *)
Definition progress (k : nat) (todo : list Migration) (w w' : D) (e : option error) : Prop :=
  ran w' = ran w ++ (mig_sql <$> take k todo) /\
  applied w ⊆ applied w' /\ applied w' ⊆ applied w ∪ list_to_set (version <$> take k todo) /\
  (e = None -> (length todo <= k)%nat /\ applied w' = applied w ∪ list_to_set (version <$> todo)).

Lemma progress_none todo w w' e : applied w' = applied w -> ran w' = ran w -> is_Some e ->
  progress 0 todo w w' e.
Proof. intros Ha Hr [err ->]. unfold progress. rewrite Ha, Hr. simpl. rewrite app_nil_r. set_solver. Qed.

Lemma migrate_loop_progress done l : forall w, l ⊆ ms ->
  let '(w', e) := migrate_loop cycle l done w in exists k, progress k (pending done l) w w' e.
Proof.
  induction l as [|m l IH]; intros w Hl; cbn [migrate_loop].
  { exists 0%nat. unfold progress. simpl. rewrite app_nil_r. set_solver. }
  assert (Hl' : l ⊆ ms) by set_solver. unfold pending. rewrite filter_cons. fold (pending done l).
  destruct (decide (version m ∈ done)) as [Hin|Hin].
  { rewrite decide_False by tauto. by apply IH. }
  rewrite decide_True by done. unfold_M.
  pose proof (mig_run m w ltac:(set_solver)) as Hrun.
  destruct (Exec (conn cycle) (mig_sql m) [] w) as [w1 [n|err]]; simpl in Hrun; destruct Hrun as [Ha1 Hr1].
  2:{ exists 0%nat. apply progress_none; eauto. }
  pose proof (mig_record (version m) (mig_name m) w1) as Hrec.
  destruct (Exec (conn cycle) recordSQL _ w1) as [w2 [n2|err]]; simpl in Hrec; destruct Hrec as [Hr2 Ha2].
  - specialize (IH w2 Hl'). destruct (migrate_loop cycle l done w2) as [w3 e].
    destruct IH as (k & Hr & Hsub & Hsup & Hdone). exists (S k). unfold progress. simpl.
    rewrite Hr, Hr2, Hr1, <- app_assoc. rewrite Ha2, Ha1 in *. split_and!; [done|set_solver|set_solver|].
    intros He. destruct (Hdone He) as [Hk ->]. split; [lia|set_solver].
  - exists 1%nat. unfold progress. simpl. rewrite Hr2, Hr1, Ha2, Ha1.
    split_and!; [done|done|set_solver|done].
Qed.

Lemma progress_frame k todo w w1 w2 w' e :
  applied w1 = applied w -> ran w1 = ran w -> applied w' = applied w2 -> ran w' = ran w2 ->
  progress k todo w1 w2 e -> progress k todo w w' e.
Proof. unfold progress. intros -> -> -> ->. done. Qed.

Lemma migrate_locked_progress w : let '(w', e) := migrate_locked cycle ms w in
  exists k, progress k (pending (applied w) ms) w w' e.
Proof.
  unfold migrate_locked. unfold_M.
  pose proof (mig_aux ensureSQL [] w ltac:(set_solver)) as Hens.
  destruct (Exec (conn cycle) ensureSQL [] w) as [w1 [n|err]]; simpl in Hens; destruct Hens as [Ha1 Hr1].
  2:{ exists 0%nat. apply progress_none; eauto. }
  pose proof (mig_versions w1) as Hv.
  destruct (pgQuery (conn cycle) versionsSQL [] w1) as [w2 [[rows rows_err]|err]];
    destruct Hv as (Ha2 & Hr2 & Hv).
  2:{ exists 0%nat. apply progress_none; [congruence|congruence|eauto]. }
  destruct (scan_rows _ rows []) as [vs|err] eqn:Hscan.
  2:{ exists 0%nat. apply progress_none; [congruence|congruence|eauto]. }
  destruct rows_err as [err|].
  { exists 0%nat. apply progress_none; [congruence|congruence|eauto]. }
  destruct (Hv rows eq_refl) as (vs' & -> & Hvs).
  rewrite (scan_rows_ok (scan_int (conn cycle)) (fun v => [PInt v])) in Hscan by done.
  injection Hscan as <-. rewrite Hvs, Ha1.
  pose proof (migrate_loop_progress (applied w) ms w2 ltac:(done)) as Hl.
  destruct (migrate_loop cycle ms (applied w) w2) as [w3 e]. destruct Hl as [k Hl]. exists k.
  eapply progress_frame; [| | | |exact Hl]; congruence.
Qed.

Lemma applyMigrations_progress w : let '(w', e) := applyMigrations cycle ms w in
  exists k, progress k (pending (applied w) ms) w w' e.
Proof.
  unfold applyMigrations. unfold_M. pose proof (mig_acquire w) as Hacq.
  destruct (Acquire cycle w) as [w1 [err|]]; simpl in Hacq; destruct Hacq as [Ha1 Hr1].
  { exists 0%nat. apply progress_none; eauto. }
  pose proof (mig_aux lockSQL [PInt migrationAdvisoryLockKey] w1 ltac:(set_solver)) as Hlock.
  destruct (Exec (conn cycle) lockSQL _ w1) as [w2 [n|err]]; simpl in Hlock; destruct Hlock as [Ha2 Hr2].
  2:{ pose proof (mig_release w2) as Hrel. destruct (Release cycle w2) as [w3 []]. simpl in Hrel.
      destruct Hrel. exists 0%nat. apply progress_none; [congruence|congruence|eauto]. }
  pose proof (migrate_locked_progress w2) as Hl.
  destruct (migrate_locked cycle ms w2) as [w3 e].
  pose proof (mig_aux unlockSQL [PInt migrationAdvisoryLockKey] w3 ltac:(set_solver)) as Hun.
  destruct (Exec (conn cycle) unlockSQL _ w3) as [w4 r4]; simpl in Hun; destruct Hun as [Ha4 Hr4].
  pose proof (mig_release w4) as Hrel. destruct (Release cycle w4) as [w5 []]. simpl in Hrel.
  destruct Hrel as [Ha5 Hr5]. destruct Hl as [k Hl]. exists k.
  rewrite Ha2, Ha1 in Hl. eapply progress_frame; [| | | |exact Hl]; congruence.
Qed.
(** A run that succeeded leaves every migration recorded. *)
Lemma progress_all k w w' : progress k (pending (applied w) ms) w w' None ->
  list_to_set (version <$> ms) ⊆ applied w'.
Proof.
  intros (_ & _ & _ & Hdone). destruct (Hdone eq_refl) as [_ Ha].
  intros v. rewrite elem_of_list_to_set, list_elem_of_fmap. intros (m & -> & Hm). rewrite Ha.
  destruct (decide (version m ∈ applied w)); [set_solver|]. apply elem_of_union_r.
  apply elem_of_list_to_set, list_elem_of_fmap. exists m. split; [done|]. by apply list_elem_of_filter.
Qed.
End migrations.

(** C36: Migrations run once and in order: applyMigrations runs exactly a prefix of the migrations
    not yet recorded, in bundle order and never a recorded one, records only what it ran, and when
    it returns nil it ran and recorded all of them, so that running it again, as every process
    does at boot, executes none. *)
Theorem migrations_once {D} (cycle : PoolCycle D) ms {HM : MigrationLaws cycle ms} w :
  let todo := pending (applied w) ms in
  let '(w', e) := applyMigrations cycle ms w in
  (exists k, ran w' = ran w ++ (mig_sql <$> take k todo) /\
     applied w ⊆ applied w' /\ applied w' ⊆ applied w ∪ list_to_set (version <$> take k todo)) /\
  (e = None ->
     ran w' = ran w ++ (mig_sql <$> todo) /\ list_to_set (version <$> ms) ⊆ applied w' /\
     ran (applyMigrations cycle ms w').1 = ran w').
Proof.
  intros todo. pose proof (applyMigrations_progress cycle ms w) as Hp.
  destruct (applyMigrations cycle ms w) as [w' e]. destruct Hp as [k Hk]. split; [destruct Hk as (? & ? & ? & _); eauto|].
  intros ->. pose proof (progress_all cycle ms k w w' Hk) as Hall. destruct Hk as (Hr & _ & _ & Hdone).
  destruct (Hdone eq_refl) as [Hlen _].
  split_and!; [by rewrite Hr, take_ge|done|].
  pose proof (applyMigrations_progress cycle ms w') as Hp2.
  destruct (applyMigrations cycle ms w') as [w2 e2]. destruct Hp2 as (k2 & Hr2 & _).
  assert (Hnil : pending (applied w') ms = []).
  { apply filter_none. intros m Hm Hno. apply Hno, Hall.
    apply elem_of_list_to_set, list_elem_of_fmap. by exists m. }
  simpl. rewrite Hr2, Hnil, take_nil. simpl. by rewrite app_nil_r.
Qed.
