(* ===== verification/PostgresSample.v ===== *)
(** * A database to run the Postgres driver against

    Tables as maps by id, answering the driver's statements as Postgres
    documents, and next to them the record of migrations that makes them usable:
    they show that [PgLaws] and [MigrationLaws] can hold and carry the witnesses. *)

From S2P Require Import Prelude GoErrors GoStrings Model StoreSpec StoreOps Memory MemoryProps.
From S2P Require Import Postgres PostgresProps.

Record Tables := mkTables { tnotifs : gmap string Notification; tdevs : gmap string Device; tdrawn : nat }.

(** The uuid syntax of the sample: a lower-case or upper-case prefix. *)
Definition sample_uuid_of (s : string) : option string :=
  if HasPrefix s "uuid-" then Some s
  else if HasPrefix s "UUID-" then Some ("uuid-" +:+ slice_from 5 s)
  else None.

Definition no_rows : PgErr := (ExtNoRows, "no rows in result set").
Definition bad_uuid : PgErr := (ExtPgError "22P02", "ERROR: invalid input syntax for type uuid").
Definition bad_sql : PgErr := (ExtPgError "42601", "ERROR: syntax error").

Definition with_key {R K : Type} `{EqDecision K} (key : R -> K) (k : K) (m : gmap string R) : option (string * R) :=
  head (filter (fun ir => key ir.2 = k) (map_to_list m)).

Definition bare_pool : Pool Tables := {|
  QueryRow := fun _ _ w => (w, Err bad_sql);
  pgQuery := fun _ _ w => (w, Err bad_sql);
  Exec := fun _ _ w => (w, Err bad_sql);
  ScanError := fun _ => (ExtPlain, "can't scan into dest");
|}.

Definition sql_insert (n : Notification) : M Tables (result PgErr (list PgVal)) := fun w =>
  match with_key key_of (key_of n) (tnotifs w) with
  | Some _ => (w, Err no_rows)
  | None => (mkTables (<[nID n := n]> (tnotifs w)) (tdevs w) (tdrawn w), Ok [PText (nID n)])
  end.

Definition sql_upsert (d : Device) : M Tables (result PgErr (list PgVal)) := fun w =>
  match with_key dkey_of (dkey_of d) (tdevs w) with
  | Some (id, d0) =>
      (mkTables (tnotifs w) (<[id := rotate d0 d]> (tdevs w)) (tdrawn w), Ok (device_args (rotate d0 d)))
  | None => (mkTables (tnotifs w) (<[dID d := d]> (tdevs w)) (tdrawn w), Ok (device_args d))
  end.

Definition sql_get (t u id : string) (w : Tables) : result PgErr (list PgVal) :=
  match sample_uuid_of id with
  | None => Err bad_uuid
  | Some c =>
      match tnotifs w !! c with
      | Some n => if decide (owned t u n) then Ok (notification_args n) else Err no_rows
      | None => Err no_rows
      end
  end.

Definition sql_update (t id st : string) (ms : Z) : M Tables (result PgErr Z) := fun w =>
  match sample_uuid_of id with
  | None => (w, Err bad_uuid)
  | Some c =>
      match tnotifs w !! c with
      | Some n => if decide (nTenantID n = t)
                  then (mkTables (<[c := stamped st ms n]> (tnotifs w)) (tdevs w) (tdrawn w), Ok 1)
                  else (w, Ok 0)
      | None => (w, Ok 0)
      end
  end.

Definition sql_page (q : Query) (limit : Z) (w : Tables) : list (list PgVal) :=
  notification_args <$> take (Z.to_nat limit)
    (sort_slice newer (filter (selected q) (all_rows (tnotifs w)))).

Definition run_row (sql : string) (args : list PgVal) : M Tables (result PgErr (list PgVal)) := fun w =>
  if (sql =? insertSQL)%string then
    match scanNotification bare_pool args with Ok n => sql_insert n w | Err _ => (w, Err bad_sql) end
  else if (sql =? upsertSQL)%string then
    match scanDevice bare_pool args with Ok d => sql_upsert d w | Err _ => (w, Err bad_sql) end
  else match args with
  | [PText t; PText u; PText x] =>
      if (sql =? existingSQL)%string then
        (w, match with_key key_of (mkNotifKey t u x) (tnotifs w) with
            | Some (id, _) => Ok [PText id]
            | None => Err no_rows
            end)
      else if (sql =? getSQL)%string then (w, sql_get t u x w) else (w, Err bad_sql)
  | [PText t; PText u] =>
      if (sql =? countSQL)%string then (w, Ok [PInt (unread_count t u (tnotifs w))]) else (w, Err bad_sql)
  | _ => (w, Err bad_sql)
  end.

Definition run_query (sql : string) (args : list PgVal)
    : M Tables (result PgErr (list (list PgVal) * option PgErr)) := fun w =>
  let page t u c unread limit :=
    if (sql =? page_sql (bool_decide (is_Some c)) unread)%string
    then Some (sql_page (mkQuery t u c 0 unread) limit w) else None in
  let pick t u c limit :=
    match page t u c false limit, page t u c true limit with
    | Some rows, _ | None, Some rows => Ok (rows, None)
    | None, None => Err bad_sql
    end in
  (w, match args with
      | [PText t; PText u] =>
          if (sql =? listSQL)%string
          then Ok (device_args <$> sort_slice dev_before (filter (dev_owned t u) (all_devices (tdevs w))), None)
          else Err bad_sql
      | [PText t; PText u; PInt limit] => pick t u None limit
      | [PText t; PText u; PInt c; PInt limit] => pick t u (Some c) limit
      | _ => Err bad_sql
      end).

Definition run_exec (sql : string) (args : list PgVal) : M Tables (result PgErr Z) := fun w =>
  match args with
  | [PText t; PText id; PText st; PInt ms] =>
      if (sql =? updateSQL)%string then sql_update t id st ms w else (w, Err bad_sql)
  | _ => (w, Err bad_sql)
  end.

Definition sample_pool : Pool Tables := {|
  QueryRow := run_row; pgQuery := run_query; Exec := run_exec;
  ScanError := ScanError bare_pool;
|}.

Definition draw : M Tables string := fun w =>
  (mkTables (tnotifs w) (tdevs w) (S (tdrawn w)), sample_uuid (tdrawn w)).

Definition tables_inv (w : Tables) : Prop :=
  rows_ok nID key_of (tnotifs w) /\ rows_ok dID dkey_of (tdevs w) /\
  drawn sample_uuid (tdrawn w) (tnotifs w) /\ drawn sample_uuid (tdrawn w) (tdevs w).

(** ** It behaves *)

Lemma sample_uuid_of_uuid k : sample_uuid_of (sample_uuid k) = Some (sample_uuid k).
Proof. unfold sample_uuid_of, sample_uuid. by rewrite HasPrefix_append. Qed.

Lemma with_key_None {R K : Type} `{EqDecision K} (key : R -> K) k m :
  absent key m k -> with_key key k m = None.
Proof.
  intros Ha. unfold with_key. rewrite filter_none; [done|].
  intros [id r] Hr%elem_of_map_to_list. simpl. by apply (Ha id).
Qed.

Lemma with_key_Some {R K : Type} `{EqDecision K} (id_of : R -> string) (key : R -> K) m id r :
  rows_ok id_of key m -> m !! id = Some r -> with_key key (key r) m = Some (id, r).
Proof.
  intros [_ Hk] Hr. unfold with_key.
  destruct (filter _ (map_to_list m)) as [|[i r'] l] eqn:Hf.
  - exfalso. assert (Hin : (id, r) ∈ filter (fun ir : string * R => key ir.2 = key r) (map_to_list m)).
    { apply list_elem_of_filter. split; [done|]. by apply elem_of_map_to_list. }
    rewrite Hf in Hin. by apply not_elem_of_nil in Hin.
  - assert (Hin : (i, r') ∈ filter (fun ir : string * R => key ir.2 = key r) (map_to_list m))
      by (rewrite Hf; by left).
    apply list_elem_of_filter in Hin as [Hkr Hi%elem_of_map_to_list]. simpl in *.
    assert (i = id) as -> by (by eapply Hk). simpl. congruence.
Qed.

Lemma drawn_fresh {R : Type} n (m : gmap string R) : drawn sample_uuid n m -> m !! sample_uuid n = None.
Proof.
  intros Hd. destruct (m !! sample_uuid n) as [r|] eqn:Hr; [|done].
  destruct (Hd _ ltac:(eauto)) as (k & Hk & He). apply sample_uuid_inj in He. lia.
Qed.

Definition issued_by (w : Tables) (id : string) : Prop := exists k, (k < tdrawn w)%nat /\ id = sample_uuid k.

Lemma drawn_insert_issued {R : Type} w (m : gmap string R) id r :
  issued_by w id -> drawn sample_uuid (tdrawn w) m -> drawn sample_uuid (tdrawn w) (<[id := r]> m).
Proof. intros Hid Hd i. rewrite lookup_insert_is_Some'. intros [<-|Hi]; auto. Qed.

Lemma scan_notification_args n : scanNotification bare_pool (notification_args n) = Ok n.
Proof. by destruct n. Qed.
Lemma scan_device_args d : scanDevice bare_pool (device_args d) = Ok d.
Proof. by destruct d. Qed.

Lemma run_insert n w : run_row insertSQL (notification_args n) w = sql_insert n w.
Proof.
  unfold run_row. change (insertSQL =? insertSQL)%string with true. cbv iota.
  by rewrite scan_notification_args.
Qed.

Lemma run_upsert d w : run_row upsertSQL (device_args d) w = sql_upsert d w.
Proof.
  unfold run_row. change (upsertSQL =? insertSQL)%string with false.
  change (upsertSQL =? upsertSQL)%string with true. cbv iota. by rewrite scan_device_args.
Qed.

Lemma page_sql_inj a b a' b' : (page_sql a b =? page_sql a' b')%string = bool_decide (a = a' /\ b = b').
Proof. destruct a, b, a', b'; vm_compute; reflexivity. Qed.

#[local] Opaque page_sql.

Lemma run_page q limit w :
  run_query (page_sql (bool_decide (is_Some (qCursorMS q))) (qUnreadOnly q)) (page_args q limit) w =
  (w, Ok (sql_page q limit w, None)).
Proof.
  destruct q as [t u [c|] lim unread]; unfold run_query, page_args; simpl; rewrite !page_sql_inj;
    destruct unread; reflexivity.
Qed.

(** What the UPDATE statement does. *)
Lemma sql_update_answer w t id st ms : tables_inv w -> exists w' r, sql_update t id st ms w = (w', r) /\
  tdevs w' = tdevs w /\ tables_inv w' /\
  match sample_uuid_of id with
  | None => tnotifs w' = tnotifs w /\ exists err, r = Err err /\ isInvalidUUID err = true
  | Some c =>
      match tnotifs w !! c with
      | Some n => if decide (nTenantID n = t) then r = Ok 1 /\ tnotifs w' = <[c := stamped st ms n]> (tnotifs w)
                  else r = Ok 0 /\ tnotifs w' = tnotifs w
      | None => r = Ok 0 /\ tnotifs w' = tnotifs w
      end
  end.
Proof.
  intros (H1 & H2 & H3 & H4). unfold sql_update. destruct (sample_uuid_of id) as [c|].
  - destruct (tnotifs w !! c) as [n|] eqn:Hn; [case_decide|]; eexists _, _; (split; [reflexivity|]); simpl; try by split_and!.
    split_and!; [done| |done|done]. split_and!; simpl; [by eapply rows_ok_insert_same|done| |done]. apply drawn_insert; eauto.
  - eexists _, _. split; [reflexivity|]. split_and!; [done..|]. eexists. split; [reflexivity|]. vm_compute. reflexivity.
Qed.

Lemma sample_pool_laws : PgLaws sample_pool draw.
Proof.
  refine {| nrows := tnotifs; drows := tdevs; pg_inv := tables_inv; storable := fun _ => True;
            uuid_of := sample_uuid_of; collate := str_lt; issued := issued_by |}; simpl.
  - intros w H. apply H.
  - intros w H. apply H.
  - intros w id n (_ & _ & Hd & _) Hn. destruct (Hd id ltac:(eauto)) as (k & _ & ->). apply sample_uuid_of_uuid.
  - intros w (H1 & H2 & H3 & H4). eexists _, _. split; [reflexivity|]. simpl. split_and!; try done.
    + exists (tdrawn w). simpl. split; [lia|done].
    + by apply drawn_fresh.
    + by apply drawn_fresh.
    + split_and!; simpl; auto using drawn_S.
  - intros w n (H1 & H2 & H3 & H4) Hid Hnew _ Ha. rewrite run_insert. unfold sql_insert.
    rewrite (with_key_None key_of) by done. eexists. split; [reflexivity|]. simpl. split_and!; [done..|].
    split_and!; simpl; [by apply rows_ok_insert_new|done|by apply drawn_insert_issued|done].
  - intros w n id r (H1 & H2 & H3 & H4) Hid _ Hr Hk. rewrite run_insert. unfold sql_insert.
    rewrite <- Hk, (with_key_Some nID key_of _ id r) by done. by eexists _, _.
  - intros w id r (H1 & H2 & H3 & H4) Hr. unfold run_row.
    change (existingSQL =? insertSQL)%string with false. change (existingSQL =? upsertSQL)%string with false.
    change (existingSQL =? existingSQL)%string with true. cbv iota.
    rewrite (with_key_Some nID key_of _ id r) by done. by eexists.
  - intros w t u id (H1 & H2 & H3 & H4) _ _. eexists _, _. split; [reflexivity|]. split_and!; [done..|].
    unfold sql_get. destruct (sample_uuid_of id) as [c|].
    + destruct (tnotifs w !! c) as [n|]; [case_decide|]; eauto.
    + eexists. split; [reflexivity|]. vm_compute. reflexivity.
  - intros w t id st ms Hi _ _. unfold run_exec. change (updateSQL =? updateSQL)%string with true. cbv iota.
    by apply sql_update_answer.
  - intros w q limit (H1 & H2 & H3 & H4) _ _ Hl. rewrite run_page. eexists _, _. split; [reflexivity|].
    split_and!; [|done..]. split; [by rewrite sort_slice_perm|].
    apply (sort_slice_sorted newer nID); [intros a b _ _; apply newer_total|].
    by apply NoDup_fmap_filter, (rows_ok_NoDup_ids nID key_of).
  - intros w t u H _ _. by eexists.
  - intros w d (H1 & H2 & H3 & H4) Hid Hnew _ Ha. rewrite run_upsert. unfold sql_upsert.
    rewrite (with_key_None dkey_of) by done. eexists. split; [reflexivity|]. simpl. split_and!; [done..|].
    split_and!; simpl; [done|by apply rows_ok_insert_new|done|by apply drawn_insert_issued].
  - intros w d id d0 (H1 & H2 & H3 & H4) Hid _ Hd Hk. rewrite run_upsert. unfold sql_upsert.
    rewrite <- Hk, (with_key_Some dID dkey_of _ id d0) by done. eexists. split; [reflexivity|]. simpl.
    split_and!; [done..|]. split_and!; simpl; [done|by eapply rows_ok_insert_same|done|].
    apply drawn_insert; eauto.
  - intros w t u (H1 & H2 & H3 & H4) _ _. eexists _, _. split; [reflexivity|].
    destruct (list_answer t u (tdevs w) _ H2 (reflexivity _)) as [Hp Hs]. by split_and!.
Defined.

(** ** Witnesses *)

Definition empty_tables : Tables := mkTables ∅ ∅ 0.

Lemma empty_tables_inv : tables_inv empty_tables.
Proof. split_and!; simpl; auto with notify. Qed.

Lemma sample_ops_ready : Forall (@pg_ready _ sample_pool draw sample_pool_laws) sample_ops.
Proof.
  repeat (apply Forall_cons; split; [simpl; split_and!; try done; try (repeat constructor);
    left; vm_compute; reflexivity|]). constructor.
Qed.

Lemma postgres_refines_witness :
  exists w' outs, run_ops (PostgresStore sample_pool draw) sample_ops empty_tables = (w', outs) /\
    length outs = length sample_ops /\ outs !! 1%nat = Some (OutCreate "uuid-0" (Ok false)).
Proof.
  pose proof (@postgres_refines _ sample_pool draw sample_pool_laws sample_ops empty_tables
    (fun a b => iff_refl _) empty_tables_inv sample_ops_ready) as H.
  assert (Hout : (run_ops (PostgresStore sample_pool draw) sample_ops empty_tables).2 !! 1%nat =
    Some (OutCreate "uuid-0" (Ok false))) by (vm_compute; reflexivity).
  destruct (run_ops (PostgresStore sample_pool draw) sample_ops empty_tables) as [w' outs].
  exists w', outs. destruct H as [H _]. split; [reflexivity|]. split; [exact H|exact Hout].
Defined.

Definition one_row : Notification := set_nID "uuid-0" (sample_notif "acme" "u1" "n1" 10).
Definition one_table : Tables := mkTables {["uuid-0" := one_row]} ∅ 1.

Lemma one_table_inv : tables_inv one_table.
Proof.
  split_and!; simpl; auto with notify.
  - apply (rows_ok_insert_new nID key_of ∅ one_row); [apply rows_ok_empty|done|].
    intros id r Hr. by rewrite lookup_empty in Hr.
  - simpl. unfold singletonM, map_singleton. intros id Hid. apply lookup_insert_is_Some' in Hid as [<-|Hid]; [by exists 0%nat; split; [lia|]|].
    rewrite lookup_empty in Hid. by destruct Hid.
Qed.

Lemma postgres_id_alias_witness :
  exists w', pg_GetNotification sample_pool "acme" "u1" "UUID-0" one_table = (w', Ok one_row).
Proof.
  destruct (@postgres_id_alias _ sample_pool draw sample_pool_laws one_table "acme" "u1" StatusRead 11
    "UUID-0" "uuid-0" one_row) as (_ & _ & H & _); try done.
  apply one_table_inv.
Defined.

(** ** Migrating an empty database *)

Record Schema := mkSchema { srec : gset Z; sran : list string }.

Definition schema_exec (sql : string) (args : list PgVal) : M Schema (result PgErr Z) := fun w =>
  match args with
  | [PInt v; PText _] => if (sql =? recordSQL)%string then (mkSchema ({[v]} ∪ srec w) (sran w), Ok 1) else (w, Ok 0)
  | _ => if bool_decide (sql ∈ [lockSQL; unlockSQL; ensureSQL]) then (w, Ok 0)
         else (mkSchema (srec w) (sran w ++ [sql]), Ok 0)
  end.

Definition schema_cycle : PoolCycle Schema := {|
  ParseConfig := fun _ => None; NewWithConfig := fun _ => mret None; Ping := mret None; PoolClose := mret tt;
  Acquire := mret None; Release := mret tt;
  conn := {|
    QueryRow := fun _ _ w => (w, Err bad_sql);
    pgQuery := fun _ _ w => (w, Ok ((fun v => [PInt v]) <$> elements (srec w), None));
    Exec := schema_exec;
    ScanError := ScanError bare_pool |} |}.

Lemma schema_laws : MigrationLaws schema_cycle migrations.
Proof.
  refine {| applied := srec; ran := sran |}; try done.
  - intros sql args w Hsql. simpl. unfold schema_exec.
    assert (Hne : (sql =? recordSQL)%string = false).
    { apply String.eqb_neq. intros ->. revert Hsql. by apply (bool_decide_eq_false_1 _). }
    rewrite Hne, bool_decide_true by done.
    by destruct args as [|[s|v] [|[s'|v'] [|? ?]]].
  - intros w. simpl. split_and!; [done|done|]. intros rows [= <-]. exists (elements (srec w)).
    split; [done|]. apply list_to_set_elements_L.
  - intros m w ->%list_elem_of_singleton. done.
Defined.

Definition fresh_schema : Schema := mkSchema ∅ [].

Lemma migrations_once_witness :
  let '(w', e) := applyMigrations schema_cycle migrations fresh_schema in
  e = None /\ sran w' = [init_sql] /\ sran (applyMigrations schema_cycle migrations w').1 = [init_sql].
Proof.
  pose proof (@migrations_once _ schema_cycle migrations schema_laws fresh_schema) as H.
  assert (He : (applyMigrations schema_cycle migrations fresh_schema).2 = None) by (vm_compute; reflexivity).
  destruct (applyMigrations schema_cycle migrations fresh_schema) as [w' e]. simpl in He.
  destruct H as [_ H]. destruct (H He) as (Hr & _ & Hr2). split; [exact He|].
  simpl in Hr, Hr2. rewrite Hr2. split; exact Hr.
Defined.

(** ** A whole database: the tables, and the schema that makes them usable *)

Definition Database : Type := Tables * Schema.

Definition in_tables {A} : M Tables A -> M Database A := lift fst (fun t d => (t, d.2)).
Definition in_schema {A} : M Schema A -> M Database A := lift snd (fun s d => (d.1, s)).

Definition database_pool : Pool Database := {|
  QueryRow := fun sql args => in_tables (QueryRow sample_pool sql args);
  pgQuery := fun sql args => in_tables (pgQuery sample_pool sql args);
  Exec := fun sql args => in_tables (Exec sample_pool sql args);
  ScanError := ScanError bare_pool;
|}.

Definition database_cycle : PoolCycle Database := {|
  ParseConfig := fun _ => None; NewWithConfig := fun _ => mret None; Ping := mret None; PoolClose := mret tt;
  Acquire := mret None; Release := mret tt;
  conn := {|
    QueryRow := fun sql args => in_schema (QueryRow (conn schema_cycle) sql args);
    pgQuery := fun sql args => in_schema (pgQuery (conn schema_cycle) sql args);
    Exec := fun sql args => in_schema (Exec (conn schema_cycle) sql args);
    ScanError := ScanError bare_pool |} |}.

Definition migrated (d : Database) : Prop := list_to_set (version <$> migrations) ⊆ srec d.2.

Lemma database_pool_laws : PgLaws database_pool (in_tables draw).
Proof.
  pose (P := sample_pool_laws).
  refine {| nrows := fun d => tnotifs d.1; drows := fun d => tdevs d.1; pg_inv := fun d => tables_inv d.1 /\ migrated d;
            storable := fun _ => True; uuid_of := sample_uuid_of; collate := str_lt;
            issued := fun d => issued_by d.1 |}; unfold in_tables, lift;
    cbn [database_pool QueryRow pgQuery Exec]; unfold in_tables, lift, migrated; cbn [fst snd].
  - intros [w s] [H _]. apply H.
  - intros [w s] [H _]. apply H.
  - intros [w s] id n [H _]. exact (pg_ids (PgLaws := P) w id n H).
  - intros [w s] [H Hm]. destruct (pg_new_uuid (PgLaws := P) w H) as (w' & id & He & Hrest). cbn -[draw] in *.
    rewrite He. exists (w', s), id. cbn [fst snd]; tauto.
  - intros [w s] n [H Hm] H1 H2 H3 H4. destruct (pg_insert_new (PgLaws := P) w n H H1 H2 H3 H4) as (w' & He & Hrest). cbn -[run_row insertSQL] in *.
    rewrite He. exists (w', s). cbn [fst snd]; tauto.
  - intros [w s] n id r [H Hm] H1 H2 H3 H4. destruct (pg_insert_dup (PgLaws := P) w n id r H H1 H2 H3 H4) as (w' & text & He & Hrest).
    cbn -[run_row insertSQL] in *. rewrite He. exists (w', s), text. cbn [fst snd]; tauto.
  - intros [w s] id r [H Hm] H1. destruct (pg_existing (PgLaws := P) w id r H H1) as (w' & He & Hrest).
    cbn -[run_row existingSQL] in *. rewrite He. exists (w', s). cbn [fst snd]; tauto.
  - intros [w s] t u id [H Hm] H1 H2. destruct (pg_get (PgLaws := P) w t u id H H1 H2) as (w' & r & He & Hrest).
    cbn -[run_row getSQL] in *. rewrite He. exists (w', s), r. cbn [fst snd]; tauto.
  - intros [w s] t id st ms [H Hm] H1 H2. destruct (pg_update (PgLaws := P) w t id st ms H H1 H2) as (w' & r & He & Hrest).
    cbn -[run_exec updateSQL] in *. rewrite He. exists (w', s), r. cbn [fst snd]; tauto.
  - intros [w s] q limit [H Hm] H1 H2 H3. destruct (pg_page (PgLaws := P) w q limit H H1 H2 H3) as (w' & sorted & He & Hrest).
    cbn -[run_query page_sql page_args] in *. rewrite He. exists (w', s), sorted. cbn [fst snd]; tauto.
  - intros [w s] t u [H Hm] H1 H2. destruct (pg_count (PgLaws := P) w t u H H1 H2) as (w' & He & Hrest).
    cbn -[run_row countSQL] in *. rewrite He. exists (w', s). cbn [fst snd]; tauto.
  - intros [w s] d [H Hm] H1 H2 H3 H4. destruct (pg_upsert_new (PgLaws := P) w d H H1 H2 H3 H4) as (w' & He & Hrest).
    cbn -[run_row upsertSQL] in *. rewrite He. exists (w', s). cbn [fst snd]; tauto.
  - intros [w s] d id d0 [H Hm] H1 H2 H3 H4. destruct (pg_upsert_hit (PgLaws := P) w d id d0 H H1 H2 H3 H4) as (w' & He & Hrest).
    cbn -[run_row upsertSQL] in *. rewrite He. exists (w', s). cbn [fst snd]; tauto.
  - intros [w s] t u [H Hm] H1 H2. destruct (pg_list (PgLaws := P) w t u H H1 H2) as (w' & out & He & Hrest).
    cbn -[run_query listSQL] in *. rewrite He. exists (w', s), out. cbn [fst snd]; tauto.
Defined.

Lemma database_migrations : MigrationLaws database_cycle migrations.
Proof.
  pose (P := schema_laws).
  refine {| applied := fun d => srec d.2; ran := fun d => sran d.2 |}; cbn [database_cycle conn QueryRow pgQuery Exec];
    unfold in_schema, lift; try done.
  - intros sql args [t w] Hsql. pose proof (mig_aux (MigrationLaws := P) sql args w Hsql) as H. cbn -[schema_exec] in *.
    by destruct (schema_exec sql args w).
  - intros [t w]. exact (mig_versions (MigrationLaws := P) w).
  - intros m [t w] Hm. pose proof (mig_run (MigrationLaws := P) m w Hm) as H. cbn -[schema_exec mig_sql] in *.
    by destruct (schema_exec (mig_sql m) [] w).
Defined.
