(* ===== verification/Main.v ===== *)
(** * cmd/notifyd/main.go: the process

    run loads the configuration, opens the store the driver names, builds the
    server and serves; the store is closed by the deferred cleanup and by nothing
    else.  The database pool and the EntDB client live side by side in the
    process's [ext]; opening, connecting and closing the EntDB client are the
    SDK's and parameters, as are the failures of net.Listen and http.Server. *)

From S2P Require Import Prelude GoErrors GoStrings Model StoreSpec Memory Notifier Wire Realtime.
From S2P Require Import Retry Stream Auth Handlers Config Server Entdb Postgres.

(** *sdk.DbClient as main.go uses it. *)
Record DbClient (E : Type) := mkDbClient {
  NewDbClient : string -> list NodeMsg -> M E (option error);
  Connect : M E (option error);
  ClientClose : M E (option error);
  dbSDK : SDK E;
}.
Arguments mkDbClient {E}.
Arguments NewDbClient {E}.
Arguments Connect {E}.
Arguments ClientClose {E}.
Arguments dbSDK {E}.

Section main.
Context {D E : Type} `{MapOrder} (newUUID : nat -> string)
  (parse : ParserOptions -> string -> result error (gmap string JSONValue))
  (listen_error : string -> Process (D * E) -> option error)
  (shutdown_error : Z -> nat -> Process (D * E) -> option error)
  (timeNow : M (Process (D * E)) Z)
  (cycle : PoolCycle D) (pool : Pool D) (pgUUID : M D string) (client : DbClient E).
Implicit Types (w : Process (D * E)).

Definition set_ext (x : D * E) w : Process (D * E) :=
  mkProcess (mem w) (streams w) (tracker w) (ready w) (sockets w) (nextSocket w) (serving w) x.

Definition database w : D := (ext w).1.
Definition set_database (d : D) w : Process (D * E) := set_ext (d, (ext w).2) w.
Definition entdb w : E := (ext w).2.
Definition set_entdb (e : E) w : Process (D * E) := set_ext ((ext w).1, e) w.

Definition on_database {A} (m : M D A) : M (Process (D * E)) A := lift database set_database m.
Definition on_entdb {A} (m : M E A) : M (Process (D * E)) A := lift entdb set_entdb m.

Definition with_store (store : option (Store (Process (D * E)))) : Dependencies (D * E) :=
  mkDependencies store None None None None.

(** The dependencies, the cleanup and the error.  The client closes itself when
    it cannot connect. *)
Definition buildDependencies (cfg : Config)
    : M (Process (D * E)) (Dependencies (D * E) * M (Process (D * E)) unit * option error) :=
  let deps := with_store None in
  let cleanup := mret tt in
  let driver := scDriver (cfgStore cfg) in
  if (driver =? "memory")%string then mret (deps, cleanup, None)
  else if (driver =? "postgres")%string then
    err ← on_database (pg_New cycle
            (mkPgConfig (scPostgresDSN (cfgStore cfg)) 0 0 (scPostgresAutoMigrate (cfgStore cfg))));
    mret (match err with
          | Some err => (deps, cleanup, Some (ErrorfW "postgres: %w" [] err))
          | None => (with_store (Some (lift_store database set_database (PostgresStore pool pgUUID))),
                     on_database (PoolClose cycle), None)
          end)
  else if (driver =? "entdb")%string then
    err ← on_entdb (NewDbClient client (scEntDBAddress (cfgStore cfg)) SchemaMessages);
    match err with
    | Some err => mret (deps, cleanup, Some (ErrorfW "entdb: NewClient: %w" [] err))
    | None =>
        err ← on_entdb (Connect client);
        match err with
        | Some err =>
            _ ← on_entdb (ClientClose client);
            mret (deps, cleanup, Some (ErrorfW "entdb: Connect: %w" [] err))
        | None =>
            let store := EntdbStore (dbSDK client) (scTenantID (cfgStore cfg)) in
            mret (with_store (Some (lift_store entdb set_entdb store)),
                  _ ← on_entdb (ClientClose client); mret tt, None)
        end
    end
  else mret (deps, cleanup, Some (Errorf "unknown store driver %q" [FStr driver])).

(** [during] is what happens between readiness and the signal. *)
Definition run (get : string -> string) (during : M (Process (D * E)) (option error))
    : M (Process (D * E)) (option error) :=
  match loadConfig get with
  | Err err => mret (Some (ErrorfW "config: %w" [] err))
  | Ok cfg =>
      '(deps, cleanup, err) ← buildDependencies cfg;
      match err with
      | Some err => mret (Some (ErrorfW "dependencies: %w" [] err))
      | None =>
          built ← NewWithDeps newUUID parse timeNow cfg deps;
          match built with
          | Err err => _ ← cleanup; mret (Some (ErrorfW "server: %w" [] err))
          | Ok s => err ← Run listen_error shutdown_error s during; _ ← cleanup; mret err
          end
      end
  end.
End main.
