(* ===== verification/MainProps.v ===== *)
(** * What the process guarantees about its store

    Counting the handles that are open, whatever way run ends it leaves as many
    as it found: the store it opened is closed once, after the server has shut
    down, and never by the server as well. *)

From S2P Require Import Prelude GoErrors GoStrings Model StoreSpec Memory MemoryProps Notifier.
From S2P Require Import Wire Realtime Retry Stream Auth Handlers Duration Config ConfigProps.
From S2P Require Import Server ServerProps Entdb Postgres Main.

(** How many pools are open, as pgxpool documents its functions: opening one
    adds it, closing it removes it, statements do neither. *)
Class PoolHandles {D} (cycle : PoolCycle D) (pools : D -> Z) : Prop := {
  pools_new : forall cfg d, let '(d', e) := NewWithConfig cycle cfg d in
    pools d' = pools d + match e with None => 1 | Some _ => 0 end;
  pools_close : forall d, pools (PoolClose cycle d).1 = pools d - 1;
  pools_ping : forall d, pools (Ping cycle d).1 = pools d;
  pools_acquire : forall d, pools (Acquire cycle d).1 = pools d;
  pools_release : forall d, pools (Release cycle d).1 = pools d;
  pools_exec : forall sql args d, pools (Exec (conn cycle) sql args d).1 = pools d;
  pools_query : forall sql args d, pools (pgQuery (conn cycle) sql args d).1 = pools d;
}.

Class ClientHandles {E} (client : DbClient E) (clients : E -> Z) : Prop := {
  clients_new : forall addr schema e, let '(e', err) := NewDbClient client addr schema e in
    clients e' = clients e + match err with None => 1 | Some _ => 0 end;
  clients_connect : forall e, clients (Connect client e).1 = clients e;
  clients_close : forall e, clients (ClientClose client e).1 = clients e - 1;
}.

(** ** postgres.New *)

Section pool.
Context {D : Type} (cycle : PoolCycle D) (pools : D -> Z) `{HP : !PoolHandles cycle pools}.

(** Run the first statement of the goal, keeping what it does to the pools. *)
Ltac pool_step :=
  match goal with
  | |- context [Exec (conn cycle) ?s ?a ?d] =>
      let r := fresh "r" in pose proof (pools_exec s a d); destruct (Exec (conn cycle) s a d) as [? [?|?]]
  | |- context [pgQuery (conn cycle) ?s ?a ?d] =>
      pose proof (pools_query s a d); destruct (pgQuery (conn cycle) s a d) as [? [[? ?]|?]]
  end; simpl in *.

Lemma migrate_loop_pools ms applied : forall d, pools (migrate_loop cycle ms applied d).1 = pools d.
Proof.
  induction ms as [|m ms IH]; intros d; [done|]. simpl. unfold_M. case_decide; [done|].
  repeat (pool_step; [|congruence]). rewrite IH. congruence.
Qed.

Lemma migrate_locked_pools ms d : pools (migrate_locked cycle ms d).1 = pools d.
Proof.
  unfold migrate_locked. unfold_M. repeat (pool_step; [|congruence]).
  destruct (scan_rows _ _ _); [|simpl; congruence]. case_match; [simpl; congruence|].
  rewrite migrate_loop_pools. congruence.
Qed.

Lemma applyMigrations_pools ms d : pools (applyMigrations cycle ms d).1 = pools d.
Proof.
  unfold applyMigrations. unfold_M. pose proof (pools_acquire d) as Ha.
  destruct (Acquire cycle d) as [d1 [e|]]; simpl in Ha |- *; [done|].
  pose proof (pools_exec lockSQL [PInt migrationAdvisoryLockKey] d1) as He.
  destruct (Exec _ _ _ d1) as [d2 [n|e]]; simpl in He.
  - pose proof (migrate_locked_pools ms d2) as Hm. destruct (migrate_locked cycle ms d2) as [d3 res].
    pose proof (pools_exec unlockSQL [PInt migrationAdvisoryLockKey] d3) as Hu.
    destruct (Exec _ _ _ d3) as [d4 ?]. pose proof (pools_release d4) as Hr.
    destruct (Release cycle d4) as [d5 ?]. simpl in *. congruence.
  - pose proof (pools_release d2) as Hr. destruct (Release cycle d2) as [d3 ?]. simpl in *. congruence.
Qed.

(** New leaves a pool open exactly when it succeeds. *)
Lemma pg_New_pools cfg d :
  let '(d', e) := pg_New cycle cfg d in pools d' = pools d + match e with None => 1 | Some _ => 0 end.
Proof.
  unfold pg_New. unfold_M. cbv zeta. destruct (validate _); [simpl; lia|].
  destruct (ParseConfig _ _); [simpl; lia|]. pose proof (pools_new (applyDefaults cfg) d) as Hn.
  destruct (NewWithConfig cycle _ d) as [d1 [e|]]; simpl in *; [done|].
  pose proof (pools_ping d1) as Hp. destruct (Ping cycle d1) as [d2 [e|]]; simpl in *.
  { pose proof (pools_close d2) as Hc. destruct (PoolClose cycle d2). simpl in *. lia. }
  destruct (AutoMigrate _); [|simpl; lia].
  pose proof (applyMigrations_pools migrations d2) as Hm.
  destruct (applyMigrations cycle migrations d2) as [d3 [e|]]; simpl in *; [|lia].
  pose proof (pools_close d3) as Hc. destruct (PoolClose cycle d3). simpl in *. lia.
Qed.
End pool.

(** ** The server leaves the dependencies' world alone *)

Section server.
Context {X : Type} (listen_error : string -> Process X -> option error)
  (shutdown_error : Z -> nat -> Process X -> option error).
Implicit Types (w : Process X) (s : Server X).

Lemma run_start_ext s w :
  let '(w', (s', _)) := run_start listen_error s w in
  ext w' = ext w /\ srvCloser s' = srvCloser s.
Proof.
  unfold run_start, bindListeners, bind_slot, net_Listen, startServer, markReady, modify, ln_Close. unfold_M.
  destruct s as [cfg nt cl lv au ha st ca ia ma c i m], w as [me str tr rd ss nx sv ex].
  unfold with_listeners, set_net, set_ready. simpl.
  repeat match goal with
  | |- context [match ?o with Some _ => _ | None => _ end] => is_var o; destruct o; simpl
  | |- context [listen_error ?a ?w] => destruct (listen_error a w); simpl
  end; done.
Qed.

Lemma Run_ext s (during : M (Process X) (option error)) {A} (f : X -> A) w : srvCloser s = None ->
  (forall w, f (ext (during w).1) = f (ext w)) ->
  f (ext (Run listen_error shutdown_error s during w).1) = f (ext w).
Proof.
  intros Hc Hd. unfold Run. unfold_M. pose proof (run_start_ext s w) as Hs.
  destruct (run_start listen_error s w) as [w1 [s1 [e|]]]; destruct Hs as [He Hcl]; simpl; [by rewrite He|].
  rewrite <- He, <- (Hd w1). destruct (during w1) as [w2 event]. unfold run_stop.
  assert (Hsh : ext (Shutdown shutdown_error s1 w2).1 = ext w2).
  { unfold Shutdown. unfold_M. rewrite Hcl, Hc. simpl. unfold_M. by destruct (srvLive s1). }
  destruct event; unfold_M; destruct (Shutdown shutdown_error s1 w2); simpl in *; by rewrite Hsh.
Qed.
End server.

(** ** The process *)

Section main.
Context {D E : Type} `{MapOrder} (newUUID : nat -> string)
  (parse : ParserOptions -> string -> result error (gmap string JSONValue))
  (listen_error : string -> Process (D * E) -> option error)
  (shutdown_error : Z -> nat -> Process (D * E) -> option error)
  (timeNow : M (Process (D * E)) Z)
  (cycle : PoolCycle D) (pool : Pool D) (pgUUID : M D string) (client : DbClient E)
  (pools : D -> Z) (clients : E -> Z)
  `{HP : !PoolHandles cycle pools} `{HC : !ClientHandles client clients}.
Implicit Types (w : Process (D * E)).

(** The handles open in the process. *)
Definition handles (x : D * E) : Z * Z := (pools x.1, clients x.2).

Definition opened (driver : string) (x : Z * Z) : Z * Z :=
  (x.1 + (if (driver =? "postgres")%string then 1 else 0), x.2 + (if (driver =? "entdb")%string then 1 else 0)).

(** A store is given for every driver but memory, and no closer. *)
Lemma buildDependencies_handles cfg w :
  let driver := scDriver (cfgStore cfg) in
  let '(w', (deps, cleanup, err)) := buildDependencies cycle pool pgUUID client cfg w in
  match err with
  | Some _ => handles (ext w') = handles (ext w)
  | None => handles (ext w') = opened driver (handles (ext w)) /\
      (forall w, opened driver (handles (ext (cleanup w).1)) = handles (ext w)) /\
      (is_Some (depStore deps) \/ driver = "memory") /\ depStoreCloser deps = None
  end.
Proof.
  intros driver. unfold buildDependencies, on_database, on_entdb, lift, opened, handles.
  change (scDriver (cfgStore cfg)) with driver. unfold_M. destruct w as [me str tr rd ss nx sv [d e]]. simpl.
  destruct (String.eqb_spec driver "memory") as [->|Hm].
  { simpl. split_and!; try done; [f_equal; lia|intros; f_equal; lia|by right]. }
  destruct (String.eqb_spec driver "postgres") as [->|Hp].
  { simpl. unfold database. simpl. set (c := mkPgConfig _ _ _ _). pose proof (pg_New_pools cycle pools c d) as Hn.
    destruct (pg_New cycle c d) as [d' [err|]]; simpl; [f_equal; lia|].
    split_and!; [f_equal; lia| |by left|done]. intros w. pose proof (pools_close (ext w).1) as Hc.
    destruct (PoolClose cycle (ext w).1). simpl in *. f_equal; lia. }
  destruct (String.eqb_spec driver "entdb") as [->|He]; [|done]. simpl. unfold entdb. simpl.
  pose proof (clients_new (scEntDBAddress (cfgStore cfg)) SchemaMessages e) as Hn.
  destruct (NewDbClient client _ _ e) as [e1 [err|]]; simpl; [f_equal; lia|].
  pose proof (clients_connect e1) as Hco. destruct (Connect client e1) as [e2 [err|]]; simpl in *.
  { pose proof (clients_close e2) as Hcl. destruct (ClientClose client e2). simpl in *. f_equal; lia. }
  split_and!; [f_equal; lia| |by left|done]. intros w. unfold entdb. pose proof (clients_close (ext w).2) as Hcl.
  destruct (ClientClose client (ext w).2). simpl in *. f_equal; lia.
Qed.

(** With a store or the memory driver the server is built. *)
Lemma NewWithDeps_builds cfg deps w : valid_config cfg ->
  is_Some (depStore deps) \/ scDriver (cfgStore cfg) = "memory" -> depStoreCloser deps = None ->
  exists w' s, NewWithDeps newUUID parse timeNow cfg deps w = (w', Ok s) /\
    ext w' = ext w /\ srvCloser s = None.
Proof.
  intros Hv Hs Hc. destruct (resolve_auth_valid parse cfg deps Hv) as [a Ha].
  unfold NewWithDeps, resolve_store, wire_live, buildStore. rewrite Ha, Hc. unfold_M.
  destruct (depStore deps) as [st|] eqn:Hst.
  - destruct (lcEnabled (LiveConnections cfg)); simpl; by eexists _, _.
  - destruct Hs as [[? ?]|Hs]; [done|]. rewrite Hs. simpl.
    destruct (lcEnabled (LiveConnections cfg)); simpl; by eexists _, _.
Qed.

Lemma opened_inj driver x y : opened driver x = opened driver y -> x = y.
Proof. unfold opened. destruct x, y. simpl. intros [= ? ?]. f_equal; lia. Qed.

(** C17: However run ends, it leaves as many database pools and EntDB clients open as it found.  A
    bad configuration touches nothing; a store that cannot be opened or migrated is closed again;
    otherwise the server is always built (its build error cannot occur), it runs with exactly the
    handle of the configured driver open, the server itself never closes it, and the deferred
    cleanup closes it once, after Run has returned, whose error is the one reported. *)
Theorem run_owns_store (get : string -> string) (during : M (Process (D * E)) (option error)) w :
  (forall w, handles (ext (during w).1) = handles (ext w)) ->
  let '(w', err) := run newUUID parse listen_error shutdown_error timeNow cycle pool pgUUID client get during w in
  handles (ext w') = handles (ext w) /\
  match loadConfig get with
  | Err e => w' = w /\ err = Some (ErrorfW "config: %w" [] e)
  | Ok cfg =>
      let '(w1, (deps, cleanup, failed)) := buildDependencies cycle pool pgUUID client cfg w in
      match failed with
      | Some e => w' = w1 /\ err = Some (ErrorfW "dependencies: %w" [] e)
      | None => exists w2 s, NewWithDeps newUUID parse timeNow cfg deps w1 = (w2, Ok s) /\
          let '(w3, res) := Run listen_error shutdown_error s during w2 in
          handles (ext w2) = opened (scDriver (cfgStore cfg)) (handles (ext w)) /\
          handles (ext w3) = handles (ext w2) /\ w' = (cleanup w3).1 /\ err = res
      end
  end.
Proof.
  intros Hd. unfold run. destruct (loadConfig get) as [cfg|e] eqn:Hg; [|done]. unfold_M.
  pose proof (buildDependencies_handles cfg w) as Hb. cbv zeta in Hb.
  destruct (buildDependencies cycle pool pgUUID client cfg w) as [w1 [[deps cleanup] [e|]]]; [done|].
  destruct Hb as (Hb & Hclean & Hs & Hc).
  destruct (NewWithDeps_builds cfg deps w1 (loaded_valid get cfg Hg) Hs Hc) as (w2 & s & Hn & Hx & Hcl).
  rewrite Hn. pose proof (Run_ext listen_error shutdown_error s during handles w2 Hcl Hd) as Hr.
  destruct (Run listen_error shutdown_error s during w2) as [w3 res] eqn:Hrun. simpl in Hr.
  destruct (cleanup w3) as [w4 u] eqn:Hcw. split.
  - apply (opened_inj (scDriver (cfgStore cfg))). rewrite <- Hb, <- Hx, <- Hr, <- (Hclean w3). by rewrite Hcw.
  - exists w2, s. split; [done|]. rewrite Hrun, Hcw. split_and!; try done. by rewrite Hx.
Qed.
End main.

(** ** Witness: a Postgres deployment that starts, serves and stops *)

Definition sample_pool : Pool Z :=
  mkPool _ (fun _ _ d => (d, Ok [])) (fun _ _ d => (d, Ok ([], None))) (fun _ _ d => (d, Ok 0))
    (fun _ => (ExtPlain, "cannot scan")).

Definition sample_cycle : PoolCycle Z :=
  mkPoolCycle _ (fun _ => None) (fun _ d => (d + 1, None)) (fun d => (d, None)) (fun d => (d - 1, tt))
    (fun d => (d, None)) (fun d => (d, tt)) sample_pool.

Definition sample_client : DbClient Z :=
  mkDbClient (fun _ _ e => (e + 1, None)) (fun e => (e, None)) (fun e => (e - 1, None))
    (mkSDK _ (fun a => Ok a) (fun _ _ _ e => (e, Ok None)) (fun _ _ _ e => (e, Ok None))
       (fun _ _ _ e => (e, Ok None)) true (fun _ _ _ _ _ e => (e, Ok []))).

#[export] Instance sample_pool_handles : PoolHandles sample_cycle id.
Proof. by split; intros; simpl; unfold id; try lia. Qed.
#[export] Instance sample_client_handles : ClientHandles sample_client id.
Proof. by split; intros; simpl; unfold id; try lia. Qed.

Definition cold_process : Process (Z * Z) :=
  mkProcess New no_streams (NewRetryTracker 3) false ∅ 0 ∅ (0, 0).

Definition sample_main : (string -> string) -> M (Process (Z * Z)) (option error) -> M (Process (Z * Z)) (option error) :=
  run (H := sample_order) sample_uuid refuse_all (fun _ _ => None) (fun _ _ _ => None) (mret 0)
    sample_cycle sample_pool (mret "uuid") sample_client.

Lemma run_owns_store_witness :
  let '(w', err) := sample_main production_env (mret None) cold_process in handles id id (ext w') = (0, 0).
Proof.
  pose proof (@run_owns_store Z Z sample_order sample_uuid refuse_all (fun _ _ => None) (fun _ _ _ => None)
    (mret 0) sample_cycle sample_pool (mret "uuid") sample_client id id _ _ production_env (mret None)
    cold_process ltac:(done)) as Hrun.
  unfold sample_main. destruct (run _ _ _ _ _ _ _ _ _ _ _ _) as [w' err]. exact (proj1 Hrun).
Defined.
