(* ===== verification/Http.v ===== *)
(** * HTTP requests as the channel providers build them

    net/url's form encoding, net/http's requests and base64, as far as the
    channel providers use them.  The round trip itself is I/O: a client is an
    effect on the world that answers with a response or an error.  The decoding
    of a JSON body is an argument of the definitions that need it. *)

From S2P Require Import Prelude GoErrors GoStrings Model.

(** ** net/url *)

Definition upper_hex (d : Z) : ascii := if d <? 10 then chr (48 + d) else chr (55 + d).

Definition is_unreserved (a : ascii) : bool :=
  let b := byte a in
  (48 <=? b) && (b <=? 57) || (65 <=? b) && (b <=? 90) || (97 <=? b) && (b <=? 122)
  || (b =? 45) || (b =? 95) || (b =? 46) || (b =? 126).

(** [url.QueryEscape] *)
Fixpoint QueryEscape (s : string) : string :=
  match s with
  | EmptyString => EmptyString
  | String a s =>
      if is_unreserved a then String a (QueryEscape s)
      else if byte a =? 32 then String "+"%char (QueryEscape s)
      else String "%"%char (String (upper_hex (byte a / 16)) (String (upper_hex (byte a mod 16))
             (QueryEscape s)))
  end.

(** [url.Values] with one value per key. *)
Definition Values : Type := gmap string string.

Definition key_before (a b : string * string) : Prop := str_lt a.1 b.1.
#[global] Instance key_before_dec : RelDecision key_before.
Proof. intros a b. unfold key_before. apply _. Defined.

Definition encode_pair (kv : string * string) : string := QueryEscape kv.1 +:+ "=" +:+ QueryEscape kv.2.

Fixpoint join_amp (l : list string) : string :=
  match l with
  | [] => ""
  | [s] => s
  | s :: l => s +:+ "&" +:+ join_amp l
  end.

(** [form.Encode()]: sorted by key. *)
Definition Encode (form : Values) : string :=
  join_amp (encode_pair <$> sort_slice key_before (map_to_list form)).

(** ** encoding/base64 *)

Definition base64_digit (n : Z) : ascii :=
  if n <? 26 then chr (65 + n) else if n <? 52 then chr (71 + n)
  else if n <? 62 then chr (n - 4) else if n =? 62 then "+"%char else "/"%char.

(** [base64.StdEncoding.EncodeToString] *)
Fixpoint base64 (s : string) : string :=
  match s with
  | EmptyString => EmptyString
  | String a EmptyString =>
      let x := byte a in
      String (base64_digit (x / 4)) (String (base64_digit (x mod 4 * 16)) "==")
  | String a (String b EmptyString) =>
      let (x, y) := (byte a, byte b) in
      String (base64_digit (x / 4)) (String (base64_digit (x mod 4 * 16 + y / 16))
        (String (base64_digit (y mod 16 * 4)) "="))
  | String a (String b (String c s)) =>
      let (x, y) := (byte a, byte b) in let z := byte c in
      String (base64_digit (x / 4)) (String (base64_digit (x mod 4 * 16 + y / 16))
        (String (base64_digit (y mod 16 * 4 + z / 64)) (String (base64_digit (z mod 64)) (base64 s))))
  end.

(** ** net/http *)

Record Request := mkRequest {
  Method : string;
  URL : string;
  Header : gmap string string;
  reqBody : string;
}.

(** The body is what io.ReadAll makes of it. *)
Record Response := mkResponse { StatusCode : Z; respBody : result error string }.

(** [httpClient.Do] *)
Definition HttpClient (W : Type) : Type := Request -> M W (result error Response).

(** ** What the orchestrator expects of a provider *)

(** channel.go's contract: an error comes with a failed receipt, a receipt
    without an error has one of the statuses that keep the row alive. *)
Class ProviderContract {W} (p : Provider W) : Prop := {
  send_failed : forall msg w w' r err, Send p msg w = (w', (r, Some err)) -> rStatus r = StatusFailed;
  send_accepted : forall msg w w' r, Send p msg w = (w', (r, None)) ->
    rStatus r = StatusDelivered \/ rStatus r = StatusPending;
}.

Definition failed_receipt : Receipt := mkReceipt "" StatusFailed.
