(* ===== verification/Email.v ===== *)
(** * channels/email/emailservice: the e-mail provider

    A translator from [Message] to the narrow [Sender] interface, which the
    caller supplies. *)

From S2P Require Import Prelude GoErrors GoStrings Model Http.

Record SendEmailInput := mkSendEmailInput {
  eFrom : string; eTo : string; eSubject : string; eBodyText : string; eBodyHTML : string;
}.
Record SendEmailOutput := mkSendEmailOutput { MessageID : string }.

(** The Sender interface. *)
Definition Sender (W : Type) : Type := SendEmailInput -> M W (result error SendEmailOutput).

Record EmailProvider (W : Type) := mkEmailProvider { epName : string; epSender : Sender W; epFrom : string }.
Arguments mkEmailProvider {W}.
Arguments epName {W}.
Arguments epSender {W}.
Arguments epFrom {W}.

Definition email_defaultName : string := "emailservice".

(** [None] is the nil sender. *)
Definition email_New {W} (name : string) (sender : option (Sender W)) (from : string)
    : result error (EmailProvider W) :=
  match sender with
  | None => Err (ErrorsNew "emailservice: sender is required")
  | Some sender =>
      if (from =? "")%string then Err (ErrorsNew "emailservice: from address is required") else
      Ok (mkEmailProvider (if (name =? "")%string then email_defaultName else name) sender from)
  end.

Definition email_Send {W} (p : EmailProvider W) (msg : Message) : M W (Receipt * option error) :=
  if (mTo msg =? "")%string then mret (failed_receipt, Some (ErrorsNew "emailservice: message To is empty")) else
  out ← epSender p (mkSendEmailInput (epFrom p) (mTo msg) (mTitle msg) (mBody msg) "");
  mret (match out with
        | Err err => (failed_receipt, Some (ErrorfW "emailservice: send: %w" [] err))
        | Ok out => (mkReceipt (MessageID out) StatusDelivered, None)
        end).

Definition email_provider {W} (p : EmailProvider W) : Provider W :=
  mkProvider ChannelEmail (epName p) (email_Send p).

#[export] Instance email_contract {W} (p : EmailProvider W) : ProviderContract (email_provider p).
Proof.
  split; intros msg w w' r; simpl; unfold email_Send; unfold_M;
    (destruct (mTo msg =? "")%string; [|destruct (epSender p _ w) as [w1 [out|e]]]); intros; simplify_eq; auto.
Qed.
