(* ===== verification/Twilio.v ===== *)
(** * channels/twilio: SMS and WhatsApp

    The shared HTTP client of the Messages API and the two providers on top of
    it.  The decoding of Twilio's JSON answers is a parameter. *)

From S2P Require Import Prelude GoErrors GoStrings Model Config Http.

Definition twilio_defaultBaseURL : string := "https://api.twilio.com".
Definition apiVersion : string := "2010-04-01".
Definition whatsappPrefix : string := "whatsapp:".

Record TwilioClient (W : Type) := mkTwilioClient {
  accountSID : string;
  authToken : string;
  messagingServiceSID : string;
  twFrom : string;
  twBaseURL : string;
  twHTTP : HttpClient W;
}.
Arguments mkTwilioClient {W}.
Arguments accountSID {W}.
Arguments authToken {W}.
Arguments messagingServiceSID {W}.
Arguments twFrom {W}.
Arguments twBaseURL {W}.
Arguments twHTTP {W}.

Definition NewClient {W} (defaultClient : HttpClient W) (cfg : TwilioConfig) : result error (TwilioClient W) :=
  if (TrimSpace (tcAccountSID cfg) =? "")%string then Err (ErrorsNew "twilio: AccountSID is required")
  else if (TrimSpace (tcAuthToken cfg) =? "")%string then Err (ErrorsNew "twilio: AuthToken is required")
  else if (TrimSpace (tcFrom cfg) =? "")%string && (TrimSpace (tcMessagingServiceSID cfg) =? "")%string
  then Err (ErrorsNew "twilio: one of From or MessagingServiceSID is required")
  else Ok (mkTwilioClient (tcAccountSID cfg) (tcAuthToken cfg) (TrimSpace (tcMessagingServiceSID cfg))
             (TrimSpace (tcFrom cfg)) twilio_defaultBaseURL defaultClient).

Definition WithBaseURL {W} (c : TwilioClient W) (baseURL : string) : TwilioClient W :=
  mkTwilioClient (accountSID c) (authToken c) (messagingServiceSID c) (twFrom c)
    (TrimRightByte baseURL "/"%char) (twHTTP c).

Definition twilio_WithHTTPClient {W} (c : TwilioClient W) (h : HttpClient W) : TwilioClient W :=
  mkTwilioClient (accountSID c) (authToken c) (messagingServiceSID c) (twFrom c) (twBaseURL c) h.

Record messageResponse := mkMessageResponse { mrSID : string; mrStatus : string }.

Definition basicAuth (user pass : string) : string := base64 (user +:+ ":" +:+ pass).

(** ** Addresses *)

Fixpoint all_ascii_digits (s : string) : bool :=
  match s with EmptyString => true | String a s => is_digit a && all_ascii_digits s end.

(** A byte outside '0'..'9' belongs to a rune outside it. *)
Definition validateE164 (s : string) : option error :=
  if (s =? "")%string then Some (ErrorsNew "To: empty recipient address")
  else if negb (HasPrefix s "+") then Some (Errorf "To: %q must be E.164 (must start with '+')" [FStr s])
  else
    let digits := slice_from 1 s in
    if (String.length digits <? 6)%nat || (15 <? String.length digits)%nat
    then Some (Errorf "To: %q has invalid length" [FStr s])
    else if negb (all_ascii_digits digits)
    then Some (Errorf "To: %q contains non-digit characters" [FStr s])
    else None.

Definition ensureWhatsAppPrefix (addr : string) : string :=
  if HasPrefix addr whatsappPrefix then addr else whatsappPrefix +:+ addr.

Definition stripWhatsAppPrefix (addr : string) : string := TrimPrefix addr whatsappPrefix.

Definition pickBody (msg : Message) : string :=
  if negb (TrimSpace (mBody msg) =? "")%string then mBody msg else mTitle msg.

Section client.
Context {W : Type} (c : TwilioClient W)
  (request_error : string -> option error)                       (* http.NewRequestWithContext *)
  (decode_message : string -> result error messageResponse)       (* json.Unmarshal *)
  (decode_error : string -> option (Z * string)).                 (* json.Unmarshal: code, message *)

Definition pickFrom : string * string :=
  if negb (messagingServiceSID c =? "")%string then ("MessagingServiceSid", messagingServiceSID c)
  else ("From", twFrom c).

Definition twilio_endpoint : string :=
  twBaseURL c +:+ "/" +:+ apiVersion +:+ "/Accounts/" +:+ accountSID c +:+ "/Messages.json".

Definition twilio_request (form : Values) : Request :=
  mkRequest "POST" twilio_endpoint
    (list_to_map [("Content-Type", "application/x-www-form-urlencoded"); ("Accept", "application/json");
                  ("Authorization", "Basic " +:+ basicAuth (accountSID c) (authToken c))])
    (Encode form).

(** The answer to a response that was read: [body] is its text. *)
Definition twilio_answer (status : Z) (body : string) : result error messageResponse :=
  if (200 <=? status) && (status <? 300) then
    match decode_message body with
    | Err err => Err (ErrorfW "twilio: decode response: %w" [] err)
    | Ok out => Ok out
    end
  else
    let generic :=
      let snippet := TrimSpace body in
      let snippet := if (200 <? String.length snippet)%nat
                     then l2s (take 200 (s2l snippet)) +:+ "..." else snippet in
      Err (Errorf "twilio: http %d: %s" [FInt status; FStr snippet]) in
    match decode_error body with
    | Some (code, message) => if negb (code =? 0) then Err (TwilioError code message) else generic
    | None => generic
    end.

Definition sendMessage (form : Values) : M W (result error messageResponse) :=
  match request_error twilio_endpoint with
  | Some err => mret (Err (ErrorfW "twilio: build request: %w" [] err))
  | None =>
      r ← twHTTP c (twilio_request form);
      mret (match r with
            | Err err => Err (ErrorfW "twilio: do request: %w" [] err)
            | Ok resp =>
                match respBody resp with
                | Err err => Err (ErrorfW "twilio: read response: %w" [] err)
                | Ok body => twilio_answer (StatusCode resp) body
                end
            end)
  end.

(** ** sms.go *)

Definition sms_form (to : string) (msg : Message) : Values :=
  <["Body" := pickBody msg]> (<[pickFrom.1 := pickFrom.2]> (<["To" := to]> ∅)).

Definition sms_Send (msg : Message) : M W (Receipt * option error) :=
  let to := TrimSpace (mTo msg) in
  match validateE164 to with
  | Some err => mret (failed_receipt, Some (ErrorfW "twilio sms: %w" [] err))
  | None =>
      resp ← sendMessage (sms_form to msg);
      mret (match resp with
            | Err err => (failed_receipt, Some (ErrorfW "twilio sms: send: %w" [] err))
            | Ok resp => (mkReceipt (mrSID resp) StatusDelivered, None)
            end)
  end.

Definition NewSMS : Provider W := mkProvider ChannelSMS "twilio" sms_Send.

(** ** whatsapp.go *)

Definition whatsapp_form (to : string) (msg : Message) : Values :=
  let '(fromKey, fromVal) := pickFrom in
  let fromVal := if (fromKey =? "From")%string then ensureWhatsAppPrefix fromVal else fromVal in
  <["Body" := pickBody msg]> (<[fromKey := fromVal]> (<["To" := ensureWhatsAppPrefix to]> ∅)).

Definition whatsapp_Send (msg : Message) : M W (Receipt * option error) :=
  let to := TrimSpace (mTo msg) in
  match validateE164 (stripWhatsAppPrefix to) with
  | Some err => mret (failed_receipt, Some (ErrorfW "twilio whatsapp: %w" [] err))
  | None =>
      resp ← sendMessage (whatsapp_form to msg);
      mret (match resp with
            | Err err => (failed_receipt, Some (ErrorfW "twilio whatsapp: send: %w" [] err))
            | Ok resp => (mkReceipt (mrSID resp) StatusDelivered, None)
            end)
  end.

Definition NewWhatsApp : Provider W := mkProvider ChannelWhatsApp "twilio" whatsapp_Send.

End client.
