(* ===== verification/Fcm.v ===== *)
(** * channels/fcm: mobile push over Firebase Cloud Messaging

    The HTTP v1 send.  The JSON codec, url.JoinPath and the OAuth token source
    (golang.org/x/oauth2) are parameters. *)

From S2P Require Import Prelude GoErrors GoStrings Model Config Http.

Definition fcm_defaultBaseURL : string := "https://fcm.googleapis.com".

Record fcmNotification := mkFcmNotification { fnTitle : string; fnBody : string }.
Record fcmMessage := mkFcmMessage {
  fmToken : string; fmNotification : option fcmNotification; fmData : gmap string string;
}.

Record fcmDetail := mkFcmDetail { fdType : string; fdErrorCode : string }.
Record fcmErrorEnvelope := mkFcmErrorEnvelope {
  feCode : Z; feMessage : string; feStatus : string; feDetails : list fcmDetail;
}.

(** A token source yields the value of the Authorization header. *)
Definition TokenSource (W : Type) : Type := M W (result error string).

Record FcmProvider (W : Type) := mkFcmProvider {
  fpProjectID : string;
  fpBaseURL : string;
  fpHTTP : HttpClient W;
  fpTokens : TokenSource W;
}.
Arguments mkFcmProvider {W}.
Arguments fpProjectID {W}.
Arguments fpBaseURL {W}.
Arguments fpHTTP {W}.
Arguments fpTokens {W}.

Definition fcm_WithHTTPClient {W} (c : option (HttpClient W)) (p : FcmProvider W) : FcmProvider W :=
  match c with
  | Some c => mkFcmProvider (fpProjectID p) (fpBaseURL p) c (fpTokens p)
  | None => p
  end.

Definition WithTokenSource {W} (ts : option (TokenSource W)) (p : FcmProvider W) : FcmProvider W :=
  match ts with
  | Some ts => mkFcmProvider (fpProjectID p) (fpBaseURL p) (fpHTTP p) ts
  | None => p
  end.

Definition SetBaseURL {W} (u : string) (p : FcmProvider W) : FcmProvider W :=
  mkFcmProvider (fpProjectID p) (TrimRightByte u "/"%char) (fpHTTP p) (fpTokens p).

(** [jwt_config] is google.JWTConfigFromJSON with the token source it makes. *)
Definition fcm_New {W} (defaultClient : HttpClient W) (jwt_config : string -> result error (TokenSource W))
    (cfg : MobilePushConfig) (opts : list (FcmProvider W -> FcmProvider W)) : result error (FcmProvider W) :=
  if (mcFCMProjectID cfg =? "")%string then Err (ErrorsNew "fcm: FCMProjectID is required")
  else if (mcFCMCredentialsJSON cfg =? "")%string then Err (ErrorsNew "fcm: FCMCredentialsJSON is required")
  else match jwt_config (mcFCMCredentialsJSON cfg) with
       | Err err => Err (ErrorfW "fcm: parse credentials: %w" [] err)
       | Ok tokens =>
           Ok (fold_left (fun p opt => opt p) opts
                 (mkFcmProvider (mcFCMProjectID cfg) fcm_defaultBaseURL defaultClient tokens))
       end.

(** ** Errors *)

Definition isUnregistered (httpStatus : Z) (env : fcmErrorEnvelope) : bool :=
  existsb (fun d => (fdErrorCode d =? "UNREGISTERED")%string) (feDetails env)
  || (httpStatus =? 404)
  || (feStatus env =? "NOT_FOUND")%string.

Definition ellipsis : string := String (chr 226) (String (chr 128) (String (chr 166) "")).

Definition summarise (env : fcmErrorEnvelope) (raw : string) : string :=
  if negb (feMessage env =? "")%string then feMessage env
  else if negb (feStatus env =? "")%string then feStatus env
  else if (String.length raw =? 0)%nat then "(empty body)"
  else if (512 <? String.length raw)%nat then l2s (take 512 (s2l raw)) +:+ ellipsis
  else raw.

Section send.
Context {W : Type} (p : FcmProvider W)
  (marshal : fcmMessage -> result error string)
  (join_path : string -> list string -> result error string)
  (request_error : string -> option error)
  (decode_ok : string -> result error string)             (* fcmSendResponse's name *)
  (* what json.Unmarshal leaves in a zero envelope, its error ignored *)
  (decode_envelope : string -> fcmErrorEnvelope).

Definition fcm_message (msg : Message) : fcmMessage :=
  mkFcmMessage (mTo msg)
    (if negb (mTitle msg =? "")%string || negb (mBody msg =? "")%string
     then Some (mkFcmNotification (mTitle msg) (mBody msg)) else None)
    (mData msg).

(** The receipt of a response that was read. *)
Definition fcm_answer (status : Z) (body : string) : Receipt * option error :=
  if status =? 200 then
    match decode_ok body with
    | Err err => (failed_receipt, Some (ErrorfW "fcm: decode success: %w" [] err))
    | Ok name => (mkReceipt name StatusDelivered, None)
    end
  else
    let apiErr := decode_envelope body in
    if isUnregistered status apiErr
    then (failed_receipt, Some (ErrorfW "%w: %s" [FStr (summarise apiErr body)] ErrUnregisteredToken))
    else (failed_receipt,
          Some (Errorf "fcm: send failed (http %d): %s" [FInt status; FStr (summarise apiErr body)])).

Definition fcm_Send (msg : Message) : M W (Receipt * option error) :=
  let fail err := mret (failed_receipt, Some err) in
  if (mTo msg =? "")%string then fail (ErrorsNew "fcm: empty device token") else
  match marshal (fcm_message msg) with
  | Err err => fail (ErrorfW "fcm: marshal payload: %w" [] err)
  | Ok buf =>
      match join_path (fpBaseURL p) ["/v1/projects/"; fpProjectID p; "/messages:send"] with
      | Err err => fail (ErrorfW "fcm: build endpoint: %w" [] err)
      | Ok endpoint =>
          match request_error endpoint with
          | Some err => fail (ErrorfW "fcm: build request: %w" [] err)
          | None =>
              tok ← fpTokens p;
              match tok with
              | Err err => fail (ErrorfW "fcm: mint access token: %w" [] err)
              | Ok auth =>
                  r ← fpHTTP p (mkRequest "POST" endpoint
                        (list_to_map [("Content-Type", "application/json"); ("Authorization", auth)]) buf);
                  mret (match r with
                        | Err err => (failed_receipt, Some (ErrorfW "fcm: post: %w" [] err))
                        | Ok resp =>
                            match respBody resp with
                            | Err err => (failed_receipt, Some (ErrorfW "fcm: read response: %w" [] err))
                            | Ok body => fcm_answer (StatusCode resp) body
                            end
                        end)
              end
          end
      end
  end.

Definition fcm_provider : Provider W := mkProvider ChannelMobilePush "fcm" fcm_Send.
End send.
