(* ===== verification/Webpush.v ===== *)
(** * channels/webpush: VAPID web push

    The push library (github.com/SherClockHolmes/webpush-go), which encrypts and
    posts, is a parameter, as are the JSON codec and url.Parse. *)

From S2P Require Import Prelude GoErrors GoStrings Model Config Http.

Definition defaultTTL : Z := 60.
Definition UrgencyNormal : string := "normal".

(** wp.Subscription *)
Record Subscription := mkSubscription { Endpoint : string; Auth : string; P256dh : string }.

(** wp.Options *)
Record PushOptions := mkPushOptions {
  Subscriber : string; VAPIDPublicKey : string; VAPIDPrivateKey : string; TTL : Z; Urgency : string;
}.

Record pushPayload := mkPushPayload { ppTitle : string; ppBody : string; ppData : gmap string string }.

Record WebPushProvider := mkWebPushProvider { wpCfg : WebPushConfig; wpTTL : Z; wpUrgency : string }.

Definition WithTTL (seconds : Z) (p : WebPushProvider) : WebPushProvider :=
  if 0 <? seconds then mkWebPushProvider (wpCfg p) seconds (wpUrgency p) else p.

Definition WithUrgency (u : string) (p : WebPushProvider) : WebPushProvider :=
  if negb (u =? "")%string then mkWebPushProvider (wpCfg p) (wpTTL p) u else p.

Definition validateSubscriber (parse_url : string -> option error) (s : string) : option error :=
  if (s =? "")%string then Some (ErrorsNew "webpush: ContactEmail is required")
  else if HasPrefix s "mailto:" then None
  else if HasPrefix s "https://" then
    match parse_url s with
    | Some err => Some (ErrorfW "webpush: ContactEmail: invalid https URL: %w" [] err)
    | None => None
    end
  else match IndexByte s "@"%char with
       | Some i => if (0 <? i)%nat && (i <? String.length s - 1)%nat then None
                   else Some (Errorf "webpush: ContactEmail must be a mailto: address or https URL, got %q" [FStr s])
       | None => Some (Errorf "webpush: ContactEmail must be a mailto: address or https URL, got %q" [FStr s])
       end.

Definition webpush_New (parse_url : string -> option error) (cfg : WebPushConfig)
    (opts : list (WebPushProvider -> WebPushProvider)) : result error WebPushProvider :=
  if (wcVAPIDPublic cfg =? "")%string then Err (ErrorsNew "webpush: VAPIDPublic is required")
  else if (wcVAPIDPrivate cfg =? "")%string then Err (ErrorsNew "webpush: VAPIDPrivate is required")
  else match validateSubscriber parse_url (wcContactEmail cfg) with
       | Some err => Err err
       | None => Ok (fold_left (fun p opt => opt p) opts (mkWebPushProvider cfg defaultTTL UrgencyNormal))
       end.

(** json.Unmarshal into a zero Subscription: missing members stay empty. *)
Definition decodeSubscription (unmarshal : string -> result error Subscription) (raw : string)
    : result error Subscription :=
  if (raw =? "")%string then Err (ErrorsNew "webpush: subscription is empty") else
  match unmarshal raw with
  | Err err => Err (ErrorfW "webpush: decode subscription: %w" [] err)
  | Ok s =>
      if (Endpoint s =? "")%string then Err (ErrorsNew "webpush: subscription missing endpoint")
      else if (Auth s =? "")%string || (P256dh s =? "")%string
      then Err (ErrorsNew "webpush: subscription missing keys (auth and p256dh required)")
      else Ok s
  end.

Section send.
Context {W : Type} (p : WebPushProvider)
  (unmarshal : string -> result error Subscription)
  (marshal : pushPayload -> result error string)
  (* wp.SendNotificationWithContext: the status, and the body up to 4 KiB *)
  (send_notification : string -> Subscription -> PushOptions -> M W (result error (Z * string))).

Definition push_options : PushOptions :=
  mkPushOptions (wcContactEmail (wpCfg p)) (wcVAPIDPublic (wpCfg p)) (wcVAPIDPrivate (wpCfg p))
    (wpTTL p) (wpUrgency p).

Definition webpush_answer (status : Z) (body : string) : Receipt * option error :=
  if (status =? 200) || (status =? 201) || (status =? 202) then (mkReceipt "" StatusDelivered, None)
  else if status =? 410 then (failed_receipt, Some ErrSubscriptionGone)
  else (failed_receipt,
        Some (Errorf "webpush: push service returned %d: %s" [FInt status; FStr (TrimSpace body)])).

Definition webpush_Send (msg : Message) : M W (Receipt * option error) :=
  match decodeSubscription unmarshal (mTo msg) with
  | Err err => mret (failed_receipt, Some err)
  | Ok sub =>
      match marshal (mkPushPayload (mTitle msg) (mBody msg) (mData msg)) with
      | Err err => mret (failed_receipt, Some (ErrorfW "webpush: marshal payload: %w" [] err))
      | Ok body =>
          r ← send_notification body sub push_options;
          mret (match r with
                | Err err => (failed_receipt, Some (ErrorfW "webpush: send: %w" [] err))
                | Ok (status, body) => webpush_answer status body
                end)
      end
  end.

Definition webpush_provider : Provider W := mkProvider ChannelWebPush "vapid" webpush_Send.
End send.
