(* ===== verification/ChannelProps.v ===== *)
(** * What the channel providers guarantee

    Every provider keeps channel.go's contract, so the rows Notify leaves behind
    carry one of three statuses; a malformed recipient never reaches Twilio; and
    the two "address is gone" errors are reported exactly when the push service
    says so. *)

From S2P Require Import Prelude GoErrors GoStrings Model StoreSpec StoreOps Memory MemoryProps.
From S2P Require Import Notifier NotifierProps Wire Realtime Stream Config Http Email Twilio Fcm.
From S2P Require Import Webpush.

(** ** The contract, provider by provider *)

(** Read the receipt off a provider that is a tree of tests and effects. *)
Ltac receipt_cases :=
  repeat match goal with
  | |- context [match ?x with _ => _ end] => destruct x
  end; intros; simplify_eq; auto.

#[export] Instance sms_contract {W} (c : TwilioClient W) re dm de : ProviderContract (NewSMS c re dm de).
Proof.
  split; intros msg w w' r; simpl; unfold sms_Send, sendMessage; unfold_M; receipt_cases.
Qed.

#[export] Instance whatsapp_contract {W} (c : TwilioClient W) re dm de :
  ProviderContract (NewWhatsApp c re dm de).
Proof.
  split; intros msg w w' r; simpl; unfold whatsapp_Send, sendMessage; unfold_M; receipt_cases.
Qed.

#[export] Instance fcm_contract {W} (p : FcmProvider W) m j re dk de :
  ProviderContract (fcm_provider p m j re dk de).
Proof.
  split; intros msg w w' r; simpl; unfold fcm_Send, fcm_answer; unfold_M; receipt_cases.
Qed.

#[export] Instance webpush_contract {W} (p : WebPushProvider) u m send :
  ProviderContract (W := W) (webpush_provider p u m send).
Proof.
  split; intros msg w w' r; simpl; unfold webpush_Send, webpush_answer; unfold_M; receipt_cases.
Qed.

#[export] Instance inapp_contract : ProviderContract newInAppProvider.
Proof.
  split; intros msg w w' r; simpl; unfold inapp_Send; unfold_M; receipt_cases.
Qed.

(** ** The rows Notify leaves behind *)

Definition live_status (st : DeliveryStatus) : Prop :=
  st = StatusPending \/ st = StatusDelivered \/ st = StatusFailed.

Section rows_pred.
Context {W : Type} (n : NotifierT W) `{HS : !StoreLaws (nStore n)} {HE : NotifyEnv n}
  (Hcontract : forall kind p, Get (nProviders n) kind = Some p -> ProviderContract p)
  (P : string -> Notification -> Prop) (req : NotifyRequest)
  (Hstamp : forall st ms id r, live_status st -> P id r -> P id (stamped st ms r)).

(** A property of every row that the fan-out creates and that recording an
    outcome keeps holds of every row afterwards. *)
Lemma notify_one_pred u kind res w : store_inv w ->
  (forall id ms, P id (set_nID id (new_row req u kind ms))) -> map_Forall P (rows w) ->
  map_Forall P (rows (notify_one n req u kind res w).1).
Proof.
  intros Hi Hnew Hall. destruct (notify_one_spec n req u kind res w Hi)
    as (w' & res' & id & r & r' & ms & sends & -> & Hsr & Hout & Hr & _). cbn. rewrite Hr.
  assert (HP : P id r) by (destruct Hsr as [[Hin _]|(_ & _ & t & ->)]; [by apply Hall|apply Hnew]).
  apply map_Forall_insert_2; [|done]. unfold live_status in Hstamp.
  destruct Hout as [Ha|p to w1 receipt err ms' Hp Ha Hs|p to w1 receipt ms' Hp Ha Hs]; [done|apply Hstamp; auto|].
  apply Hstamp; [|done]. destruct (Send p (message_for req (set_nID id (new_row req u kind ms)) to) w1) as [w2 out] eqn:Hsend.
  cbn in Hs. subst out. destruct (Hcontract _ _ Hp) as [_ Hok]. destruct (Hok _ _ _ _ Hsend) as [->| ->]; cbn; auto.
Qed.

Lemma notify_channels_pred u kinds : forall res w, store_inv w ->
  (forall kind id ms, kind ∈ kinds -> P id (set_nID id (new_row req u kind ms))) -> map_Forall P (rows w) ->
  map_Forall P (rows (notify_channels n req u kinds res w).1).
Proof.
  induction kinds as [|kind kinds IH]; intros res w Hi Hnew Hall; cbn [notify_channels]; unfold_M; [done|].
  pose proof (notify_one_pred u kind res w Hi (fun id ms => Hnew kind id ms ltac:(by left)) Hall) as H1.
  destruct (notify_one_spec n req u kind res w Hi) as (w' & res' & id & r & r' & ms & sends & He & _ & _ & _ & Hst & _).
  rewrite He in *. apply IH; [apply Hst| |done]. intros k i t Hk. apply Hnew. by right.
Qed.

Lemma notify_pred `{MapOrder} w : store_inv w ->
  (forall u kind id ms, kind ∈ channels_of n req -> P id (set_nID id (new_row req u kind ms))) ->
  map_Forall P (rows w) -> map_Forall P (rows (Notify n req w).1).
Proof.
  unfold Notify. generalize (channels_of n req), (mkNotifyResult 0 0 0). intros kinds.
  revert w. induction (rUserIDs req) as [|u users IH]; intros w res Hi Hnew Hall; cbn [notify_users]; unfold_M; [done|].
  pose proof (notify_channels_pred u kinds res w Hi (Hnew u) Hall) as H1.
  destruct (notify_channels_stage n req u kinds res w Hi) as (w' & res' & He & Hst & _).
  rewrite He in *. apply IH; [apply Hst|done..].
Qed.
End rows_pred.

(** Notify leaves no row in an undefined state: with providers that keep the channel contract,
    as every provider of this repository does, each row it creates or touches ends as pending,
    delivered or failed, and all other rows are as they were. *)
Theorem notify_statuses {W} (n : NotifierT W) {HS : StoreLaws (nStore n)}
    {HE : NotifyEnv n} `{MapOrder} (req : NotifyRequest) (w : W) :
  (forall kind p, Get (nProviders n) kind = Some p -> ProviderContract p) -> store_inv w ->
  forall id r, rows (Notify n req w).1 !! id = Some r ->
    rows w !! id = Some r \/
    nStatus r = StatusPending \/ nStatus r = StatusDelivered \/ nStatus r = StatusFailed.
Proof.
  intros Hc Hi. apply (notify_pred n Hc (fun id r => rows w !! id = Some r \/ live_status (nStatus r))); [|done|..].
  - intros st ms id r Hst _. by right.
  - intros u kind id ms _. right. by left.
  - intros id r Hr. by left.
Qed.

(** ** Twilio *)

(** ValidateE164 accepts exactly a plus sign followed by six to fifteen ASCII digits. *)
Theorem e164_spec s :
  validateE164 s = None <->
  exists digits, s = "+" +:+ digits /\ all_digits digits = true /\
    (6 <= String.length digits <= 15)%nat.
Proof.
  assert (Hall : forall d, all_ascii_digits d = all_digits d) by (by induction d; simpl; congruence).
  unfold validateE164. destruct (String.eqb_spec s "") as [->|Hne].
  { split; [done|]. by intros ([|? ?] & He & _). }
  destruct (HasPrefix s "+") eqn:Hp; cbn [negb].
  - apply HasPrefix_spec in Hp as [d ->].
    replace (slice_from 1 ("+" +:+ d)) with d by (symmetry; apply (slice_from_append "+" d)).
    rewrite Hall. split.
    + destruct ((String.length d <? 6)%nat || (15 <? String.length d)%nat) eqn:Hl; [done|].
      destruct (all_digits d) eqn:Hd; [intros _|done]. exists d.
      apply orb_false_iff in Hl as [H1%Nat.ltb_ge H2%Nat.ltb_ge]. done.
    + intros (d' & He & Hd & Hlen). rewrite !append_cons, !append_nil in He. injection He as <-.
      rewrite Hd. clear Hd.
      rewrite (proj2 (Nat.ltb_ge _ _)), (proj2 (Nat.ltb_ge _ _)) by lia. done.
  - split; [done|]. intros (d & -> & _). by rewrite HasPrefix_append in Hp.
Qed.

(** When the answer to a request is a message. *)
Definition accepted_by {W} (dm : string -> result error messageResponse)
    (r : W * result error Response) (m : messageResponse) : Prop :=
  exists resp body, r.2 = Ok resp /\ respBody resp = Ok body /\ 200 <= StatusCode resp < 300 /\ dm body = Ok m.

Lemma twilio_answer_ok dm de status body (m : messageResponse) :
  twilio_answer dm de status body = Ok m <-> 200 <= status < 300 /\ dm body = Ok m.
Proof.
  unfold twilio_answer. destruct (Z.leb_spec 200 status), (Z.ltb_spec status 300); simpl;
    try (split; [|lia]; destruct (de body) as [[code text]|]; [destruct (negb _)|]; done).
  destruct (dm body); naive_solver.
Qed.

Lemma sendMessage_spec {W} (c : TwilioClient W) dm de form w :
  let r := twHTTP c (twilio_request c form) w in
  let '(w', resp) := sendMessage c (fun _ => None) dm de form w in
  w' = r.1 /\ forall m, resp = Ok m <-> accepted_by dm r m.
Proof.
  unfold sendMessage, accepted_by. unfold_M.
  destruct (twHTTP c (twilio_request c form) w) as [w1 [resp|err]]; simpl; (split; [done|]); intros m;
    [|by split; [|intros (? & ? & ? & _)]].
  split.
  - destruct (respBody resp) as [body|err] eqn:Hb; [|done]. rewrite twilio_answer_ok. by exists resp, body.
  - intros (? & body & [= <-] & -> & H). by apply twilio_answer_ok.
Qed.

(** The sender of a form: the messaging service when there is one, else the
    static number, never both. *)
Definition sender_of {W} (c : TwilioClient W) (from : string) (form : Values) : Prop :=
  if (messagingServiceSID c =? "")%string
  then form !! "From" = Some from /\ form !! "MessagingServiceSid" = None
  else form !! "From" = None /\ form !! "MessagingServiceSid" = Some (messagingServiceSID c).

Lemma form_lookup {W} (c : TwilioClient W) to from body :
  let form : Values := <["Body" := body]> (<[(if (messagingServiceSID c =? "")%string then "From"
    else "MessagingServiceSid") := (if (messagingServiceSID c =? "")%string then from
    else messagingServiceSID c)]> (<["To" := to]> ∅)) in
  form !! "To" = Some to /\ form !! "Body" = Some body /\ sender_of c from form.
Proof. unfold sender_of. by destruct (messagingServiceSID c =? "")%string. Qed.

(** An SMS goes out only to a well-formed number.  If the trimmed recipient is not E.164, Send
    fails without touching the network; otherwise it makes exactly one POST to the account's
    Messages resource, whose form carries that number, the body (or the title when the body is
    blank) and one sender, and the receipt is delivered, with Twilio's id, exactly when Twilio
    answers 2xx with a message. *)
Theorem sms_send {W} (c : TwilioClient W) dm de msg w :
  let to := TrimSpace (mTo msg) in
  let '(w', out) := sms_Send c (fun _ => None) dm de msg w in
  match validateE164 to with
  | Some err => w' = w /\ out = (failed_receipt, Some (ErrorfW "twilio sms: %w" [] err))
  | None => exists form, let r := twHTTP c (twilio_request c form) w in
      w' = r.1 /\ form !! "To" = Some to /\ form !! "Body" = Some (pickBody msg) /\
      sender_of c (twFrom c) form /\
      (forall id, out = (mkReceipt id StatusDelivered, None) <-> exists m, accepted_by dm r m /\ id = mrSID m)
  end.
Proof.
  intros to. unfold sms_Send. fold to. destruct (validateE164 to) as [err|]; [done|]. unfold_M.
  pose proof (sendMessage_spec c dm de (sms_form c to msg) w) as Hs.
  destruct (sendMessage c _ dm de (sms_form c to msg) w) as [w' resp]. destruct Hs as [-> Hs].
  exists (sms_form c to msg).
  pose proof (form_lookup c to (twFrom c) (pickBody msg)) as Hf.
  unfold sms_form, pickFrom in *.
  destruct (messagingServiceSID c =? "")%string; simpl in *; (split; [done|]);
    (split_and!; [apply Hf..|]); intros id; (split; [|intros (m & Hm & ->); by apply Hs in Hm as ->]);
    destruct resp as [m|err]; try done; intros [= <-]; exists m; split; try done; by apply Hs.
Qed.

(** WhatsApp addresses carry the whatsapp: marker exactly once.  Whether or not the recipient
    and the configured sender already have it, a message goes out only to whatsapp:<E.164 number>,
    from the messaging service as it is or from whatsapp:<static number>, and marking an address
    twice is marking it once; anything else fails without touching the network. *)
Theorem whatsapp_send {W} (c : TwilioClient W) dm de msg w :
  let to := TrimSpace (mTo msg) in
  let number := stripWhatsAppPrefix to in
  ensureWhatsAppPrefix (ensureWhatsAppPrefix to) = ensureWhatsAppPrefix to /\
  ensureWhatsAppPrefix to = whatsappPrefix +:+ number /\
  let '(w', out) := whatsapp_Send c (fun _ => None) dm de msg w in
  match validateE164 number with
  | Some err => w' = w /\ out = (failed_receipt, Some (ErrorfW "twilio whatsapp: %w" [] err))
  | None => exists form, let r := twHTTP c (twilio_request c form) w in
      w' = r.1 /\ form !! "To" = Some (whatsappPrefix +:+ number) /\
      form !! "Body" = Some (pickBody msg) /\
      sender_of c (whatsappPrefix +:+ stripWhatsAppPrefix (twFrom c)) form /\
      (forall id, out = (mkReceipt id StatusDelivered, None) <-> exists m, accepted_by dm r m /\ id = mrSID m)
  end.
Proof.
  intros to number.
  assert (Hens : forall a, ensureWhatsAppPrefix a = whatsappPrefix +:+ stripWhatsAppPrefix a).
  { intros a. unfold ensureWhatsAppPrefix, stripWhatsAppPrefix, TrimPrefix.
    destruct (HasPrefix a whatsappPrefix) eqn:Hp; [|done]. apply HasPrefix_spec in Hp as [t ->].
    by rewrite slice_from_append. }
  split; [|split; [apply Hens|]].
  { unfold ensureWhatsAppPrefix at 1. by rewrite Hens, HasPrefix_append. }
  unfold whatsapp_Send. fold to number. destruct (validateE164 number) as [err|]; [done|]. unfold_M.
  pose proof (sendMessage_spec c dm de (whatsapp_form c to msg) w) as Hs.
  destruct (sendMessage c _ dm de (whatsapp_form c to msg) w) as [w' resp]. destruct Hs as [-> Hs].
  exists (whatsapp_form c to msg).
  pose proof (form_lookup c (ensureWhatsAppPrefix to) (ensureWhatsAppPrefix (twFrom c)) (pickBody msg)) as Hf.
  unfold number. rewrite <- !Hens. unfold whatsapp_form, pickFrom in *.
  destruct (messagingServiceSID c =? "")%string; simpl in *; (split; [done|]);
    (split_and!; [apply Hf..|]); intros id; (split; [|intros (m & Hm & ->); by apply Hs in Hm as ->]);
    destruct resp as [m|err]; try done; intros [= <-]; exists m; split; try done; by apply Hs.
Qed.

(** ** Firebase *)

Section fcm.
Context {W : Type} (p : FcmProvider W) (marshal : fcmMessage -> result error string)
  (join_path : string -> list string -> result error string)
  (decode_ok : string -> result error string) (decode_envelope : string -> fcmErrorEnvelope).

(** The request of a send: what is posted, and where. *)
Definition fcm_posts (msg : Message) (w w1 : W) (req : Request) : Prop :=
  exists buf endpoint auth,
    marshal (fcm_message msg) = Ok buf /\
    join_path (fpBaseURL p) ["/v1/projects/"; fpProjectID p; "/messages:send"] = Ok endpoint /\
    fpTokens p w = (w1, Ok auth) /\
    req = mkRequest "POST" endpoint
            (list_to_map [("Content-Type", "application/json"); ("Authorization", auth)]) buf.

Lemma fcm_Send_posts msg w w1 req : mTo msg <> "" -> fcm_posts msg w w1 req ->
  fcm_Send p marshal join_path (fun _ => None) decode_ok decode_envelope msg w =
    let '(w2, r) := fpHTTP p req w1 in
    (w2, match r with
         | Err err => (failed_receipt, Some (ErrorfW "fcm: post: %w" [] err))
         | Ok resp => match respBody resp with
                      | Err err => (failed_receipt, Some (ErrorfW "fcm: read response: %w" [] err))
                      | Ok body => fcm_answer decode_ok decode_envelope (StatusCode resp) body
                      end
         end).
Proof.
  intros Hto (buf & endpoint & auth & Hm & Hj & Ht & ->). unfold fcm_Send.
  rewrite (proj2 (String.eqb_neq _ _) Hto), Hm, Hj. unfold_M. rewrite Ht.
  by destruct (fpHTTP p _ w1) as [w2 r].
Qed.

(** Google says that the registration token is gone. *)
Definition token_gone (status : Z) (env : fcmErrorEnvelope) : Prop :=
  status = 404 \/ feStatus env = "NOT_FOUND" \/
  exists d, d ∈ feDetails env /\ fdErrorCode d = "UNREGISTERED".

Lemma isUnregistered_spec status env : isUnregistered status env = true <-> token_gone status env.
Proof.
  unfold isUnregistered, token_gone. rewrite !orb_true_iff, existsb_exists, Z.eqb_eq, String.eqb_eq.
  split.
  - intros [[(d & Hd & Hc%String.eqb_eq)|H]|H]; [|by left|by right; left].
    right; right. exists d. split; [by apply list_elem_of_In|done].
  - intros [H|[H|(d & Hd & Hc)]]; [by left; right|by right|left; left].
    exists d. split; [by apply list_elem_of_In|by apply String.eqb_eq].
Qed.

Lemma fcm_answer_gone status body :
  (forall e, decode_ok body = Err e -> errors_is e ErrUnregisteredToken = false) ->
  let '(_, err) := fcm_answer decode_ok decode_envelope status body in
  (exists e, err = Some e /\ errors_is e ErrUnregisteredToken = true) <->
  status <> 200 /\ token_gone status (decode_envelope body).
Proof.
  intros Hd. pose proof (isUnregistered_spec status (decode_envelope body)) as Hun. unfold fcm_answer. destruct (Z.eqb_spec status 200) as [->|Hs].
  - destruct (decode_ok body) as [name|e]; (split; [|by intros []]); [by intros (? & ? & _)|].
    intros (e' & [= <-] & H). specialize (Hd e eq_refl). revert H Hd. unfold errors_is.
    rewrite bool_decide_eq_true, bool_decide_eq_false. simpl. rewrite elem_of_cons. by intros [?|?].
  - destruct (isUnregistered status (decode_envelope body)).
    + split; [intros _; split; [done|by apply Hun]|]. intros _. eexists. split; [done|].
      apply errors_is_wrap, errors_is_refl.
    + split; [|intros [_ H]; by apply Hun in H]. intros (e & [= <-] & H). by vm_compute in H.
Qed.
End fcm.

(** C40: An FCM send posts the message once, with a fresh access token, and the answer decides: the
    push is delivered, under Google's name for it, exactly on a 200 that decodes, and the error is
    ErrUnregisteredToken exactly when the status is not 200 and the answer is a 404, says NOT_FOUND
    or has an UNREGISTERED detail; an empty device token never reaches the network. *)
Theorem fcm_send {W} (p : FcmProvider W) marshal join_path decode_ok decode_envelope msg w w1 req :
  fcm_posts p marshal join_path msg w w1 req ->
  (forall body e, decode_ok body = Err e -> errors_is e ErrUnregisteredToken = false) ->
  let '(w', (receipt, err)) := fcm_Send p marshal join_path (fun _ => None) decode_ok decode_envelope msg w in
  if (mTo msg =? "")%string then w' = w /\ receipt = failed_receipt /\ err <> None else
  w' = (fpHTTP p req w1).1 /\
  forall resp body, (fpHTTP p req w1).2 = Ok resp -> respBody resp = Ok body ->
    (forall name, receipt = mkReceipt name StatusDelivered /\ err = None <->
       StatusCode resp = 200 /\ decode_ok body = Ok name) /\
    ((exists e, err = Some e /\ errors_is e ErrUnregisteredToken = true) <->
       StatusCode resp <> 200 /\ token_gone (StatusCode resp) (decode_envelope body)).
Proof.
  intros Hp Hd. destruct (String.eqb_spec (mTo msg) "") as [Hto|Hto].
  { unfold fcm_Send. by rewrite Hto. }
  rewrite (fcm_Send_posts _ _ _ _ _ _ _ _ _ Hto Hp). destruct (fpHTTP p req w1) as [w2 r]. simpl.
  destruct r as [resp|e]; [|by split]. destruct (respBody resp) as [body|e] eqn:Hb.
  2:{ split; [done|]. intros resp' body' [= <-]. by rewrite Hb. }
  pose proof (fcm_answer_gone decode_ok decode_envelope (StatusCode resp) body (Hd body)) as Hg.
  destruct (fcm_answer decode_ok decode_envelope (StatusCode resp) body) as [receipt err] eqn:Ha.
  split; [done|]. intros ? ? [= <-]. rewrite Hb. intros [= <-]. split; [|done]. clear Hg.
  unfold fcm_answer in Ha. intros name. destruct (Z.eqb_spec (StatusCode resp) 200) as [Hs|Hs].
  - destruct (decode_ok body) as [n|e]; injection Ha as <- <-; naive_solver.
  - destruct (isUnregistered _ _); injection Ha as <- <-; naive_solver.
Qed.

(** ** Web push *)

(** A subscription the push library can encrypt for. *)
Definition complete (s : Subscription) : Prop := Endpoint s <> "" /\ Auth s <> "" /\ P256dh s <> "".

Lemma decodeSubscription_spec unmarshal raw s :
  decodeSubscription unmarshal raw = Ok s <-> raw <> "" /\ unmarshal raw = Ok s /\ complete s.
Proof.
  unfold decodeSubscription, complete. destruct (String.eqb_spec raw "") as [->|Hr]; [naive_solver|].
  destruct (unmarshal raw) as [s'|e]; [|naive_solver].
  destruct (String.eqb_spec (Endpoint s') ""), (String.eqb_spec (Auth s') ""),
    (String.eqb_spec (P256dh s') ""); simpl; naive_solver.
Qed.

Lemma webpush_answer_spec status answer :
  let '(receipt, err) := webpush_answer status answer in
  (err = None <-> status ∈ [200; 201; 202]) /\
  (err = None <-> receipt = mkReceipt "" StatusDelivered) /\
  (err = Some ErrSubscriptionGone <-> status = 410).
Proof.
  unfold webpush_answer.
  destruct (Z.eqb_spec status 200), (Z.eqb_spec status 201), (Z.eqb_spec status 202),
    (Z.eqb_spec status 410); simpl; rewrite !elem_of_cons, elem_of_nil;
    split_and!; split; intros; try done; try lia; tauto.
Qed.

(** A web push reaches the push library only with a complete subscription, signed with the
    configured VAPID identity, at most once; it is delivered exactly when the push service answers
    200, 201 or 202, and the error is ErrSubscriptionGone exactly on a 410. *)
Theorem webpush_send {W} (p : WebPushProvider) unmarshal marshal
    (send : string -> Subscription -> PushOptions -> M W (result error (Z * string))) msg (w : W) :
  let '(w', (receipt, err)) := webpush_Send p unmarshal marshal send msg w in
  (w' = w /\ receipt = failed_receipt /\ err <> None /\
     ((forall s, unmarshal (mTo msg) = Ok s -> mTo msg <> "" -> ~ complete s) \/
      forall b, marshal (mkPushPayload (mTitle msg) (mBody msg) (mData msg)) <> Ok b)) \/
  exists s body, unmarshal (mTo msg) = Ok s /\ mTo msg <> "" /\ complete s /\
    marshal (mkPushPayload (mTitle msg) (mBody msg) (mData msg)) = Ok body /\
    let options := mkPushOptions (wcContactEmail (wpCfg p)) (wcVAPIDPublic (wpCfg p))
                     (wcVAPIDPrivate (wpCfg p)) (wpTTL p) (wpUrgency p) in
    let r := send body s options w in
    w' = r.1 /\
    forall status answer, r.2 = Ok (status, answer) ->
      (err = None <-> status ∈ [200; 201; 202]) /\
      (err = None <-> receipt = mkReceipt "" StatusDelivered) /\
      (err = Some ErrSubscriptionGone <-> status = 410).
Proof.
  unfold webpush_Send. pose proof (decodeSubscription_spec unmarshal (mTo msg)) as Hdec.
  destruct (decodeSubscription unmarshal (mTo msg)) as [s|e]; unfold_M.
  2:{ left. split_and!; try done. left. intros s Hu Hne Hc. by discriminate (proj2 (Hdec s)). }
  destruct (proj1 (Hdec s) eq_refl) as (Hne & Hu & Hc). clear Hdec.
  destruct (marshal _) as [body|e] eqn:Hm; unfold_M; [|by left; naive_solver].
  unfold push_options. destruct (send body s _ w) as [w1 [[status answer]|e]] eqn:Hs;
    [pose proof (webpush_answer_spec status answer) as Ha;
     destruct (webpush_answer status answer) as [receipt err]|];
    right; exists s, body; cbv zeta; rewrite Hs; simpl; split_and!; try done; by intros ? ? [= <- <-].
Qed.

(** ** Witnesses *)

Definition email_notifier : NotifierT World :=
  NewNotifier world_now (lift_store wStore put_store sample_store)
    (Some (Register NewProviderRegistry (email_provider (mkEmailProvider "mail"
       (fun input w => (mkWorld (wStore w) (wClock w) (wLog w ++ [(ChannelEmail, eTo input)]),
          if (eTo input =? "bad")%string then Err (ErrorsNew "rejected") else Ok (mkSendEmailOutput "m1")))
       "from@acme.com")))) None.

#[export] Instance email_env : @NotifyEnv _ email_notifier sample_world_laws.
Proof.
  split.
  - done.
  - intros kind p m w Hp Hto Hi. unfold email_notifier, Get in Hp. simpl in Hp.
    apply lookup_insert_Some in Hp as [[<- <-]|[_ Hp]]; [|by rewrite lookup_empty in Hp].
    simpl. unfold email_Send. rewrite (proj2 (String.eqb_neq _ _) Hto). unfold_M. simpl.
    by destruct (mTo m =? "bad")%string.
Qed.

Lemma email_notifier_contract kind p : Get (nProviders email_notifier) kind = Some p -> ProviderContract p.
Proof.
  unfold email_notifier, Get. simpl. intros [[<- <-]|[_ Hp]]%lookup_insert_Some; [apply _|].
  by rewrite lookup_empty in Hp.
Qed.

(** A delivered and a rejected e-mail. *)
Definition two_emails : NotifyRequest :=
  mkNotifyRequest "acme" "n1" ["u1"; "u2"] [ChannelEmail] "" "" "t" "b"
    (<["u1" := {[ ChannelEmail := "bad" ]}]> (<["u2" := {[ ChannelEmail := "u2@acme.com" ]}]> ∅)).

Lemma notify_statuses_witness :
  let w' := (Notify (H := sample_order) email_notifier two_emails start).1 in
  nStatus <$> notifications (wStore w') !! "uuid-0" = Some StatusFailed /\
  nStatus <$> notifications (wStore w') !! "uuid-1" = Some StatusDelivered /\
  forall id r, notifications (wStore w') !! id = Some r -> (∅ : gmap string Notification) !! id = Some r \/
    nStatus r = StatusPending \/ nStatus r = StatusDelivered \/ nStatus r = StatusFailed.
Proof.
  split; [by vm_compute|]. split; [by vm_compute|].
  exact (@notify_statuses _ email_notifier sample_world_laws email_env sample_order two_emails start
    email_notifier_contract start_inv).
Defined.

(** Google answers that the token is gone. *)
Definition gone_fcm : FcmProvider World :=
  mkFcmProvider "proj" fcm_defaultBaseURL
    (fun req w => (w, Ok (mkResponse 404 (Ok "gone")))) (fun w => (w, Ok "Bearer t")).

Lemma fcm_send_witness :
  let env := mkFcmErrorEnvelope 404 "gone" "NOT_FOUND" [] in
  let msg := mkMessage None "token" "t" "b" ∅ in
  let '(_, (receipt, err)) := fcm_Send gone_fcm (fun _ => Ok "{}") (fun b _ => Ok b) (fun _ => None)
    (fun _ => Err (ErrorsNew "json")) (fun _ => env) msg start in
  (exists e, err = Some e /\ errors_is e ErrUnregisteredToken = true) <->
    404 <> 200 /\ token_gone 404 env.
Proof.
  intros env msg.
  pose proof (@fcm_send _ gone_fcm (fun _ => Ok "{}") (fun b _ => Ok b) (fun _ => Err (ErrorsNew "json"))
    (fun _ => env) msg start start
    (mkRequest "POST" fcm_defaultBaseURL
       (list_to_map [("Content-Type", "application/json"); ("Authorization", "Bearer t")]) "{}")
    ltac:(exists "{}", fcm_defaultBaseURL, "Bearer t"; by split_and!)
    ltac:(by intros body e [= <-])) as H.
  destruct H as [_ H]. exact (proj2 (H _ _ eq_refl eq_refl)).
Defined.
