(* ===== verification/Conformance.v ===== *)
(** * The conformance suite: store/conformance

    The driver-agnostic test suite that every backend runs, as programs over an
    arbitrary [Store].  A test body is a computation that may call the store,
    record a failure and go on ([t.Errorf]) or record one and stop
    ([t.Fatalf], a panic); [tRun] gives it a fresh [testing.T] and files its
    failures under its path.  Failures are kept by their format string.

    The concurrency tests start goroutines.  A goroutine is a [Proc]: its next
    access to shared state, and what it does then.  [interleave] runs a pool of
    them along a schedule; every interleaving is the run of some schedule, and
    the main goroutine waits for all of them before it goes on, as
    [sync.WaitGroup] and the N receives do. *)

From S2P Require Import Prelude GoErrors GoStrings Model.

(** ** package testing *)

Record TestState (W : Type) := mkTest {
  tWorld : W;
  tFailed : list string;
}.
Arguments mkTest {W}.
Arguments tWorld {W}.
Arguments tFailed {W}.

(** [None]: the test's goroutine has exited (FailNow). *)
Definition T (W A : Type) : Type := TestState W -> TestState W * option A.

#[global] Instance T_ret {W} : MRet (T W) := fun A a t => (t, Some a).
#[global] Instance T_bind {W} : MBind (T W) := fun A B f m t =>
  match m t with
  | (t', Some a) => f a t'
  | (t', None) => (t', None)
  end.

Definition tErrorf {W} (format : string) : T W unit :=
  fun t => (mkTest (tWorld t) (tFailed t ++ [format]), Some tt).

Definition tFatalf {W A} (format : string) : T W A :=
  fun t => (mkTest (tWorld t) (tFailed t ++ [format]), None).

(** A dereference of nil ends the test as well. *)
Definition tPanic {W A} : T W A := tFatalf "panic: nil pointer dereference".

(** A call of the code under test. *)
Definition call {W A} (m : M W A) : T W A :=
  fun t => let '(w, a) := m (tWorld t) in (mkTest w (tFailed t), Some a).

(** [if !b { t.Fatalf(format) }], [if !b { t.Errorf(format) }] *)
Definition require {W} (b : bool) (format : string) : T W unit :=
  if b then mret tt else tFatalf format.

Definition expect {W} (b : bool) (format : string) : T W unit :=
  if b then mret tt else tErrorf format.

(** [if err != nil { t.Fatalf(format, err) }] *)
Definition must {W A} (r : result error A) (format : string) : T W A :=
  match r with Ok a => mret a | Err _ => tFatalf format end.

Definition must_nil {W} (e : option error) (format : string) : T W unit :=
  match e with None => mret tt | Some _ => tFatalf format end.

(** [errors.Is(err, notify.ErrNotFound)] *)
Definition is_not_found {A} (r : result error A) : bool :=
  match r with Ok _ => false | Err e => errors_is e ErrNotFound end.

Fixpoint for_each {W A} (l : list A) (body : A -> T W unit) : T W unit :=
  match l with
  | [] => mret tt
  | a :: l => _ ← body a; for_each l body
  end.

Fixpoint fold_each {W A B} (l : list A) (acc : B) (body : B -> A -> T W B) : T W B :=
  match l with
  | [] => mret acc
  | a :: l => acc ← body acc a; fold_each l acc body
  end.

(** The failures of each subtest that has run, by path. *)
Definition Report : Type := list (string * list string).

Definition tRun {W} (path : string) (body : T W unit) : M (W * Report) unit :=
  fun '(w, rep) => let '(t, _) := body (mkTest w []) in
                   ((tWorld t, rep ++ [(path, tFailed t)]), tt).

(** ** Goroutines *)

(** A goroutine on the test state [X]: its next step and the rest, [None] when
    it returns. *)
Inductive Proc (X : Type) : Type :=
| PDone
| PStep (f : X -> X * option (Proc X)).
Arguments PDone {X}.
Arguments PStep {X}.

Definition proc_step {X} (p : Proc X) (x : X) : X * Proc X :=
  match p with
  | PDone => (x, PDone)
  | PStep f => match f x with (x', Some p') => (x', p') | (x', None) => (x', PDone) end
  end.

(** Run one goroutine until it returns. *)
Fixpoint finish {X} (p : Proc X) (x : X) : X :=
  match p with
  | PDone => x
  | PStep f => match f x with (x', Some p') => finish p' x' | (x', None) => x' end
  end.

(** The schedule names the goroutine that runs next; once it is used up the
    remaining ones run to their end in turn. *)
Fixpoint interleave {X} (sched : list nat) (ps : list (Proc X)) (x : X) : X :=
  match sched with
  | [] => foldl (fun x p => finish p x) x ps
  | i :: sched =>
      match ps !! i with
      | Some p => let '(x', p') := proc_step p x in interleave sched (<[i := p']> ps) x'
      | None => interleave sched ps x
      end
  end.

(** N goroutines, and the wait for all of them. *)
Definition parallel {W} (sched : list nat) (ps : list (Proc (TestState W))) : T W unit :=
  fun t => (interleave sched ps t, Some tt).

(** [ch := make(chan O, N)]: a buffered channel that lives as long as the test. *)
Definition with_chan {W O A} (m : T (W * list O) A) : T W A :=
  fun t => let '(t', a) := m (mkTest (tWorld t, []) (tFailed t)) in
           (mkTest (tWorld t').1 (tFailed t'), a).

Definition on_world {W O A} (m : M W A) : M (W * list O) A := lift fst (fun w s => (w, s.2)) m.

Definition send {W O} (o : O) : T (W * list O) unit :=
  fun t => (mkTest ((tWorld t).1, (tWorld t).2 ++ [o]) (tFailed t), Some tt).

(** N receives.  Fewer values than receives, with no goroutine left, is a
    deadlock. *)
Definition recvN {W O} (n : nat) : T (W * list O) (list O) :=
  fun t => if decide (n <= length (tWorld t).2)%nat
           then (t, Some (take n (tWorld t).2))
           else tFatalf "all goroutines are asleep - deadlock!" t.

(** ** Values *)

(** [strings.Repeat] *)
Fixpoint repeat_nat (s : string) (count : nat) : string :=
  match count with O => "" | S count => s +:+ repeat_nat s count end.
Definition Repeat (s : string) (count : Z) : string := repeat_nat s (Z.to_nat count).

(** [fmt.Sprintf(prefix+"%d", i)] and [fmt.Sprintf(prefix+"%04d", i)] for
    [0 <= i]. *)
Definition Sprintf_d (prefix : string) (i : Z) : string := prefix +:+ FormatInt i.

Definition Sprintf_04d (prefix : string) (i : Z) : string :=
  prefix +:+ Repeat "0" (4 - Z.of_nat (String.length (FormatInt i))) +:+ FormatInt i.

(** ** conformance.go *)

(** The driver under test: its name, and how it builds a fresh, empty store. *)
Record Driver (W : Type) := mkDriver {
  DriverName : string;
  DriverNew : option (T W (Store W));
}.
Arguments mkDriver {W}.
Arguments DriverName {W}.
Arguments DriverNew {W}.

Definition mkNotif (tenant user nid : string) (createdMS : Z) : Notification :=
  mkNotification "" nid tenant user "" "" ("t-" +:+ nid) "" ChannelInApp StatusPending
    createdMS 0 0 0.

Definition ids (ns : list Notification) : list string := nNotificationID <$> ns.

Definition parseCursor {W} (cursor : string) : T W Z :=
  must (ParseInt cursor) "cursor %q is not an int64: %v".

Section tests.
Context {W : Type}.
Implicit Types s : Store W.

(** [notify.Query{TenantID: t, UserID: u}] *)
Definition user_query (t u : string) : Query := mkQuery t u None 0 false.

(** [if _, err := s.CreateNotification(ctx, n); err != nil { t.Fatalf(...) }]:
    the row with the id the store gave it. *)
Definition create s (n : Notification) (format : string) : T W Notification :=
  '(n, r) ← call (CreateNotification s n);
  _ ← must r format;
  mret n.

Definition CreateGet s : T W unit :=
  '(n, r) ← call (CreateNotification s (mkNotif "acme" "u1" "nid-1" 1000));
  created ← must r "CreateNotification: %v";
  _ ← require created "CreateNotification: created=false on first insert";
  _ ← require (negb (nID n =? "")%string) "CreateNotification: did not assign ID";
  r ← call (GetNotification s "acme" "u1" (nID n));
  got ← must r "GetNotification: %v";
  _ ← require ((nNotificationID got =? "nid-1")%string && (nTitle got =? "t-nid-1")%string)
        "round-trip mismatch: %#v";
  require (nStatus got =? StatusPending)%string "status = %q, want pending".

Definition GetNotFound s : T W unit :=
  r ← call (GetNotification s "acme" "u1" "no-such");
  require (is_not_found r) "GetNotification unknown: want ErrNotFound, got %v".

Definition Idempotency s : T W unit :=
  '(n1, r) ← call (CreateNotification s (mkNotif "acme" "u1" "dup" 1000));
  _ ← require (match r with Ok created => created | Err _ => false end)
        "first create: created=%v err=%v";
  let n2 := mkNotif "acme" "u1" "dup" 2000 in
  '(n2, r) ← call (CreateNotification s
                (mkNotification (nID n2) (nNotificationID n2) (nTenantID n2) (nUserID n2)
                   (nSubjectRef n2) (nSubjectType n2) "changed" (nBody n2) (nChannel n2)
                   (nStatus n2) (nCreatedAtMS n2) (nDeliveredAtMS n2) (nAckAtMS n2) (nReadAtMS n2)));
  created ← must r "second create: %v";
  _ ← require (negb created) "second create on same (tenant,user,notificationID): want created=false";
  _ ← require (nID n2 =? nID n1)%string "idempotent create id = %q, want existing %q";
  r ← call (GetNotification s "acme" "u1" (nID n1));
  got ← must r "get: %v";
  require (nTitle got =? "t-dup")%string "idempotent create mutated the stored row: title=%q".

(** [got, _ := s.GetNotification(...)], then a field of [got]. *)
Definition get_deref s (tenant user id : string) : T W Notification :=
  r ← call (GetNotification s tenant user id);
  match r with Ok got => mret got | Err _ => tPanic end.

Definition StatusTransitions s : T W unit :=
  n ← create s (mkNotif "acme" "u1" "s" 1000) "create: %v";
  e ← call (UpdateStatus s "acme" (nID n) StatusDelivered 1100);
  _ ← must_nil e "UpdateStatus delivered: %v";
  got ← get_deref s "acme" "u1" (nID n);
  _ ← require ((nStatus got =? StatusDelivered)%string && (nDeliveredAtMS got =? 1100))
        "after delivered: status=%q at=%d";
  e ← call (UpdateStatus s "acme" (nID n) StatusRead 1200);
  _ ← must_nil e "UpdateStatus read: %v";
  got ← get_deref s "acme" "u1" (nID n);
  _ ← require ((nStatus got =? StatusRead)%string && (nReadAtMS got =? 1200))
        "after read: status=%q at=%d";
  e ← call (UpdateStatus s "acme" "no-such" StatusRead 1);
  require (match e with Some e => errors_is e ErrNotFound | None => false end)
    "UpdateStatus unknown: want ErrNotFound, got %v".

Definition page_query (cursorMS : option Z) (limit : Z) : Query :=
  mkQuery "acme" "u1" cursorMS limit false.

Definition CursorWalk_ThreePages s : T W unit :=
  _ ← for_each (seqZ 0 5) (fun i =>
        _ ← create s (mkNotif "acme" "u1" (Sprintf_d "p" i) (1000 + i * 10)) "create p%d: %v";
        mret tt);
  r ← call (QueryUserNotifications s (page_query None 2));
  '(items, cursor, _) ← must r "page1: %v";
  _ ← require (bool_decide (ids items = ["p4"; "p3"])) "page1 order = %v, want [p4 p3]";
  _ ← require (negb (cursor =? "")%string) "page1: expected a non-empty cursor";
  cur ← parseCursor cursor;
  r ← call (QueryUserNotifications s (page_query (Some cur) 2));
  '(items, cursor, _) ← must r "page2: %v";
  _ ← require (bool_decide (ids items = ["p2"; "p1"])) "page2 order = %v, want [p2 p1]";
  _ ← require (negb (cursor =? "")%string) "page2: expected a non-empty cursor";
  cur ← parseCursor cursor;
  r ← call (QueryUserNotifications s (page_query (Some cur) 2));
  '(items, cursor, _) ← must r "page3: %v";
  _ ← require (bool_decide (ids items = ["p0"])) "page3 = %v, want [p0]";
  require (cursor =? "")%string "page3: expected empty cursor, got %q".

Definition UnreadFilterAndCount s : T W unit :=
  _ ← for_each ["a"; "b"; "c"] (fun nid =>
        n ← create s (mkNotif "acme" "u1" nid 1000) "create %s: %v";
        if (nid =? "a")%string
        then e ← call (UpdateStatus s "acme" (nID n) StatusRead 1100);
             must_nil e "mark read: %v"
        else mret tt);
  r ← call (QueryUserNotifications s (mkQuery "acme" "u1" None 0 true));
  '(items, _, unread) ← must r "unreadOnly: %v";
  _ ← require (Nat.eqb (length items) 2) "unreadOnly returned %d, want 2";
  _ ← require (unread =? 2) "unreadCount = %d, want 2";
  r ← call (QueryUserNotifications s (user_query "acme" "u1"));
  '(items, _, unread) ← must r "all: %v";
  _ ← require (Nat.eqb (length items) 3) "all returned %d, want 3";
  require (unread =? 2) "unreadCount (all) = %d, want 2".

(** [list, _ := s.ListDevices(...)], then [len(list)]: nil has length 0. *)
Definition list_len s (tenant user : string) : T W nat :=
  r ← call (ListDevices s tenant user);
  mret (match r with Ok l => length l | Err _ => 0%nat end).

Definition mkDev (deviceType token : string) (createdMS activeMS : Z) : Device :=
  mkDevice "" "acme" "u1" deviceType token createdMS activeMS.

Definition DeviceUpsertRotation s : T W unit :=
  '(_, r) ← call (UpsertDevice s (mkDev "android" "tok-1" 100 100));
  first ← must r "first upsert: %v";
  _ ← require (negb (dID first =? "")%string) "upsert did not assign device ID";
  '(_, r) ← call (UpsertDevice s (mkDev "android" "tok-2" 0 200));
  rotated ← must r "rotate upsert: %v";
  _ ← require (dID rotated =? dID first)%string "rotation created a new row: %q vs %q";
  _ ← require (dToken rotated =? "tok-2")%string "token not rotated: %q";
  r ← call (ListDevices s "acme" "u1");
  list ← must r "list: %v";
  _ ← require (Nat.eqb (length list) 1) "after rotation: %d devices, want 1";
  '(_, r) ← call (UpsertDevice s (mkDev "ios" "tok-ios" 0 0));
  _ ← must r "second device: %v";
  len ← list_len s "acme" "u1";
  require (Nat.eqb len 2) "two device types: %d devices, want 2".

Definition UserIsolation s : T W unit :=
  a ← create s (mkNotif "acme" "u1" "x" 1000) "create: %v";
  _ ← create s (mkNotif "acme" "u2" "x" 1000) "create: %v";
  _ ← create s (mkNotif "beta" "u1" "x" 1000) "create: %v";
  r ← call (QueryUserNotifications s (user_query "acme" "u1"));
  '(items, _, _) ← must r "query: %v";
  _ ← require (match items with [n] => (nID n =? nID a)%string | _ => false end)
        "isolation leak: %v";
  r ← call (GetNotification s "acme" "u2" (nID a));
  _ ← require (is_not_found r) "cross-user get: want ErrNotFound, got %v";
  r ← call (GetNotification s "beta" "u1" (nID a));
  require (is_not_found r) "cross-tenant get: want ErrNotFound, got %v".

(** ** queryedge.go *)

Definition paginationRows : Z := 250.

(** One pass over a page: [seen] is a set of notification ids. *)
Definition mark_seen (seen : gset string) (items : list Notification) : T W (gset string) :=
  fold_each items seen (fun seen n =>
    _ ← expect (negb (bool_decide (nNotificationID n ∈ seen))) "duplicate row across pages: %q";
    mret ({[nNotificationID n]} ∪ seen)).

(** The loop over the pages, [pages] of them at most. *)
Fixpoint page_loop s (pages : nat) (seen : gset string) (cursorMS : option Z) : T W (gset string) :=
  match pages with
  | O => mret seen
  | S pages =>
      r ← call (QueryUserNotifications s (page_query cursorMS 100));
      '(items, cursor, _) ← must r "page %d: %v";
      seen ← mark_seen seen items;
      if (cursor =? "")%string then mret seen else
      v ← must (ParseInt cursor) "cursor parse: %v";
      page_loop s pages seen (Some v)
  end.

Definition QueryUserNotifications_AllPagesReturnEveryRow s : T W unit :=
  _ ← for_each (seqZ 0 paginationRows) (fun i =>
        _ ← create s (mkNotif "acme" "u1" (Sprintf_04d "page-" i) (1000 + i)) "create %d: %v";
        mret tt);
  seen ← page_loop s (Z.to_nat (paginationRows + 5)) ∅ None;
  require (Z.of_nat (size seen) =? paginationRows)
    "paged read returned %d of %d rows — driver does not page past the server cap".

Definition StrictLessThanCutoff s : T W unit :=
  _ ← for_each [(0, 1000); (1, 2000); (2, 3000)] (fun '(i, ms) =>
        _ ← create s (mkNotif "acme" "u1" (Sprintf_d "s" i) ms) "create: %v";
        mret tt);
  r ← call (QueryUserNotifications s (page_query (Some 2000) 0));
  '(items, _, _) ← must r "query: %v";
  require (bool_decide (ids items = ["s0"]))
    "cursor=2000 must return ONLY rows with CreatedAtMS < 2000; got %v".

Definition FreshQuery_Empty s : T W unit :=
  r ← call (QueryUserNotifications s (user_query "fresh" "u1"));
  let '(items, cursor, unread) := match r with Ok p => p | Err _ => ([], "", 0) end in
  _ ← expect (is_ok r) "QueryUserNotifications on fresh tenant: want nil err, got %v";
  _ ← expect (Nat.eqb (length items) 0) "QueryUserNotifications on fresh tenant: want 0 rows, got %d";
  _ ← expect (cursor =? "")%string "QueryUserNotifications on fresh tenant: want empty cursor, got %q";
  expect (unread =? 0) "QueryUserNotifications on fresh tenant: want unread=0, got %d".

Definition FreshGet_NotFound s : T W unit :=
  r ← call (GetNotification s "fresh" "u1" "no-such");
  expect (is_not_found r) "GetNotification on fresh tenant: want ErrNotFound, got %v".

Definition FreshListDevices_Empty s : T W unit :=
  r ← call (ListDevices s "fresh" "u1");
  _ ← expect (is_ok r) "ListDevices on fresh tenant: want nil err, got %v";
  expect (match r with Ok devs => Nat.eqb (length devs) 0 | Err _ => true end)
    "ListDevices on fresh tenant: want 0 devices, got %d".

(** ** keyedge.go *)

Definition NotificationID_LongValue s : T W unit :=
  let longID := Repeat "a" 256 in
  n ← create s (mkNotif "acme" "u1" longID 1000) "create long-id: %v";
  '(n2, r) ← call (CreateNotification s (mkNotif "acme" "u1" longID 2000));
  created ← must r "re-create long-id: %v";
  _ ← require (negb created) "re-create returned created=true on the same long key";
  require (nID n2 =? nID n)%string "idempotent id mismatch: %q vs %q".

Definition NotificationID_SeparatorBytesDoNotCollide s : T W unit :=
  a ← create s (mkNotif "acme" "u1" "n1|n2" 1000) "create a: %v";
  b ← create s (mkNotif "acme" "u1|n1" "n2" 1001) "create b: %v";
  _ ← require (negb (nID a =? nID b)%string) "naive '|' separator collision: a and b share id %q";
  r ← call (GetNotification s "acme" "u1" (nID a));
  got ← must r "get a: %v";
  require (nNotificationID got =? "n1|n2")%string "NotificationID round-trip mismatch: %q".

Definition DeviceType_CaseSensitive_SeparateRows s : T W unit :=
  '(_, r) ← call (UpsertDevice s (mkDev "android" "t-lower" 0 0));
  lower ← must r "upsert lower: %v";
  '(_, r) ← call (UpsertDevice s (mkDev "Android" "t-upper" 0 0));
  upper ← must r "upsert upper: %v";
  _ ← require (negb (dID lower =? dID upper)%string)
        "device upsert treated 'android' and 'Android' as the same key (id=%q)";
  len ← list_len s "acme" "u1";
  require (Nat.eqb len 2) "case-sensitive upserts produced %d rows, want 2".

(** ** roundtrip.go *)

Definition dq : string := String (chr 34) "".
Definition nl : string := String (chr 10) "".
Definition tab : string := String (chr 9) "".

Definition adversarialValues : list (string * string) :=
  [ ("unicode_and_emoji", "Zoë Müller 日本語 café 🔐🛂");
    ("quotes_backslash_control",
      "O'Brien " +:+ dq +:+ "quoted" +:+ dq +:+ " back\slash" +:+ nl +:+ "newline" +:+ tab +:+ "tab");
    ("sql_injection_shaped", "Robert'); DROP TABLE notifications;--");
    ("like_wildcards", "100%_off _every_ thing%");
    ("json_shaped",
      "{" +:+ dq +:+ "k" +:+ dq +:+ ":" +:+ dq +:+ "v" +:+ dq +:+ "," +:+ dq +:+ "nested" +:+ dq +:+
      ":[1,2,{" +:+ dq +:+ "x" +:+ dq +:+ ":null}]}");
    ("leading_trailing_space", "   padded value   ");
    ("long_10k", Repeat "Z" 10000);
    ("single_char", "x") ].

Definition assertEqualField (want got : string) : T W unit :=
  expect (got =? want)%string "%s: %s round-trip mismatch".

Definition StringFields_OnCreate s : T W unit :=
  for_each (imap (fun i tc => (Z.of_nat i, tc.2)) adversarialValues) (fun '(i, value) =>
    n ← create s (mkNotification "" (Sprintf_d "rt-" i) "acme" "u1" value value value value
                    ChannelInApp StatusPending (1000 + i) 0 0 0) "%s: create: %v";
    r ← call (GetNotification s "acme" "u1" (nID n));
    got ← must r "%s: get: %v";
    _ ← assertEqualField value (nTitle got);
    _ ← assertEqualField value (nBody got);
    _ ← assertEqualField value (nSubjectRef got);
    assertEqualField value (nSubjectType got)).

Definition timestampCases : list Z :=
  [1; 1700000000000; 2 ^ 53 - 1; 2 ^ 53; 2 ^ 53 + 1; max_int64].

Definition Int64_Fidelity_Timestamps s : T W unit :=
  for_each (imap (fun i v => (Z.of_nat i, v)) timestampCases) (fun '(i, v) =>
    n ← create s (mkNotification "" (Sprintf_d "ts-" i) "acme" "u1" "" "" "t" ""
                    ChannelInApp StatusPending v 0 0 0) "%s: create: %v";
    e ← call (UpdateStatus s "acme" (nID n) StatusDelivered v);
    _ ← must_nil e "%s: update: %v";
    r ← call (GetNotification s "acme" "u1" (nID n));
    got ← must r "%s: get: %v";
    _ ← expect (nCreatedAtMS got =? v) "%s: CreatedAtMS round-trip = %d, want %d";
    expect (nDeliveredAtMS got =? v) "%s: DeliveredAtMS round-trip = %d, want %d").

Definition LargePayload_Body s : T W unit :=
  for_each [(0, 64 * 1024); (1, 512 * 1024)] (fun '(i, size) =>
    let val := Repeat "x" size in
    n ← create s (mkNotification "" (Sprintf_d "lp-" i) "acme" "u1" "" "" "large" val
                    ChannelInApp StatusPending (1000 + i) 0 0 0) "size %d: create: %v";
    r ← call (GetNotification s "acme" "u1" (nID n));
    got ← must r "size %d: get: %v";
    if negb (Z.of_nat (String.length (nBody got)) =? size)
    then tErrorf "size %d: truncated to %d bytes"
    else expect (nBody got =? val)%string "size %d: corrupted (length matches)").

(** ** concurrency.go *)

(** A goroutine whose only shared access is one call. *)
Definition go1 {X} (body : T X unit) : Proc (TestState X) :=
  PStep (_ ← body; mret PDone).

Definition goroutines {X} (n : nat) (body : Z -> Proc X) : list (Proc X) :=
  (fun i => body (Z.of_nat i)) <$> seq 0 n.

(** [if err != nil { t.Errorf(format) }] *)
Definition report_err {X A} (r : result error A) (format : string) : T X unit :=
  match r with Ok _ => mret tt | Err _ => tErrorf format end.

Definition full_query : Query := mkQuery "acme" "u1" None MaxPageLimit false.

Definition ConcurrentCreate_DistinctKeys_NoLostWrites (sched : list nat) s : T W unit :=
  _ ← parallel sched (goroutines 16 (fun i =>
        go1 ('(_, r) ← call (CreateNotification s (mkNotif "acme" "u1" (Sprintf_d "d-" i) (1000 + i)));
             report_err r "goroutine %d create: %v")));
  r ← call (QueryUserNotifications s full_query);
  '(items, _, _) ← must r "query: %v";
  require (Nat.eqb (length items) 16) "concurrent distinct creates: %d of %d rows survived".

Record outcome := mkOutcome { oCreated : bool; oID : string; oErr : option error }.

(** One goroutine of the race: the call, then the send of its outcome. *)
Definition race_goroutine s : Proc (TestState (W * list outcome)) :=
  PStep (
    '(n, r) ← call (on_world (CreateNotification s (mkNotif "acme" "u1" "race" 1000)));
    mret (go1 (send (match r with
                     | Ok created => mkOutcome created (nID n) None
                     | Err e => mkOutcome false (nID n) (Some e)
                     end)))).

Record tally := mkTally { winners : Z; losers : Z; canonicalID : string }.

Definition count_outcome {X} (c : tally) (o : outcome) : T X tally :=
  match oErr o with
  | Some _ => _ ← tErrorf "goroutine err: %v"; mret c
  | None =>
      _ ← expect (negb (oID o =? "")%string) "goroutine got empty ID";
      let canonical := if (canonicalID c =? "")%string then oID o else canonicalID c in
      _ ← expect (oID o =? canonical)%string "idempotent create returned %q, want canonical %q";
      mret (if oCreated o then mkTally (winners c + 1) (losers c) canonical
            else mkTally (winners c) (losers c + 1) canonical)
  end.

Definition ConcurrentCreate_SameKey_SingleWinner (sched : list nat) s : T W unit :=
  with_chan (
    _ ← parallel sched (goroutines 16 (fun _ => race_goroutine s));
    os ← recvN 16;
    c ← fold_each os (mkTally 0 0 "") count_outcome;
    _ ← expect (winners c =? 1) "race winners = %d, want 1 (losers=%d)";
    _ ← expect (losers c =? 15) "race losers = %d, want %d";
    r ← call (on_world (QueryUserNotifications s (user_query "acme" "u1")));
    expect (match r with Ok (items, _, _) => Nat.eqb (length items) 1 | Err _ => false end)
      "same-key race left %d rows, want 1").

Definition ConcurrentUpsertDevice_SameKey_SingleRow (sched : list nat) s : T W unit :=
  _ ← parallel sched (goroutines 16 (fun i =>
        go1 ('(_, r) ← call (UpsertDevice s (mkDev "android" (Sprintf_d "tok-" i) 100 (100 + i)));
             report_err r "goroutine %d upsert: %v")));
  r ← call (ListDevices s "acme" "u1");
  list ← must r "list: %v";
  require (Nat.eqb (length list) 1)
    "same-key concurrent upserts left %d rows, want 1 — composite-uniqueness guard missing".

Definition target (i : Z) : DeliveryStatus :=
  if i mod 3 =? 0 then StatusDelivered else if i mod 3 =? 1 then StatusAcked else StatusRead.

Definition update_goroutine s (id : string) (i : Z) : Proc (TestState (W * list (option error))) :=
  PStep (
    e ← call (on_world (UpdateStatus s "acme" id (target i) (2000 + i)));
    mret (go1 (send e))).

Definition ConcurrentUpdateStatus_NoError (sched : list nat) s : T W unit :=
  n ← create s (mkNotif "acme" "u1" "upd" 1000) "create: %v";
  with_chan (
    _ ← parallel sched (goroutines 16 (update_goroutine s (nID n)));
    errs ← recvN 16;
    _ ← for_each errs (fun e =>
          expect (match e with Some e => errors_is e ErrNotFound | None => true end)
            "UpdateStatus race err: %v");
    r ← call (on_world (GetNotification s "acme" "u1" (nID n)));
    got ← must r "get post-race: %v %#v";
    expect (bool_decide (nStatus got ∈ [StatusDelivered; StatusAcked; StatusRead]))
      "post-race status = %q, want one of delivered/acked/read").

(** One writer: the create, then the query for its own row. *)
Definition ryw_goroutine s (i : Z) : Proc (TestState W) :=
  PStep (
    '(n, r) ← call (CreateNotification s (mkNotif "acme" "u1" (Sprintf_d "ryw-" i) (1000 + i)));
    match r with
    | Err _ => _ ← tErrorf "create: %v"; mret PDone
    | Ok _ => mret (go1 (
        r ← call (QueryUserNotifications s full_query);
        match r with
        | Err _ => tErrorf "query: %v"
        | Ok (items, _, _) =>
            expect (existsb (fun it => (nID it =? nID n)%string) items)
              "read-your-writes violated: row %q not visible to its own writer"
        end))
    end).

Definition ConcurrentReadYourWrites_QueryAfterCreate (sched : list nat) s : T W unit :=
  parallel sched (goroutines 32 (ryw_goroutine s)).

(** ** The suite *)

(** [t.Run(name, func(t *testing.T) { s := d.New(t); ... })] *)
Definition subtest (New : T W (Store W)) (path : string) (body : Store W -> T W unit) :
    M (W * Report) unit :=
  tRun path (s ← New; body s).

Definition runPaginationConformance (group : string) (New : T W (Store W)) : M (W * Report) unit :=
  _ ← subtest New (group +:+ "/Pagination/QueryUserNotifications_AllPagesReturnEveryRow")
        QueryUserNotifications_AllPagesReturnEveryRow;
  subtest New (group +:+ "/Pagination/StrictLessThanCutoff") StrictLessThanCutoff.

Definition runFreshTenantConformance (group : string) (New : T W (Store W)) : M (W * Report) unit :=
  _ ← subtest New (group +:+ "/FreshTenant/QueryUserNotifications_Empty") FreshQuery_Empty;
  _ ← subtest New (group +:+ "/FreshTenant/GetNotification_NotFound") FreshGet_NotFound;
  subtest New (group +:+ "/FreshTenant/ListDevices_Empty") FreshListDevices_Empty.

Definition runRoundTripConformance (group : string) (New : T W (Store W)) : M (W * Report) unit :=
  _ ← subtest New (group +:+ "/RoundTrip/StringFields_OnCreate") StringFields_OnCreate;
  _ ← subtest New (group +:+ "/RoundTrip/Int64_Fidelity_Timestamps") Int64_Fidelity_Timestamps;
  subtest New (group +:+ "/RoundTrip/LargePayload_Body") LargePayload_Body.

Definition runConcurrencyConformance (sched : nat -> list nat) (group : string)
    (New : T W (Store W)) : M (W * Report) unit :=
  _ ← subtest New (group +:+ "/Concurrency/ConcurrentCreate_DistinctKeys_NoLostWrites")
        (ConcurrentCreate_DistinctKeys_NoLostWrites (sched 0%nat));
  _ ← subtest New (group +:+ "/Concurrency/ConcurrentCreate_SameKey_SingleWinner")
        (ConcurrentCreate_SameKey_SingleWinner (sched 1%nat));
  _ ← subtest New (group +:+ "/Concurrency/ConcurrentUpsertDevice_SameKey_SingleRow")
        (ConcurrentUpsertDevice_SameKey_SingleRow (sched 2%nat));
  _ ← subtest New (group +:+ "/Concurrency/ConcurrentUpdateStatus_NoError")
        (ConcurrentUpdateStatus_NoError (sched 3%nat));
  subtest New (group +:+ "/Concurrency/ConcurrentReadYourWrites_QueryAfterCreate")
    (ConcurrentReadYourWrites_QueryAfterCreate (sched 4%nat)).

Definition runKeyEdgeConformance (group : string) (New : T W (Store W)) : M (W * Report) unit :=
  _ ← subtest New (group +:+ "/KeyEdge/NotificationID_LongValue") NotificationID_LongValue;
  _ ← subtest New (group +:+ "/KeyEdge/NotificationID_SeparatorBytesDoNotCollide")
        NotificationID_SeparatorBytesDoNotCollide;
  subtest New (group +:+ "/KeyEdge/DeviceType_CaseSensitive_SeparateRows")
    DeviceType_CaseSensitive_SeparateRows.

(** [t.Fatal] of the calling test. *)
Definition suite_fatal (format : string) : M (W * Report) unit :=
  fun '(w, rep) => ((w, rep ++ [("", [format])]), tt).

(** [sched] gives each of the concurrent tests its schedule. *)
Definition RunConformance (sched : nat -> list nat) (d : Driver W) : M (W * Report) unit :=
  let name := DriverName d in
  if (name =? "")%string then suite_fatal "conformance: Driver.Name is required" else
  match DriverNew d with
  | None => suite_fatal "conformance: Driver.New is required"
  | Some New =>
      _ ← subtest New (name +:+ "/CreateGet") CreateGet;
      _ ← subtest New (name +:+ "/GetNotFound") GetNotFound;
      _ ← subtest New (name +:+ "/Idempotency") Idempotency;
      _ ← subtest New (name +:+ "/StatusTransitions") StatusTransitions;
      _ ← subtest New (name +:+ "/CursorWalk_ThreePages") CursorWalk_ThreePages;
      _ ← subtest New (name +:+ "/UnreadFilterAndCount") UnreadFilterAndCount;
      _ ← subtest New (name +:+ "/DeviceUpsertRotation") DeviceUpsertRotation;
      _ ← subtest New (name +:+ "/UserIsolation") UserIsolation;
      _ ← runPaginationConformance name New;
      _ ← runFreshTenantConformance name New;
      _ ← runRoundTripConformance name New;
      _ ← runConcurrencyConformance sched name New;
      runKeyEdgeConformance name New
  end.
End tests.
