(* ===== verification/ConformanceRace.v ===== *)
(** * The concurrency tests pass under every schedule

    A rule for pools of goroutines (an invariant that every step of every
    goroutine keeps holds when all have returned, and all do return), a rule for
    goroutines that call the store once and send the outcome, and the five
    subtests of concurrency.go. *)

From S2P Require Import Prelude GoErrors GoStrings Model StoreSpec Paging Conformance ConformanceProps.

(** ** Goroutines *)

Lemma Proc_induction {X} (P : Proc X -> Prop) :
  P PDone ->
  (forall f, (forall x x' p', f x = (x', Some p') -> P p') -> P (PStep f)) ->
  forall p, P p.
Proof.
  intros HD HS. fix IH 1. intros [|f]; [exact HD|]. apply HS. intros x x' p' He.
  refine (match f x as r return r = (x', Some p') -> P p' with
          | (x1, Some p1) => fun e => _
          | (x1, None) => fun e => _
          end He); [|discriminate].
  injection e as _ <-. apply IH.
Qed.

Section pool.
Context {X : Type} (R : X -> list (Proc (TestState X)) -> Prop).

(** Every step of a running goroutine keeps [R] and records no failure. *)
Definition pool_inv : Prop := forall x ps i f,
  R x ps -> ps !! i = Some (PStep f) -> wp f (fun p' x' => R x' (<[i := p']> ps)) x.

Hypothesis Hinv : pool_inv.

Lemma step_pool x ps i p :
  R x ps -> ps !! i = Some p ->
  exists x' p', proc_step p (mkTest x []) = (mkTest x' [], p') /\ R x' (<[i := p']> ps).
Proof.
  intros HR Hp. destruct p as [|f]; cbn [proc_step].
  - exists x, PDone. by rewrite list_insert_id.
  - destruct (Hinv x ps i f HR Hp) as (x' & p' & -> & HR'). eauto.
Qed.

Lemma finish_pool p : forall x ps i,
  R x ps -> ps !! i = Some p ->
  exists x', finish p (mkTest x []) = mkTest x' [] /\ R x' (<[i := PDone]> ps).
Proof.
  induction p as [|f IH] using Proc_induction; intros x ps i HR Hp; cbn [finish].
  - exists x. by rewrite list_insert_id.
  - destruct (Hinv x ps i f HR Hp) as (x1 & p1 & He & HR1). rewrite He.
    destruct (IH _ _ _ He x1 (<[i := p1]> ps) i) as (x2 & -> & HR2); [done| |].
    + apply list_lookup_insert_eq. by eapply lookup_lt_Some.
    + exists x2. split; [done|]. by rewrite list_insert_insert_eq in HR2.
Qed.

Lemma finish_all : forall rest k x,
  R x (replicate k PDone ++ rest) ->
  exists x', foldl (fun x p => finish p x) (mkTest x []) rest = mkTest x' [] /\
    R x' (replicate (k + length rest) PDone).
Proof.
  induction rest as [|p rest IH]; intros k x HR; cbn [foldl].
  - exists x. split; [done|]. by rewrite app_nil_r in HR; rewrite Nat.add_0_r.
  - destruct (finish_pool p x _ k HR) as (x1 & -> & HR1).
    { rewrite lookup_app_r by (rewrite length_replicate; lia).
      by rewrite length_replicate, Nat.sub_diag. }
    rewrite insert_app_r_alt in HR1 by (rewrite length_replicate; lia).
    rewrite length_replicate, Nat.sub_diag in HR1. cbn in HR1.
    destruct (IH (Datatypes.S k) x1) as (x2 & -> & HR2).
    + rewrite replicate_S_end, <- app_assoc. exact HR1.
    + exists x2. split; [done|]. by replace (k + length (p :: rest))%nat
        with (Datatypes.S k + length rest)%nat by (simpl; lia).
Qed.

Lemma interleave_pool sched : forall ps x,
  R x ps -> exists x', interleave sched ps (mkTest x []) = mkTest x' [] /\
                       R x' (replicate (length ps) PDone).
Proof.
  induction sched as [|i sched IH]; intros ps x HR; cbn [interleave].
  - apply (finish_all ps 0 x HR).
  - destruct (ps !! i) as [p|] eqn:Hp; [|by apply IH].
    destruct (step_pool x ps i p HR Hp) as (x1 & p1 & -> & HR1).
    destruct (IH _ _ HR1) as (x2 & -> & HR2). exists x2. by rewrite length_insert in HR2.
Qed.

Lemma wp_parallel sched ps Q x :
  R x ps -> (forall x', R x' (replicate (length ps) PDone) -> Q tt x') ->
  wp (parallel sched ps) Q x.
Proof.
  intros HR HQ. destruct (interleave_pool sched ps x HR) as (x' & He & HR').
  exists x', tt. unfold parallel. rewrite He. auto.
Qed.
End pool.

Lemma goroutines_length {X} n (body : Z -> Proc X) : length (goroutines n body) = n.
Proof. unfold goroutines. by rewrite length_fmap, length_seq. Qed.

Lemma goroutines_lookup {X} n (body : Z -> Proc X) i p :
  goroutines n body !! i = Some p <-> (i < n)%nat /\ p = body (Z.of_nat i).
Proof.
  unfold goroutines. rewrite list_lookup_fmap. split.
  - destruct (seq 0 n !! i) as [j|] eqn:Hj; [|done]. intros [= <-]. by apply lookup_seq in Hj as [-> ?].
  - intros [Hi ->]. by rewrite lookup_seq_lt.
Qed.

(** One step of one goroutine in terms of the whole pool. *)
Lemma pool_update {X} (P : nat -> Proc X -> Prop) (ps : list (Proc X)) i p' :
  (forall j p, ps !! j = Some p -> P j p) -> P i p' ->
  forall j p, <[i := p']> ps !! j = Some p -> P j p.
Proof.
  intros Hps Hp' j p Hj. apply list_lookup_insert_Some in Hj as [(<- & <- & _)|[_ Hj]]; auto.
Qed.

(** ** Goroutines that make one call and send its outcome *)

Section senders.
Context {W O : Type} (start : Z -> T (W * list O) (Proc (TestState (W * list O)))).
Context (J : W -> list O -> Prop).

Inductive phase := Waiting (i : Z) | Sending (o : O) | Finished.

Definition phase_proc (p : phase) : Proc (TestState (W * list O)) :=
  match p with
  | Waiting i => PStep (start i)
  | Sending o => go1 (send o)
  | Finished => PDone
  end.

Definition pending (p : phase) : option O := match p with Sending o => Some o | _ => None end.
Definition running (p : phase) : option unit := match p with Finished => None | _ => Some tt end.

Definition senders_ok (N : nat) (x : W * list O) (ps : list (Proc (TestState (W * list O)))) : Prop :=
  exists phs, ps = phase_proc <$> phs /\ (length x.2 + length (omap running phs) = N)%nat /\
    J x.1 (omap pending phs ++ x.2).

Hypothesis J_perm : forall w os os', os ≡ₚ os' -> J w os -> J w os'.
Hypothesis start_ok : forall i w ch os, J w os ->
  wp (start i) (fun p' x' => exists o, p' = go1 (send o) /\ x'.2 = ch /\ J x'.1 (o :: os)) (w, ch).

Lemma senders_inv N : pool_inv (senders_ok N).
Proof.
  intros [w ch] ps i f (phs & -> & Hlen & HJ) Hf. cbn [fst snd] in *.
  rewrite list_lookup_fmap in Hf. destruct (phs !! i) as [ph|] eqn:Hph; [|done].
  injection Hf as Hf. pose proof (list_elem_of_split_length _ _ _ Hph) as (l1 & l2 & -> & ->).
  rewrite omap_app in HJ. rewrite omap_app in Hlen. cbn [omap list_omap] in HJ, Hlen.
  assert (Hins : forall ph', <[length l1 := phase_proc ph']> (phase_proc <$> l1 ++ ph :: l2) =
    phase_proc <$> l1 ++ ph' :: l2).
  { intros ph'. rewrite <- list_fmap_insert. f_equal. rewrite insert_app_r_alt, Nat.sub_diag by lia. done. }
  destruct ph as [j|o|]; cbn [phase_proc pending running] in *; [| |done]; injection Hf as <-.
  - eapply wp_weaken; [|exact (start_ok j w ch _ HJ)].
    intros p' [w' ch'] (o & -> & Hch & HJ'). cbn [fst snd] in *. subst ch'.
    exists (l1 ++ Sending o :: l2). split_and!; [by apply (Hins (Sending o))| |].
    + rewrite omap_app. exact Hlen.
    + rewrite omap_app. eapply J_perm; [|exact HJ']. cbn [omap list_omap pending]. cbn [fst snd].
      rewrite <- !app_assoc. cbn [app]. by rewrite <- Permutation_middle.
  - exists (w, ch ++ [o]), PDone. split; [done|].
    exists (l1 ++ Finished :: l2). split_and!; [by apply (Hins Finished)| |]; cbn [fst snd].
    + rewrite omap_app, length_app. rewrite !length_app in *. cbn [omap list_omap running length] in *. lia.
    + rewrite omap_app. eapply J_perm; [|exact HJ]. cbn [omap list_omap pending].
      rewrite <- !app_assoc. cbn [app].
      rewrite <- Permutation_middle, (Permutation_cons_append _ o). by rewrite <- !app_assoc.
Qed.

Lemma phase_done phs n : phase_proc <$> phs = replicate n PDone -> phs = replicate n Finished.
Proof.
  revert n. induction phs as [|ph phs IH]; intros [|n] He; simpl in He; try done.
  injection He as Hph He. destruct ph; try done. simpl. f_equal. by apply IH.
Qed.

Lemma wp_senders N sched w Q :
  J w [] -> (forall w' os, length os = N -> J w' os -> Q tt (w', os)) ->
  wp (parallel sched (goroutines N (fun i => PStep (start i)))) Q (w, []).
Proof.
  intros HJ HQ. apply (wp_parallel (senders_ok N)); [apply senders_inv| |].
  - exists (Waiting <$> (Z.of_nat <$> seq 0 N)). cbn [fst snd]. split_and!.
    + unfold goroutines. by rewrite <- !list_fmap_compose.
    + rewrite <- list_fmap_compose. cbn [length]. rewrite Nat.add_0_l. generalize 0%nat. clear.
      induction N as [|n IH]; intros k; [done|]. cbn. f_equal. apply IH.
    + rewrite <- list_fmap_compose, app_nil_r. replace (omap _ _) with (@nil O); [done|].
      generalize 0%nat. clear. induction N as [|n IH]; intros k; [done|]. cbn. apply IH.
  - intros [w' os] (phs & Hphs & Hlen & HJ'). symmetry in Hphs. apply phase_done in Hphs as ->.
    cbn [fst snd] in *. rewrite goroutines_length in *.
    assert (Hr : forall n, omap running (replicate n Finished) = []) by (intros n; by induction n).
    assert (Hp : forall n, omap pending (replicate n Finished) = []) by (intros n; by induction n).
    rewrite Hr in Hlen. rewrite Hp in HJ'. apply HQ; [simpl in *; lia|done].
Qed.
End senders.

(** ** Goroutines that create a row each *)

Section creators.
Context {W : Type} (S : Store W) {HS : StoreLaws S}.
Context (N : nat) (nt : Z -> Notification) (start : Z -> T W (Proc (TestState W)))
  (after : Z -> Notification -> Proc (TestState W)).

Definition creator_ok (l : list Notification) (j : nat) (p : Proc (TestState W)) : Prop :=
  (p = PStep (start (Z.of_nat j)) /\ key_of (nt (Z.of_nat j)) ∉ key_of <$> l) \/
  (exists r, r ∈ l /\ row_of (nt (Z.of_nat j)) r /\ (p = PDone \/ p = after (Z.of_nat j) r)).

Definition creators_ok (w : W) (ps : list (Proc (TestState W))) : Prop :=
  exists l, content S w l [] /\ length ps = N /\
    (forall r, r ∈ l -> exists j, (j < N)%nat /\ row_of (nt (Z.of_nat j)) r) /\
    (forall j p, ps !! j = Some p -> creator_ok l j p).

Hypothesis keys_inj : forall i j, (i < N)%nat -> (j < N)%nat ->
  key_of (nt (Z.of_nat i)) = key_of (nt (Z.of_nat j)) -> i = j.

(** The create, and whatever may follow it. *)
Hypothesis start_ok : forall i w l Q,
  content S w l [] -> key_of (nt i) ∉ key_of <$> l ->
  (forall r w', row_of (nt i) r -> content S w' (r :: l) [] -> Q (after i r) w') ->
  wp (start i) Q w.
Hypothesis after_ok : forall i r w l f, after i r = PStep f ->
  content S w l [] -> r ∈ l -> (forall r', r' ∈ l -> exists j, (j < N)%nat /\ row_of (nt (Z.of_nat j)) r') ->
  wp f (fun p' w' => p' = PDone /\ content S w' l []) w.

Lemma creators_inv : pool_inv creators_ok.
Proof.
  intros w ps i f (l & Hc & Hlen & Hl & Hps) Hf.
  assert (Hi : (i < N)%nat) by (rewrite <- Hlen; by eapply lookup_lt_Some).
  destruct (Hps i _ Hf) as [[[= ->] Hk]|(r & Hr & Hrow & [Hd|Ha])]; [| |].
  - eapply start_ok; [done|done|]. intros r w' Hrow Hc'. exists (r :: l).
    split_and!; [done|by rewrite length_insert| |].
    + intros r' [->|Hr']%elem_of_cons; [by exists i|by apply Hl].
    + intros j p Hj. apply list_lookup_insert_Some in Hj as [(<- & <- & _)|[Hne Hj]].
      { right. exists r. split; [by left|]. auto. }
      assert (Hjn : (j < N)%nat) by (rewrite <- Hlen; by eapply lookup_lt_Some).
      destruct (Hps j p Hj) as [[-> Hkj]|(r' & Hr' & Hp)]; [left; split; [done|]|].
      * rewrite fmap_cons, not_elem_of_cons. split; [|done].
        rewrite (row_of_key _ _ Hrow). intros He. apply Hne. symmetry. by apply keys_inj.
      * right. exists r'. split; [by right|done].
  - discriminate.
  - eapply wp_weaken; [|by eapply (after_ok (Z.of_nat i) r w l)].
    intros p' w' [-> Hc']. exists l. split_and!; [done|by rewrite length_insert|done|].
    apply pool_update; [done|]. right. exists r. auto.
Qed.

Lemma wp_creators sched w Q :
  content S w [] [] ->
  (forall w' l, content S w' l [] -> length l = N ->
     (forall r, r ∈ l -> exists j, (j < N)%nat /\ row_of (nt (Z.of_nat j)) r) -> Q tt w') ->
  wp (parallel sched (goroutines N (fun i => PStep (start i)))) Q w.
Proof.
  intros Hc HQ. apply (wp_parallel creators_ok); [apply creators_inv| |].
  - exists []. split_and!; [done|apply goroutines_length|by intros r ?%elem_of_nil|].
    intros j p [_ ->]%goroutines_lookup. left. split; [done|]. by intros ?%elem_of_nil.
  - intros w' (l & Hc' & Hlen & Hl & Hps). rewrite goroutines_length in *.
    apply (HQ w' l Hc'); [|done].
    assert (Hp : key_of <$> l ≡ₚ (fun j => key_of (nt (Z.of_nat j))) <$> seq 0 N).
    { apply NoDup_Permutation; [by eapply content_NoDup_keys| |].
      - apply NoDup_fmap_2_strong; [|apply NoDup_seq]. intros a b Ha%elem_of_seq Hb%elem_of_seq.
        apply keys_inj; lia.
      - intros k. rewrite !list_elem_of_fmap. split.
        + intros (r & -> & Hr). destruct (Hl r Hr) as (j & Hj & Hrow). exists j.
          split; [by apply row_of_key|]. apply elem_of_seq. lia.
        + intros (j & -> & Hj%elem_of_seq). destruct (Hps j PDone) as [[? _]|(r & Hr & Hrow & _)]; [|done|].
          * apply lookup_replicate. split; [done|lia].
          * exists r. split; [|done]. symmetry. by apply row_of_key. }
    apply Permutation_length in Hp. by rewrite !length_fmap, length_seq in Hp.
Qed.
End creators.

Lemma Sprintf_d_inj p i j : Sprintf_d p (Z.of_nat i) = Sprintf_d p (Z.of_nat j) -> i = j.
Proof.
  unfold Sprintf_d. intros He%(inj (String.append p)). unfold FormatInt in He.
  rewrite !(proj2 (Z.ltb_ge _ _)) in He by lia. apply format_uint_inj in He; lia.
Qed.

(** ** The subtests *)

Section subtests.
Context {W : Type} (S : Store W) {HS : StoreLaws S}.

(** All rows of a pool of creators of one user fit on the largest page. *)
Lemma creators_query nt N l w Q :
  (forall i, nTenantID (nt i) = "acme" /\ nUserID (nt i) = "u1") -> (N <= 100)%nat ->
  content S w l [] -> (length l <= N)%nat ->
  (forall r, r ∈ l -> exists j, (j < N)%nat /\ row_of (nt (Z.of_nat j)) r) ->
  (forall items w', content S w' l [] -> items ≡ₚ l ->
     Q (Ok (items, "", unread_of "acme" "u1" l)) w') ->
  wp (call (QueryUserNotifications S full_query)) Q w.
Proof.
  intros Hnt HN Hc Hlen Hl HQ.
  assert (Hf : filter (selected full_query) l = l).
  { apply filter_all. intros r Hr. destruct (Hl r Hr) as (j & _ & id & ->).
    destruct (Hnt (Z.of_nat j)). by split_and!. }
  eapply wp_query_all; [exact Hc| |].
  - rewrite Hf. change (ClampLimit _) with 100. lia.
  - intros items w' Hc' Hp. rewrite Hf in Hp. by apply HQ.
Qed.

Lemma NoDup_creators_length (nt : Z -> Notification) N l w :
  content S w l [] -> (forall r, r ∈ l -> exists j, (j < N)%nat /\ row_of (nt (Z.of_nat j)) r) ->
  (length l <= N)%nat.
Proof.
  intros Hc Hl. pose proof (content_NoDup_keys _ _ _ _ Hc) as Hnd.
  rewrite <- (length_fmap key_of l), <- (length_seq N 0), <- (length_fmap (fun j => key_of (nt (Z.of_nat j)))).
  apply submseteq_length, NoDup_submseteq; [done|].
  intros k (r & -> & Hr)%list_elem_of_fmap. destruct (Hl r Hr) as (j & Hj & Hrow).
  rewrite (row_of_key _ _ Hrow). apply list_elem_of_fmap. exists j. split; [done|]. apply elem_of_seq. lia.
Qed.

Lemma ConcurrentCreate_DistinctKeys_passes sched :
  passes S (ConcurrentCreate_DistinctKeys_NoLostWrites sched S).
Proof.
  intros w Hc. apply wp_bind. set (nt := fun i => mkNotif "acme" "u1" (Sprintf_d "d-" i) (1000 + i)).
  eapply (wp_creators S 16 nt _ (fun _ _ => PDone));
    [| |done|exact Hc|].
  - intros i j _ _ [=He]. by apply Sprintf_d_inj in He.
  - intros i w1 l Q Hl Hk HQ. wp_pure. eapply wp_create_new; [exact Hl|done|exact Hk|].
    intros id w2 _ _ Hc2. wp_pure. cbn [report_err]. wp_pure. eapply HQ; [by exists id|done].
  - intros w1 l Hc1 Hlen Hl. apply wp_bind.
    eapply (creators_query nt 16); [|lia|exact Hc1|lia|exact Hl|]; [by intros i|].
    intros items w2 _ Hp%Permutation_length. wp_pure.
    apply wp_require; [|done]. by rewrite Hp, Hlen.
Qed.

Lemma ConcurrentReadYourWrites_passes sched :
  passes S (ConcurrentReadYourWrites_QueryAfterCreate sched S).
Proof.
  intros w Hc. unfold ConcurrentReadYourWrites_QueryAfterCreate, ryw_goroutine.
  set (nt := fun i => mkNotif "acme" "u1" (Sprintf_d "ryw-" i) (1000 + i)).
  eapply (wp_creators S 32 nt _ (fun _ n => go1 (
        r ← call (QueryUserNotifications S full_query);
        match r with
        | Err _ => tErrorf "query: %v"
        | Ok (items, _, _) =>
            expect (existsb (fun it => (nID it =? nID n)%string) items)
              "read-your-writes violated: row %q not visible to its own writer"
        end))); [| | |exact Hc|done].
  - intros i j _ _ [=He]. by apply Sprintf_d_inj in He.
  - intros i w1 l Q Hl Hk HQ. wp_pure. eapply wp_create_new; [exact Hl|done|exact Hk|].
    intros id w2 _ _ Hc2. wp_pure. eapply HQ; [by exists id|done].
  - intros i r w1 l f [= <-] Hl Hr Hrows. wp_pure.
    eapply (creators_query nt 32); [by intros j|lia|exact Hl|by eapply NoDup_creators_length|exact Hrows|].
    intros items w2 Hc2 Hp. wp_pure. apply wp_expect; [|by wp_pure].
    apply existsb_exists. exists r. split; [|apply String.eqb_refl].
    apply list_elem_of_In. by rewrite Hp.
Qed.

Lemma wp_on_world {O A} (m : M W A) (Q : A -> W * list O -> Prop) w ch :
  wp (call m) (fun a w' => Q a (w', ch)) w -> wp (call (on_world m)) Q (w, ch).
Proof.
  intros (w' & a & He & HQ). exists (w', ch), a. split; [|done].
  unfold call, on_world in *; unfold_M; cbn in *. by destruct (m w) as [w1 a1]; simplify_eq.
Qed.

Lemma wp_with_chan {O A} (m : T (W * list O) A) (Q : A -> W -> Prop) w :
  wp m (fun a x => Q a x.1) (w, []) -> wp (with_chan m) Q w.
Proof.
  intros (x' & a & He & HQ). exists x'.1, a. split; [|done]. unfold with_chan. cbn. by rewrite He.
Qed.

Lemma wp_recvN {O} n (Q : list O -> W * list O -> Prop) w ch :
  length ch = n -> Q ch (w, ch) -> wp (recvN n) Q (w, ch).
Proof.
  intros Hn HQ. exists (w, ch), ch. split; [|done]. unfold recvN. cbn.
  rewrite decide_True by lia. by rewrite take_ge by lia.
Qed.

Definition race_row : Notification := mkNotif "acme" "u1" "race" 1000.

(** The outcomes so far: none, or one winner and the rest losers, all with the
    id of the one row. *)
Definition race_outcomes (w : W) (os : list outcome) : Prop :=
  (os = [] /\ content S w [] []) \/
  (exists id k, id <> "" /\ content S w [set_nID id race_row] [] /\
     os ≡ₚ mkOutcome true id None :: replicate k (mkOutcome false id None)).

Lemma race_step w (ch os : list outcome) : race_outcomes w os ->
  wp ('(n, r) ← call (on_world (CreateNotification S race_row));
      mret (go1 (send (W:=W) (match r with
                       | Ok created => mkOutcome created (nID n) None
                       | Err e => mkOutcome false (nID n) (Some e)
                       end))))
    (fun p' x' => exists o, p' = go1 (send (W:=W) o) /\ x'.2 = ch /\ race_outcomes x'.1 (o :: os)) (w, ch).
Proof.
  intros HJ. apply wp_bind, wp_on_world.
  destruct HJ as [[-> Hc]|(id & k & Hid & Hc & Hp)].
  - eapply wp_create_new; [exact Hc|done|by intros ?%elem_of_nil|]. intros id w1 [Hid _] _ Hc1. wp_pure.
    eexists. split_and!; [done|done|]. right. exists id, 0%nat. auto.
  - eapply wp_create_dup; [exact Hc|by left|done|]. intros w1 Hc1. wp_pure.
    eexists. split_and!; [done|done|]. right. exists id, (Datatypes.S k). split_and!; [done|done|].
    rewrite Hp. cbn [replicate]. by apply Permutation_swap.
Qed.

Lemma race_outcomes_perm w os os' : os ≡ₚ os' -> race_outcomes w os -> race_outcomes w os'.
Proof.
  intros Hp [[-> Hc]|(id & k & Hid & Hc & Ho)].
  - left. split; [by apply Permutation_nil_l in Hp|done].
  - right. exists id, k. split_and!; [done|done|]. by rewrite <- Hp.
Qed.

(** The tally of outcomes that agree on the id. *)
Lemma count_outcomes id os : forall win los canon x (Q : tally -> W * list outcome -> Prop),
  id <> "" -> (canon = "" \/ canon = id) ->
  Forall (fun o => oErr o = None /\ oID o = id) os ->
  (forall canon', Q (mkTally (win + Z.of_nat (count oCreated os))
                      (los + Z.of_nat (length os - count oCreated os)) canon') x) ->
  wp (fold_each os (mkTally win los canon) count_outcome) Q x.
Proof.
  induction os as [|o os IH]; intros win los canon x Q Hid Hcanon Hos HQ; cbn [fold_each].
  - apply wp_ret. specialize (HQ canon). cbn in HQ. by rewrite !Z.add_0_r in HQ.
  - apply Forall_cons in Hos as [[He Ho] Hos]. apply wp_bind. unfold count_outcome at 1.
    rewrite He, Ho. cbn [canonicalID winners losers].
    assert (Hc : (if (canon =? "")%string then id else canon) = id).
    { destruct Hcanon as [->| ->]; [done|]. by rewrite (proj2 (String.eqb_neq _ _)). }
    rewrite Hc. apply wp_bind, wp_expect; [by apply negb_true_iff, String.eqb_neq|].
    apply wp_bind, wp_expect; [apply String.eqb_refl|]. apply wp_ret.
    pose proof (count_le oCreated os).
    destruct (oCreated o) eqn:Hcr; apply IH; auto; intros canon'; specialize (HQ canon');
      rewrite count_cons, Hcr in HQ; cbn [length] in HQ.
    + replace (win + 1 + _) with (win + Z.of_nat (1 + count oCreated os)) by lia. exact HQ.
    + replace (los + 1 + _) with (los + Z.of_nat (Datatypes.S (length os) - (0 + count oCreated os))) by lia.
      exact HQ.
Qed.

Lemma ConcurrentCreate_SameKey_passes sched :
  passes S (ConcurrentCreate_SameKey_SingleWinner sched S).
Proof.
  intros w Hc. unfold ConcurrentCreate_SameKey_SingleWinner. apply wp_with_chan, wp_bind.
  eapply (wp_senders _ race_outcomes); [apply race_outcomes_perm|intros _; apply race_step|by left|].
  intros w1 os Hlen HJ. apply wp_bind, wp_recvN; [done|].
  destruct HJ as [[-> _]|(id & k & Hid & Hc1 & Hp)]; [done|].
  pose proof (Permutation_length Hp) as Hk. cbn in Hk. rewrite length_replicate, Hlen in Hk.
  assert (Hcount : count oCreated os = 1%nat).
  { rewrite (count_perm _ _ _ Hp), count_cons. cbn. clear. by induction k. }
  apply wp_bind. eapply (count_outcomes id); [done|by left| |].
  { rewrite Hp. constructor; [done|]. by apply Forall_replicate. }
  intros canon. rewrite Hcount, Hlen. wp_pure. apply wp_on_world.
  eapply wp_query_all; [exact Hc1|done|]. intros items w2 _ Hpi%Permutation_length.
  apply wp_expect; [by rewrite Hpi|done].
Qed.

(** *** Devices *)

Definition device_key : devKey := mkDevKey "acme" "u1" "android".

Definition upserts_ok (w : W) (ps : list (Proc (TestState W))) : Prop :=
  length ps = 16%nat /\
  (forall j p, ps !! j = Some p -> p = PDone \/ exists i, p = go1 (
      '(_, r) ← call (UpsertDevice S (mkDev "android" (Sprintf_d "tok-" i) 100 (100 + i)));
      report_err r "goroutine %d upsert: %v")) /\
  ((content S w [] [] /\ PDone ∉ ps) \/ exists d, content S w [] [d] /\ dkey_of d = device_key).

Lemma upserts_inv : pool_inv upserts_ok.
Proof.
  intros w ps j f (Hlen & Hps & Hw) Hf.
  destruct (Hps j _ Hf) as [Hd|[i Hi]]; [done|]. injection Hi as ->. wp_pure.
  assert (Hdone : forall w', (exists d, content S w' [] [d] /\ dkey_of d = device_key) ->
    upserts_ok w' (<[j := PDone]> ps)).
  { intros w' Hd. split_and!; [by rewrite length_insert| |by right].
    apply (pool_update (fun j p => p = PDone \/ _)); [exact Hps|by left]. }
  destruct Hw as [[Hc _]|(d & Hc & Hk)].
  - eapply wp_upsert_new; [exact Hc|done|by intros ?%elem_of_nil|]. intros id d' w1 _ _ Hc1.
    cbn [report_err]. wp_pure. apply Hdone. by eexists.
  - eapply wp_upsert_hit; [exact Hc|done|]. intros d' w1 Hc1.
    cbn [report_err]. wp_pure. apply Hdone. by eexists.
Qed.

Lemma ConcurrentUpsertDevice_passes sched :
  passes S (ConcurrentUpsertDevice_SameKey_SingleRow sched S).
Proof.
  intros w Hc. apply wp_bind. eapply (wp_parallel upserts_ok); [apply upserts_inv| |].
  - split_and!; [apply goroutines_length| |left; split; [done|]].
    + intros j p [_ ->]%goroutines_lookup. right. by eexists.
    + intros [j Hj]%list_elem_of_lookup. by apply goroutines_lookup in Hj as [_ ?].
  - intros w1 (_ & _ & [[_ Hn]|(d & Hc1 & Hk)]).
    + exfalso. apply Hn. rewrite goroutines_length. by left.
    + apply wp_bind. eapply wp_list; [exact Hc1|]. intros out w2 _ Hp%Permutation_length. wp_pure.
      apply wp_require; [|done]. rewrite Hp, filter_cons, decide_True; [done|].
      injection Hk. by split.
Qed.

(** *** Status updates *)

Definition update_outcomes (id : string) (w : W) (es : list (option error)) : Prop :=
  exists r, content S w [r] [] /\ nID r = id /\ owned "acme" "u1" r /\ Forall (eq None) es /\
    (es <> [] -> nStatus r ∈ [StatusDelivered; StatusAcked; StatusRead]).

Lemma target_status i : target i ∈ [StatusDelivered; StatusAcked; StatusRead].
Proof. unfold target. repeat case_match; set_solver. Qed.

Lemma ConcurrentUpdateStatus_passes sched : passes S (ConcurrentUpdateStatus_NoError sched S).
Proof.
  intros w Hc. unfold ConcurrentUpdateStatus_NoError. apply wp_bind.
  eapply wp_create; [exact Hc|done|by intros ?%elem_of_nil|]. intros id w1 _ _ Hc1.
  apply wp_with_chan, wp_bind. eapply (wp_senders _ (update_outcomes id)).
  - intros w2 es es' Hp (r & Hr & Hid & Ho & Hes & Hst). exists r. split_and!; [done..|by rewrite <- Hp|].
    intros Hne. apply Hst. intros ->. by apply Permutation_nil_l in Hp.
  - intros i w2 ch es (r & Hr & Hid & Ho & Hes & Hst). wp_pure. apply wp_on_world.
    eapply wp_update_hit; [exact Hr|exact Hid|apply Ho|]. intros w3 Hc3. wp_pure.
    eexists. split_and!; [done|done|]. exists (stamped (target i) (2000 + i) r).
    split_and!; [done|done|done|by constructor|]. intros _. apply target_status.
  - eexists. split_and!; [exact Hc1|done|done|done|done].
  - intros w2 es Hlen (r & Hr & Hid & Ho & Hes & Hst). apply wp_bind, wp_recvN; [done|].
    apply wp_bind. apply (wp_for_each _ _ (fun _ x => x = (w2, es))); [done| |].
    + intros dn e rest x He ->. rewrite He in Hes. apply Forall_app in Hes as [_ Hes].
      apply Forall_cons in Hes as [<- _]. by apply wp_expect.
    + intros x ->. apply wp_bind, wp_on_world. eapply wp_get_hit; [exact Hr|by left|exact Hid|exact Ho|].
      intros w3 _. wp_pure. apply wp_expect; [|done]. apply bool_decide_eq_true, Hst. by intros ->.
Qed.
End subtests.
