(* ===== verification/ConformanceSuite.v ===== *)
(** * The whole suite

    [RunConformance] on a driver whose stores fulfil the contract: every subtest
    runs and none fails, for every schedule of the goroutines; and the suite on
    the memory driver, the differential reference. *)

From S2P Require Import Prelude GoErrors GoStrings Model StoreSpec StoreOps Memory MemoryProps Conformance ConformanceProps ConformanceRace.

(** The subtests, by path. *)
Definition suite_paths (name : string) : list string :=
  [ name +:+ "/CreateGet"; name +:+ "/GetNotFound"; name +:+ "/Idempotency";
    name +:+ "/StatusTransitions"; name +:+ "/CursorWalk_ThreePages";
    name +:+ "/UnreadFilterAndCount"; name +:+ "/DeviceUpsertRotation"; name +:+ "/UserIsolation";
    name +:+ "/Pagination/QueryUserNotifications_AllPagesReturnEveryRow";
    name +:+ "/Pagination/StrictLessThanCutoff";
    name +:+ "/FreshTenant/QueryUserNotifications_Empty";
    name +:+ "/FreshTenant/GetNotification_NotFound";
    name +:+ "/FreshTenant/ListDevices_Empty";
    name +:+ "/RoundTrip/StringFields_OnCreate";
    name +:+ "/RoundTrip/Int64_Fidelity_Timestamps";
    name +:+ "/RoundTrip/LargePayload_Body";
    name +:+ "/Concurrency/ConcurrentCreate_DistinctKeys_NoLostWrites";
    name +:+ "/Concurrency/ConcurrentCreate_SameKey_SingleWinner";
    name +:+ "/Concurrency/ConcurrentUpsertDevice_SameKey_SingleRow";
    name +:+ "/Concurrency/ConcurrentUpdateStatus_NoError";
    name +:+ "/Concurrency/ConcurrentReadYourWrites_QueryAfterCreate";
    name +:+ "/KeyEdge/NotificationID_LongValue";
    name +:+ "/KeyEdge/NotificationID_SeparatorBytesDoNotCollide";
    name +:+ "/KeyEdge/DeviceType_CaseSensitive_SeparateRows" ].

Definition all_passed (paths : list string) : Report := (fun p => (p, [])) <$> paths.

Section suite.
Context {W : Type} (S : Store W) {HS : StoreLaws S}.

(** What the suite asks of a driver's [New]: a fresh, empty store, each time. *)
Definition makes_fresh (New : T W (Store W)) : Prop :=
  forall t, exists w, New t = (mkTest w (tFailed t), Some S) /\ content S w [] [].

(** [m] files exactly the passing subtests [paths]. *)
Definition files (m : M (W * Report) unit) (paths : list string) : Prop :=
  forall w rep, exists w', m (w, rep) = ((w', rep ++ all_passed paths), tt).

Lemma files_bind m m' ps ps' :
  files m ps -> files m' ps' -> files (_ ← m; m') (ps ++ ps').
Proof.
  intros Hm Hm' w rep. unfold_M. destruct (Hm w rep) as (w1 & ->).
  destruct (Hm' w1 (rep ++ all_passed ps)) as (w2 & He). exists w2.
  etrans; [exact He|]. unfold all_passed. by rewrite fmap_app, app_assoc.
Qed.

Lemma files_cons m m' p ps' :
  files m [p] -> files m' ps' -> files (_ ← m; m') (p :: ps').
Proof. apply (files_bind m m' [p]). Qed.

Lemma files_subtest New path body :
  makes_fresh New -> passes S (body S) -> files (subtest New path body) [path].
Proof.
  intros HN Hb w rep. destruct (HN (mkTest w [])) as (w1 & He & Hc).
  destruct (Hb w1 Hc) as (w2 & [] & Hr & _). exists w2.
  unfold subtest, tRun. unfold mbind, T_bind. rewrite He. cbn [tFailed]. by rewrite Hr.
Qed.

Lemma suite_files sched d New :
  DriverName d <> "" -> DriverNew d = Some New -> makes_fresh New -> ~ handed_out S "no-such" ->
  files (RunConformance sched d) (suite_paths (DriverName d)).
Proof.
  intros Hname HN Hf Hns. unfold RunConformance.
  rewrite (proj2 (String.eqb_neq _ _) Hname), HN.
  assert (Hs : forall path body, passes S (body S) -> files (subtest New path body) [path])
    by (intros path body; by apply files_subtest).
  generalize (DriverName d). intros name. unfold suite_paths.
  do 8 (apply files_cons; [apply Hs; auto using CreateGet_passes, GetNotFound_passes,
    Idempotency_passes, StatusTransitions_passes, CursorWalk_ThreePages_passes,
    UnreadFilterAndCount_passes, DeviceUpsertRotation_passes, UserIsolation_passes|]).
  apply (files_bind _ _ [_; _]).
  { apply files_cons; apply Hs; [apply AllPages_passes|apply StrictLessThanCutoff_passes]. }
  apply (files_bind _ _ [_; _; _]).
  { do 2 (apply files_cons; [apply Hs; auto using FreshQuery_Empty_passes, FreshGet_NotFound_passes|]).
    apply Hs, FreshListDevices_Empty_passes. }
  apply (files_bind _ _ [_; _; _]).
  { do 2 (apply files_cons; [apply Hs; auto using StringFields_OnCreate_passes, Int64_Fidelity_Timestamps_passes|]).
    apply Hs, LargePayload_Body_passes. }
  apply (files_bind _ _ [_; _; _; _; _]).
  { do 4 (apply files_cons; [apply Hs; auto using ConcurrentCreate_DistinctKeys_passes,
      ConcurrentCreate_SameKey_passes, ConcurrentUpsertDevice_passes, ConcurrentUpdateStatus_passes|]).
    apply Hs, ConcurrentReadYourWrites_passes. }
  do 2 (apply files_cons; [apply Hs; auto using NotificationID_LongValue_passes,
    NotificationID_SeparatorBytesDoNotCollide_passes|]).
  apply Hs, DeviceType_CaseSensitive_SeparateRows_passes.
Qed.

(** C15: a driver with a name, whose [New] makes fresh empty stores that fulfil
    the contract and never hand out the id the suite looks up in vain, passes
    the conformance suite: all 24 subtests run, in order, and none records a
    failure, stops early or deadlocks, whatever the schedule of the goroutines
    of the concurrency tests. *)
Theorem conformance_passes (sched : nat -> list nat) (d : Driver W) (New : T W (Store W)) (w : W) :
  DriverName d <> "" -> DriverNew d = Some New -> makes_fresh New -> ~ handed_out S "no-such" ->
  exists w', RunConformance sched d (w, []) = ((w', all_passed (suite_paths (DriverName d))), tt).
Proof. intros Hname HN Hf Hns. by apply (suite_files sched d New). Qed.
End suite.

(** ** The memory driver *)

(** [conformance.Driver{Name: "memory", New: memory.New}] *)
Definition memory_driver : Driver MemStore :=
  mkDriver "memory" (Some (fun t => (mkTest New (tFailed t), Some sample_store))).

Lemma memory_fresh :
  makes_fresh sample_store (HS := sample_laws) (fun t => (mkTest New (tFailed t), Some sample_store)).
Proof.
  intros t. exists New. split; [done|].
  apply content_empty; [apply mem_inv_New|reflexivity|reflexivity].
Qed.

Lemma memory_ids : ~ handed_out sample_store (HS := sample_laws) "no-such".
Proof.
  intros (n & s & s' & _ & Hn & He). unfold CreateNotification in He. cbn in He.
  unfold mem_CreateNotification in He. destruct (notifByKey s !! _) as [e|].
  - by apply (f_equal (fun r => r.2.2)) in He.
  - rewrite Hn in He. apply (f_equal (fun r => nID r.2.1)) in He. cbn in He. done.
Qed.

Lemma conformance_passes_witness :
  (DriverName memory_driver <> "") /\
  exists w', RunConformance (fun _ => [3; 3; 1; 15; 0; 7]%nat) memory_driver (New, []) =
    ((w', all_passed (suite_paths "memory")), tt).
Proof.
  split; [done|].
  apply (@conformance_passes _ sample_store sample_laws (fun _ => [3; 3; 1; 15; 0; 7]%nat) memory_driver
    (fun t => (mkTest New (tFailed t), Some sample_store)) New); [done|done|exact memory_fresh|exact memory_ids].
Defined.
