(* ===== verification/StoreEquiv.v ===== *)
(** * The drivers answer alike

    Ids are the one thing a store chooses.  A client that learns ids from its
    own creates and otherwise names rows by their idempotency key cannot tell
    two stores apart: [observe] runs such a client ([SymOp]) against a store and
    keeps what it sees with the ids blanked, and every store that refines the
    abstract machine of StoreOps shows exactly what [reference] computes, a store
    of two maps keyed by the natural keys.  This is what conformance.go means by
    the memory driver being the differential reference. *)

From S2P Require Import Prelude GoErrors GoStrings Model StoreSpec StoreOps Paging.

(** ** The client *)

Inductive SymOp : Type :=
| SCreate (n : Notification)
| SGet (tenantID userID : string) (k : notifKey)
| SUpdate (tenantID : string) (k : notifKey) (status : DeliveryStatus) (atMS : Z)
| SQuery (q : Query)
| SUpsert (d : Device)
| SList (tenantID userID : string).

(** The ids the client has learned. *)
Notation Env := (gmap notifKey string).

(** The call a symbolic operation makes; none while its id is unknown. *)
Definition concrete (env : Env) (op : SymOp) : option StoreOp :=
  match op with
  | SCreate n => Some (OpCreate n)
  | SGet t u k => (fun id => OpGet t u id) <$> env !! k
  | SUpdate t k st ms => (fun id => OpUpdate t id st ms) <$> env !! k
  | SQuery q => Some (OpQuery q)
  | SUpsert d => Some (OpUpsert d)
  | SList t u => Some (OpList t u)
  end.

Definition learn (env : Env) (op : SymOp) (out : StoreOut) : Env :=
  match op, out with
  | SCreate n, OutCreate id (Ok _) => <[key_of n := id]> env
  | _, _ => env
  end.

Definition erase : Notification -> Notification := set_nID "".
Definition erase_dev : Device -> Device := set_dID "".

Definition map_ok {A B} (f : A -> B) (r : result error A) : result error B :=
  match r with Ok a => Ok (f a) | Err e => Err e end.

(** What the client sees, ids aside. *)
Definition blank (out : StoreOut) : StoreOut :=
  match out with
  | OutCreate _ r => OutCreate "" r
  | OutGet r => OutGet (map_ok erase r)
  | OutUpdate e => OutUpdate e
  | OutQuery r => OutQuery (map_ok (fun '(items, c, u) => (erase <$> items, c, u)) r)
  | OutUpsert r => OutUpsert (map_ok erase_dev r)
  | OutList r => OutList (map_ok (fmap erase_dev) r)
  end.

Definition sym_op {W} (S : Store W) (op : SymOp) (s : Env * W) : (Env * W) * option StoreOut :=
  match concrete s.1 op with
  | None => (s, None)
  | Some o => let '(w, out) := run_op S o s.2 in ((learn s.1 op out, w), Some (blank out))
  end.

Fixpoint sym_ops {W} (S : Store W) (ops : list SymOp) (s : Env * W) : list (option StoreOut) :=
  match ops with
  | [] => []
  | op :: ops => let '(s, out) := sym_op S op s in out :: sym_ops S ops s
  end.

Definition observe {W} (S : Store W) (ops : list SymOp) (w : W) : list (option StoreOut) :=
  sym_ops S ops (∅, w).

(** ** The reference *)

Record Ref := mkRef { ref_rows : gmap notifKey Notification; ref_devs : gmap devKey Device }.

Definition values {K V} `{Countable K} (m : gmap K V) : list V := (map_to_list m).*2.

Definition ref_query (q : Query) (s : Ref) : list Notification * string * Z :=
  let sorted := sort_slice newer (filter (selected q) (values (ref_rows s))) in
  (take (Z.to_nat (ClampLimit (qLimit q))) sorted, page_cursor (ClampLimit (qLimit q)) sorted,
   Z.of_nat (length (filter (fun n => owned (qTenantID q) (qUserID q) n /\ nStatus n <> StatusRead)
                       (values (ref_rows s))))).

Definition ref_op (op : SymOp) (s : Ref) : Ref * option StoreOut :=
  match op with
  | SCreate n =>
      match ref_rows s !! key_of n with
      | Some _ => (s, Some (OutCreate "" (Ok false)))
      | None => (mkRef (<[key_of n := erase n]> (ref_rows s)) (ref_devs s), Some (OutCreate "" (Ok true)))
      end
  | SGet t u k =>
      (s, (fun r => OutGet (if decide (owned t u r) then Ok r else Err ErrNotFound)) <$> ref_rows s !! k)
  | SUpdate t k st ms =>
      match ref_rows s !! k with
      | None => (s, None)
      | Some r =>
          if decide (nTenantID r = t)
          then (mkRef (<[k := stamped st ms r]> (ref_rows s)) (ref_devs s), Some (OutUpdate None))
          else (s, Some (OutUpdate (Some ErrNotFound)))
      end
  | SQuery q => (s, Some (OutQuery (Ok (ref_query q s))))
  | SUpsert d =>
      match ref_devs s !! dkey_of d with
      | Some d0 => (mkRef (ref_rows s) (<[dkey_of d := rotate d0 d]> (ref_devs s)),
                    Some (OutUpsert (Ok (rotate d0 d))))
      | None => (mkRef (ref_rows s) (<[dkey_of d := erase_dev d]> (ref_devs s)),
                 Some (OutUpsert (Ok (erase_dev d))))
      end
  | SList t u =>
      (s, Some (OutList (Ok (sort_slice dev_before (filter (dev_owned t u) (values (ref_devs s)))))))
  end.

Fixpoint ref_ops (ops : list SymOp) (s : Ref) : list (option StoreOut) :=
  match ops with
  | [] => []
  | op :: ops => let '(s, out) := ref_op op s in out :: ref_ops ops s
  end.

Definition reference (ops : list SymOp) : list (option StoreOut) := ref_ops ops (mkRef ∅ ∅).

(** Two notifications that one user is sent have different creation times: a
    page orders rows of the same millisecond by their ids. *)
Definition distinct_times (ops : list SymOp) : Prop :=
  forall n1 n2, SCreate n1 ∈ ops -> SCreate n2 ∈ ops ->
    nTenantID n1 = nTenantID n2 -> nUserID n1 = nUserID n2 ->
    nCreatedAtMS n1 = nCreatedAtMS n2 -> key_of n1 = key_of n2.

(** ** Rows by id and rows by key *)

Section hides.
Context {R K : Type} `{Countable K} (id_of : R -> string) (key : R -> K) (blank_id : R -> R).
Hypothesis key_blank : forall r, key (blank_id r) = key r.

(** [ref] holds the rows of [m] under their keys, with the ids blanked. *)
Definition hides (m : gmap string R) (ref : gmap K R) : Prop :=
  forall k r', ref !! k = Some r' <-> exists id r, m !! id = Some r /\ key r = k /\ r' = blank_id r.

Lemma hides_empty : hides ∅ ∅.
Proof. intros k r'. rewrite lookup_empty. split; [done|]. intros (id & r & Hr & _). by rewrite lookup_empty in Hr. Qed.

Lemma hides_hit m ref id r :
  hides m ref -> m !! id = Some r -> ref !! key r = Some (blank_id r).
Proof. intros Hh Hr. apply (proj2 (Hh _ _)). eauto. Qed.

Lemma hides_absent m ref k : hides m ref -> absent key m k -> ref !! k = None.
Proof.
  intros Hh Ha. destruct (ref !! k) as [r'|] eqn:Hr; [|done].
  apply Hh in Hr as (id & r & Hr & Hk & _). by destruct (Ha id r).
Qed.

Lemma hides_new m ref id r :
  hides m ref -> m !! id = None -> absent key m (key r) ->
  hides (<[id := r]> m) (<[key r := blank_id r]> ref).
Proof.
  intros Hh Hid Ha k r'. rewrite lookup_insert_Some, (Hh k _). split.
  - intros [[<- <-]|[Hne (i & s & Hs & Hk & ->)]].
    + exists id, r. by rewrite lookup_insert_eq.
    + exists i, s. rewrite lookup_insert_ne by congruence. done.
  - intros (i & s & Hs & Hk & ->). apply lookup_insert_Some in Hs as [[<- <-]|[Hne Hs]].
    + left. split; [done|done].
    + right. split; [|eauto]. intros He. apply (Ha i s Hs). by rewrite Hk.
Qed.

Lemma hides_same m ref id r r' :
  rows_ok id_of key m -> hides m ref -> m !! id = Some r -> key r' = key r ->
  hides (<[id := r']> m) (<[key r := blank_id r']> ref).
Proof.
  intros [_ Hinj] Hh Hr Hk k x. rewrite lookup_insert_Some, (Hh k _). split.
  - intros [[<- <-]|[Hne (i & s & Hs & Hks & ->)]].
    + exists id, r'. by rewrite lookup_insert_eq.
    + exists i, s. rewrite lookup_insert_ne by (intros ->; congruence). done.
  - intros (i & s & Hs & Hks & ->). apply lookup_insert_Some in Hs as [[<- <-]|[Hne Hs]].
    + left. split; [congruence|done].
    + right. split; [|eauto]. intros He. apply Hne. apply (Hinj _ _ _ _ Hr Hs). congruence.
Qed.

Lemma rows_ok_NoDup_keys m : rows_ok id_of key m -> NoDup (key <$> (map_to_list m).*2).
Proof.
  intros Hok. apply NoDup_fmap_2_strong.
  - intros a b Ha Hb Hk. apply (rows_ok_elem id_of key m) in Ha, Hb; [|done..].
    assert (He : id_of a = id_of b) by (by eapply (proj2 Hok)). rewrite He in Ha. congruence.
  - by apply (NoDup_fmap_1 id_of), (rows_ok_NoDup_ids id_of key).
Qed.

Lemma hides_values m ref :
  rows_ok id_of key m -> hides m ref -> values ref ≡ₚ blank_id <$> (map_to_list m).*2.
Proof.
  intros Hok Hh. unfold values.
  assert (Hkeys : forall k r', (k, r') ∈ map_to_list ref -> key r' = k).
  { intros k r' Hr%elem_of_map_to_list. apply Hh in Hr as (id & r & _ & Hk & ->). by rewrite key_blank. }
  apply NoDup_Permutation.
  - apply (NoDup_fmap_1 key). rewrite <- list_fmap_compose, (list_fmap_ext _ fst); [apply NoDup_fst_map_to_list|].
    intros i [k r'] Hl. apply list_elem_of_lookup_2 in Hl. by apply Hkeys.
  - apply (NoDup_fmap_1 key). rewrite <- list_fmap_compose, (list_fmap_ext _ key); [by apply rows_ok_NoDup_keys|].
    intros i r _. apply key_blank.
  - intros x. rewrite !list_elem_of_fmap. split.
    + intros ([k r'] & -> & Hr%elem_of_map_to_list). apply Hh in Hr as (id & r & Hr & _ & ->).
      exists r. split; [done|]. apply list_elem_of_fmap. exists (id, r). split; [done|]. by apply elem_of_map_to_list.
    + intros (r & -> & ([id r0] & -> & Hr%elem_of_map_to_list)%list_elem_of_fmap).
      exists (key r0, blank_id r0). split; [done|]. apply elem_of_map_to_list, Hh. eauto.
Qed.
End hides.

(** ** Stores seen through their refinement of the abstract machine *)

Definition env_known (env : Env) (a : AbsStore) : Prop :=
  forall k id, env !! k = Some id -> is_Some (abs_rows a !! id).

(** What a driver promises to a client: on the operations it is [cr_ready] for,
    with ids it has handed out, it moves as the abstract machine does. *)
Class ClientRefines {W : Type} (S : Store W) := {
  cr_abs : W -> AbsStore;
  cr_inv : W -> Prop;
  cr_ready : SymOp -> Prop;
  cr_step : forall w env op o, cr_inv w -> cr_ready op -> env_known env (cr_abs w) ->
    concrete env op = Some o ->
    exists w' out, run_op S o w = (w', out) /\
      spec_step (cr_abs w) (o, out) (cr_abs w') /\ cr_inv w';
}.

Lemma filter_fmap_same {R} (f : R -> R) (P : R -> Prop) `{!forall x, Decision (P x)} (l : list R) :
  (forall r, P (f r) <-> P r) -> filter P (f <$> l) = f <$> filter P l.
Proof.
  intros HP. induction l as [|r l IH]; [done|]. rewrite fmap_cons, !filter_cons, IH.
  destruct (decide (P r)) as [Hr|Hr].
  - by rewrite decide_True by by apply HP.
  - by rewrite decide_False by by rewrite HP.
Qed.

Section simulation.
Context (all : list SymOp) (Hdistinct : distinct_times all).

(** A row that some create of the client left. *)
Definition born (r : Notification) : Prop :=
  exists n, SCreate n ∈ all /\ key_of n = key_of r /\ nCreatedAtMS n = nCreatedAtMS r.

Record sim (env : Env) (a : AbsStore) (s : Ref) : Prop := {
  sim_rows_ok : rows_ok nID key_of (abs_rows a);
  sim_devs_ok : rows_ok dID dkey_of (abs_devs a);
  sim_env : forall k id, env !! k = Some id <-> exists r, abs_rows a !! id = Some r /\ key_of r = k;
  sim_rows : hides key_of erase (abs_rows a) (ref_rows s);
  sim_devs : hides dkey_of erase_dev (abs_devs a) (ref_devs s);
  sim_born : forall id r, abs_rows a !! id = Some r -> born r;
}.

Lemma sim_empty : sim ∅ (mkAbs ∅ ∅) (mkRef ∅ ∅).
Proof.
  split; cbn; [apply rows_ok_empty|apply rows_ok_empty| |apply hides_empty|apply hides_empty|].
  - intros k id. rewrite lookup_empty. split; [done|]. by intros (r & Hr & _).
  - by intros id r Hr.
Qed.

Lemma sim_known env a s : sim env a s -> env_known env a.
Proof. intros Hs k id (r & Hr & _)%(sim_env _ _ _ Hs). eauto. Qed.

(** Rows of one user with one creation time are one row. *)
Lemma sim_distinct env a s t u : sim env a s -> distinct_created t u (abs_rows a).
Proof.
  intros Hs i j x y Hx Hy [Hxt Hxu] [Hyt Hyu] Hms.
  destruct (sim_born _ _ _ Hs i x Hx) as (n1 & Hn1 & Hk1 & Hm1).
  destruct (sim_born _ _ _ Hs j y Hy) as (n2 & Hn2 & Hk2 & Hm2).
  apply (proj2 (sim_rows_ok _ _ _ Hs) _ _ _ _ Hx Hy). rewrite <- Hk1, <- Hk2.
  unfold key_of in Hk1, Hk2. apply Hdistinct; [done|done|congruence..].
Qed.

Lemma newer_erase l :
  StronglySorted (fun a b => nCreatedAtMS b < nCreatedAtMS a) l -> StronglySorted newer (erase <$> l).
Proof.
  induction 1 as [|n l _ IH Hn]; [constructor|]. rewrite fmap_cons. constructor; [done|].
  rewrite Forall_fmap. eapply Forall_impl; [exact Hn|]. intros x Hx. by left.
Qed.

Lemma page_cursor_erase limit l : page_cursor limit (erase <$> l) = page_cursor limit l.
Proof.
  unfold page_cursor. rewrite length_fmap, <- fmap_take, fmap_last.
  by destruct (last (take (Z.to_nat limit) l)).
Qed.

(** A page of the store, ids blanked, is the page of the reference. *)
Lemma sim_query env a s q items cursor unread :
  sim env a s -> is_page q (abs_rows a) items cursor unread ->
  (erase <$> items, cursor, unread) = ref_query q s.
Proof.
  intros Hs (sorted & Hsel & -> & -> & ->). pose proof Hsel as [Hp Hsort].
  pose proof (hides_values nID key_of erase (fun r => eq_refl) _ _ (sim_rows_ok _ _ _ Hs) (sim_rows _ _ _ Hs)) as Hv.
  change (map_to_list (abs_rows a)).*2 with (all_rows (abs_rows a)) in Hv.
  assert (Hdec : StronglySorted (fun x y => nCreatedAtMS y < nCreatedAtMS x) sorted).
  { eapply (StronglySorted_newer_created (abs_rows a) (qTenantID q) (qUserID q));
      [by eapply sim_distinct|apply (sim_rows_ok _ _ _ Hs)| |done].
    intros n Hn. rewrite Hp in Hn. apply list_elem_of_filter in Hn as [[Ho _] Hn].
    split; [done|]. by apply (rows_ok_elem nID key_of _ n (sim_rows_ok _ _ _ Hs)). }
  assert (He : sort_slice newer (filter (selected q) (values (ref_rows s))) = erase <$> sorted).
  { apply (sorted_unique newer).
    - apply (sort_slice_sorted newer nCreatedAtMS).
      + intros x y _ _ Hxy. unfold newer. lia.
      + rewrite Hv, filter_fmap_same, <- Hp by done.
        rewrite <- list_fmap_compose. change (nCreatedAtMS ∘ erase) with nCreatedAtMS.
        clear -Hdec. induction Hdec as [|n l _ IH Hn]; [constructor|].
        rewrite fmap_cons. constructor; [|done]. rewrite list_elem_of_fmap. intros (x & He & Hx).
        rewrite Forall_forall in Hn. specialize (Hn x Hx). cbn in *. lia.
    - by apply newer_erase.
    - by rewrite sort_slice_perm, Hv, filter_fmap_same, Hp by done. }
  unfold ref_query. rewrite He, page_cursor_erase, fmap_take. f_equal.
  unfold unread_count. rewrite Hv, filter_fmap_same, length_fmap by done. done.
Qed.

Lemma sim_list env a s t u out :
  sim env a s -> is_device_list t u (abs_devs a) out ->
  erase_dev <$> out = sort_slice dev_before (filter (dev_owned t u) (values (ref_devs s))).
Proof.
  intros Hs [Hp Hsort].
  pose proof (hides_values dID dkey_of erase_dev (fun r => eq_refl) _ _ (sim_devs_ok _ _ _ Hs) (sim_devs _ _ _ Hs)) as Hv.
  change (map_to_list (abs_devs a)).*2 with (all_devices (abs_devs a)) in Hv.
  apply (sorted_unique dev_before).
  - clear -Hsort. induction Hsort as [|d l _ IH Hd]; [constructor|]. rewrite fmap_cons. constructor; [done|].
    rewrite Forall_fmap. eapply Forall_impl; [exact Hd|done].
  - apply (sort_slice_sorted dev_before dDeviceType).
    + intros x y _ _. apply dev_before_total.
    + rewrite Hv, filter_fmap_same by done. rewrite <- list_fmap_compose.
      change (dDeviceType ∘ erase_dev) with dDeviceType. by apply devices_types_NoDup, (sim_devs_ok _ _ _ Hs).
  - by rewrite sort_slice_perm, Hv, filter_fmap_same, Hp by done.
Qed.

Lemma sim_lookup env a s k id :
  sim env a s -> env !! k = Some id ->
  exists r, abs_rows a !! id = Some r /\ key_of r = k /\ ref_rows s !! k = Some (erase r).
Proof.
  intros Hs (r & Hr & <-)%(sim_env _ _ _ Hs). exists r. split_and!; [done|done|].
  eapply hides_hit; [apply (sim_rows _ _ _ Hs)|exact Hr].
Qed.

Lemma sim_unknown env a s k : sim env a s -> env !! k = None -> ref_rows s !! k = None.
Proof.
  intros Hs Hk. destruct (ref_rows s !! k) as [r'|] eqn:Hr; [|done].
  apply (sim_rows _ _ _ Hs) in Hr as (id & r & Hr & Hkr & _).
  rewrite (proj2 (sim_env _ _ _ Hs k id)) in Hk; [done|eauto].
Qed.

(** A call that changes nothing the client depends on. *)
Lemma sim_skip env a s op : sim env a s -> concrete env op = None -> ref_op op s = (s, None).
Proof.
  intros Hs Hc. destruct op; cbn in *; try done;
    apply fmap_None in Hc; by rewrite (sim_unknown _ _ _ _ Hs Hc).
Qed.

Lemma sim_create_new env a s n id :
  sim env a s -> SCreate n ∈ all ->
  absent key_of (abs_rows a) (key_of n) -> abs_rows a !! id = None ->
  sim (<[key_of n := id]> env) (mkAbs (<[id := set_nID id n]> (abs_rows a)) (abs_devs a))
    (mkRef (<[key_of n := erase n]> (ref_rows s)) (ref_devs s)).
Proof.
  intros Hs Hn Ha Hid. split; cbn [abs_rows abs_devs ref_rows ref_devs].
  - apply (rows_ok_insert_new nID key_of (abs_rows a) (set_nID id n)); [apply Hs|done|done].
  - apply Hs.
  - intros k i. rewrite lookup_insert_Some, (sim_env _ _ _ Hs k i). split.
    + intros [[<- <-]|[Hne (r & Hr & Hk)]].
      * exists (set_nID id n). by rewrite lookup_insert_eq.
      * exists r. rewrite lookup_insert_ne by congruence. done.
    + intros (r & Hr & Hk). apply lookup_insert_Some in Hr as [[<- <-]|[Hne Hr]]; [by left|].
      right. split; [|eauto]. intros He. apply (Ha i r Hr). by rewrite Hk.
  - apply (hides_new key_of erase (abs_rows a) (ref_rows s) id (set_nID id n)); [apply Hs|done|done].
  - apply Hs.
  - intros i r. rewrite lookup_insert_Some. intros [[<- <-]|[_ Hr]]; [by exists n|by eapply (sim_born _ _ _ Hs)].
Qed.

Lemma sim_update env a s id r st ms :
  sim env a s -> abs_rows a !! id = Some r ->
  sim env (mkAbs (<[id := stamped st ms r]> (abs_rows a)) (abs_devs a))
    (mkRef (<[key_of r := stamped st ms (erase r)]> (ref_rows s)) (ref_devs s)).
Proof.
  intros Hs Hr. split; cbn [abs_rows abs_devs ref_rows ref_devs].
  - by eapply rows_ok_insert_same; [apply Hs|exact Hr| |].
  - apply Hs.
  - intros k i. rewrite (sim_env _ _ _ Hs k i). split.
    + intros (x & Hx & Hk). destruct (decide (id = i)) as [<-|Hne].
      * exists (stamped st ms r). rewrite lookup_insert_eq. split; [done|]. rewrite key_of_stamped. congruence.
      * exists x. by rewrite lookup_insert_ne.
    + intros (x & Hx & Hk). apply lookup_insert_Some in Hx as [[<- <-]|[_ Hx]]; [|eauto].
      exists r. by rewrite key_of_stamped in Hk.
  - change (stamped st ms (erase r)) with (erase (stamped st ms r)).
    eapply hides_same; [apply Hs|apply Hs|exact Hr|done].
  - apply Hs.
  - intros i x. rewrite lookup_insert_Some. intros [[<- <-]|[_ Hx]]; [|by eapply (sim_born _ _ _ Hs)].
    destruct (sim_born _ _ _ Hs id r Hr) as (n & ?). by exists n.
Qed.

Lemma sim_upsert_new env a s d id :
  sim env a s -> absent dkey_of (abs_devs a) (dkey_of d) -> abs_devs a !! id = None ->
  sim env (mkAbs (abs_rows a) (<[id := set_dID id d]> (abs_devs a)))
    (mkRef (ref_rows s) (<[dkey_of d := erase_dev d]> (ref_devs s))).
Proof.
  intros Hs Ha Hid. split; cbn [abs_rows abs_devs ref_rows ref_devs]; try apply Hs.
  - apply (rows_ok_insert_new dID dkey_of (abs_devs a) (set_dID id d)); [apply Hs|done|done].
  - apply (hides_new dkey_of erase_dev (abs_devs a) (ref_devs s) id (set_dID id d)); [apply Hs|done|done].
Qed.

Lemma sim_upsert_hit env a s d id d0 :
  sim env a s -> abs_devs a !! id = Some d0 -> dkey_of d0 = dkey_of d ->
  sim env (mkAbs (abs_rows a) (<[id := rotate d0 d]> (abs_devs a)))
    (mkRef (ref_rows s) (<[dkey_of d := rotate (erase_dev d0) d]> (ref_devs s))).
Proof.
  intros Hs Hd Hk. split; cbn [abs_rows abs_devs ref_rows ref_devs]; try apply Hs.
  - by eapply rows_ok_insert_same; [apply Hs|exact Hd| |].
  - rewrite <- Hk. change (rotate (erase_dev d0) d) with (erase_dev (rotate d0 d)).
    eapply hides_same; [apply Hs|apply Hs|exact Hd|done].
Qed.

(** The client's env does not change on a call that learns what it knew. *)
Lemma sim_relearn env a s id r : sim env a s -> abs_rows a !! id = Some r -> <[key_of r := id]> env = env.
Proof. intros Hs Hr. apply insert_id, (sim_env _ _ _ Hs). eauto. Qed.

Lemma sim_step env a s op o out a' :
  sim env a s -> op ∈ all -> concrete env op = Some o -> spec_step a (o, out) a' ->
  sim (learn env op out) a' (ref_op op s).1 /\ (ref_op op s).2 = Some (blank out).
Proof.
  intros Hs Hin Hc Hstep. destruct op as [n|t u k|t k st ms|q|d|t u]; cbn in Hc.
  - injection Hc as <-. inversion Hstep as [? ? id Ha Hid Hne|? ? id r Hr Hk| | | | | | | |]; subst; cbn.
    + rewrite (hides_absent _ _ _ _ _ (sim_rows _ _ _ Hs) Ha). split; [by apply sim_create_new|done].
    + rewrite <- Hk, (hides_hit _ _ _ _ _ _ (sim_rows _ _ _ Hs) Hr), (sim_relearn _ _ _ _ _ Hs Hr). done.
  - apply fmap_Some in Hc as (id & Hid & ->).
    destruct (sim_lookup _ _ _ _ _ Hs Hid) as (r & Hr & Hk & Href). cbn. rewrite Href.
    inversion Hstep as [| |? ? ? ? r' Hr' Ho|? ? ? ? Hm| | | | | |]; subst; (split; [done|]); cbn.
    + assert (r' = r) as -> by congruence. by rewrite decide_True.
    + by rewrite decide_False by exact (Hm r Hr).
  - apply fmap_Some in Hc as (id & Hid & ->).
    destruct (sim_lookup _ _ _ _ _ Hs Hid) as (r & Hr & Hk & Href). cbn. rewrite Href.
    inversion Hstep as [| | | |? ? ? r' ? ? Hr' Ht|? ? ? ? ? Hm| | | |]; subst; cbn.
    + assert (r' = r) as -> by congruence. rewrite decide_True by done. cbn.
      split; [by apply sim_update|done].
    + by rewrite decide_False by exact (Hm r Hr).
  - injection Hc as <-. inversion Hstep as [| | | | | |? ? items c un Hp| | |]; subst; cbn.
    split; [done|]. by rewrite (sim_query _ _ _ _ _ _ _ Hs Hp).
  - injection Hc as <-. inversion Hstep as [| | | | | | |? ? id Ha Hid Hne|? ? id d0 Hd Hk|]; subst; cbn.
    + rewrite (hides_absent _ _ _ _ _ (sim_devs _ _ _ Hs) Ha). split; [by apply sim_upsert_new|done].
    + rewrite <- Hk, (hides_hit _ _ _ _ _ _ (sim_devs _ _ _ Hs) Hd). split; [|done]. rewrite Hk.
      by eapply sim_upsert_hit.
  - injection Hc as <-. inversion Hstep as [| | | | | | | | |? ? ? l Hl]; subst; cbn.
    split; [done|]. by rewrite (sim_list _ _ _ _ _ _ Hs Hl).
Qed.
End simulation.

Section observed.
Context {W : Type} (S : Store W) {HC : ClientRefines S}.

Lemma sym_ops_reference all : distinct_times all ->
  forall ops env w s, (forall op, op ∈ ops -> op ∈ all) -> Forall cr_ready ops ->
  cr_inv w -> sim all env (cr_abs w) s -> sym_ops S ops (env, w) = ref_ops ops s.
Proof.
  intros Hd. induction ops as [|op ops IH]; intros env w s Hall Hr Hi Hs; [done|].
  apply Forall_cons in Hr as [Hr Hrs]. cbn [sym_ops ref_ops]. unfold sym_op. cbn [fst snd].
  destruct (concrete env op) as [o|] eqn:Hc.
  - destruct (cr_step w env op o Hi Hr (sim_known _ _ _ _ Hs) Hc) as (w' & out & He & Hstep & Hi').
    rewrite He. destruct (sim_step all Hd _ _ _ _ _ _ _ Hs ltac:(apply Hall; by left) Hc Hstep) as [Hs' Hout].
    destruct (ref_op op s) as [s' out'] eqn:Href. cbn in *. rewrite Hout. f_equal.
    apply IH; [|done|done|done]. intros op' Hop'. apply Hall. by right.
  - rewrite (sim_skip _ _ _ _ _ Hs Hc). f_equal. apply IH; [|done|done|done].
    intros op' Hop'. apply Hall. by right.
Qed.

(** A fresh store shows the client exactly what the reference computes. *)
Lemma observe_reference ops w :
  distinct_times ops -> Forall cr_ready ops -> cr_inv w -> cr_abs w = mkAbs ∅ ∅ ->
  observe S ops w = reference ops.
Proof.
  intros Hd Hr Hi Ha. apply (sym_ops_reference ops); [done|done|done|done|].
  rewrite Ha. apply sim_empty.
Qed.
End observed.

(** ** Lawful stores *)

(** The client leaves ids to the store. *)
Definition sym_plain (op : SymOp) : Prop :=
  match op with SCreate n => nID n = "" | SUpsert d => dID d = "" | _ => True end.

#[export] Instance lawful_client {W} (S : Store W) {HS : StoreLaws S} : ClientRefines S.
Proof.
  refine {| cr_abs := abs S; cr_inv := store_inv; cr_ready := sym_plain |}.
  intros w env op o Hi Hr _ Hc. apply run_op_refines; [done|].
  destruct op; cbn in Hc; [by injection Hc as <-|..]; try (by injection Hc as <-);
    by apply fmap_Some in Hc as (id & _ & ->).
Defined.
