(* ===== verification/StoreEquivProps.v ===== *)
(** * The three drivers against the reference

    store/memory, store/entdb and store/postgres, each seen by the client of
    StoreEquiv, show what the reference computes, and so the same. *)

From S2P Require Import Prelude GoErrors GoStrings Model StoreSpec StoreOps Memory MemoryProps StoreEquiv.
From S2P Require Import Entdb EntdbProps Postgres PostgresProps PostgresSample.

Section postgres_client.
Context {D : Type} (pool : Pool D) (pg_newUUID : M D string) {HP : PgLaws pool pg_newUUID}.

(** The texts of the operation fit a text column, and ids are left to the store. *)
Definition sym_storable (op : SymOp) : Prop :=
  match op with
  | SCreate n => nID n = "" /\ Forall storable (notification_texts n)
  | SGet t u _ => storable t /\ storable u
  | SUpdate t _ st _ => storable t /\ storable st
  | SQuery q => storable (qTenantID q) /\ storable (qUserID q)
  | SUpsert d => dID d = "" /\ Forall storable (device_texts d)
  | SList t u => storable t /\ storable u
  end.

Lemma sym_storable_plain op : sym_storable op -> sym_plain op.
Proof. destruct op; cbn; tauto. Qed.

(** A client that uses the ids it was given never writes one in another spelling. *)
Lemma sym_storable_ready w env op o :
  pg_inv w -> sym_storable op -> env_known env (pg_abs pool pg_newUUID w) -> concrete env op = Some o ->
  pg_ready pool pg_newUUID o.
Proof.
  intros Hi Hs Hk Hc. destruct op; cbn in *; simplify_eq; try done;
    apply fmap_Some in Hc as (id & Hid & ->); cbn; destruct Hs;
    destruct (Hk _ _ Hid) as [r Hr]; split_and!; try done; left; by eapply pg_ids.
Qed.

Hypothesis bytewise : forall a b, collate a b <-> str_lt a b.

Definition postgres_client : ClientRefines (PostgresStore pool pg_newUUID).
Proof.
  refine {| cr_abs := pg_abs pool pg_newUUID; cr_inv := pg_inv; cr_ready := sym_storable |}.
  intros w env op o Hi Hr Hk Hc. by eapply pg_op_refines, sym_storable_ready.
Defined.
End postgres_client.

(** C14: The three drivers cannot be told apart by a client that learns ids from
    its creates: on fresh stores, any sequence of creates and device upserts that leave the id
    to the store, reads, status updates, queries and listings, whose creation times differ per
    user and whose texts Postgres can store, over a Postgres whose collation of text columns is
    bytewise (C or POSIX; under another one ListDevices orders device types differently), is
    answered by the memory, the EntDB and the Postgres driver with the same results, errors,
    pages, cursors and unread counts, ids aside, namely those of the reference store of two maps
    keyed by (tenant, user, notification id) and (tenant, user, device type). *)
Theorem drivers_agree `{MapOrder} (newUUID : nat -> string)
    {E} (sdk : SDK E) tenant {HL : EntdbLaws sdk tenant}
    {D} (pool : Pool D) pg_newUUID {HP : PgLaws pool pg_newUUID} (ops : list SymOp) (e : E) (d : D) :
  (forall i j, newUUID i = newUUID j -> i = j) -> (forall i, newUUID i <> "") ->
  (forall a b, collate a b <-> str_lt a b) ->
  ent_inv sdk tenant e -> ent_rows sdk tenant e = ∅ -> ent_devs sdk tenant e = ∅ ->
  pg_inv d -> nrows d = ∅ -> drows d = ∅ ->
  distinct_times ops -> Forall (sym_storable pool pg_newUUID) ops ->
  observe (MemoryStore newUUID) ops New = reference ops /\
  observe (EntdbStore sdk tenant) ops e = reference ops /\
  observe (PostgresStore pool pg_newUUID) ops d = reference ops.
Proof.
  intros Hinj Hne Hb Hie Hre Hde Hid Hrd Hdd Hdist Hops.
  assert (Hplain : Forall sym_plain ops) by (eapply Forall_impl; [exact Hops|apply sym_storable_plain]).
  split_and!.
  - apply (observe_reference (MemoryStore newUUID)
      (HC := @lawful_client _ _ (memory_laws newUUID Hinj Hne))); [done|done|apply mem_inv_New|done].
  - apply (observe_reference (EntdbStore sdk tenant)
      (HC := @lawful_client _ _ (entdb_laws sdk tenant))); [done|done|done|].
    cbn. unfold abs. cbn. by rewrite Hre, Hde.
  - apply (observe_reference (PostgresStore pool pg_newUUID)
      (HC := postgres_client pool pg_newUUID Hb)); [done|done|done|].
    cbn. unfold pg_abs. by rewrite Hrd, Hdd.
Qed.

(** ** At a concrete history *)

Definition sample_key (nid : string) : notifKey := mkNotifKey "acme" "u1" nid.

Definition sample_syms : list SymOp :=
  [ SCreate (sample_notif "acme" "u1" "n1" 10);
    SCreate (sample_notif "acme" "u1" "n2" 11);
    SCreate (sample_notif "acme" "u1" "n1" 10);
    SCreate (sample_notif "acme" "u2" "n1" 10);
    SUpdate "acme" (sample_key "n1") StatusRead 13;
    SGet "acme" "u1" (sample_key "n1");
    SGet "acme" "u2" (sample_key "n1");
    SGet "acme" "u2" (sample_key "n9");
    SQuery (sample_query "acme" "u1" 1);
    SUpsert (sample_device "acme" "u1" "web" "tok1" 14);
    SUpsert (sample_device "acme" "u1" "web" "tok2" 15);
    SUpsert (sample_device "acme" "u1" "android" "tok3" 15);
    SList "acme" "u1" ].

Lemma sample_syms_distinct : distinct_times sample_syms.
Proof.
  intros n1 n2 H1 H2. unfold sample_syms in H1, H2. rewrite !elem_of_cons, elem_of_nil in H1, H2.
  repeat match goal with
  | H : _ \/ _ |- _ => destruct H as [H|H]; [first [discriminate H | injection H as ->] |]
  | H : False |- _ => destruct H
  end; cbn; intros; try discriminate; try reflexivity; try lia.
Qed.

Lemma sample_syms_storable : Forall (sym_storable sample_pool draw (HP := sample_pool_laws)) sample_syms.
Proof.
  unfold sample_syms.
  repeat (apply Forall_cons; split; [simpl; split_and!; try done; try (repeat constructor)|]). constructor.
Qed.

Lemma drivers_agree_witness :
  observe sample_store sample_syms New = reference sample_syms /\
  reference sample_syms !! 2%nat = Some (Some (OutCreate "" (Ok false))) /\
  reference sample_syms !! 7%nat = Some None.
Proof.
  split; [|by split; vm_compute].
  apply (@drivers_agree sample_order sample_uuid _ mem_sdk "main" (mem_sdk_laws "main")
    _ sample_pool draw sample_pool_laws sample_syms empty_ent empty_tables
    sample_uuid_inj sample_uuid_nonempty (fun a b => iff_refl _)
    empty_ent_inv eq_refl eq_refl empty_tables_inv eq_refl eq_refl
    sample_syms_distinct sample_syms_storable).
Defined.
