(* ===== verification/Mux.v ===== *)
(** * net/http's ServeMux

    [http.ServeMux] of Go 1.25 on patterns without method, host or wildcard, the
    only ones that the servers register: a pattern that ends in a slash matches
    its subtree, any other only itself, and the longest match wins.  Paths are
    cleaned first: a path that is the root of a subtree without its slash is
    redirected to it, any other path that is not clean to its clean form.  The
    request path is one that is its own escaped form, of a method other than
    CONNECT; a redirect is permanent and keeps the query. *)

From S2P Require Import Prelude GoErrors GoStrings.

Definition slash : ascii := "/"%char.

(** [strings.HasSuffix(s, "/")] *)
Definition ends_in_slash (s : string) : bool :=
  match last (s2l s) with Some a => Ascii.eqb a slash | None => false end.

(** ** path.Clean, of a rooted path *)

(** The elements that stay, the last one first. *)
Fixpoint clean_segments (acc segs : list string) : list string :=
  match segs with
  | [] => acc
  | seg :: segs =>
      if (seg =? "")%string || (seg =? ".")%string then clean_segments acc segs
      else if (seg =? "..")%string then clean_segments (tail acc) segs
      else clean_segments (seg :: acc) segs
  end.

Definition path_of (segs : list string) : string := foldr (fun seg path => String slash seg +:+ path) "" segs.

Definition path_Clean (p : string) : string :=
  match clean_segments [] (Split p slash) with
  | [] => "/"
  | acc => path_of (rev acc)
  end.

Definition rooted (p : string) : string :=
  match p with
  | EmptyString => "/"
  | String a _ => if Ascii.eqb a slash then p else String slash p
  end.

(** [cleanPath] of net/http: the trailing slash is kept. *)
Definition cleanPath (p : string) : string :=
  let p := rooted p in
  let np := path_Clean p in
  if ends_in_slash p && negb (np =? "/")%string then np +:+ "/" else np.

(** ** The mux *)

Section mux.
Context {Handler : Type} (notFound : Handler) (redirect : string -> Handler).

(** A pattern and what it serves; a handler is a function of the request path. *)
Definition Route : Type := string * (string -> Handler).

Definition pattern_matches (pattern path : string) : bool :=
  if ends_in_slash pattern then HasPrefix path pattern else (path =? pattern)%string.

Fixpoint mux_match (routes : list Route) (path : string) : option Route :=
  match routes with
  | [] => None
  | (pattern, h) :: routes =>
      let rest := mux_match routes path in
      if pattern_matches pattern path then
        match rest with
        | Some (longer, _) => if (String.length pattern <? String.length longer)%nat then rest else Some (pattern, h)
        | None => Some (pattern, h)
        end
      else rest
  end.

Definition exactMatch (n : option Route) (path : string) : bool :=
  match n with Some (pattern, _) => (pattern =? path)%string | None => false end.

Definition ServeMux (routes : list Route) (path : string) : Handler :=
  let clean := cleanPath path in
  let n := mux_match routes clean in
  if negb (exactMatch n clean) && negb (ends_in_slash clean)
     && exactMatch (mux_match routes (clean +:+ "/")) (clean +:+ "/")
  then redirect (clean +:+ "/")
  else if negb (clean =? path)%string then redirect clean
  else match n with Some (_, h) => h path | None => notFound end.

Lemma s2l_append a b : s2l (a +:+ b) = s2l a ++ s2l b.
Proof. induction a as [|x a IH]; [done|]. rewrite append_cons. cbn. by f_equal. Qed.

Lemma l2s_s2l s : l2s (s2l s) = s.
Proof. induction s as [|a s IH]; [done|]. cbn. by f_equal. Qed.

Lemma s2l_inj a b : s2l a = s2l b -> a = b.
Proof. intros He. rewrite <- (l2s_s2l a), He. apply l2s_s2l. Qed.

Lemma append_slash_inj a b : a +:+ "/" = b +:+ "/" -> a = b.
Proof. intros He%(f_equal s2l). rewrite !s2l_append in He. apply app_inj_tail in He as [He _]. by apply s2l_inj. Qed.

(** A mux whose one pattern is the subtree of [root]. *)
Lemma ServeMux_subtree root h path : ends_in_slash root = false -> ends_in_slash (root +:+ "/") = true ->
  HasPrefix root (root +:+ "/") = false ->
  ServeMux [(root +:+ "/", h)] path =
    (if (cleanPath path =? root)%string then redirect (root +:+ "/")
     else if negb (cleanPath path =? path)%string then redirect (cleanPath path)
     else if HasPrefix path (root +:+ "/") then h path else notFound).
Proof.
  intros Hr Hrs Hp. unfold ServeMux. cbn [mux_match]. unfold pattern_matches. rewrite Hrs.
  destruct (String.eqb_spec (cleanPath path) root) as [->|Hne].
  - rewrite Hp, Hr. cbn [exactMatch negb andb].
    assert (HasPrefix (root +:+ "/") (root +:+ "/") = true) as -> by (apply HasPrefix_spec; by exists ""; rewrite append_empty_r).
    cbn [exactMatch]. by rewrite String.eqb_refl.
  - assert (Hex : exactMatch (if HasPrefix (cleanPath path +:+ "/") (root +:+ "/") then Some (root +:+ "/", h) else None)
      (cleanPath path +:+ "/") = false).
    { destruct (HasPrefix (cleanPath path +:+ "/") _); cbn [exactMatch]; [|reflexivity]. apply String.eqb_neq. intros He.
      apply Hne. by apply append_slash_inj. }
    rewrite Hex, andb_false_r. destruct (String.eqb_spec (cleanPath path) path) as [->|]; [|done]. cbn [negb].
    by destruct (HasPrefix path _).
Qed.
End mux.

Example cleanPath_dots : cleanPath "/a/../b//./c/" = "/b/c/" /\ cleanPath "/../x" = "/x" /\ cleanPath "" = "/".
Proof. by vm_compute. Qed.
