(* ===== verification/Connect.v ===== *)
(** * The generated Connect stubs: gen/go/notify/v1/notifyv1connect

    Procedure names, the two service handlers (which implementation a request
    path reaches, with which interceptors around it), the two clients (which
    URL a method calls) and the Unimplemented services.  What the Connect
    library builds from a procedure and a function, an [HTTPHandler] or a
    [Client], is abstract; its documented rule for a list of interceptors, the
    first one outermost, is [chain]. *)

From S2P Require Import Prelude GoErrors GoStrings Model Wire Auth Handlers.

Definition NotificationInternalServiceName : string := "elloloop.notify.v1.NotificationInternalService".
Definition NotificationClientServiceName : string := "elloloop.notify.v1.NotificationClientService".

Definition NotificationInternalServiceNotifyProcedure : string :=
  "/elloloop.notify.v1.NotificationInternalService/Notify".
Definition NotificationClientServiceStreamEventsProcedure : string :=
  "/elloloop.notify.v1.NotificationClientService/StreamEvents".
Definition NotificationClientServiceGetNotificationsProcedure : string :=
  "/elloloop.notify.v1.NotificationClientService/GetNotifications".
Definition NotificationClientServiceAckNotificationProcedure : string :=
  "/elloloop.notify.v1.NotificationClientService/AckNotification".
Definition NotificationClientServiceAckDataChangeProcedure : string :=
  "/elloloop.notify.v1.NotificationClientService/AckDataChange".
Definition NotificationClientServiceRegisterPushTokenProcedure : string :=
  "/elloloop.notify.v1.NotificationClientService/RegisterPushToken".

(** ** Requests, interceptors *)

(** The claims are the only value the program puts on a context. *)
Definition Ctx : Type := option Claims.

(** What an interceptor can see of a request: its procedure and headers. *)
Record AnyRequest := mkAnyRequest { Procedure : string; Header : string -> string }.

(** The message is bound in the closure; the answer is the response or an error. *)
Definition UnaryFunc (W A : Type) : Type := Ctx -> AnyRequest -> M W (result error A).

(** [A] is unit for a stream, which sends its messages as it runs and ends with
    an error or none. *)
Record Interceptor (W : Type) := mkInterceptor {
  WrapUnary : forall A, UnaryFunc W A -> UnaryFunc W A;
  WrapStreamingHandler : forall A, UnaryFunc W A -> UnaryFunc W A;
}.
Arguments mkInterceptor {W}.
Arguments WrapUnary {W} _ {A}.
Arguments WrapStreamingHandler {W} _ {A}.

(** [connect.WithInterceptors]: the first one is outermost. *)
Fixpoint chain {W A} (ics : list (Interceptor W)) (f : UnaryFunc W A) : UnaryFunc W A :=
  match ics with
  | [] => f
  | i :: ics => WrapUnary i (chain ics f)
  end.

Fixpoint chain_stream {W A} (ics : list (Interceptor W)) (f : UnaryFunc W A) : UnaryFunc W A :=
  match ics with
  | [] => f
  | i :: ics => WrapStreamingHandler i (chain_stream ics f)
  end.

(** [connect.UnaryInterceptorFunc]: streams are not wrapped. *)
Definition UnaryInterceptorFunc {W} (wrap : forall A, UnaryFunc W A -> UnaryFunc W A) : Interceptor W :=
  mkInterceptor wrap (fun A next => next).

(** ** The services *)

(** A service implementation; a method sees the context, the request and its
    message, which may be nil. *)
Definition Method (W Req Resp : Type) : Type := Ctx -> AnyRequest -> option Req -> M W (result error Resp).

Record NotificationInternalServiceHandler (W : Type) := mkInternalService {
  svcNotify : Method W NotifyRequestPB NotifyResponse;
}.
Arguments mkInternalService {W}.
Arguments svcNotify {W}.

Record NotificationClientServiceHandler (W : Type) := mkClientService {
  svcStreamEvents : Method W StreamEventsRequest unit;
  svcGetNotifications : Method W GetNotificationsRequest GetNotificationsResponse;
  svcAckNotification : Method W AckNotificationRequest AckNotificationResponse;
  svcAckDataChange : Method W AckDataChangeRequest AckDataChangeResponse;
  svcRegisterPushToken : Method W RegisterPushTokenRequest RegisterPushTokenResponse;
}.
Arguments mkClientService {W}.
Arguments svcStreamEvents {W}.
Arguments svcGetNotifications {W}.
Arguments svcAckNotification {W}.
Arguments svcAckDataChange {W}.
Arguments svcRegisterPushToken {W}.

(** A decoded call: the interceptors around the method, on an empty context. *)
Definition unary_call {W Req Resp} (ics : list (Interceptor W)) (method : Method W Req Resp)
    (any : AnyRequest) (msg : option Req) : M W (result error Resp) :=
  chain ics (fun ctx any => method ctx any msg) None any.

Definition stream_call {W Req} (ics : list (Interceptor W)) (method : Method W Req unit)
    (any : AnyRequest) (msg : option Req) : M W (result error unit) :=
  chain_stream ics (fun ctx any => method ctx any msg) None any.

(** What the Connect library and net/http make of a procedure and the call that
    serves it. *)
Record ConnectHTTP (W HTTPHandler : Type) := mkConnectHTTP {
  NewUnaryHandler : forall Req Resp,
    string -> (AnyRequest -> option Req -> M W (result error Resp)) -> HTTPHandler;
  NewServerStreamHandler : forall Req,
    string -> (AnyRequest -> option Req -> M W (result error unit)) -> HTTPHandler;
  NotFound : HTTPHandler;                    (* http.NotFoundHandler() *)
  Redirect : string -> HTTPHandler;          (* http.RedirectHandler(url, http.StatusMovedPermanently) *)
}.
Arguments mkConnectHTTP {W HTTPHandler}.
Arguments NewUnaryHandler {W HTTPHandler} _ {Req Resp}.
Arguments NewServerStreamHandler {W HTTPHandler} _ {Req}.
Arguments NotFound {W HTTPHandler} _.
Arguments Redirect {W HTTPHandler} _.

Section handlers.
Context {W HTTPHandler : Type} (lib : ConnectHTTP W HTTPHandler).

(** A handler as the function from [r.URL.Path] to what serves the request. *)
Definition NewNotificationInternalServiceHandler (svc : NotificationInternalServiceHandler W)
    (ics : list (Interceptor W)) : string * (string -> HTTPHandler) :=
  let notify := NewUnaryHandler lib NotificationInternalServiceNotifyProcedure
                  (unary_call ics (svcNotify svc)) in
  ("/elloloop.notify.v1.NotificationInternalService/", fun path =>
    if (path =? NotificationInternalServiceNotifyProcedure)%string then notify
    else NotFound lib).

Definition NewNotificationClientServiceHandler (svc : NotificationClientServiceHandler W)
    (ics : list (Interceptor W)) : string * (string -> HTTPHandler) :=
  let streamEvents := NewServerStreamHandler lib NotificationClientServiceStreamEventsProcedure
                        (stream_call ics (svcStreamEvents svc)) in
  let getNotifications := NewUnaryHandler lib NotificationClientServiceGetNotificationsProcedure
                            (unary_call ics (svcGetNotifications svc)) in
  let ackNotification := NewUnaryHandler lib NotificationClientServiceAckNotificationProcedure
                           (unary_call ics (svcAckNotification svc)) in
  let ackDataChange := NewUnaryHandler lib NotificationClientServiceAckDataChangeProcedure
                         (unary_call ics (svcAckDataChange svc)) in
  let registerPushToken := NewUnaryHandler lib NotificationClientServiceRegisterPushTokenProcedure
                             (unary_call ics (svcRegisterPushToken svc)) in
  ("/elloloop.notify.v1.NotificationClientService/", fun path =>
    if (path =? NotificationClientServiceStreamEventsProcedure)%string then streamEvents
    else if (path =? NotificationClientServiceGetNotificationsProcedure)%string then getNotifications
    else if (path =? NotificationClientServiceAckNotificationProcedure)%string then ackNotification
    else if (path =? NotificationClientServiceAckDataChangeProcedure)%string then ackDataChange
    else if (path =? NotificationClientServiceRegisterPushTokenProcedure)%string then registerPushToken
    else NotFound lib).
End handlers.

(** ** The Unimplemented services *)

Definition unimplemented {W Req Resp} (name : string) : Method W Req Resp :=
  fun _ _ _ => mret (Err (CodeError CodeUnimplemented (name +:+ " is not implemented"))).

Definition UnimplementedNotificationInternalServiceHandler {W} : NotificationInternalServiceHandler W :=
  mkInternalService (unimplemented "elloloop.notify.v1.NotificationInternalService.Notify").

Definition UnimplementedNotificationClientServiceHandler {W} : NotificationClientServiceHandler W :=
  mkClientService
    (unimplemented "elloloop.notify.v1.NotificationClientService.StreamEvents")
    (unimplemented "elloloop.notify.v1.NotificationClientService.GetNotifications")
    (unimplemented "elloloop.notify.v1.NotificationClientService.AckNotification")
    (unimplemented "elloloop.notify.v1.NotificationClientService.AckDataChange")
    (unimplemented "elloloop.notify.v1.NotificationClientService.RegisterPushToken").

(** ** The clients *)

(** What [connect.NewClient] makes of a URL, and its calls; a server stream is
    opened, its messages are received later. *)
Record ConnectClient (W Client ServerStream : Type) := mkConnectClient {
  NewClient : string -> Client;
  CallUnary : forall Req Resp, Client -> Req -> M W (result error Resp);
  CallServerStream : forall Req, Client -> Req -> M W (result error ServerStream);
}.
Arguments mkConnectClient {W Client ServerStream}.
Arguments NewClient {W Client ServerStream}.
Arguments CallUnary {W Client ServerStream} _ {Req Resp}.
Arguments CallServerStream {W Client ServerStream} _ {Req}.

Record notificationInternalServiceClient (Client : Type) := mkInternalClient { c_notify : Client }.
Arguments mkInternalClient {Client}.
Arguments c_notify {Client}.

Record notificationClientServiceClient (Client : Type) := mkClientClient {
  c_streamEvents : Client;
  c_getNotifications : Client;
  c_ackNotification : Client;
  c_ackDataChange : Client;
  c_registerPushToken : Client;
}.
Arguments mkClientClient {Client}.
Arguments c_streamEvents {Client}.
Arguments c_getNotifications {Client}.
Arguments c_ackNotification {Client}.
Arguments c_ackDataChange {Client}.
Arguments c_registerPushToken {Client}.

Section clients.
Context {W Client ServerStream : Type} (lib : ConnectClient W Client ServerStream).

Definition NewNotificationInternalServiceClient (baseURL : string) : notificationInternalServiceClient Client :=
  let baseURL := TrimRightByte baseURL "/"%char in
  mkInternalClient (NewClient lib (baseURL +:+ NotificationInternalServiceNotifyProcedure)).

Definition NewNotificationClientServiceClient (baseURL : string) : notificationClientServiceClient Client :=
  let baseURL := TrimRightByte baseURL "/"%char in
  mkClientClient
    (NewClient lib (baseURL +:+ NotificationClientServiceStreamEventsProcedure))
    (NewClient lib (baseURL +:+ NotificationClientServiceGetNotificationsProcedure))
    (NewClient lib (baseURL +:+ NotificationClientServiceAckNotificationProcedure))
    (NewClient lib (baseURL +:+ NotificationClientServiceAckDataChangeProcedure))
    (NewClient lib (baseURL +:+ NotificationClientServiceRegisterPushTokenProcedure)).

Definition client_Notify (c : notificationInternalServiceClient Client) (req : NotifyRequestPB)
    : M W (result error NotifyResponse) := CallUnary lib (c_notify c) req.
Definition client_StreamEvents (c : notificationClientServiceClient Client) (req : StreamEventsRequest)
    : M W (result error ServerStream) := CallServerStream lib (c_streamEvents c) req.
Definition client_GetNotifications (c : notificationClientServiceClient Client) (req : GetNotificationsRequest)
    : M W (result error GetNotificationsResponse) := CallUnary lib (c_getNotifications c) req.
Definition client_AckNotification (c : notificationClientServiceClient Client) (req : AckNotificationRequest)
    : M W (result error AckNotificationResponse) := CallUnary lib (c_ackNotification c) req.
Definition client_AckDataChange (c : notificationClientServiceClient Client) (req : AckDataChangeRequest)
    : M W (result error AckDataChangeResponse) := CallUnary lib (c_ackDataChange c) req.
Definition client_RegisterPushToken (c : notificationClientServiceClient Client) (req : RegisterPushTokenRequest)
    : M W (result error RegisterPushTokenResponse) := CallUnary lib (c_registerPushToken c) req.
End clients.
