(* ===== verification/Surface.v ===== *)
(** * The HTTP surface: middleware.go, the muxes of server.go, observability.go

    The logging and recovery interceptors with the lines they write, the
    streaming shim, and the three HTTP servers as functions from the request
    path to what serves it.  The world is the process next to its log; a log
    line keeps its level, message and attributes, not their rendering. *)

From S2P Require Import Prelude GoErrors GoStrings Model Memory Notifier Wire Realtime.
From S2P Require Import Retry Stream Auth Handlers Config Server Mux Connect.

(** ** Log lines *)

Inductive Level := LevelInfo | LevelWarn | LevelError.

(** An attribute value: a string, a number, a flag or an error with its code. *)
Inductive Attr := AStr (s : string) | AInt (z : Z) | ABool (b : bool) | ACode (c : option Code) | AErr (e : error).

Record LogLine := mkLogLine { llLevel : Level; llMsg : string; llAttrs : list (string * Attr) }.

Section surface.
Context {V : Type}.

(** A world and the lines logged so far. *)
Definition Logged : Type := V * list LogLine.

Definition on_process {A} (m : M V A) : M Logged A := lift fst (fun v w => (v, w.2)) m.

Definition log_line (l : LogLine) : M Logged unit := fun w => ((w.1, w.2 ++ [l]), tt).

Context (now_ns : M V Z).

(** [time.Time.Sub] saturates; [Duration.Milliseconds] truncates. *)
Definition Sub (t u : Z) : Z := Z.max min_int64 (Z.min max_int64 (t - u)).
Definition Milliseconds (d : Z) : Z := Z.quot d 1000000.

(** [connect.CodeOf]: unknown for an error that is not Connect's. *)
Definition CodeOf (err : error) : option Code := code_of err.

(** ** loggingInterceptor *)

Definition log_fields (procedure : string) (latency : Z) (userID : string) (stream : bool) : list (string * Attr) :=
  [("procedure", AStr procedure); ("latency_ms", AInt (Milliseconds latency)); ("user_id", AStr userID)] ++
  (if stream then [("stream", ABool true)] else []).

(** The body shared by WrapUnary and WrapStreamingHandler.  A panic of the
    handler unwinds past it. *)
Definition logged_call (stream : bool) {A} (next : UnaryFunc Logged A) : UnaryFunc Logged A := fun ctx req =>
  start ← on_process now_ns;
  r ← next ctx req;
  match r with
  | Err (GoPanic msg) => mret (Err (GoPanic msg))
  | _ =>
      stop ← on_process now_ns;
      let latency := Sub stop start in
      let userID := match ctx with Some c => UserID c | None => "" end in
      let fields := log_fields (Procedure req) latency userID stream in
      match r with
      | Err err =>
          _ ← log_line (mkLogLine LevelWarn "rpc" (fields ++ [("code", ACode (CodeOf err)); ("error", AErr err)]));
          mret r
      | Ok _ => _ ← log_line (mkLogLine LevelInfo "rpc" fields); mret r
      end
  end.

Definition loggingInterceptor : Interceptor Logged :=
  mkInterceptor (@logged_call false) (@logged_call true).

(** ** recoveryInterceptor *)

Definition recovered_call {A} (next : UnaryFunc Logged A) : UnaryFunc Logged A := fun ctx req =>
  r ← next ctx req;
  match r with
  | Err (GoPanic msg) =>
      _ ← log_line (mkLogLine LevelError "rpc_panic" [("procedure", AStr (Procedure req)); ("panic", AStr msg)]);
      mret (Err (ConnectError CodeInternal (ErrorsNew "internal server error")))
  | _ => mret r
  end.

Definition recoveryInterceptor : Interceptor Logged :=
  mkInterceptor (@recovered_call) (@recovered_call).

(** ** The authentication interceptors, on the chain *)

Definition clientAuth (v : AuthValidator) : Interceptor Logged :=
  UnaryInterceptorFunc (fun A next ctx req =>
    NewClientAuthInterceptor v (Header req "Authorization") (fun claims => next claims req)).

Definition internalAuth (expected : string) (devMode : bool) : Interceptor Logged :=
  UnaryInterceptorFunc (fun A next ctx req =>
    NewInternalAuthInterceptor expected devMode (Header req "X-Notify-Internal-Token") (fun _ => next ctx req)).

(** ** streamAuthShim *)

(** The event loop of Stream.v: what runs once StreamEvents has handed over the
    user, tenant and device type of the stream, to its end. *)
Context (serve_loop : string * string * string -> M Logged (result error unit)).

Definition streamAuthShim (h : clientHandler V) (auth : AuthValidator) : NotificationClientServiceHandler Logged :=
  mkClientService
    (fun ctx any req =>
       match authenticateStreamReq auth (Header any "Authorization") with
       | Err err => mret (Err err)
       | Ok ctx =>
           match StreamEvents h ctx req with
           | Err err => mret (Err err)
           | Ok stream => serve_loop stream
           end
       end)
    (fun ctx any req => on_process (GetNotifications h ctx req))
    (fun ctx any req => on_process (AckNotification h ctx req))
    (fun ctx any req => on_process (AckDataChange h ctx req))
    (fun ctx any req => on_process (RegisterPushToken h ctx req)).

Definition internalHandler `{MapOrder} (n : NotifierT V) : NotificationInternalServiceHandler Logged :=
  mkInternalService (fun ctx any req => on_process (internal_Notify n req)).
End surface.
Arguments Logged : clear implicits.

(** ** The servers *)

Section servers.
Context {X HTTPHandler : Type} `{MapOrder} (now_ns : M (Process X) Z)
  (serve_loop : string * string * string -> M (Logged (Process X)) (result error unit))
  (lib : ConnectHTTP (Logged (Process X)) HTTPHandler).

Definition client_interceptors (auth : AuthValidator) : list (Interceptor (Logged (Process X))) :=
  [recoveryInterceptor; loggingInterceptor now_ns; clientAuth auth].

Definition internal_interceptors (cfg : AuthConfig) : list (Interceptor (Logged (Process X))) :=
  [recoveryInterceptor; loggingInterceptor now_ns; internalAuth (acInternalToken cfg) (acDevMode cfg)].

(** The request handler of the client server, by path. *)
Definition buildClientServer (s : Server X) : string -> HTTPHandler :=
  let '(path, h) := NewNotificationClientServiceHandler lib (streamAuthShim serve_loop (srvHandler s) (srvAuth s))
                      (client_interceptors (srvAuth s)) in
  ServeMux (NotFound lib) (Redirect lib) [(path, h)].

Definition buildInternalServer (s : Server X) : string -> HTTPHandler :=
  let '(path, h) := NewNotificationInternalServiceHandler lib (internalHandler (srvNotifier s))
                      (internal_interceptors (cfgAuth (srvCfg s))) in
  ServeMux (NotFound lib) (Redirect lib) [(path, h)].

(** An HTTP answer: status, content type and body, or one that net/http writes. *)
Inductive Answer : Type :=
| Answered (status : Z) (contentType body : string)
| PageNotFound
| MovedPermanently (location : string).

(** [json.NewEncoder(w).Encode] of the map with the one key "status"; the two
    values it takes have nothing to escape. *)
Definition quoted (t : string) : string := String (chr 34) t +:+ String (chr 34) "".
Definition status_json (status : string) : string :=
  "{" +:+ quoted "status" +:+ ":" +:+ quoted status +:+ "}" +:+ String (chr 10) "".

Definition health_answer (w : Process X) : Answer :=
  let '(status, body) := health_ServeHTTP w in Answered status "application/json" (status_json body).

Definition metrics_answer (w : Process X) : Answer :=
  Answered 200 "text/plain; version=0.0.4" ("# notify metrics — placeholder" +:+ String (chr 10) "").

(** The metrics server. *)
Definition newMetricsMux : string -> Process X -> Answer :=
  ServeMux (fun _ => PageNotFound) (fun path _ => MovedPermanently path)
    [("/healthz", fun _ => health_answer); ("/health", fun _ => health_answer); ("/metrics", fun _ => metrics_answer)].

(** The live addresses; [ln_addr] is [net.Listener.Addr().String()]. *)
Context (ln_addr : nat -> string).

Definition addr_or_empty (ln : option nat) : string :=
  match ln with None => "" | Some l => ln_addr l end.

Definition Addr (s : Server X) : string := addr_or_empty (clientListener s).
Definition MetricsAddr (s : Server X) : string := addr_or_empty (metricsListener s).
Definition InternalAddr (s : Server X) : string := addr_or_empty (internalListener s).
End servers.

(** ** The calls behind the paths *)

Section transparent.
Context {V : Type} (now_ns : M V Z).
Hypothesis clock_reads : forall v, exists t, now_ns v = (v, t).

(** What one call logs: one line, which names the procedure. *)
Definition call_line (stream : bool) (procedure : string) {A} (r : result error A) (latency : Z) : LogLine :=
  match r with
  | Ok _ => mkLogLine LevelInfo "rpc" (log_fields procedure latency "" stream)
  | Err (GoPanic msg) =>
      mkLogLine LevelError "rpc_panic" [("procedure", AStr procedure); ("panic", AStr msg)]
  | Err err => mkLogLine LevelWarn "rpc"
      (log_fields procedure latency "" stream ++ [("code", ACode (CodeOf err)); ("error", AErr err)])
  end.

(** A function that leaves the log alone. *)
Definition quiet {A} (f : M (Logged V) (result error A)) (g : M V (result error A)) : Prop :=
  forall v log, f (v, log) = let '(v', r) := g v in ((v', log), r).

Lemma quiet_on_process {A} (g : M V (result error A)) : quiet (on_process g) g.
Proof. intros v log. unfold on_process, lift; cbn. by destruct (g v). Qed.

Lemma quiet_ret {A} (r : result error A) : quiet (mret r) (mret r).
Proof. done. Qed.

(** Recovery on an answer. *)
Definition recovered {A} (r : result error A) : result error A :=
  match r with
  | Err (GoPanic _) => Err (ConnectError CodeInternal (ErrorsNew "internal server error"))
  | r => r
  end.

(** Recovery and logging around a call: its effect, its answer with panics
    turned into internal errors, and one more line. *)
Lemma chain_logged stream {A} (f : UnaryFunc (Logged V) A) (any : AnyRequest) w :
  exists latency,
    recovered_call (logged_call now_ns stream f) None any w =
    let '((v, log), r) := f None any w in
    ((v, log ++ [call_line stream (Procedure any) r latency]), recovered r).
Proof.
  unfold recovered_call, logged_call. unfold_M. destruct w as [v0 log0].
  destruct (clock_reads v0) as [t0 Ht0]. unfold on_process, lift. cbn [fst snd]. rewrite Ht0.
  destruct (f None any (v0, log0)) as [[v log] r].
  destruct (clock_reads v) as [t1 Ht1]. exists (Sub t1 t0).
  destruct r as [a|err]; cbn [fst snd]; rewrite ?Ht1; [done|].
  destruct err; cbn [fst snd]; rewrite ?Ht1; done.
Qed.
End transparent.
