(* ===== verification/SurfaceProps.v ===== *)
(** * From a client stub's URL to the handler

    Every method of the generated clients reaches, over the URL it builds and
    the servers' muxes, exactly its own RPC of Server.v; around the RPC there is
    one log line, which never names the user; every other path is redirected or
    not found. *)

From S2P Require Import Prelude GoErrors GoStrings Model Memory MemoryProps Notifier Wire Realtime.
From S2P Require Import Retry Stream Auth Handlers Config ConfigProps Server ServerProps Mux Connect Surface.

(** ** URLs *)

(** [url.Parse(u).Path] of a URL with a scheme and an authority and without
    escapes, query or fragment: what follows the authority. *)
Fixpoint after_scheme (u : string) : string :=
  if HasPrefix u "://" then slice_from 3 u else
  match u with String _ u => after_scheme u | EmptyString => "" end.

Fixpoint from_slash (u : string) : string :=
  match u with
  | EmptyString => ""
  | String a t => if Ascii.eqb a "/"%char then u else from_slash t
  end.

Definition url_path (u : string) : string := from_slash (after_scheme u).

(** A base URL: scheme, host and any number of trailing slashes. *)
Definition base_url (scheme host : string) (slashes : nat) : string :=
  scheme +:+ "://" +:+ host +:+ l2s (replicate slashes "/"%char).

Lemma after_scheme_base scheme rest :
  IndexByte scheme ":"%char = None -> after_scheme (scheme +:+ "://" +:+ rest) = rest.
Proof.
  induction scheme as [|a s IH]; intros Hn.
  - rewrite append_nil. unfold after_scheme. destruct rest; done.
  - rewrite append_cons. cbn [after_scheme]. cbn in Hn.
    destruct (Ascii.eqb a ":"%char) eqn:Ha; [done|].
    apply fmap_None in Hn. rewrite IH by done.
    destruct (HasPrefix _ _) eqn:Hp; [|done].
    apply HasPrefix_spec in Hp as [t [= -> _]]. by rewrite Ascii.eqb_refl in Ha.
Qed.

Lemma from_slash_host host rest :
  IndexByte host "/"%char = None -> from_slash (host +:+ String "/" rest) = String "/" rest.
Proof.
  induction host as [|a h IH]; intros Hn; [done|]. rewrite append_cons. cbn [from_slash]. cbn in Hn.
  destruct (Ascii.eqb a "/"%char); [done|]. apply fmap_None in Hn. by apply IH.
Qed.

Lemma IndexByte_none s c a : IndexByte s c = None -> a ∈ s2l s -> a <> c.
Proof.
  induction s as [|x s IH]; cbn; intros Hn Ha; [by apply elem_of_nil in Ha|].
  destruct (Ascii.eqb x c) eqn:Hx; [done|]. apply fmap_None in Hn.
  apply elem_of_cons in Ha as [->|Ha]; [|by apply IH]. by apply Ascii.eqb_neq.
Qed.

(** Trailing slashes are trimmed, and nothing else. *)
Lemma TrimRightByte_slashes s n c :
  (forall a, last (s2l s) = Some a -> a <> c) -> TrimRightByte (s +:+ l2s (replicate n c)) c = s.
Proof.
  intros Hs. unfold TrimRightByte. rewrite s2l_append, s2l_l2s, List.rev_app_distr.
  replace (rev (replicate n c)) with (replicate n c)
    by (rewrite rev_alt; symmetry; apply reverse_replicate).
  assert (Hd : forall l, (forall a, head l = Some a -> a <> c) ->
    (fix drop l := match l with a :: t => if Ascii.eqb a c then drop t else l | [] => [] end)
      (replicate n c ++ l) = l).
  { intros l Hl. induction n as [|n IH]; cbn; [|by rewrite Ascii.eqb_refl].
    destruct l as [|a l]; [done|]. rewrite (proj2 (Ascii.eqb_neq a c)); [done|]. by apply Hl. }
  rewrite Hd.
  - rewrite List.rev_involutive. apply l2s_s2l.
  - intros a Ha. apply Hs. rewrite rev_alt in Ha. by rewrite <- head_reverse.
Qed.

Lemma last_app_s2l s t a : last (s2l t) = Some a -> last (s2l (s +:+ t)) = Some a.
Proof. intros Ht. by rewrite s2l_append, last_app, Ht. Qed.

(** The path of a client's URL is the procedure. *)
Lemma url_path_client scheme host n rest :
  IndexByte scheme ":"%char = None -> IndexByte host "/"%char = None -> host <> "" ->
  url_path (TrimRightByte (base_url scheme host n) "/"%char +:+ String "/" rest) = String "/" rest.
Proof.
  intros Hs Hh Hne. unfold base_url.
  replace (scheme +:+ "://" +:+ host +:+ l2s (replicate n "/"%char))
    with ((scheme +:+ "://" +:+ host) +:+ l2s (replicate n "/"%char)) by (by rewrite !append_assoc).
  rewrite TrimRightByte_slashes.
  - unfold url_path. rewrite !append_assoc, after_scheme_base by done. by apply from_slash_host.
  - intros a Ha. assert (Hlast : exists b, last (s2l host) = Some b).
    { destruct (last (s2l host)) as [b|] eqn:Hl; [by exists b|]. apply last_None in Hl. by destruct host. }
    destruct Hlast as [b Hb]. pose proof (last_app_s2l scheme ("://" +:+ host) b (last_app_s2l "://" host b Hb)) as Hb'.
    rewrite Ha in Hb'. injection Hb' as <-. eapply IndexByte_none; [exact Hh|].
    apply last_Some in Hb as [l ->]. apply elem_of_app. right. by left.
Qed.

(** ** What serves a path *)

Lemma if_same {A} (b : bool) (x : A) : (if b then x else x) = x.
Proof. by destruct b. Qed.

Section served.
Context {X HTTPHandler Client ServerStream : Type} `{MapOrder} (now_ns : M (Process X) Z)
  (serve_loop : string * string * string -> M (Logged (Process X)) (result error unit))
  (lib : ConnectHTTP (Logged (Process X)) HTTPHandler)
  (cl : ConnectClient (Logged (Process X)) Client ServerStream).
Hypothesis clock_reads : forall w, exists t, now_ns w = (w, t).

(** The line of one RPC: it names the procedure, is informational exactly on
    success and never carries a user. *)
Definition rpc_line (procedure : string) (ok : bool) (line : LogLine) : Prop :=
  ("procedure", AStr procedure) ∈ llAttrs line /\
  (llMsg line = "rpc" -> ("user_id", AStr "") ∈ llAttrs line) /\
  (llLevel line = LevelInfo <-> ok = true).

(** [h] is the procedure's handler, and a call of it is the RPC with one log line. *)
Definition serves {Req Resp} (h : HTTPHandler) (procedure header : string)
    (rpc : string -> option Req -> M (Process X) (result error Resp)) : Prop :=
  exists f, h = NewUnaryHandler lib procedure f /\
    forall any msg w log, Procedure any = procedure ->
    exists line, f any msg (w, log) =
        (let '(w', r) := rpc (Header any header) msg w in ((w', log ++ [line]), r)) /\
      rpc_line procedure (is_ok (rpc (Header any header) msg w).2) line.

(** The event loop behind StreamEvents' answer. *)
Definition streamed (r : result error (string * string * string)) : M (Logged (Process X)) (result error unit) :=
  match r with
  | Err err => mret (Err err)
  | Ok stream => serve_loop stream
  end.

Definition serves_stream {Req} (h : HTTPHandler) (procedure : string)
    (rpc : string -> option Req -> result error (string * string * string)) : Prop :=
  exists f, h = NewServerStreamHandler lib procedure f /\
    forall any msg w log, Procedure any = procedure ->
    exists line, f any msg (w, log) =
        (let '((w', log'), r) := streamed (rpc (Header any "Authorization") msg) (w, log) in
         ((w', log' ++ [line]), recovered r)) /\
      rpc_line procedure (is_ok (streamed (rpc (Header any "Authorization") msg) (w, log)).2) line.

Lemma call_line_rpc stream {A} procedure (r : result error A) latency :
  rpc_line procedure (is_ok r) (call_line stream procedure r latency).
Proof.
  unfold rpc_line. destruct r as [a|err]; [|destruct err]; cbn;
    (split; [by left|]; split; [|by split]); intros ?; try done; right; right; by left.
Qed.

Lemma recovery_recovered {A} (g : M (Process X) (result error A)) w :
  recovery g w = ((g w).1, recovered (g w).2).
Proof. unfold recovery. unfold_M. destruct (g w) as [w' [a|err]]; cbn; [done|by destruct err]. Qed.

Lemma is_ok_recovered {A} (r : result error A) : is_ok (recovered r) = is_ok r.
Proof. by destruct r as [|[]]. Qed.

Lemma serves_chain {Req Resp} procedure header (ic : Interceptor (Logged (Process X)))
    (method : Method (Logged (Process X)) Req Resp)
    (g : string -> option Req -> M (Process X) (result error Resp)) :
  (forall any msg, quiet (WrapUnary ic (fun ctx any => method ctx any msg) None any) (g (Header any header) msg)) ->
  serves (NewUnaryHandler lib procedure
            (unary_call [recoveryInterceptor; loggingInterceptor now_ns; ic] method))
    procedure header (fun tok msg => recovery (g tok msg)).
Proof.
  intros Hq. eexists. split; [done|]. intros any msg w log <-.
  destruct (chain_logged now_ns clock_reads false
    (fun ctx any => WrapUnary ic (fun ctx any => method ctx any msg) ctx any) any (w, log)) as [latency He].
  exists (call_line false (Procedure any) (g (Header any header) msg w).2 latency). split.
  - etrans; [exact He|]. cbv beta. rewrite recovery_recovered, (Hq any msg w log).
    by destruct (g (Header any header) msg w).
  - rewrite recovery_recovered. cbn [snd]. rewrite is_ok_recovered. apply call_line_rpc.
Qed.

Lemma quiet_client_auth {Resp} v any (m : option Claims -> M (Process X) (result error Resp))
    (method : UnaryFunc (Logged (Process X)) Resp) :
  (forall c, quiet (method (Some c) any) (m (Some c))) ->
  quiet (WrapUnary (clientAuth v) method None any) (NewClientAuthInterceptor v (Header any "Authorization") m).
Proof.
  intros Hq. unfold clientAuth, NewClientAuthInterceptor. cbn.
  destruct (v (Header any "Authorization")) as [c|err]; [apply Hq|apply quiet_ret].
Qed.

Lemma quiet_internal_auth {Resp} expected devMode any (m : M (Process X) (result error Resp))
    (method : UnaryFunc (Logged (Process X)) Resp) :
  quiet (method None any) m ->
  quiet (WrapUnary (internalAuth expected devMode) method None any)
    (NewInternalAuthInterceptor expected devMode (Header any "X-Notify-Internal-Token") (fun _ => m)).
Proof.
  intros Hq. unfold internalAuth, NewInternalAuthInterceptor. cbn.
  repeat case_match; try apply quiet_ret; apply Hq.
Qed.

(** A client method of the server. *)
Lemma serves_client {Req Resp} procedure (s : Server X)
    (m : option Claims -> option Req -> M (Process X) (result error Resp)) :
  serves (NewUnaryHandler lib procedure
            (unary_call (client_interceptors now_ns (srvAuth s)) (fun ctx any req => on_process (m ctx req))))
    procedure "Authorization" (fun authz req => client_rpc (srvAuth s) authz (fun claims => m claims req)).
Proof.
  apply (serves_chain procedure "Authorization" (clientAuth (srvAuth s)) _
    (fun authz req => NewClientAuthInterceptor (srvAuth s) authz (fun claims => m claims req))).
  intros any msg. apply (quiet_client_auth (srvAuth s) any (fun c => m c msg)).
  intros c. apply quiet_on_process.
Qed.

Lemma serves_internal procedure (s : Server X) :
  serves (NewUnaryHandler lib procedure
            (unary_call (internal_interceptors now_ns (cfgAuth (srvCfg s))) (svcNotify (internalHandler (srvNotifier s)))))
    procedure "X-Notify-Internal-Token" (rpc_Notify s).
Proof.
  apply (serves_chain procedure "X-Notify-Internal-Token" _ _
    (fun token req => NewInternalAuthInterceptor (acInternalToken (cfgAuth (srvCfg s)))
      (acDevMode (cfgAuth (srvCfg s))) token (fun _ => internal_Notify (srvNotifier s) req))).
  intros any msg. apply quiet_internal_auth, quiet_on_process.
Qed.

Lemma serves_streams procedure (s : Server X) :
  serves_stream (NewServerStreamHandler lib procedure
      (stream_call (client_interceptors now_ns (srvAuth s))
        (svcStreamEvents (streamAuthShim serve_loop (srvHandler s) (srvAuth s)))))
    procedure (rpc_StreamEvents s).
Proof.
  eexists. split; [done|]. intros any msg w log <-.
  destruct (chain_logged now_ns clock_reads true
    (fun ctx any => svcStreamEvents (streamAuthShim serve_loop (srvHandler s) (srvAuth s)) ctx any msg) any (w, log))
    as [latency He].
  exists (call_line true (Procedure any) (streamed (rpc_StreamEvents s (Header any "Authorization") msg) (w, log)).2 latency).
  split.
  - etrans; [exact He|]. cbn. unfold streamed, rpc_StreamEvents.
    destruct (authenticateStreamReq _ _) as [c|err]; [|done].
    destruct (StreamEvents _ _ _) as [t|err]; [|done]. by destruct (serve_loop t (w, log)) as [[??]?].
  - apply call_line_rpc.
Qed.

(** What becomes of a request that is for none of the procedures of a service. *)
Definition unserved (service path : string) : HTTPHandler :=
  if (cleanPath path =? "/" +:+ service)%string then Redirect lib ("/" +:+ service +:+ "/")
  else if negb (cleanPath path =? path)%string then Redirect lib (cleanPath path)
  else NotFound lib.

(** The muxes of the two servers, and the paths of their procedures. *)
Lemma client_server_path s path :
  buildClientServer now_ns serve_loop lib s path =
    (if (cleanPath path =? "/" +:+ NotificationClientServiceName)%string
     then Redirect lib ("/" +:+ NotificationClientServiceName +:+ "/")
     else if negb (cleanPath path =? path)%string then Redirect lib (cleanPath path)
     else if HasPrefix path ("/" +:+ NotificationClientServiceName +:+ "/")
     then (NewNotificationClientServiceHandler lib (streamAuthShim serve_loop (srvHandler s) (srvAuth s))
             (client_interceptors now_ns (srvAuth s))).2 path
     else NotFound lib).
Proof.
  exact (ServeMux_subtree (NotFound lib) (Redirect lib) ("/" +:+ NotificationClientServiceName) _ path
    eq_refl eq_refl eq_refl).
Qed.

Lemma internal_server_path s path :
  buildInternalServer now_ns lib s path =
    (if (cleanPath path =? "/" +:+ NotificationInternalServiceName)%string
     then Redirect lib ("/" +:+ NotificationInternalServiceName +:+ "/")
     else if negb (cleanPath path =? path)%string then Redirect lib (cleanPath path)
     else if HasPrefix path ("/" +:+ NotificationInternalServiceName +:+ "/")
     then (NewNotificationInternalServiceHandler lib (internalHandler (srvNotifier s))
             (internal_interceptors now_ns (cfgAuth (srvCfg s)))).2 path
     else NotFound lib).
Proof.
  exact (ServeMux_subtree (NotFound lib) (Redirect lib) ("/" +:+ NotificationInternalServiceName) _ path
    eq_refl eq_refl eq_refl).
Qed.

(** C22: over any base URL of a scheme, a host and trailing slashes, every
    method of the generated clients calls the URL whose path the server's mux
    serves with that method's procedure and with exactly its RPC, the
    Authorization (or internal token) header included, and StreamEvents with its
    event loop; each call appends one log line at its end, which names the
    procedure, is informational exactly on success and, although authentication
    succeeded, has an empty user id.  Any other request path (that needs no escapes) of the two servers is not served: a
    path that comes down to the service's root without its slash is redirected to the root, one
    with empty, dot or double-dot elements to what they come down to, and the rest is not found. *)
Theorem stubs_served (s : Server X) (scheme host : string) (n : nat) :
  IndexByte scheme ":"%char = None -> IndexByte host "/"%char = None -> host <> "" ->
  let c := NewNotificationClientServiceClient cl (base_url scheme host n) in
  let i := NewNotificationInternalServiceClient cl (base_url scheme host n) in
  let public u := buildClientServer now_ns serve_loop lib s (url_path u) in
  let private u := buildInternalServer now_ns lib s (url_path u) in
  (exists u, c_notify i = NewClient cl u /\
     serves (private u) NotificationInternalServiceNotifyProcedure "X-Notify-Internal-Token" (rpc_Notify s)) /\
  (exists u, c_getNotifications c = NewClient cl u /\
     serves (public u) NotificationClientServiceGetNotificationsProcedure "Authorization" (rpc_GetNotifications s)) /\
  (exists u, c_ackNotification c = NewClient cl u /\
     serves (public u) NotificationClientServiceAckNotificationProcedure "Authorization" (rpc_AckNotification s)) /\
  (exists u, c_ackDataChange c = NewClient cl u /\
     serves (public u) NotificationClientServiceAckDataChangeProcedure "Authorization" (rpc_AckDataChange s)) /\
  (exists u, c_registerPushToken c = NewClient cl u /\
     serves (public u) NotificationClientServiceRegisterPushTokenProcedure "Authorization" (rpc_RegisterPushToken s)) /\
  (exists u, c_streamEvents c = NewClient cl u /\
     serves_stream (public u) NotificationClientServiceStreamEventsProcedure (rpc_StreamEvents s)) /\
  (forall path, path ∉ [NotificationClientServiceStreamEventsProcedure;
       NotificationClientServiceGetNotificationsProcedure; NotificationClientServiceAckNotificationProcedure;
       NotificationClientServiceAckDataChangeProcedure; NotificationClientServiceRegisterPushTokenProcedure] ->
     buildClientServer now_ns serve_loop lib s path = unserved NotificationClientServiceName path) /\
  (forall path, path <> NotificationInternalServiceNotifyProcedure ->
     buildInternalServer now_ns lib s path = unserved NotificationInternalServiceName path).
Proof.
  intros Hs Hh Hne c i public private.
  assert (Hpath : forall p rest, p = String "/" rest ->
    url_path (TrimRightByte (base_url scheme host n) "/"%char +:+ p) = p)
    by (intros p rest ->; by apply url_path_client).
  unfold private, public. split_and!.
  - eexists. split; [reflexivity|]. rewrite (Hpath NotificationInternalServiceNotifyProcedure _ eq_refl), internal_server_path. apply serves_internal.
  - eexists. split; [reflexivity|]. rewrite (Hpath NotificationClientServiceGetNotificationsProcedure _ eq_refl), client_server_path. apply serves_client.
  - eexists. split; [reflexivity|]. rewrite (Hpath NotificationClientServiceAckNotificationProcedure _ eq_refl), client_server_path. apply serves_client.
  - eexists. split; [reflexivity|]. rewrite (Hpath NotificationClientServiceAckDataChangeProcedure _ eq_refl), client_server_path. apply serves_client.
  - eexists. split; [reflexivity|]. rewrite (Hpath NotificationClientServiceRegisterPushTokenProcedure _ eq_refl), client_server_path. apply serves_client.
  - eexists. split; [reflexivity|]. rewrite (Hpath NotificationClientServiceStreamEventsProcedure _ eq_refl), client_server_path. apply serves_streams.
  - intros path Hp. rewrite !not_elem_of_cons in Hp. destruct Hp as (H1 & H2 & H3 & H4 & H5 & _).
    rewrite client_server_path. unfold unserved, NewNotificationClientServiceHandler. cbn [snd].
    by rewrite !(proj2 (String.eqb_neq path _)), if_same by done.
  - intros path Hp. rewrite internal_server_path. unfold unserved, NewNotificationInternalServiceHandler. cbn [snd].
    by rewrite !(proj2 (String.eqb_neq path _)), if_same by done.
Qed.
End served.

(** ** At a concrete server *)

(** Handlers and clients as the names they were made with. *)
Definition named_http : ConnectHTTP (Logged (Process nat)) string :=
  mkConnectHTTP (fun _ _ procedure _ => procedure) (fun _ procedure _ => "stream " +:+ procedure) "404" (fun path => "301 " +:+ path).

Definition named_client : ConnectClient (Logged (Process nat)) string unit :=
  mkConnectClient (fun url => url)
    (fun _ _ url _ => mret (Err (ErrorsNew url))) (fun _ url _ => mret (Err (ErrorsNew url))).

Lemma stubs_served_witness :
  let c := NewNotificationClientServiceClient named_client (base_url "https" "api.acme.com:8443" 2) in
  c_getNotifications c = "https://api.acme.com:8443/elloloop.notify.v1.NotificationClientService/GetNotifications" /\
  serves named_http (buildClientServer (mret 0) (fun _ => mret (Ok tt)) named_http bare_server (url_path (c_getNotifications c)))
    NotificationClientServiceGetNotificationsProcedure "Authorization" (rpc_GetNotifications bare_server).
Proof.
  split; [vm_compute; reflexivity|].
  destruct (stubs_served (H := sample_order) (mret 0) (fun _ => mret (Ok tt)) named_http named_client
    (fun w => ex_intro _ 0 eq_refl) bare_server "https" "api.acme.com:8443" 2 eq_refl eq_refl ltac:(done))
    as (_ & (u & Hu & Hg) & _).
  rewrite Hu. exact Hg.
Defined.

(** The root without its slash, a path with dots, an unknown method, and the metrics server. *)
Example redirects :
  (fun path => buildInternalServer (H := sample_order) (mret 0) named_http bare_server path) <$>
    ["/elloloop.notify.v1.NotificationInternalService"; "/elloloop.notify.v1.NotificationInternalService/./Notify";
     "/elloloop.notify.v1.NotificationInternalService/Send"] =
  ["301 /elloloop.notify.v1.NotificationInternalService/"; "301 /elloloop.notify.v1.NotificationInternalService/Notify"; "404"] /\
  newMetricsMux "//healthz" sample_process = MovedPermanently "/healthz" /\
  newMetricsMux "/health" sample_process = Answered 503 "application/json" (status_json "not_ready").
Proof. vm_compute. split_and!; reflexivity. Qed.
