(* ===== verification/System.v ===== *)
(** * The service as a whole: histories of RPCs

    A wired server of Server.v as one state machine whose inputs are the RPCs of
    its two HTTP servers, authentication and recovery included.  [LawfulServer]
    is what the theorems of SystemProps.v need from the wiring: one store that
    keeps its contract behind the orchestrator and the handlers, and clocks,
    providers and the retry tracker that leave its rows alone. *)

From S2P Require Import Prelude GoErrors GoStrings Model StoreSpec Memory Notifier NotifierProps.
From S2P Require Import Wire Realtime Retry Stream Auth Handlers HandlersProps Config Server.

Inductive Rpc :=
| RNotify (token : string) (req : option NotifyRequestPB)
| RGetNotifications (authz : string) (req : option GetNotificationsRequest)
| RAckNotification (authz : string) (req : option AckNotificationRequest)
| RAckDataChange (authz : string) (req : option AckDataChangeRequest)
| RRegisterPushToken (authz : string) (req : option RegisterPushTokenRequest).

Inductive Reply :=
| ANotify (r : result error NotifyResponse)
| AGetNotifications (r : result error GetNotificationsResponse)
| AAckNotification (r : result error AckNotificationResponse)
| AAckDataChange (r : result error AckDataChangeResponse)
| ARegisterPushToken (r : result error RegisterPushTokenResponse).

Section system.
Context {X : Type} `{MapOrder}.
Implicit Types (s : Server X) (w : Process X).

Definition serve_rpc s (c : Rpc) : M (Process X) Reply :=
  match c with
  | RNotify token req => r ← rpc_Notify s token req; mret (ANotify r)
  | RGetNotifications authz req => r ← rpc_GetNotifications s authz req; mret (AGetNotifications r)
  | RAckNotification authz req => r ← rpc_AckNotification s authz req; mret (AAckNotification r)
  | RAckDataChange authz req => r ← rpc_AckDataChange s authz req; mret (AAckDataChange r)
  | RRegisterPushToken authz req => r ← rpc_RegisterPushToken s authz req; mret (ARegisterPushToken r)
  end.

Fixpoint serve_all s (cs : list Rpc) : M (Process X) (list Reply) :=
  match cs with
  | [] => mret []
  | c :: cs => a ← serve_rpc s c; l ← serve_all s cs; mret (a :: l)
  end.

(** The caller that a client RPC is served for. *)
Definition caller s (authz : string) (tenantID userID : string) : Prop :=
  exists claims, srvAuth s authz = Ok claims /\ TenantID claims = tenantID /\ UserID claims = userID.

(** The internal callers that Notify serves. *)
Definition admitted s (token : string) : Prop :=
  let expected := acInternalToken (cfgAuth (srvCfg s)) in
  (expected <> "" /\ token = expected) \/ (expected = "" /\ acDevMode (cfgAuth (srvCfg s)) = true).

(** The RPCs that may write a row or a device of (tenantID, userID). *)
Definition touches s (tenantID userID : string) (c : Rpc) : Prop :=
  match c with
  | RNotify token req => admitted s token /\ GetTenantId req = tenantID /\ userID ∈ GetUserIds req
  | RAckNotification authz _ | RRegisterPushToken authz _ => caller s authz tenantID userID
  | RGetNotifications _ _ | RAckDataChange _ _ => False
  end.

(** A call that leaves the store alone. *)
Definition leaves {S : Store (Process X)} {HS : StoreLaws S} {A} (m : M (Process X) A) : Prop :=
  forall w, store_inv w -> let w' := (m w).1 in rows w' = rows w /\ devs w' = devs w /\ store_inv w'.

Class LawfulServer s := {
  srv_laws :: StoreLaws (nStore (srvNotifier s));
  srv_env :: NotifyEnv (srvNotifier s);
  srv_ack : option (string -> string -> M (Process X) unit);
  srv_now : M (Process X) Z;
  srv_handler : srvHandler s = mkClientHandler (nStore (srvNotifier s)) srv_ack srv_now;
  srv_clock :: ClockLaws (nStore (srvNotifier s)) srv_now;
  srv_ack_leaves : forall ack key sess, srv_ack = Some ack -> leaves (HS := srv_laws) (ack key sess);
}.

(** The client of SystemProps.v that reads its inbox: it asks for unread rows
    and acknowledges what it gets, until there are none; the answer tells
    whether it came to the end. *)
Fixpoint ack_each s (authz : string) (ns : list NotificationPB) : M (Process X) unit :=
  match ns with
  | [] => mret tt
  | n :: ns => _ ← rpc_AckNotification s authz (Some (mkAckNotificationRequest (pbId n))); ack_each s authz ns
  end.

Fixpoint read_inbox s (authz : string) (limit : Z) (fuel : nat) : M (Process X) bool :=
  match fuel with
  | O => mret false
  | S fuel =>
      r ← rpc_GetNotifications s authz (Some (mkGetNotificationsRequest "" limit true));
      match r with
      | Err _ => mret false
      | Ok page =>
          match gnNotifications page with
          | [] => mret true
          | ns => _ ← ack_each s authz ns; read_inbox s authz limit fuel
          end
      end
  end.
End system.
