(* ===== verification/SystemProps.v ===== *)
(** * What the service guarantees over any history of RPCs

    What one RPC can do to the store ([did]); from it, that nobody else's calls
    reach a user's rows, devices or inbox, that rows and devices stay well-formed
    and answers name only known channels and statuses, and that a user who reads
    and acknowledges gets to the end of the inbox. *)

From S2P Require Import Prelude GoErrors GoStrings Model StoreSpec Memory MemoryProps Notifier NotifierProps.
From S2P Require Import Wire Realtime Retry Stream Auth Handlers HandlersProps Config ConfigProps Server ServerProps.
From S2P Require Import Http ChannelProps System.

(** ** One RPC *)

Section did.
Context {X : Type} `{MapOrder} (s : Server X) {HL : LawfulServer s}.
Implicit Types (w : Process X).

(** The trace an RPC leaves in the store. *)
Inductive did (c : Rpc) (w w' : Process X) : Prop :=
| did_nothing : rows w' = rows w -> devs w' = devs w -> did c w w'
| did_notify token req :
    c = RNotify token req -> admitted s token -> notify_valid req ->
    w' = (Notify (srvNotifier s) (notifyRequestFromProto req) w).1 -> did c w w'
| did_read authz req r ms :
    c = RAckNotification authz req -> caller s authz (nTenantID r) (nUserID r) ->
    rows w !! TrimSpace (GetId req) = Some r ->
    rows w' = <[TrimSpace (GetId req) := stamped StatusRead ms r]> (rows w) -> devs w' = devs w -> did c w w'
| did_register authz req id d :
    c = RRegisterPushToken authz req -> caller s authz (dTenantID d) (dUserID d) ->
    dDeviceType d = deviceTypeFromProto (GetTokenDeviceType req) -> dDeviceType d <> "" ->
    dToken d = TrimSpace (GetToken req) -> dToken d <> "" ->
    (forall d0, devs w !! id = Some d0 -> dkey_of d0 = dkey_of d) ->
    devs w' = <[id := d]> (devs w) -> rows w' = rows w -> did c w w'.

Lemma recovery_fst {A} (g : M (Process X) (result error A)) w : (recovery g w).1 = (g w).1.
Proof. unfold recovery. unfold_M. destruct (g w) as [w' [a|err]]; cbn; [done|by destruct err]. Qed.

Lemma client_rpc_fst {A} authz (m : option Claims -> M (Process X) (result error A)) w :
  (client_rpc (srvAuth s) authz m w).1 = w /\ (forall claims, srvAuth s authz <> Ok claims) \/
  exists claims, srvAuth s authz = Ok claims /\ (client_rpc (srvAuth s) authz m w).1 = (m (Some claims) w).1.
Proof.
  unfold client_rpc. rewrite recovery_fst. unfold NewClientAuthInterceptor.
  destruct (srvAuth s authz) as [claims|err]; [right; eauto|by left].
Qed.

Lemma serve_rpc_fst c w : (serve_rpc s c w).1 =
  match c with
  | RNotify token req => (rpc_Notify s token req w).1
  | RGetNotifications authz req => (rpc_GetNotifications s authz req w).1
  | RAckNotification authz req => (rpc_AckNotification s authz req w).1
  | RAckDataChange authz req => (rpc_AckDataChange s authz req w).1
  | RRegisterPushToken authz req => (rpc_RegisterPushToken s authz req w).1
  end.
Proof. destruct c; cbn; unfold_M; by case_match. Qed.

(** The internal interceptor calls through for an admitted caller. *)
Lemma admitted_runs {A} token (m : M (Process X) (result error A)) w : admitted s token ->
  NewInternalAuthInterceptor (acInternalToken (cfgAuth (srvCfg s))) (acDevMode (cfgAuth (srvCfg s))) token (fun _ => m) w = m w.
Proof.
  unfold NewInternalAuthInterceptor, admitted. intros [[Hne ->]|[-> ->]]; [|done].
  by rewrite (proj2 (String.eqb_neq _ _) Hne), String.eqb_refl.
Qed.

Lemma Notify_did token req w : store_inv w -> let w' := (rpc_Notify s token req w).1 in
  store_inv w' /\ did (RNotify token req) w w'.
Proof.
  intros Hi. unfold rpc_Notify, internal_rpc. rewrite recovery_fst.
  pose proof (internal_Notify_spec (srvNotifier s) req w Hi) as Hn.
  assert (Hrun : admitted s token -> let w' := (internal_Notify (srvNotifier s) req w).1 in
    store_inv w' /\ did (RNotify token req) w w').
  { intros Ha. destruct (internal_Notify (srvNotifier s) req w) as [w' res]. destruct Hn as [Hbad Hgood]. cbn.
    destruct (valid_dec req) as [Hv|Hv].
    - destruct (Hgood Hv) as [-> _]. split; [|by eapply did_notify].
      by destruct (notify_stage (srvNotifier s) (notifyRequestFromProto req) w Hi) as (w2 & res2 & -> & [] & _).
    - destruct (Hbad Hv) as [-> _]. split; [done|by apply did_nothing]. }
  unfold NewInternalAuthInterceptor, admitted in *.
  destruct (String.eqb_spec (acInternalToken (cfgAuth (srvCfg s))) "") as [He|He].
  - destruct (acDevMode _); [apply Hrun; by right|]. split; [done|by apply did_nothing].
  - destruct (String.eqb_spec token ""); [split; [done|by apply did_nothing]|].
    destruct (String.eqb_spec token (acInternalToken (cfgAuth (srvCfg s)))) as [Ht|Ht]; cbn [negb].
    + apply Hrun. by left.
    + split; [done|by apply did_nothing].
Qed.

Lemma Get_did claims req w : store_inv w ->
  let w' := (GetNotifications (srvHandler s) claims req w).1 in
  store_inv w' /\ rows w' = rows w /\ devs w' = devs w.
Proof.
  intros Hi. unfold GetNotifications. destruct claims as [claims|]; [|done].
  destruct (page_query claims req) as [q|err]; [|done]. rewrite srv_handler. unfold_M. cbn [chStore].
  by destruct (law_query w q Hi) as (w' & items & cursor & unread & -> & _ & ? & ? & ?).
Qed.

Lemma Ack_did authz claims req w : store_inv w -> srvAuth s authz = Ok claims ->
  let w' := (AckNotification (srvHandler s) (Some claims) req w).1 in
  store_inv w' /\ did (RAckNotification authz req) w w'.
Proof.
  intros Hi Ha. unfold AckNotification. destruct (String.eqb_spec (TrimSpace (GetId req)) "") as [Hid|Hid].
  { split; [done|by apply did_nothing]. }
  rewrite srv_handler. unfold_M. cbn [chStore chNow].
  destruct (law_get w (TenantID claims) (UserID claims) (TrimSpace (GetId req)) Hi) as (w1 & -> & Hr1 & Hd1 & Hi1).
  destruct (rows w !! TrimSpace (GetId req)) as [r|] eqn:Hr;
    [destruct (decide (owned (TenantID claims) (UserID claims) r)) as [[Ho1 Ho2]|Ho]|];
    [|split; [done|by apply did_nothing]..].
  pose proof (clock_frame w1 Hi1) as Hc. destruct (srv_now w1) as [w2 ms]. cbn in Hc. destruct Hc as (Hr2 & Hd2 & Hi2).
  destruct (law_update_hit w2 (TenantID claims) (TrimSpace (GetId req)) r StatusRead ms Hi2)
    as (w3 & -> & Hr3 & Hd3 & Hi3); [congruence|done|].
  split; [done|]. apply (did_read _ _ _ authz req r ms); cbn; [done|by exists claims|done|congruence..].
Qed.

Lemma Register_did authz claims req w : store_inv w -> srvAuth s authz = Ok claims ->
  let w' := (RegisterPushToken (srvHandler s) (Some claims) req w).1 in
  store_inv w' /\ did (RRegisterPushToken authz req) w w'.
Proof.
  intros Hi Ha. unfold RegisterPushToken.
  destruct (String.eqb_spec (deviceTypeFromProto (GetTokenDeviceType req)) "") as [Hdt|Hdt];
    [split; [done|by apply did_nothing]|].
  destruct (String.eqb_spec (TrimSpace (GetToken req)) "") as [Htok|Htok]; [split; [done|by apply did_nothing]|].
  rewrite srv_handler. unfold_M. cbn [chStore chNow].
  pose proof (clock_frame w Hi) as Hc. destruct (srv_now w) as [w1 ms]. cbn in Hc. destruct Hc as (Hr1 & Hd1 & Hi1).
  set (d := mkDevice "" (TenantID claims) (UserID claims) _ _ 0 ms).
  assert (Hcall : caller s authz (TenantID claims) (UserID claims)) by (by exists claims).
  destruct (absent_dec dkey_of (devs w1) (dkey_of d)) as [Hab|(id & d0 & Hd0 & Hk)].
  - destruct (law_upsert_new w1 d Hi1 eq_refl Hab) as (id & w2 & d' & -> & _ & Hnew & Hd2 & Hr2 & Hi2).
    split; [done|]. apply (did_register _ _ _ authz req id (set_dID id d)); cbn; try done; [|congruence..].
    intros d0 Hd0. congruence.
  - destruct (law_upsert_hit w1 d id d0 Hi1 Hd0 Hk) as (w2 & d' & -> & Hd2 & Hr2 & Hi2).
    pose proof Hk as [= Ht Hu Hty].
    split; [done|]. apply (did_register _ _ _ authz req id (rotate d0 d)); cbn; try done; rewrite ?Ht, ?Hu, ?Hty; try done.
    + intros d1 Hd1'. assert (d1 = d0) as -> by congruence. done.
    + congruence.
    + congruence.
Qed.

(** Whatever the RPC, that is all it does to the store. *)
Lemma serve_rpc_did c w : store_inv w ->
  store_inv (serve_rpc s c w).1 /\ did c w (serve_rpc s c w).1.
Proof.
  intros Hi. rewrite serve_rpc_fst.
  destruct c as [token req|authz req|authz req|authz req|authz req]; [by apply Notify_did|..].
  - unfold rpc_GetNotifications. destruct (client_rpc_fst authz
      (fun claims => GetNotifications (srvHandler s) claims req) w) as [[-> _]|(claims & _ & ->)];
      [split; [done|by apply did_nothing]|].
    destruct (Get_did (Some claims) req w Hi) as (? & ? & ?). split; [done|by apply did_nothing].
  - unfold rpc_AckNotification. destruct (client_rpc_fst authz
      (fun claims => AckNotification (srvHandler s) claims req) w) as [[-> _]|(claims & Ha & ->)];
      [split; [done|by apply did_nothing]|]. by apply Ack_did.
  - unfold rpc_AckDataChange. destruct (client_rpc_fst authz
      (fun claims => AckDataChange (srvHandler s) claims req) w) as [[-> _]|(claims & _ & ->)];
      [split; [done|by apply did_nothing]|].
    unfold AckDataChange. rewrite srv_handler. cbn [chStream].
    destruct (_ || _); [split; [done|by apply did_nothing]|].
    pose proof srv_ack_leaves as Hl. destruct srv_ack as [ack|]; [|split; [done|by apply did_nothing]].
    unfold_M. pose proof (Hl ack (TrimSpace (GetIdempotencyKey req)) (TrimSpace (GetSessionId req)) eq_refl w Hi) as Hf.
    destruct (ack _ _ w) as [w' u]. destruct Hf as (? & ? & ?). split; [done|by apply did_nothing].
  - unfold rpc_RegisterPushToken. destruct (client_rpc_fst authz
      (fun claims => RegisterPushToken (srvHandler s) claims req) w) as [[-> _]|(claims & Ha & ->)];
      [split; [done|by apply did_nothing]|]. by apply Register_did.
Qed.

Lemma serve_all_cons c cs w :
  (serve_all s (c :: cs) w).1 = (serve_all s cs (serve_rpc s c w).1).1.
Proof. cbn [serve_all]. unfold_M. destruct (serve_rpc s c w) as [w1 a]. cbn. by destruct (serve_all s cs w1). Qed.

(** Invariants of histories. *)
Lemma serve_all_inv (I : Process X -> Prop) (P : Rpc -> Prop) :
  (forall c w w', store_inv w -> store_inv w' -> P c -> I w -> did c w w' -> I w') ->
  forall cs w, store_inv w -> Forall P cs -> I w -> store_inv (serve_all s cs w).1 /\ I (serve_all s cs w).1.
Proof.
  intros Hstep cs. induction cs as [|c cs IH]; intros w Hi Hp HI; [done|]. rewrite serve_all_cons.
  apply Forall_cons in Hp as [Hc Hcs]. destruct (serve_rpc_did c w Hi) as [Hi' Hd].
  apply IH; [done..|]. eapply (Hstep c w); eauto.
Qed.
End did.

(** ** Isolation *)

Section isolation.
Context {X : Type} `{MapOrder} (s : Server X) {HL : LawfulServer s} (t u : string).
Implicit Types (w : Process X).

(** Two tables have the same entries satisfying [P]. *)
Definition same_on {R : Type} (P : R -> Prop) (m m' : gmap string R) : Prop :=
  forall id r, P r -> m !! id = Some r <-> m' !! id = Some r.

Lemma same_on_insert {R : Type} (P : R -> Prop) (m : gmap string R) id r :
  ~ P r -> (forall r0, m !! id = Some r0 -> ~ P r0) -> same_on P m (<[id := r]> m).
Proof.
  intros Hr H0 i x Hx. rewrite lookup_insert_Some. split.
  - intros Hi. right. split; [|done]. intros <-. by destruct (H0 x Hi).
  - by intros [[<- <-]|[_ ?]].
Qed.

Lemma same_on_evolves (K : notifKey -> Prop) m m' :
  evolves K m m' -> (forall r, owned t u r -> ~ K (key_of r)) -> same_on (owned t u) m m'.
Proof.
  intros [H1 H2] HK id r Ho. split.
  - intros Hr. destruct (H1 id r Hr) as (r' & Hr' & _ & Hsame). by rewrite Hsame in Hr' by auto.
  - intros Hr'. destruct (m !! id) as [r0|] eqn:Hr; [|by destruct (HK r Ho (H2 id r Hr' Hr))].
    destruct (H1 id r0 Hr) as (r1 & Hr1 & Hc & Hsame). assert (r1 = r) as -> by congruence.
    rewrite <- Hsame; [done|]. rewrite (key_of_content r0 r) by done. by apply HK.
Qed.

Lemma did_frame c w w' : store_inv w -> did s c w w' -> ~ touches s t u c ->
  same_on (owned t u) (rows w) (rows w') /\ same_on (dev_owned t u) (devs w) (devs w').
Proof.
  intros Hi Hd Ht.
  destruct Hd as [Hr Hd|token req -> Ha Hv ->|authz req r ms -> Hc Hr Hr' Hd|authz req id d -> Hc _ _ _ _ Hd0 Hd Hr].
  - rewrite Hr, Hd. split; intros ???; done.
  - destruct (notify_stage (srvNotifier s) (notifyRequestFromProto req) w Hi) as (w' & res & -> & [Hev Hd _ _ _] & _).
    cbn. rewrite Hd. split; [|intros ???; done]. eapply same_on_evolves; [exact Hev|].
    intros r [Hot Hou] (v & Hvin & Hk). injection Hk as Hkt Hku _. apply Ht. cbn. split; [done|].
    split; [by rewrite <- Hot, Hkt|]. by rewrite <- Hou, Hku.
  - rewrite Hr', Hd. split; [|intros ???; done]. apply same_on_insert.
    + intros [<- <-]. by apply Ht.
    + intros r0 Hr0 [<- <-]. assert (r0 = r) as -> by congruence. by apply Ht.
  - rewrite Hr, Hd. split; [intros ???; done|]. apply same_on_insert.
    + intros [<- <-]. by apply Ht.
    + intros d0 H0 [<- <-]. specialize (Hd0 d0 H0). injection Hd0 as Htd Hud _. apply Ht. cbn. by rewrite Htd, Hud.
Qed.

(** The page of a user is determined by the user's own rows. *)
Lemma page_same q m m' items cursor unread :
  rows_ok nID key_of m -> rows_ok nID key_of m' -> same_on (owned t u) m m' ->
  qTenantID q = t -> qUserID q = u -> is_page q m items cursor unread -> is_page q m' items cursor unread.
Proof.
  intros Hok Hok' Hs Hqt Hqu (l & [Hp Hsort] & -> & -> & ->).
  assert (Hperm : forall P `{!forall n, Decision (P n)}, (forall n, P n -> owned t u n) ->
    filter P (all_rows m) ≡ₚ filter P (all_rows m')).
  { intros P HP HPo. apply NoDup_Permutation.
    - apply NoDup_filter, (NoDup_fmap_1 nID), (rows_ok_NoDup_ids nID key_of m Hok).
    - apply NoDup_filter, (NoDup_fmap_1 nID), (rows_ok_NoDup_ids nID key_of m' Hok').
    - intros n. rewrite !list_elem_of_filter, !elem_of_all_rows.
      split; intros [Hn [i Hi]]; (split; [done|]); exists i; by apply (Hs i n (HPo n Hn)). }
  exists l. split_and!; [split; [|done]|done..|].
  - rewrite Hp. apply Hperm. intros n [Ho _]. by rewrite Hqt, Hqu in Ho.
  - unfold unread_count. f_equal. apply Permutation_length, Hperm. intros n [Ho _]. by rewrite Hqt, Hqu in Ho.
Qed.

Lemma get_same authz req w w' : store_inv w -> store_inv w' ->
  same_on (owned t u) (rows w) (rows w') -> caller s authz t u ->
  (rpc_GetNotifications s authz req w').2 = (rpc_GetNotifications s authz req w).2.
Proof.
  intros Hi Hi' Hs (claims & Ha & Hct & Hcu).
  unfold rpc_GetNotifications, client_rpc, recovery, NewClientAuthInterceptor, GetNotifications. rewrite Ha.
  destruct (page_query claims req) as [q|err] eqn:Hq; [|unfold_M; by destruct err].
  rewrite srv_handler. unfold_M. cbn [chStore].
  destruct (law_query w q Hi) as (w1 & items & cursor & unread & -> & Hp & _).
  destruct (law_query w' q Hi') as (w2 & items' & cursor' & unread' & -> & Hp' & _). cbn.
  assert (Hqs : qTenantID q = TenantID claims /\ qUserID q = UserID claims).
  { unfold page_query in Hq. destruct (negb _); [destruct (decodeCursor _)|]; by simplify_eq/=. }
  destruct Hqs as [Hqt Hqu].
  eapply page_same in Hp; [|exact (law_rows w Hi)|exact (law_rows w' Hi')|exact Hs|congruence..].
  by destruct (is_page_unique _ _ _ _ _ _ _ _ Hp Hp') as (-> & -> & ->).
Qed.

(** C12: Nobody else's calls reach a user.  Over any history of RPCs, authenticated or not, none of
    which is an admitted Notify that names the user in the user's tenant or an acknowledgement or
    registration authenticated as that user, the user's rows and devices stay exactly as they
    were and every GetNotifications of the user answers exactly as before. *)
Theorem others_unaffected (cs : list Rpc) w :
  store_inv w -> Forall (fun c => ~ touches s t u c) cs ->
  let w' := (serve_all s cs w).1 in
  same_on (owned t u) (rows w) (rows w') /\ same_on (dev_owned t u) (devs w) (devs w') /\
  forall authz req, caller s authz t u ->
    (rpc_GetNotifications s authz req w').2 = (rpc_GetNotifications s authz req w).2.
Proof.
  intros Hi Hcs w'.
  destruct (serve_all_inv s (fun v => same_on (owned t u) (rows w) (rows v) /\ same_on (dev_owned t u) (devs w) (devs v))
    (fun c => ~ touches s t u c)) with (cs := cs) (w := w) as (Hi' & Hr & Hd); [|done..| |].
  - intros c v v' Hv _ Hc [Hr Hd] Hdid. destruct (did_frame c v v' Hv Hdid Hc) as [Hr' Hd'].
    split; intros id x Hx; (etrans; [by apply Hr || by apply Hd|by apply Hr' || by apply Hd']).
  - split; intros ???; done.
  - split_and!; [done..|]. intros authz req Hc. by apply get_same.
Qed.
End isolation.

(** ** Well-formed rows, devices and answers *)

(** What the store may hold of a notification and of a device. *)
Definition row_typed (r : Notification) : Prop :=
  nChannel r ∈ known_kinds /\ nStatus r ∈ known_statuses /\
  TrimSpace (nTenantID r) <> "" /\ TrimSpace (nNotificationID r) <> "".

Definition device_typed (d : Device) : Prop :=
  dDeviceType d ∈ ["browser"; "android"; "ios"] /\ dToken d <> "".

Lemma channelKindFromProto_known c : channelKindFromProto c <> "" -> channelKindFromProto c ∈ known_kinds.
Proof.
  unfold channelKindFromProto, known_kinds. rewrite !elem_of_cons.
  repeat (destruct (_ =? _); [tauto|]). done.
Qed.

Lemma deviceTypeFromProto_known d :
  deviceTypeFromProto d <> "" -> deviceTypeFromProto d ∈ ["browser"; "android"; "ios"].
Proof.
  unfold deviceTypeFromProto. rewrite !elem_of_cons. repeat (destruct (_ =? _); [tauto|]). done.
Qed.

Lemma live_status_known st : live_status st -> st ∈ known_statuses.
Proof. unfold live_status, known_statuses. rewrite !elem_of_cons. tauto. Qed.

(** The wire values of a well-formed row are specified. *)
Definition view_typed (v : NotificationPB) : Prop :=
  1 <= pbChannel v <= 6 /\ 1 <= pbStatus v <= 5.

Lemma row_view_typed r : row_typed r -> view_typed (notification_view r).
Proof.
  unfold row_typed, view_typed, known_kinds, known_statuses. rewrite !elem_of_cons, !elem_of_nil. cbn.
  intros (Hc & Hs & _). split.
  - destruct Hc as [->|[->|[->|[->|[->|[->|[]]]]]]]; by vm_compute.
  - destruct Hs as [->|[->|[->|[->|[->|[]]]]]]; by vm_compute.
Qed.

Section typed.
Context {X : Type} `{MapOrder} (s : Server X) {HL : LawfulServer s}
  (Hproviders : forall kind p, Get (nProviders (srvNotifier s)) kind = Some p ->
     kind ∈ known_kinds /\ ProviderContract p).
Implicit Types (w : Process X).

Definition well_typed w : Prop :=
  map_Forall (fun _ => row_typed) (rows w) /\ map_Forall (fun _ => device_typed) (devs w).

Lemma channels_known req kind :
  kind ∈ channels_of (srvNotifier s) (notifyRequestFromProto req) -> kind ∈ known_kinds.
Proof.
  unfold channels_of. cbn. set (ks := List.filter _ _).
  assert (Hks : forall k, k ∈ ks -> k ∈ known_kinds).
  { intros k. unfold ks. rewrite list_elem_of_In, filter_In, <- list_elem_of_In.
    intros [(c & -> & _)%list_elem_of_fmap Hk]. apply channelKindFromProto_known. by destruct (String.eqb_spec (channelKindFromProto c) ""). }
  destruct ks; [|apply Hks]. intros [p Hp]%Enabled_elem. by apply (Hproviders kind p).
Qed.

Lemma did_typed c w w' : store_inv w -> well_typed w -> did s c w w' -> well_typed w'.
Proof.
  intros Hi [Hrt Hdt] Hd.
  destruct Hd as [Hr Hd|token req -> Ha Hv ->|authz req r ms -> Hc Hr Hr' Hd|authz req id d -> Hc Hty Hne Htok Htne Hd0 Hd Hr].
  - by split; rewrite ?Hr, ?Hd.
  - split.
    + apply (notify_pred (srvNotifier s) (fun k p Hk => proj2 (Hproviders k p Hk))); [|done| |done].
      * intros st ms id r Hst (Hch & _ & ?). split_and!; [done|by apply live_status_known|tauto..].
      * intros u kind id ms Hk. destruct Hv as (Hv1 & Hv2 & _). split_and!; cbn; [by eapply channels_known| |done|done].
        unfold known_statuses. rewrite elem_of_cons. by left.
    + destruct (notify_stage (srvNotifier s) (notifyRequestFromProto req) w Hi) as (w' & res & -> & [_ Hd _ _ _] & _).
      cbn. by rewrite Hd.
  - split; [|by rewrite Hd]. rewrite Hr'. apply map_Forall_insert_2; [|done].
    destruct (Hrt _ _ Hr) as (Hch & _ & ?). split_and!; [done| |tauto..].
    unfold known_statuses. rewrite !elem_of_cons. cbn. tauto.
  - split; [by rewrite Hr|]. rewrite Hd. apply map_Forall_insert_2; [|done]. split; [|done].
    rewrite Hty in *. by apply deviceTypeFromProto_known.
Qed.

Lemma get_typed authz req w page : store_inv w -> well_typed w ->
  (rpc_GetNotifications s authz req w).2 = Ok page -> Forall view_typed (gnNotifications page).
Proof.
  intros Hi [Hrt _]. unfold rpc_GetNotifications, client_rpc, recovery, NewClientAuthInterceptor. unfold_M.
  destruct (srvAuth s authz) as [claims|err]; [|by destruct err].
  unfold GetNotifications. destruct (page_query claims req) as [q|err]; [|by destruct err].
  rewrite srv_handler. unfold_M. cbn [chStore].
  destruct (law_query w q Hi) as (w1 & items & cursor & unread & -> & Hp & _). cbn.
  intros [= <-]. cbn. apply Forall_fmap, Forall_forall. intros n Hn.
  destruct (is_page_elem _ _ _ _ _ _ Hp Hn) as ([id Hid] & _). apply row_view_typed. by apply (Hrt id).
Qed.

(** C13: The service is type-sound.  With providers of the six channels that keep the channel contract,
    over any history of RPCs every stored row keeps a known channel, a known status and a
    non-blank tenant and notification id, every stored device a known type and a token, and
    every notification that GetNotifications ever answers carries a channel and a status of the
    wire's enums, never UNSPECIFIED. *)
Theorem rpc_typed (cs : list Rpc) w : store_inv w -> well_typed w ->
  let '(w', answers) := serve_all s cs w in
  well_typed w' /\
  forall page, AGetNotifications (Ok page) ∈ answers -> Forall view_typed (gnNotifications page).
Proof.
  revert w. induction cs as [|c cs IH]; intros w Hi Hw.
  { cbn. split; [done|]. intros page Hp. by apply not_elem_of_nil in Hp. }
  destruct (serve_rpc_did s c w Hi) as [Hi1 Hd]. pose proof (did_typed c w _ Hi Hw Hd) as Hw1.
  specialize (IH _ Hi1 Hw1). cbn [serve_all]. unfold_M.
  destruct (serve_rpc s c w) as [w1 a] eqn:Hc. cbn in IH. destruct (serve_all s cs w1) as [w2 answers].
  cbn. destruct IH as [Hw2 Hans]. split; [done|]. intros page [<-|Hp]%elem_of_cons; [|by apply Hans].
  destruct c as [| authz req| | |]; cbn in Hc; unfold_M; repeat case_match; simplify_eq.
  eapply (get_typed authz req w); [exact Hi|exact Hw|]. by destruct (rpc_GetNotifications s authz req w); simplify_eq/=.
Qed.
End typed.

(** ** Reading the inbox to its end *)

Section drain.
Context {X : Type} `{MapOrder} (s : Server X) {HL : LawfulServer s} (authz t u : string).
Implicit Types (w : Process X).
Hypothesis me : caller s authz t u.

Definition unread (n : Notification) : Prop := owned t u n /\ nStatus n <> StatusRead.

#[local] Instance unread_dec n : Decision (unread n).
Proof. unfold unread. apply _. Defined.

Definition unreads (m : gmap string Notification) : nat := length (filter unread (all_rows m)).

(** What reading does: the rows of the caller keep everything but status and
    times, nothing else changes and nothing is added. *)
Definition read_only (m m' : gmap string Notification) : Prop :=
  dom m' = dom m /\
  forall id r, m !! id = Some r -> exists r', m' !! id = Some r' /\ content r' = content r /\
    (r' = r \/ owned t u r /\ nStatus r' = StatusRead).

Lemma read_only_refl m : read_only m m.
Proof. split; [done|]. intros id r Hr. exists r. auto. Qed.

Lemma content_owned r r' : content r' = content r -> owned t u r' <-> owned t u r.
Proof. intros He. pose proof (key_of_content _ _ He) as Hk. unfold owned. by injection Hk as -> -> _. Qed.

Lemma read_only_trans m1 m2 m3 : read_only m1 m2 -> read_only m2 m3 -> read_only m1 m3.
Proof.
  intros [Hd1 H1] [Hd2 H2]. split; [congruence|]. intros id r Hr.
  destruct (H1 id r Hr) as (r' & Hr' & Hc & Ho). destruct (H2 id r' Hr') as (r'' & Hr'' & Hc' & Ho').
  exists r''. split_and!; [done|congruence|]. destruct Ho' as [->|[Ho' Hs]]; [done|].
  right. split; [|done]. by apply (content_owned r r').
Qed.

Lemma unreads_insert m id r r' : m !! id = Some r ->
  (unreads (<[id := r']> m) + (if decide (unread r) then 1 else 0) = unreads m + (if decide (unread r') then 1 else 0))%nat.
Proof.
  intros Hr. unfold unreads.
  assert (Hcount : forall m' x, m' !! id = Some x -> length (filter unread (all_rows m')) =
    ((if decide (unread x) then 1 else 0) + length (filter unread (all_rows (delete id m'))))%nat).
  { intros m' x Hx. pose proof (fmap_Permutation snd _ _ (map_to_list_delete m' id x Hx)) as Hp.
    apply (filter_Permutation unread), Permutation_length in Hp. unfold all_rows. rewrite <- Hp. cbn [fmap list_fmap snd].
    rewrite filter_cons. by destruct (decide (unread x)). }
  rewrite (Hcount m r Hr), (Hcount (<[id := r']> m) r') by apply lookup_insert_eq.
  rewrite delete_insert_eq. lia.
Qed.

(** One acknowledgement of a row of the caller. *)
Lemma ack_one w id r : store_inv w -> rows w !! id = Some r -> owned t u r -> TrimSpace id = id -> id <> "" ->
  exists w' res ms, rpc_AckNotification s authz (Some (mkAckNotificationRequest id)) w = (w', res) /\ store_inv w' /\
    rows w' = <[id := stamped StatusRead ms r]> (rows w).
Proof.
  intros Hi Hr [<- <-] Htrim Hne. destruct me as (claims & Ha & Hct & Hcu).
  unfold rpc_AckNotification, client_rpc, recovery, NewClientAuthInterceptor. rewrite Ha.
  unfold AckNotification. cbn [GetId from_option anId]. rewrite Htrim, (proj2 (String.eqb_neq _ _) Hne), srv_handler.
  unfold_M. cbn [chStore chNow]. rewrite Hct, Hcu.
  destruct (law_get w (nTenantID r) (nUserID r) id Hi) as (w1 & -> & Hr1 & _ & Hi1). rewrite Hr, decide_True by done.
  pose proof (clock_frame w1 Hi1) as Hc. destruct (srv_now w1) as [w2 ms]. cbn in Hc. destruct Hc as (Hr2 & _ & Hi2).
  destruct (law_update_hit w2 (nTenantID r) id r StatusRead ms Hi2) as (w3 & -> & Hr3 & _ & Hi3); [congruence|done|].
  cbn. exists w3. eexists _, ms. split_and!; [done..|congruence].
Qed.

(** The ids of the caller's rows survive the trimming of the acknowledgement. *)
Definition ids_trimmed (m : gmap string Notification) : Prop :=
  forall id r, m !! id = Some r -> owned t u r -> TrimSpace id = id /\ id <> "".

Lemma read_only_trimmed m m' : read_only m m' -> ids_trimmed m -> ids_trimmed m'.
Proof.
  intros [Hd Hro] Ht id r' Hr' Ho. assert (Hin : is_Some (m !! id)) by (apply elem_of_dom; rewrite <- Hd; by apply elem_of_dom).
  destruct Hin as [r Hr]. destruct (Hro id r Hr) as (r2 & Hr2 & Hc & _). assert (r2 = r') as -> by congruence.
  apply (Ht id r Hr). by apply (content_owned r r').
Qed.

Lemma ack_read_only m id r ms : m !! id = Some r -> owned t u r ->
  read_only m (<[id := stamped StatusRead ms r]> m) /\
  (unreads (<[id := stamped StatusRead ms r]> m) + (if decide (unread r) then 1 else 0) = unreads m)%nat.
Proof.
  intros Hr Ho. split; [split|].
  - rewrite dom_insert_L. assert (id ∈ dom m) by (by apply elem_of_dom). set_solver.
  - intros i x Hx. destruct (decide (i = id)) as [->|Hne].
    + assert (x = r) as -> by congruence. exists (stamped StatusRead ms r). rewrite lookup_insert_eq. auto.
    + exists x. rewrite lookup_insert_ne by done. auto.
  - pose proof (unreads_insert m id r (stamped StatusRead ms r) Hr) as He.
    rewrite (decide_False (P := unread (stamped StatusRead ms r))) in He by (by intros [_ ?]). lia.
Qed.

(** Acknowledging a page: every row of it that was still unread counts. *)
Lemma ack_each_spec ns : forall w, store_inv w -> ids_trimmed (rows w) ->
  (forall n, n ∈ ns -> exists r, rows w !! nID n = Some r /\ owned t u r) ->
  exists w', ack_each s authz (notification_view <$> ns) w = (w', tt) /\ store_inv w' /\
    read_only (rows w) (rows w') /\ (unreads (rows w') <= unreads (rows w))%nat /\
    (forall n ns', ns = n :: ns' -> forall r, rows w !! nID n = Some r -> unread r -> (unreads (rows w') < unreads (rows w))%nat).
Proof.
  induction ns as [|n ns IH]; intros w Hi Ht Hns.
  { exists w. split_and!; [done|done|apply read_only_refl|lia|done]. }
  destruct (Hns n ltac:(by left)) as (r & Hr & Ho). destruct (Ht _ _ Hr Ho) as [Htrim Hne].
  destruct (ack_one w (nID n) r Hi Hr Ho Htrim Hne) as (w1 & res & ms & Hack & Hi1 & Hr1).
  destruct (ack_read_only (rows w) (nID n) r ms Hr Ho) as [Hro Hcount]. rewrite <- Hr1 in Hro, Hcount.
  destruct (IH w1 Hi1) as (w2 & He & Hi2 & Hro2 & Hle & _).
  { by eapply read_only_trimmed. }
  { intros n' Hn'. destruct (Hns n' ltac:(by right)) as (r0 & Hr0 & Ho0).
    destruct Hro as [_ Hro]. destruct (Hro _ _ Hr0) as (r' & Hr' & Hc & _). exists r'. split; [done|]. by apply (content_owned r0 r'). }
  exists w2. rewrite fmap_cons. cbn [ack_each]. unfold_M. cbn [pbId notification_view]. rewrite Hack, He.
  split_and!; [done|done|by eapply read_only_trans|lia|].
  intros n' ns' [= <- <-] r' Hr' Hun. assert (r' = r) as -> by congruence. rewrite decide_True in Hcount by done. lia.
Qed.

(** A first page of unread rows. *)
Lemma unread_page w limit : store_inv w ->
  exists w' items page, rpc_GetNotifications s authz (Some (mkGetNotificationsRequest "" limit true)) w = (w', Ok page) /\
    gnNotifications page = notification_view <$> items /\ rows w' = rows w /\ store_inv w' /\
    (forall n, n ∈ items -> rows w !! nID n = Some n /\ unread n) /\
    (items = [] -> unreads (rows w) = 0%nat).
Proof.
  intros Hi. destruct me as (claims & Ha & Hct & Hcu).
  unfold rpc_GetNotifications, client_rpc, recovery, NewClientAuthInterceptor. rewrite Ha.
  unfold GetNotifications, page_query. cbn [GetCursor GetLimit GetUnreadOnly from_option gnCursor gnLimit gnUnreadOnly].
  rewrite Hct, Hcu, srv_handler. cbn [String.eqb negb]. unfold_M. cbn [chStore].
  set (q := mkQuery t u None limit true).
  destruct (law_query w q Hi) as (w' & items & cursor & unr & -> & Hp & Hr & _ & Hi').
  exists w', items. eexists. split_and!; [done|done|done|done| |].
  - intros n Hn. destruct (is_page_elem _ _ _ _ _ _ Hp Hn) as ([id Hid] & Ho & Hun & _).
    split; [|split; [done|by apply Hun]]. by rewrite (proj1 (law_rows w Hi) id n Hid).
  - intros ->. destruct Hp as (l & [Hl _] & Hitems & _). unfold unreads.
    assert (l = []) as ->.
    { pose proof (ClampLimit_range (qLimit q)). destruct l; [done|]. by destruct (Z.to_nat _) eqn:?; [lia|]. }
    apply Permutation_nil_l in Hl. rewrite (list_filter_iff unread (selected q)), <- Hl; [done|].
    intros n. unfold unread, selected. cbn. tauto.
Qed.

(** [unread_only] means not read, not "status below READ": a row whose delivery failed, FAILED being
    the last value of the wire's enum, is still answered. *)
Theorem unread_includes_failed (limit : Z) w id r : store_inv w ->
  rows w !! id = Some r -> owned t u r -> nStatus r = StatusFailed ->
  (forall id' r', rows w !! id' = Some r' -> unread r' -> r' = r) ->
  exists page, (rpc_GetNotifications s authz (Some (mkGetNotificationsRequest "" limit true)) w).2 = Ok page /\
    notification_view r ∈ gnNotifications page /\ DELIVERY_STATUS_READ < pbStatus (notification_view r).
Proof.
  intros Hi Hr Ho Hs Honly. destruct (unread_page w limit Hi) as (w1 & items & page & -> & Hpage & _ & _ & Hin & Hempty).
  exists page. split; [done|]. rewrite Hpage. split; [|cbn; rewrite Hs; by vm_compute].
  destruct items as [|n items].
  - specialize (Hempty eq_refl). apply length_zero_iff_nil in Hempty. exfalso.
    eapply (filter_nil_not_elem_of unread); [exact Hempty| |apply elem_of_all_rows; by exists id].
    split; [done|]. rewrite Hs. by vm_compute.
  - destruct (Hin n ltac:(by left)) as [Hn Hun]. rewrite (Honly _ _ Hn Hun). by left.
Qed.

(** C18: A recipient who keeps asking for unread notifications and acknowledges every page gets to the
    end.  From any state of the service, with an accepted token, any page limit and one round more
    than there are unread rows, the loop ends with an empty page; every row of the recipient is
    then read, keeping everything but status and times, no other row has changed, none has
    appeared or gone. *)
Theorem inbox_drains (limit : Z) (fuel : nat) w : store_inv w -> ids_trimmed (rows w) ->
  (unreads (rows w) < fuel)%nat ->
  exists w', read_inbox s authz limit fuel w = (w', true) /\
    read_only (rows w) (rows w') /\ forall id r, rows w' !! id = Some r -> owned t u r -> nStatus r = StatusRead.
Proof.
  revert w. induction fuel as [|fuel IH]; intros w Hi Ht Hfuel; [lia|]. cbn [read_inbox]. unfold_M.
  destruct (unread_page w limit Hi) as (w1 & items & page & -> & Hitems & Hr1 & Hi1 & Hin & Hempty).
  rewrite Hitems. destruct items as [|n items].
  - exists w1. split; [done|]. rewrite Hr1. split; [apply read_only_refl|]. intros id r Hr Ho.
    destruct (decide (nStatus r = StatusRead)) as [|Hs]; [done|exfalso]. specialize (Hempty eq_refl).
    apply length_zero_iff_nil in Hempty. eapply (filter_nil_not_elem_of unread); [exact Hempty|by split|].
    apply elem_of_all_rows. by exists id.
  - destruct (ack_each_spec (n :: items) w1 Hi1) as (w2 & He & Hi2 & Hro & Hle & Hlt).
    { by rewrite Hr1. }
    { intros n' Hn'. exists n'. rewrite Hr1. destruct (Hin n' Hn') as [? [? _]]. done. }
    rewrite Hr1 in Hro, Hlt. destruct (Hin n ltac:(by left)) as [Hn Hun].
    specialize (Hlt n items eq_refl n Hn Hun).
    destruct (IH w2 Hi2) as (w3 & Hw3 & Hro3 & Hall); [by eapply read_only_trimmed|lia|].
    exists w3. rewrite fmap_cons in *. rewrite He. split_and!; [done|by eapply read_only_trans|done].
Qed.
End drain.
