(* ===== verification/Deployment.v ===== *)
(** * The service as cmd/notifyd deploys it

    Every server that NewWithDeps builds over a store that keeps its contract is
    a [LawfulServer]: what the wiring adds around the store, the in-app provider,
    the live engine and the retry tracker, leaves the storage alone.  At the end
    the theorems of SystemProps.v on the memory deployment. *)

From S2P Require Import Prelude GoErrors GoStrings Model StoreSpec Memory MemoryProps Notifier NotifierProps.
From S2P Require Import Wire Realtime Retry Stream Auth Handlers HandlersProps Duration Config ConfigProps Server ServerProps.
From S2P Require Import Http ChannelProps System SystemProps.

Section deployment.
Context {X : Type} `{MapOrder} (newUUID : nat -> string)
  (parse : ParserOptions -> string -> result error (gmap string JSONValue))
  (timeNow : M (Process X) Z).
Implicit Types (w : Process X) (s : Server X) (cfg : Config) (deps : Dependencies X).

(** A store that lives in one part of the process, its storage, next to the live
    engine. *)
Class StorageLaws {P : Type} (storage : Process X -> P) (S : Store (Process X)) {HS : StoreLaws S} : Prop := {
  storage_streams : forall st w, storage (set_streams st w) = storage w;
  storage_tracker : forall tr w, storage (set_tracker tr w) = storage w;
  storage_only : forall w w', storage w' = storage w -> store_inv w ->
    rows w' = rows w /\ devs w' = devs w /\ store_inv w';
}.

Definition off_storage {P : Type} (storage : Process X -> P) {A} (m : M (Process X) A) : Prop :=
  forall w, storage (m w).1 = storage w.

(** The server that NewWithDeps returns. *)
Definition wired cfg (store : Store (Process X)) (providers : ProviderRegistry (Process X))
    (auth : AuthValidator) (closer : option (M (Process X) (option error))) (clock : M (Process X) Z) : Server X :=
  let live := lcEnabled (LiveConnections cfg) in
  let ack key sess := modify (fun w => set_tracker (Ack key sess (tracker w)) w) in
  mkServer cfg (NewNotifier timeNow store (Some providers) (Some clock)) closer live auth
    (mkClientHandler store (if live then Some ack else None) clock) (maybeStreamHandler live cfg)
    (addr_of (ClientPort cfg)) (addr_of (InternalPort cfg)) (addr_of (MetricsPort cfg)) None None None.

(** The registry with the in-app provider of the live engine. *)
Definition wired_providers cfg (providers : ProviderRegistry (Process X)) : ProviderRegistry (Process X) :=
  if lcEnabled (LiveConnections cfg) then
    match Get providers ChannelInApp with
    | None => Register providers inapp_provider
    | Some _ => providers
    end
  else providers.

Lemma NewWithDeps_wired cfg deps w auth : resolve_auth parse cfg deps = Ok auth ->
  let providers := wired_providers cfg (default NewProviderRegistry (depProviders deps)) in
  let clock := default timeNow (depClock deps) in
  (depStore deps = None -> scDriver (cfgStore cfg) = "memory" ->
   exists w', NewWithDeps newUUID parse timeNow cfg deps w =
     (w', Ok (wired cfg (process_store newUUID) providers auth (depStoreCloser deps) clock)) /\ mem w' = New) /\
  (forall S, depStore deps = Some S ->
   exists w', NewWithDeps newUUID parse timeNow cfg deps w =
     (w', Ok (wired cfg S providers auth (depStoreCloser deps) clock)) /\ mem w' = mem w /\ ext w' = ext w).
Proof.
  intros Ha providers clock. split.
  - intros Hs Hm. unfold NewWithDeps, wire_live, resolve_store, buildStore. rewrite Hs, Ha, Hm. cbn [String.eqb Ascii.eqb Bool.eqb].
    unfold_M. cbn. unfold wired, providers, wired_providers, clock.
    destruct (lcEnabled (LiveConnections cfg)) eqn:Hl; destruct (depStoreCloser deps); eexists; (split; [reflexivity|done]).
  - intros S Hs. unfold NewWithDeps, wire_live, resolve_store. rewrite Hs, Ha.
    unfold_M. cbn. unfold wired, providers, wired_providers, clock.
    destruct (lcEnabled (LiveConnections cfg)) eqn:Hl; eexists; (split; [reflexivity|done]).
Qed.

Lemma wired_provider cfg providers kind p : Get (wired_providers cfg providers) kind = Some p ->
  Get providers kind = Some p \/ kind = ChannelInApp /\ p = inapp_provider.
Proof.
  unfold wired_providers. destruct (lcEnabled _); [|by left].
  destruct (Get providers ChannelInApp) eqn:Hg; [by left|].
  unfold Get, Register. cbn. intros [[<- <-]|[_ Hp]]%lookup_insert_Some; [by right|by left].
Qed.

(** The in-app provider of a process keeps the channel contract. *)
#[export] Instance inapp_provider_contract : ProviderContract (inapp_provider (X := X)).
Proof.
  split; intros msg w w' r; unfold inapp_provider, lift; cbn [Send].
  - intros err. destruct (Send newInAppProvider msg (streams w)) as [st out] eqn:Hs. intros Ho. apply (f_equal snd) in Ho. cbn in Ho. subst out.
    by apply (send_failed (p := newInAppProvider) msg (streams w) st r err).
  - destruct (Send newInAppProvider msg (streams w)) as [st out] eqn:Hs. intros Ho. apply (f_equal snd) in Ho. cbn in Ho. subst out.
    by apply (send_accepted (p := newInAppProvider) msg (streams w) st r).
Qed.

Section lawful.
Context (cfg : Config) {P : Type} (storage : Process X -> P) (S : Store (Process X)) {HS : StoreLaws S}
  {HSt : StorageLaws storage S}
  (providers : ProviderRegistry (Process X)) (auth : AuthValidator)
  (closer : option (M (Process X) (option error))) (clock : M (Process X) Z)
  (Hclock : off_storage storage clock)
  (Hproviders : forall kind p m, Get providers kind = Some p -> off_storage storage (Send p m)).

Definition wired_lawful : LawfulServer (wired cfg S (wired_providers cfg providers) auth closer clock).
Proof.
  refine (@Build_LawfulServer X (wired cfg S (wired_providers cfg providers) auth closer clock) HS _
    (if lcEnabled (LiveConnections cfg)
     then Some (fun key sess => modify (fun w => set_tracker (Ack key sess (tracker w)) w)) else None) clock eq_refl _ _).
  - split; cbn.
    + intros w Hi. by apply (storage_only (storage := storage)).
    + intros kind p m w Hp _ Hi. apply (storage_only (storage := storage)); [|done].
      apply wired_provider in Hp as [Hp|[-> ->]]; [by eapply Hproviders|].
      unfold inapp_provider, lift. cbn [Send]. destruct (Send newInAppProvider m (streams w)). apply storage_streams.
  - split. intros w Hi. by apply (storage_only (storage := storage)).
  - intros ack key sess Hack w Hi. apply (storage_only (storage := storage)); [|done].
    destruct (lcEnabled (LiveConnections cfg)); [|done]. injection Hack as <-. apply storage_tracker.
Defined.
End lawful.

(** A driver whose state is one part of the process, as cmd/notifyd lifts them. *)
Lemma lift_storage {P : Type} (get : Process X -> P) (put : P -> Process X -> Process X)
    (get_put : forall p w, get (put p w) = p) (S : Store P) {HS : StoreLaws S} :
  (forall st w, get (set_streams st w) = get w) -> (forall tr w, get (set_tracker tr w) = get w) ->
  StorageLaws get (lift_store get put S) (HS := lift_laws get put get_put S).
Proof. intros H1 H2. split; [done..|]. intros w w' He Hi. cbn in *. by rewrite He. Qed.

(** The memory store of buildStore. *)
Context (newUUID_inj : forall i j, newUUID i = newUUID j -> i = j)
  (newUUID_nonempty : forall i, newUUID i <> "").

#[export] Instance process_laws : StoreLaws (process_store (X := X) newUUID) :=
  lift_laws mem set_mem (fun _ _ => eq_refl) (MemoryStore newUUID)
    (HS := memory_laws newUUID newUUID_inj newUUID_nonempty).

#[export] Instance process_storage : StorageLaws mem (process_store newUUID) (HS := process_laws).
Proof. by apply lift_storage. Qed.

(** A server that NewWithDeps builds on the memory driver is lawful from the
    start and its store is empty. *)
Lemma memory_deployment cfg deps w auth :
  resolve_auth parse cfg deps = Ok auth -> depStore deps = None -> scDriver (cfgStore cfg) = "memory" ->
  exists w', NewWithDeps newUUID parse timeNow cfg deps w =
    (w', Ok (wired cfg (process_store newUUID)
               (wired_providers cfg (default NewProviderRegistry (depProviders deps))) auth (depStoreCloser deps)
               (default timeNow (depClock deps)))) /\
    store_inv (StoreLaws := process_laws) w' /\ rows (StoreLaws := process_laws) w' = ∅ /\
    devs (StoreLaws := process_laws) w' = ∅.
Proof.
  intros Ha Hs Hm. destruct (proj1 (NewWithDeps_wired cfg deps w auth Ha) Hs Hm) as (w' & He & Hmem).
  exists w'. split; [done|]. cbn. rewrite Hmem. split_and!; [apply mem_inv_New|done..].
Qed.
End deployment.

(** ** The development deployment *)

(** A clock that ticks at every reading. *)
Definition tick : M (Process nat) Z := fun w =>
  (mkProcess (mem w) (streams w) (tracker w) (ready w) (sockets w) (nextSocket w) (serving w) (S (ext w)),
   1000 + Z.of_nat (ext w)).

Definition demo : Server nat :=
  wired tick dev_config (process_store (H := sample_order) sample_uuid)
    (wired_providers dev_config NewProviderRegistry) dev_Validate None tick.

(** It is what NewWithDeps builds on the defaults in dev mode. *)
Example demo_built :
  (NewWithDeps (H := sample_order) sample_uuid refuse_all tick dev_config no_deps sample_process).2 = Ok demo.
Proof. reflexivity. Qed.

#[export] Instance demo_laws : StoreLaws (process_store (H := sample_order) (X := nat) sample_uuid) :=
  process_laws (H := sample_order) sample_uuid sample_uuid_inj sample_uuid_nonempty.

#[export] Instance demo_storage : StorageLaws mem (process_store (H := sample_order) (X := nat) sample_uuid)
  (HS := demo_laws).
Proof. by apply lift_storage. Qed.

#[export] Instance demo_lawful : LawfulServer demo.
Proof.
  apply (wired_lawful tick dev_config mem _ NewProviderRegistry dev_Validate None tick).
  - done.
  - intros kind p m Hp. unfold Get in Hp. cbn in Hp. by rewrite lookup_empty in Hp.
Defined.

Lemma demo_providers kind p : Get (nProviders (srvNotifier demo)) kind = Some p ->
  kind ∈ known_kinds /\ ProviderContract p.
Proof.
  intros [Hp|[-> ->]]%wired_provider; [by unfold Get in Hp; cbn in Hp; rewrite lookup_empty in Hp|].
  split; [|apply inapp_provider_contract]. unfold known_kinds. rewrite elem_of_cons. by left.
Qed.

(** One order, notified to two users. *)
Definition order_shipped : Rpc :=
  RNotify "" (Some (mkNotifyRequestPB "acme" "order-1" ["u1"; "u2"] [] "order" "order" "Shipped" "On its way" ∅)).

Definition ack_by (user id : string) : Rpc :=
  RAckNotification ("Bearer dev:" +:+ user +:+ ":acme") (Some (mkAckNotificationRequest id)).

Definition inbox_of (user : string) : Rpc :=
  RGetNotifications ("Bearer dev:" +:+ user +:+ ":acme") (Some (mkGetNotificationsRequest "" 10 false)).

Definition after (cs : list Rpc) : Process nat := (serve_all (H := sample_order) demo cs sample_process).1.

Lemma after_inv cs : store_inv (StoreLaws := srv_laws (s := demo)) (after cs).
Proof.
  refine (proj1 (serve_all_inv (H := sample_order) demo (fun _ => True) (fun _ => True) _ cs sample_process _ _ I)).
  - done.
  - apply mem_inv_New.
  - by apply Forall_true.
Qed.

(** Acknowledging again is no no-op: the read time moves. *)
Theorem ack_restamps :
  (nReadAtMS <$> notifications (mem (after [order_shipped; ack_by "u1" "uuid-0"])) !! "uuid-0") = Some 1004 /\
  (nReadAtMS <$> notifications (mem (after [order_shipped; ack_by "u1" "uuid-0"; ack_by "u1" "uuid-0"])) !! "uuid-0")
    = Some 1005.
Proof. split; by vm_compute. Qed.

(** ** The theorems of SystemProps.v on it *)

Lemma others_unaffected_witness :
  let cs := [order_shipped; ack_by "u2" "uuid-0"; RRegisterPushToken "Bearer dev:u1:globex" None; inbox_of "u1";
             ack_by "u2" "uuid-1"] in
  let w := after [order_shipped] in
  Forall (fun c => ~ touches demo "acme" "u3" c) cs /\
  same_on (owned "acme" "u3") (rows w) (rows (serve_all (H := sample_order) demo cs w).1) /\
  (rpc_GetNotifications demo "Bearer dev:u3:acme" None (serve_all (H := sample_order) demo cs w).1).2 =
    (rpc_GetNotifications demo "Bearer dev:u3:acme" None w).2.
Proof.
  intros cs w.
  assert (Hcs : Forall (fun c => ~ touches demo "acme" "u3" c) cs).
  { assert (Hno : forall user authz c t, srvAuth demo authz = Ok c -> UserID c = user -> user <> "u3" ->
      ~ caller demo authz t "u3") by (intros user authz c t Ha Hu Hne (c' & Ha' & _ & Hu'); congruence).
    repeat apply Forall_cons_2; [| | | | |apply Forall_nil_2].
    - cbn. rewrite !elem_of_cons, elem_of_nil. intros (_ & _ & [?|[?|[]]]); done.
    - by apply (Hno "u2" _ (mkClaims "u2" "acme" "" None)).
    - by apply (Hno "u1" _ (mkClaims "u1" "globex" "" None)).
    - by intros [].
    - by apply (Hno "u2" _ (mkClaims "u2" "acme" "" None)). }
  split; [exact Hcs|].
  destruct (others_unaffected (H := sample_order) demo "acme" "u3" cs w (after_inv [order_shipped]) Hcs) as (Hr & _ & Hg).
  split; [exact Hr|]. apply Hg. exists (mkClaims "u3" "acme" "" None). split; [vm_compute; reflexivity|done].
Defined.

Lemma rpc_typed_witness :
  let '(w', answers) := serve_all (H := sample_order) demo [order_shipped; ack_by "u1" "uuid-0"; inbox_of "u1"] sample_process in
  well_typed demo w' /\
  exists page, AGetNotifications (Ok page) ∈ answers /\ length (gnNotifications page) = 1%nat /\
    Forall view_typed (gnNotifications page).
Proof.
  pose proof (rpc_typed (H := sample_order) demo demo_providers
    [order_shipped; ack_by "u1" "uuid-0"; inbox_of "u1"] sample_process (mem_inv_New sample_uuid)
    (conj (map_Forall_empty _) (map_Forall_empty _))) as Ht.
  destruct (serve_all _ _ _) as [w' answers] eqn:He. destruct Ht as [Hw Ha]. split; [exact Hw|].
  apply (f_equal snd) in He. vm_compute in He. subst answers. eexists. split; [|split].
  - do 2 apply list_elem_of_further. apply list_elem_of_here.
  - reflexivity.
  - apply Ha. do 2 apply list_elem_of_further. apply list_elem_of_here.
Defined.

Lemma inbox_drains_witness :
  let w := after [order_shipped; ack_by "u2" "uuid-1"] in
  exists w', read_inbox demo "Bearer dev:u1:acme" 0 2 w = (w', true) /\
    forall id r, rows w' !! id = Some r -> owned "acme" "u1" r -> nStatus r = StatusRead.
Proof.
  intros w.
  destruct (inbox_drains demo "Bearer dev:u1:acme" "acme" "u1"
    (ex_intro _ (mkClaims "u1" "acme" "" None) (conj eq_refl (conj eq_refl eq_refl))) 0 2 w
    (after_inv [order_shipped; ack_by "u2" "uuid-1"])) as (w' & He & _ & Hall).
  - assert (Hb : bool_decide (map_Forall (fun id r => owned "acme" "u1" r -> TrimSpace id = id /\ id <> "")
      (notifications (mem w))) = true) by (vm_compute; reflexivity).
    apply bool_decide_eq_true in Hb. exact Hb.
  - assert (Hn : unreads "acme" "u1" (notifications (mem w)) = 1%nat) by (vm_compute; reflexivity).
    change (unreads "acme" "u1" (notifications (mem w)) < 2)%nat. rewrite Hn. lia.
  - exists w'. split; [exact He|exact Hall].
Defined.
