(* ===== verification/Failures.v ===== *)
(** * How RPCs fail

    Over a store, providers and a clock about which nothing is assumed, failing ones
    included: which Connect code every RPC answers, and that a refused call does
    nothing. *)

From S2P Require Import Prelude GoErrors GoStrings Model StoreSpec Memory Notifier NotifierProps.
From S2P Require Import Wire Realtime Retry Stream Auth Handlers HandlersProps Config ConfigProps Server ServerProps.
From S2P Require Import System Surface Deployment.

(** ** What an answer fails with *)

Definition error_of {A} (r : result error A) : option error := match r with Ok _ => None | Err err => Some err end.

Definition failure (a : Reply) : option error :=
  match a with
  | ANotify r => error_of r
  | AGetNotifications r => error_of r
  | AAckNotification r => error_of r
  | AAckDataChange r => error_of r
  | ARegisterPushToken r => error_of r
  end.

(** The answer carries the code [c]. *)
Definition fails_with (c : Code) (e : option error) : Prop := exists err, e = Some err /\ code_of err = Some c.

(** What a handler answers once it has run. *)
Inductive ran_to {A} (r : result error A) : Prop :=
| ran_ok a : r = Ok a -> ran_to r
| ran_internal err : r = Err (ConnectError CodeInternal err) -> ran_to r.

Inductive acked_to {A} (r : result error A) : Prop :=
| acked_ran : ran_to r -> acked_to r
| acked_missing err : r = Err (ConnectError CodeNotFound err) -> errors_is err ErrNotFound = true -> acked_to r.

(** ** The requests that are served *)

Definition cursor_valid (cursor : string) : Prop := cursor = "" \/ exists ms, ParseInt cursor = Ok ms /\ 0 < ms.

Definition well_formed (c : Rpc) : Prop :=
  match c with
  | RNotify _ req => notify_valid req
  | RGetNotifications _ req => cursor_valid (GetCursor req)
  | RAckNotification _ req => TrimSpace (GetId req) <> ""
  | RAckDataChange _ req => TrimSpace (GetIdempotencyKey req) <> "" /\ TrimSpace (GetSessionId req) <> ""
  | RRegisterPushToken _ req => deviceTypeFromProto (GetTokenDeviceType req) <> "" /\ TrimSpace (GetToken req) <> ""
  end.

(** A validator that refuses with Unauthenticated. *)
Class Refuses (v : AuthValidator) : Prop :=
  refuses : forall authz err, v authz = Err err -> code_of err = Some CodeUnauthenticated.

#[export] Instance jwt_Refuses parse v : Refuses (jwt_Validate parse v).
Proof.
  intros authz err. unfold jwt_Validate. destruct (stripBearer authz) as [tok|]; [|by intros [= <-]].
  destruct (parse _ tok) as [claims|]; [|by intros [= <-]]. cbv zeta. by repeat (case_if; [by intros [= <-]|]).
Qed.

#[export] Instance dev_Refuses : Refuses dev_Validate.
Proof.
  intros authz err. unfold dev_Validate. destruct (stripBearer authz) as [tok|]; [|by intros [= <-]].
  destruct (Split tok ":"%char) as [|a [|b [|c [|d [|]]]]]; try (by intros [= <-]); repeat case_if; by intros [= <-].
Qed.

(** ** The handlers, once authenticated *)

Section handlers.
Context {W : Type} (h : clientHandler W) (claims : Claims).

Lemma decodeCursor_valid c : c <> "" ->
  match decodeCursor c with Ok ms => cursor_valid c | Err _ => ~ cursor_valid c end.
Proof.
  intros Hne. unfold decodeCursor, cursor_valid. destruct (ParseInt c) as [ms|err]; [|by intros [?|(? & ? & _)]].
  destruct (Z.leb_spec ms 0); [|right; by exists ms]. intros [?|(ms' & [= <-] & ?)]; [done|lia].
Qed.

Lemma GetNotifications_runs req w : let '(w', r) := GetNotifications h (Some claims) req w in
  (cursor_valid (GetCursor req) -> ran_to r) /\
  (~ cursor_valid (GetCursor req) -> w' = w /\ exists err, r = Err (ConnectError CodeInvalidArgument err)).
Proof.
  unfold GetNotifications, page_query. destruct (String.eqb_spec (GetCursor req) "") as [He|Hne]; cbn [negb].
  - unfold_M. destruct (QueryUserNotifications _ _ w) as [w' [[[items next] unread]|err]]; (split; [intros _|intros Hn; destruct Hn; by left]);
      [by eapply ran_ok|by eapply ran_internal].
  - pose proof (decodeCursor_valid (GetCursor req) Hne) as Hc. destruct (decodeCursor (GetCursor req)) as [ms|err].
    + unfold_M. destruct (QueryUserNotifications _ _ w) as [w' [[[items next] unread]|err]]; (split; [intros _|by intros Hn; destruct Hn]);
        [by eapply ran_ok|by eapply ran_internal].
    + unfold_M. split; [by intros ?|]. intros _. split; [done|]. by eexists.
Qed.

Lemma ack_error_code what err : acked_to (A := AckNotificationResponse) (Err (ack_error what err)).
Proof. unfold ack_error. destruct (errors_is err ErrNotFound) eqn:He; [by eapply acked_missing|by eapply acked_ran, ran_internal]. Qed.

Lemma AckNotification_runs req w : let '(w', r) := AckNotification h (Some claims) req w in
  (TrimSpace (GetId req) <> "" -> acked_to r) /\
  (~ TrimSpace (GetId req) <> "" -> w' = w /\ exists err, r = Err (ConnectError CodeInvalidArgument err)).
Proof.
  unfold AckNotification. destruct (String.eqb_spec (TrimSpace (GetId req)) "") as [He|Hne].
  - unfold_M. split; [by intros ?|]. intros _. split; [done|]. by eexists.
  - unfold_M. destruct (GetNotification _ _ _ _ w) as [w1 [row|err]].
    + destruct (chNow h w1) as [w2 ms]. destruct (UpdateStatus _ _ _ _ _ w2) as [w3 [err|]]; (split; [intros _|by intros ?]);
        [apply ack_error_code|by eapply acked_ran, ran_ok].
    + split; [intros _; apply ack_error_code|by intros ?].
Qed.

Lemma AckDataChange_runs req w : let '(w', r) := AckDataChange h (Some claims) req w in
  let ok := TrimSpace (GetIdempotencyKey req) <> "" /\ TrimSpace (GetSessionId req) <> "" in
  (ok -> ran_to r) /\ (~ ok -> w' = w /\ exists err, r = Err (ConnectError CodeInvalidArgument err)).
Proof.
  unfold AckDataChange. destruct (String.eqb_spec (TrimSpace (GetIdempotencyKey req)) "") as [H1|H1]; cbn [orb].
  { unfold_M. split; [by intros [? _]|]. intros _. split; [done|]. by eexists. }
  destruct (String.eqb_spec (TrimSpace (GetSessionId req)) "") as [H2|H2].
  { unfold_M. split; [by intros [_ ?]|]. intros _. split; [done|]. by eexists. }
  destruct (chStream h) as [ack|]; unfold_M; [destruct (ack _ _ w) as [w' []]|];
    (split; [intros _; by eapply ran_ok|intros Hn; by destruct Hn]).
Qed.

Lemma RegisterPushToken_runs req w : let '(w', r) := RegisterPushToken h (Some claims) req w in
  let ok := deviceTypeFromProto (GetTokenDeviceType req) <> "" /\ TrimSpace (GetToken req) <> "" in
  (ok -> ran_to r) /\ (~ ok -> w' = w /\ exists err, r = Err (ConnectError CodeInvalidArgument err)).
Proof.
  unfold RegisterPushToken. destruct (String.eqb_spec (deviceTypeFromProto (GetTokenDeviceType req)) "") as [H1|H1].
  { unfold_M. split; [by intros [? _]|]. intros _. split; [done|]. by eexists. }
  destruct (String.eqb_spec (TrimSpace (GetToken req)) "") as [H2|H2].
  { unfold_M. split; [by intros [_ ?]|]. intros _. split; [done|]. by eexists. }
  unfold_M. destruct (chNow h w) as [w1 ms]. destruct (UpsertDevice _ _ w1) as [w2 [d [d'|err]]];
    (split; [intros _|intros Hn; by destruct Hn]); [by eapply ran_ok|by eapply ran_internal].
Qed.
End handlers.

Lemma internal_Notify_runs `{MapOrder} {W} (n : NotifierT W) req w : let '(w', r) := internal_Notify n req w in
  (notify_valid req -> ran_to r) /\
  (~ notify_valid req -> w' = w /\ exists err, r = Err (ConnectError CodeInvalidArgument err)).
Proof.
  unfold internal_Notify. destruct req as [i|]; [|unfold_M; split; [by intros [? _]|intros _; split; [done|by eexists]]].
  pose proof (validate_spec (Some i)) as Hv. destruct (validateNotifyRequest (Some i)) as [err|].
  - unfold_M. split; [by intros ?|]. intros _. split; [done|]. by eexists.
  - unfold_M. destruct (Notify n _ w) as [w' [res [err|]]]; (split; [intros _|by intros ?]); [by eapply ran_internal|by eapply ran_ok].
Qed.

(** ** The RPCs *)

Section rpcs.
Context {X : Type} `{MapOrder} (s : Server X).

Definition authenticated (c : Rpc) : Prop :=
  match c with
  | RNotify token _ => admitted s token
  | RGetNotifications authz _ | RAckNotification authz _ | RAckDataChange authz _ | RRegisterPushToken authz _ =>
      exists claims, srvAuth s authz = Ok claims
  end.

(** What became of a call whose caller is authenticated when [auth], whose request is
    served when [wf], and whose handler answers as in [served]. *)
Definition outcome {A} (auth wf : Prop) (served : result error A -> Prop) (w w' : Process X) (r : result error A) : Prop :=
  (~ auth -> w' = w /\ fails_with CodeUnauthenticated (error_of r)) /\
  (auth -> ~ wf -> w' = w /\ fails_with CodeInvalidArgument (error_of r)) /\
  (auth -> wf -> served r).

(** No handler answers a bare panic. *)
Lemma outcome_handler {A} (wf : Prop) (served : result error A -> Prop) (m : M (Process X) (result error A)) w :
  (forall r, served r -> acked_to r) ->
  (let '(w', r) := m w in (wf -> served r) /\ (~ wf -> w' = w /\ exists err, r = Err (ConnectError CodeInvalidArgument err))) ->
  let '(w', r) := recovery m w in (wf -> served r) /\ (~ wf -> w' = w /\ fails_with CodeInvalidArgument (error_of r)).
Proof.
  intros Hs Hm. unfold recovery. unfold_M. destruct (m w) as [w' r]. destruct Hm as [Hok Hbad]. split.
  - intros Hwf. specialize (Hok Hwf). by destruct (Hs r Hok) as [[a ->|err ->]|err -> _].
  - intros Hwf. destruct (Hbad Hwf) as (-> & err & ->). split; [done|]. by eexists.
Qed.

Lemma outcome_client {A} {HR : Refuses (srvAuth s)} authz (handler : Handler (Process X) A) (wf : Prop)
    (served : result error A -> Prop) w : (forall r, served r -> acked_to r) ->
  (forall claims, let '(w', r) := handler (Some claims) w in
     (wf -> served r) /\ (~ wf -> w' = w /\ exists err, r = Err (ConnectError CodeInvalidArgument err))) ->
  let '(w', r) := client_rpc (srvAuth s) authz handler w in
  outcome (exists claims, srvAuth s authz = Ok claims) wf served w w' r.
Proof.
  intros Hs Hh. unfold client_rpc, NewClientAuthInterceptor, outcome. destruct (srvAuth s authz) as [claims|err] eqn:Ha.
  - pose proof (outcome_handler wf served (handler (Some claims)) w Hs (Hh claims)) as Ho.
    destruct (recovery _ w) as [w' r]. destruct Ho as [Hok Hbad]. split_and!; [|by intros _|by intros _].
    intros Hn. destruct Hn. by exists claims.
  - pose proof (HR authz err Ha) as Hc. destruct err; try discriminate Hc. injection Hc as ->. unfold recovery. unfold_M.
    split_and!; [intros _; split; [done|by eexists]|by intros [? ?]..].
Qed.

Lemma outcome_internal {A} token (handler : Handler (Process X) A) (wf : Prop) (served : result error A -> Prop) w :
  (forall r, served r -> acked_to r) ->
  (let '(w', r) := handler None w in
     (wf -> served r) /\ (~ wf -> w' = w /\ exists err, r = Err (ConnectError CodeInvalidArgument err))) ->
  let '(w', r) := internal_rpc (acInternalToken (cfgAuth (srvCfg s))) (acDevMode (cfgAuth (srvCfg s))) token handler w in
  outcome (admitted s token) wf served w w' r.
Proof.
  intros Hs Hh. unfold internal_rpc, NewInternalAuthInterceptor, outcome, admitted.
  pose proof (outcome_handler wf served (handler None) w Hs Hh) as Ho.
  assert (Hrun : forall auth : Prop, auth -> let '(w', r) := recovery (handler None) w in
    (~ auth -> w' = w /\ fails_with CodeUnauthenticated (error_of r)) /\
    (auth -> ~ wf -> w' = w /\ fails_with CodeInvalidArgument (error_of r)) /\ (auth -> wf -> served r)).
  { intros auth Ha. destruct (recovery _ w) as [w' r]. destruct Ho as [Hok Hbad]. split_and!; [by intros Hn|by intros _..]. }
  assert (Hstop : forall (auth : Prop) msg, ~ auth -> let '(w', r) := recovery (mret (Err (unauthenticated (ErrorsNew msg)))) w in
    (~ auth -> w' = w /\ fails_with CodeUnauthenticated (error_of r)) /\
    (auth -> ~ wf -> w' = w /\ fails_with CodeInvalidArgument (error_of r)) /\ (auth -> wf -> served r)).
  { intros auth msg Hn. unfold recovery. unfold_M. split_and!; [intros _; split; [done|by eexists]|by intros ?..]. }
  set (e := acInternalToken (cfgAuth (srvCfg s))).
  destruct (String.eqb_spec e "") as [He|He]; [destruct (acDevMode _); [apply Hrun; by right|apply Hstop; intros [[? _]|[_ ?]]; done]|].
  destruct (String.eqb_spec token "") as [Ht|Ht]; [apply Hstop; intros [[_ ?]|[? _]]; congruence|].
  destruct (String.eqb_spec token e); cbn [negb]; [apply Hrun; by left|apply Hstop; intros [[_ ?]|[? _]]; congruence].
Qed.

(** The codes of a call that ran. *)
Definition served_as (c : Rpc) (e : option error) : Prop :=
  e = None \/ fails_with CodeInternal e \/
  (fails_with CodeNotFound e /\ (exists authz req, c = RAckNotification authz req) /\
   exists err, e = Some err /\ errors_is err ErrNotFound = true).

Lemma ran_served {A} (c : Rpc) (r : result error A) : ran_to r -> served_as c (error_of r).
Proof. intros [a ->|err ->]; [by left|right; left; by eexists]. Qed.

Lemma acked_served {A} authz req (r : result error A) : acked_to r -> served_as (RAckNotification authz req) (error_of r).
Proof.
  intros [Hr|err -> He]; [by apply ran_served|]. right. right. split; [by eexists|]. split; [by eexists _, _|].
  eexists. split; [done|]. by apply errors_is_connect.
Qed.

Lemma outcome_served {A} (auth wf : Prop) (served : result error A -> Prop) c w w' r :
  outcome auth wf served w w' r -> (forall r, served r -> served_as c (error_of r)) ->
  (~ auth -> w' = w /\ fails_with CodeUnauthenticated (error_of r)) /\
  (auth -> ~ wf -> w' = w /\ fails_with CodeInvalidArgument (error_of r)) /\
  (auth -> wf -> served_as c (error_of r)).
Proof. intros (H1 & H2 & H3) Hs. split_and!; [done..|]. intros Ha Hw. by apply Hs, H3. Qed.
End rpcs.

(** C23: Every RPC fails with the right code, whatever the store, the providers and the clock do.
    Nothing is assumed of them, they may fail at any call; the validator refuses with
    Unauthenticated, as both validators do.  A caller who is not authenticated is answered
    Unauthenticated, an authenticated one whose request lacks what the RPC needs (Notify a
    tenant, an id and an audience, GetNotifications a cursor that is absent or a positive
    number, AckNotification an id, AckDataChange a key and a session, RegisterPushToken a type
    and a token) InvalidArgument, and in both cases nothing has happened; every other call
    succeeds or fails as Internal, or, AckNotification alone, as NotFound for the store's own
    ErrNotFound.  StreamEvents refuses the unauthenticated, then answers Unimplemented without
    live connections, and else streams to the user of the token. *)
Theorem rpc_outcomes {X : Type} `{MapOrder} (s : Server X) {HR : Refuses (srvAuth s)} (w : Process X) :
  (forall c, let '(w', a) := serve_rpc s c w in
     (~ authenticated s c -> w' = w /\ fails_with CodeUnauthenticated (failure a)) /\
     (authenticated s c -> ~ well_formed c -> w' = w /\ fails_with CodeInvalidArgument (failure a)) /\
     (authenticated s c -> well_formed c -> served_as c (failure a))) /\
  (forall authz req, match rpc_StreamEvents s authz req with
     | Ok (userID, tenantID, _) => caller s authz tenantID userID /\ chStream (srvHandler s) <> None
     | Err err => ((forall claims, srvAuth s authz <> Ok claims) /\ code_of err = Some CodeUnauthenticated) \/
         (is_ok (srvAuth s authz) = true /\ chStream (srvHandler s) = None /\ code_of err = Some CodeUnimplemented)
     end).
Proof.
  split.
  - intros c. destruct c as [token req|authz req|authz req|authz req|authz req]; cbn [serve_rpc]; unfold_M.
    + pose proof (outcome_internal s token (fun _ => internal_Notify (srvNotifier s) req) (notify_valid req) ran_to w
        acked_ran (internal_Notify_runs (srvNotifier s) req w)) as Ho.
      unfold rpc_Notify. destruct (internal_rpc _ _ _ _ w) as [w' r]. exact (outcome_served _ _ _ _ _ _ _ Ho (ran_served _)).
    + pose proof (outcome_client s authz (fun claims => GetNotifications (srvHandler s) claims req) (cursor_valid (GetCursor req)) ran_to w
        acked_ran (fun claims => GetNotifications_runs (srvHandler s) claims req w)) as Ho.
      unfold rpc_GetNotifications. destruct (client_rpc _ _ _ w) as [w' r]. exact (outcome_served _ _ _ _ _ _ _ Ho (ran_served _)).
    + pose proof (outcome_client s authz (fun claims => AckNotification (srvHandler s) claims req) _ acked_to w
        (fun _ Ha => Ha) (fun claims => AckNotification_runs (srvHandler s) claims req w)) as Ho.
      unfold rpc_AckNotification. destruct (client_rpc _ _ _ w) as [w' r]. exact (outcome_served _ _ _ _ _ _ _ Ho (acked_served _ _)).
    + pose proof (outcome_client s authz (fun claims => AckDataChange (srvHandler s) claims req) _ ran_to w
        acked_ran (fun claims => AckDataChange_runs (srvHandler s) claims req w)) as Ho.
      unfold rpc_AckDataChange. destruct (client_rpc _ _ _ w) as [w' r]. exact (outcome_served _ _ _ _ _ _ _ Ho (ran_served _)).
    + pose proof (outcome_client s authz (fun claims => RegisterPushToken (srvHandler s) claims req) _ ran_to w
        acked_ran (fun claims => RegisterPushToken_runs (srvHandler s) claims req w)) as Ho.
      unfold rpc_RegisterPushToken. destruct (client_rpc _ _ _ w) as [w' r]. exact (outcome_served _ _ _ _ _ _ _ Ho (ran_served _)).
  - intros authz req. unfold rpc_StreamEvents, authenticateStreamReq, StreamEvents.
    destruct (srvAuth s authz) as [claims|err] eqn:Ha; [|left; split; [done|by eapply HR]].
    destruct (chStream (srvHandler s)) as [ack|]; [|by right]. split; [by exists claims|done].
Qed.

(** A deployment whose store is down. *)
Definition refused_connection : error := External ExtPlain "connection refused".

Definition down_store : Store (Process nat) :=
  mkStore (fun n => mret (n, Err refused_connection)) (fun _ _ _ => mret (Err refused_connection))
    (fun _ _ _ _ => mret (Some refused_connection)) (fun _ => mret (Err refused_connection))
    (fun d => mret (d, Err refused_connection)) (fun _ _ => mret (Err refused_connection)).

Definition down : Server nat :=
  wired tick dev_config down_store (wired_providers dev_config NewProviderRegistry) dev_Validate None tick.

Definition code_answered (c : Rpc) : option Code :=
  failure (serve_rpc (H := sample_order) down c sample_process).2 ≫= code_of.

Lemma rpc_outcomes_witness :
  served_as (inbox_of "u2") (failure (serve_rpc (H := sample_order) down (inbox_of "u2") sample_process).2) /\
  code_answered <$> [order_shipped; ack_by "u1" "uuid-0"; inbox_of "u2"; ack_by "u1" " "; RAckNotification "Bearer x" None] =
    [Some CodeInternal; Some CodeInternal; Some CodeInternal; Some CodeInvalidArgument; Some CodeUnauthenticated].
Proof.
  split; [|vm_compute; reflexivity].
  pose proof (proj1 (rpc_outcomes (H := sample_order) down sample_process) (inbox_of "u2")) as Ho.
  destruct (serve_rpc _ _ _) as [w' a]. destruct Ho as (_ & _ & Hs). apply Hs; [|by left].
  eexists. vm_compute. reflexivity.
Defined.
