(* ===== verification/StreamLive.v ===== *)
(** * Progress of the event stream

    From every reachable state a stream whose client keeps reading can deliver
    everything its connection has accepted, by the steps of its own goroutine
    alone and within a number of steps that the queue bounds. *)

From S2P Require Import Prelude GoErrors GoStrings Model Notifier Wire Realtime RealtimeProps Stream StreamProps.

Section progress.
Context `{MapOrder} (h : streamHandler) (p : nat).
Implicit Types (s : Streams).

(** The steps until the goroutine is idle. *)
Definition work s : nat :=
  3 * length (pending (live s) p) +
  match handlers s !! p with
  | Some HHandshake | Some (HStamped _) => 1
  | Some (HGot _) => 2
  | Some HSelect | Some HExit | None => 0
  end.

Lemma send_handler o ev s : handlers (stream_send p o ev true HSelect s) !! p = Some HSelect.
Proof. apply lookup_insert_eq. Qed.

Lemma recv_head (l : Live nat) e q : pending l p = e :: q -> exists l', recv p l = (l', Some e) /\ pending l' p = q.
Proof.
  unfold pending, recv. destruct (heap l !! p) as [c|] eqn:Hc; [|done]. cbn. intros ->. eexists. split; [done|].
  cbn. by rewrite lookup_insert_eq.
Qed.

(** A goroutine in its loop with something to do has a step that does it. *)
Lemma work_step s ls : event_inv s ls -> pumping s p = true -> work s <> 0%nat ->
  exists s', serve_step h s (SHandler p) s' /\ pumping s' p = true /\ S (work s') = work s.
Proof.
  intros He Hp Hw. unfold pumping, work in *.
  destruct (handlers s !! p) as [[| |e|e|]|] eqn:Hh; try done.
  - exists (stream_send p None (heartbeat (conn_id s p) 0) true HSelect s).
    rewrite send_handler. split; [by apply serve_handshake|]. split; [done|]. cbn [live stream_send]. lia.
  - destruct (pending (live s) p) as [|e q] eqn:Hq; [done|].
    destruct (recv_head _ _ _ Hq) as (l' & Hr & Hq').
    exists (set_handler p (HGot e) (set_live l' s)). split; [by apply serve_recv|].
    cbn [handlers set_handler live set_live]. rewrite lookup_insert_eq, Hq'. split; [done|]. cbn [length]. lia.
  - exists (set_handler p (HStamped e) (stamp e (conn_id s p) s)). split; [by apply serve_stamp|].
    cbn [handlers set_handler live stamp]. rewrite lookup_insert_eq. split; [done|]. lia.
  - destruct (ev_stamped s ls He p e Hh) as (ev & Hev & _).
    exists (stream_send p (Some e) ev true HSelect s). rewrite send_handler.
    split; [by apply serve_send|]. split; [done|]. cbn [live stream_send]. lia.
Qed.

Lemma work_run n : forall s ls, work s = n -> reg_inv s -> order_inv s ls -> event_inv s ls -> pumping s p = true ->
  exists s', steps (serve_step h) s (replicate n (SHandler p)) s' /\ pumping s' p = true /\ work s' = 0%nat.
Proof.
  induction n as [|n IH]; intros s ls Hn Hr Ho He Hp.
  { exists s. split; [apply steps_nil|done]. }
  destruct (work_step s ls He Hp ltac:(lia)) as (s1 & Hs & Hp1 & Hw).
  destruct (IH s1 (ls ++ [SHandler p])) as (s2 & Hs2 & Hp2 & Hw2);
    [lia|by eapply serve_step_reg|by eapply serve_step_order|by eapply serve_step_events|done|].
  exists s2. split; [|done]. cbn [replicate]. by eapply steps_cons.
Qed.

Lemma accepted_own n : accepted p (replicate n (SHandler p)) = [].
Proof. by induction n. Qed.
End progress.

(** C29: No accepted event is ever stuck.  From every reachable state, a stream whose goroutine is still
    in its loop can, by at most three steps of that goroutine per queued event and two more, the
    client reading, and whatever all other goroutines are in the middle of, come to the state
    in which it waits with an empty queue and its client has received, in order, every event that
    the connection had accepted. *)
Theorem stream_drains `{MapOrder} (h : streamHandler) (ls : list StreamLabel) (s : Streams) (p : nat) :
  steps (serve_step h) no_streams ls s -> pumping s p = true ->
  exists n s', steps (serve_step h) s (replicate n (SHandler p)) s' /\
    (n <= 3 * length (pending (live s) p) + 2)%nat /\
    handlers s' !! p = Some HSelect /\ pending (live s') p = [] /\ got s' p = accepted p ls.
Proof.
  intros Hs Hp. destruct (streams_reachable h ls s Hs) as (Hr & Ho & He).
  destruct (work_run h p (work p s) s ls eq_refl Hr Ho He Hp) as (s' & Hs' & Hp' & Hw').
  exists (work p s), s'. split; [done|]. split; [unfold work; repeat case_match; lia|].
  destruct (serve_run h _ _ _ Hs' ls Hr Ho He) as (_ & Ho' & _).
  destruct (Ho' p) as [_ Hgot]. rewrite Hp', accepted_app, accepted_own, app_nil_r in Hgot.
  unfold pumping, work, inflight in *. destruct (handlers s' !! p) as [[| |e|e|]|]; try (done || lia).
  destruct (pending (live s') p); [|cbn in Hw'; lia]. split_and!; [done..|]. by rewrite Hgot, !app_nil_r.
Qed.

(** An open stream with one event in its queue. *)
Definition waiting_labels : list StreamLabel := take 4 one_stream_labels.

Lemma waiting_run `{MapOrder} : exists s, steps (serve_step sample_handler) no_streams waiting_labels s /\
  pumping s 0 = true /\ pending (live s) 0 = [0%nat] /\ got s 0 = [].
Proof.
  eexists. split.
  - next_step (step_open no_streams "u1" "acme" "browser" "a").
    next_step (fun s => step_handshake s 0 5).
    next_step (fun s => step_publish s (inapp_event None)).
    next_step (fun s => step_push s 0 0).
    apply steps_nil.
  - split_and!; vm_compute; reflexivity.
Qed.

Lemma stream_drains_witness :
  exists s n s', steps (serve_step (H := sample_order) sample_handler) no_streams waiting_labels s /\
    steps (serve_step (H := sample_order) sample_handler) s (replicate n (SHandler 0)) s' /\
    got s 0 = [] /\ got s' 0 = [0%nat].
Proof.
  destruct (@waiting_run sample_order) as (s & Hs & Hp & _ & Hg).
  destruct (stream_drains (H := sample_order) sample_handler waiting_labels s 0 Hs Hp) as (n & s' & Hs' & _ & _ & _ & Hg').
  exists s, n, s'. split; [exact Hs|]. split; [exact Hs'|]. split; [exact Hg|]. rewrite Hg'. reflexivity.
Defined.
