(* ===== verification/Delivery.v ===== *)
(** * From Notify to the client's stream

    The orchestrator, the in-app provider, the live registry and the stream
    goroutines together: what Notify does to the live engine is a run of it, and
    a recipient with an open stream and room in its buffer gets the notification
    that the stored row describes. *)

From S2P Require Import Prelude GoErrors GoStrings Model StoreSpec Memory MemoryProps Notifier NotifierProps.
From S2P Require Import Wire Realtime RealtimeProps Retry Stream StreamProps StreamLive Auth Handlers HandlersProps.
From S2P Require Import Config ConfigProps Server ServerProps Http ChannelProps System SystemProps Deployment.

(** ** The provider's Send is a run of the live engine *)

Section push.
Context `{MapOrder} (h : streamHandler).

Lemma push_steps e ps : forall n s, (forall q, q ∈ ps -> is_Some (heap (live s) !! q)) -> is_Some (events s !! e) ->
  exists ls, steps (serve_step h) s ls (set_live (push_loop ps e n (live s)).1 s).
Proof.
  induction ps as [|q ps IH]; intros n s Hps He.
  - exists []. destruct s. apply steps_nil.
  - cbn [push_loop]. unfold_M. destruct (trySend q e (live s)) as [l' ok] eqn:Ht.
    destruct (IH (if ok then n + 1 else n) (set_live l' s)) as [ls Hs].
    + intros q' Hq'. destruct (Hps q' ltac:(by right)) as [c Hc]. cbn. unfold trySend in Ht.
      destruct (heap (live s) !! q) as [cq|] eqn:Hcq; [|by simplify_eq; rewrite Hc].
      destruct (_ <? _); simplify_eq; cbn; [|by rewrite Hc].
      destruct (decide (q = q')) as [->|]; [by rewrite lookup_insert_eq|by rewrite lookup_insert_ne, Hc].
    + exact He.
    + exists (SPush q e ok :: ls). eapply steps_cons; [apply serve_push; [apply Hps; by left|exact He|exact Ht]|].
      destruct (push_loop ps e _ l') as [l2 k] eqn:Hl. cbn in Hs. rewrite Hl in Hs. exact Hs.
Qed.

(** A stream of user [us] with [k] free places in its buffer. *)
Definition slot (s : Streams) (p : nat) (us : string) (k : nat) : Prop :=
  pumping s p = true /\
  exists c, heap (live s) !! p = Some c /\ cUserID c = us /\ Z.of_nat (length (cQueue c) + k) <= cBuffer c.

Lemma slot_le s p us k k' : (k' <= k)%nat -> slot s p us k -> slot s p us k'.
Proof. intros Hle [Hp (c & Hc & Hu & Hk)]. split; [done|]. exists c. split_and!; [done..|lia]. Qed.

(** [e], accepted by [p] within [ls], carries the notification [n]. *)
Definition carries (ls : list StreamLabel) (p e : nat) (n : Notification) : Prop :=
  e ∈ accepted p ls /\
  published e ls = Some (StreamEvent_Notification (mkNotificationEvent (Some (notification_view n)))).

Lemma carries_app ls ls' p e n : carries ls p e n -> carries (ls ++ ls') p e n.
Proof.
  intros [Ha Hp]. split; [rewrite accepted_app; apply elem_of_app; by left|]. by rewrite published_app, Hp.
Qed.

(** One Send of the in-app provider. *)
Lemma inapp_run msg n s ls p us k :
  steps (serve_step h) no_streams ls s -> slot s p us (S k) -> mNotification msg = Some n ->
  exists ls', steps (serve_step h) s ls' (Send newInAppProvider msg s).1 /\
    slot (Send newInAppProvider msg s).1 p us k /\
    (mTo msg = us -> exists e, carries (ls ++ ls') p e n).
Proof.
  intros Hs [Hpump (c & Hc & Hcu & Hroom)] Hn. destruct (streams_reachable h ls s Hs) as (Hr & Ho & He).
  pose proof (rg_live s Hr) as Hi. set (e := nextEvent s).
  set (s1 := (publish (inapp_event (Some n)) s).1).
  assert (Hpub : steps (serve_step h) s [SPublish e (inapp_event (Some n))] s1)
    by (eapply steps_cons; [by apply serve_publish|apply steps_nil]).
  destruct (push_steps e (Connections (mTo msg) (live s)) 0 s1) as [ls2 Hs2].
  { intros q Hq. destruct (registered_heap (live s) (mTo msg) q Hi Hq) as (cq & Hcq & _). by exists cq. }
  { unfold s1. cbn. rewrite lookup_insert_eq. by eexists. }
  set (ls' := SPublish e (inapp_event (Some n)) :: ls2).
  set (s' := (Send newInAppProvider msg s).1).
  assert (Hsend : s' = set_live (push_loop (Connections (mTo msg) (live s)) e 0 (live s)).1 s1).
  { unfold s', newInAppProvider, inapp_Send. cbn [Send negb]. rewrite Hn. unfold publish, lift_live, lift, Push. unfold_M.
    cbn [live set_live]. fold e. destruct (push_loop _ e 0 (live s)) as [l' d]. cbn. by destruct (d =? 0). }
  assert (Hrun : steps (serve_step h) s ls' s') by (rewrite Hsend; exact (steps_app _ _ _ _ _ _ Hpub Hs2)).
  exists ls'. split; [done|].
  pose proof (push_loop_spec (Connections (mTo msg) (live s)) e (Connections_NoDup _ _ Hi) 0 (live s)) as Hpush.
  destruct (push_loop (Connections (mTo msg) (live s)) e 0 (live s)) as [l' d] eqn:Hp.
  destruct Hpush as (_ & _ & _ & Hh). cbn in Hsend.
  assert (Hh' : handlers s' = handlers s) by (by rewrite Hsend).
  assert (Hheap : heap (live s') !! p = if decide (registered (live s) (mTo msg) p) then offered e <$> heap (live s) !! p
    else heap (live s) !! p) by (rewrite Hsend; apply Hh).
  assert (Hpump' : pumping s' p = true) by (unfold pumping; by rewrite Hh').
  split.
  - split; [done|]. rewrite Hheap, Hc. case_decide; cbn; [|exists c; split_and!; [done..|lia]].
    exists (offered e c). split; [done|]. unfold offered. destruct (room c); cbn; [|split; [done|lia]].
    split; [done|]. rewrite length_app. cbn. lia.
  - intros Hto. exists e. destruct (serve_run h _ _ _ Hrun ls Hr Ho He) as (_ & Ho' & _). split.
    + destruct (Ho' p) as [_ Ha]. rewrite Hpump' in Ha. rewrite Ha. apply elem_of_app; right. apply elem_of_app; right.
      unfold pending. rewrite Hheap, Hc, decide_True.
      * cbn. unfold offered. unfold room. rewrite (proj2 (Z.ltb_lt _ _)) by lia. cbn. apply elem_of_app; right. by left.
      * assert (Hps : is_Some (handlers s !! p)) by (unfold pumping in Hpump; by destruct (handlers s !! p)).
        destruct (reg_heap s p Hr Hps) as (c' & Hc' & Hreg). assert (c' = c) as -> by congruence. by rewrite Hto, <- Hcu.
    + unfold ls'. rewrite published_app, (ev_fresh s ls He e) by done. unfold published. cbn.
      by rewrite decide_True by done.
Qed.
End push.

(** ** Notify on the live engine *)

(** Of a server, only the in-app provider acts on the live engine. *)
Class LiveFrame {X : Type} (n : NotifierT (Process X)) : Prop := {
  lf_now : forall w, streams (nNow n w).1 = streams w;
  lf_create : forall r w, streams (CreateNotification (nStore n) r w).1 = streams w;
  lf_update : forall t id st ms w, streams (UpdateStatus (nStore n) t id st ms w).1 = streams w;
  lf_inapp : Get (nProviders n) ChannelInApp = Some inapp_provider;
  lf_other : forall kind p m w, Get (nProviders n) kind = Some p -> kind <> ChannelInApp ->
    streams (Send p m w).1 = streams w;
}.

Section notify.
Context {X : Type} `{MapOrder} (n : NotifierT (Process X)) `{HS : !StoreLaws (nStore n)} {HE : NotifyEnv n}
  {HF : LiveFrame n} (h : streamHandler) (p : nat) (us : string) (req : NotifyRequest).
Implicit Types (w : Process X).

(** The stream of [p] has accepted the in-app notification of user [u], made
    from the request under the id of the stored row. *)
Definition informed (ls : list StreamLabel) w (u : string) : Prop :=
  exists e id ms r, carries ls p e (set_nID id (new_row req u ChannelInApp ms)) /\
    rows w !! id = Some r /\ key_of r = key_for req u.

Lemma informed_later ls ls' w w' u (P : notifKey -> Prop) :
  evolves P (rows w) (rows w') -> informed ls w u -> informed (ls ++ ls') w' u.
Proof.
  intros [Hev _] (e & id & ms & r & Hc & Hr & Hk). destruct (Hev id r Hr) as (r' & Hr' & Hcon & _).
  exists e, id, ms, r'. split; [by apply carries_app|]. split; [done|]. by rewrite (key_of_content r' r).
Qed.

(** A run of the live engine that [w] to [w'] makes, using [k] places of [p]. *)
Definition live_run (ls : list StreamLabel) w w' (k : nat) (us' : list string) : Prop :=
  exists ls', steps (serve_step h) (streams w) ls' (streams w') /\ slot (streams w') p us k /\
    forall u, u ∈ us' -> addressFor req u ChannelInApp = us -> us <> "" -> informed (ls ++ ls') w' u.

Lemma live_run_refl ls w k : slot (streams w) p us k -> live_run ls w w k [].
Proof. intros Hsl. exists []. split; [apply steps_nil|]. split; [done|]. intros u Hu. by apply not_elem_of_nil in Hu. Qed.

(** Every other channel leaves the live engine alone. *)
Lemma notify_one_quiet u kind res w : kind <> ChannelInApp -> streams (notify_one n req u kind res w).1 = streams w.
Proof.
  intros Hkind. unfold notify_one. unfold_M. pose proof (lf_now w) as H0. destruct (nNow n w) as [w0 ms].
  pose proof (lf_create (new_row req u kind ms) w0) as H1. destruct (CreateNotification _ _ w0) as [w1 [row [c|err]]].
  2: { cbn in *. congruence. }
  destruct (Get (nProviders n) kind) as [pr|] eqn:Hp; [case_if|]; [cbn in *; congruence| |cbn in *; congruence].
  pose proof (lf_other kind pr (message_for req row (addressFor req u kind)) w1 Hp Hkind) as H2.
  destruct (Send pr _ w1) as [w2 [receipt err]]. pose proof (lf_now w2) as H3.
  assert (H4 : forall st ms', streams (UpdateStatus (nStore n) (rTenantID req) (nID row) st ms' (nNow n w2).1).1 = streams w2)
    by (intros st ms'; by rewrite lf_update, H3).
  destruct err as [err|]; cbn in *.
  - specialize (H4 StatusFailed). destruct (nNow n w2) as [w3 ms3]. specialize (H4 ms3).
    cbn in *. destruct (UpdateStatus _ _ _ _ _ w3). cbn in *. congruence.
  - specialize (H4 (if (rStatus receipt =? "")%string then StatusDelivered else rStatus receipt)).
    destruct (nNow n w2) as [w3 ms3]. specialize (H4 ms3).
    cbn in H4 |- *. destruct (UpdateStatus _ _ _ _ _ w3) as [w4 [err|]]; cbn in *; congruence.
Qed.

Lemma notify_one_live u kind res w ls k : store_inv w ->
  steps (serve_step h) no_streams ls (streams w) -> slot (streams w) p us (S k) ->
  live_run ls w (notify_one n req u kind res w).1 k (if decide (kind = ChannelInApp) then [u] else []).
Proof.
  intros Hi Hs Hsl. destruct (decide (kind = ChannelInApp)) as [->|Hkind].
  2: { exists []. rewrite notify_one_quiet by done. split; [apply steps_nil|].
       split; [by apply (slot_le _ _ _ (S k)); [lia|]|]. intros v Hv. by apply not_elem_of_nil in Hv. }
  unfold notify_one. unfold_M.
  pose proof (lf_now w) as Hl0. pose proof (env_now w Hi) as Hn. destruct (nNow n w) as [w0 ms].
  cbn in Hl0, Hn. destruct Hn as (_ & _ & Hi0).
  pose proof (lf_create (new_row req u ChannelInApp ms) w0) as Hl1.
  destruct (create_row n w0 req u ChannelInApp ms Hi0) as (w1 & id & created & r & He & Hsr & Hr1 & _ & _ & Hi1).
  rewrite He in *. cbn in Hl1. pose proof (stored_row_key _ _ _ _ _ _ Hsr) as Hk.
  assert (Hl : streams w1 = streams w) by congruence.
  assert (Hidle : slot (streams w1) p us k) by (rewrite Hl; by apply (slot_le _ _ _ (S k)); [lia|]).
  rewrite lf_inapp. destruct (String.eqb_spec (addressFor req u ChannelInApp) "") as [Hto|Hto].
  { exists []. rewrite <- Hl. split; [apply steps_nil|]. split; [done|].
    intros v ->%list_elem_of_singleton Ha Hne. congruence. }
  set (msg := message_for req (set_nID id (new_row req u ChannelInApp ms)) (addressFor req u ChannelInApp)).
  pose proof (env_send ChannelInApp inapp_provider msg w1 lf_inapp Hto Hi1) as Hse.
  rewrite <- Hl in Hs, Hsl.
  destruct (inapp_run h msg (set_nID id (new_row req u ChannelInApp ms)) (streams w1) ls p us k Hs Hsl eq_refl)
    as (ls' & Hrun & Hsl' & Hcarry).
  assert (Hst : streams (Send inapp_provider msg w1).1 = (Send newInAppProvider msg (streams w1)).1).
  { unfold inapp_provider, lift. cbn [Send]. by destruct (Send newInAppProvider msg (streams w1)). }
  destruct (Send inapp_provider msg w1) as [w2 [receipt err]]. cbn in Hse, Hst. destruct Hse as (Hr2 & _ & Hi2).
  assert (Hin : rows w2 !! id = Some r) by (by rewrite Hr2, Hr1, lookup_insert_eq).
  set (status := match err with Some _ => StatusFailed | None =>
    if (rStatus receipt =? "")%string then StatusDelivered else rStatus receipt end).
  destruct (record_status n w2 (rTenantID req) id r status Hi2 Hin) as (w3 & ms' & w4 & Hnow & Hu & Hr4 & _).
  { by injection Hk. }
  assert (Hl4 : streams w4 = streams w2).
  { pose proof (lf_now w2) as H3. rewrite Hnow in H3. pose proof (lf_update (rTenantID req) id status ms' w3) as H4.
    rewrite Hu in H4. cbn in H3, H4. congruence. }
  assert (Hdone : live_run ls w w4 k [u]).
  { exists ls'. rewrite Hl4, Hst, <- Hl. split; [done|]. split; [done|].
    intros v ->%list_elem_of_singleton Ha Hne. destruct (Hcarry Ha) as [e Hc].
    exists e, id, ms, (stamped status ms' r). split; [done|]. rewrite Hr4, lookup_insert_eq. done. }
  destruct err; rewrite Hnow; unfold status in Hu; cbn; rewrite Hu; apply Hdone.
Qed.

Lemma live_run_trans ls w1 w2 w3 k1 k2 us1 us2 (P : notifKey -> Prop) :
  steps (serve_step h) no_streams ls (streams w1) -> evolves P (rows w2) (rows w3) ->
  live_run ls w1 w2 k1 us1 ->
  (forall ls2, steps (serve_step h) no_streams ls2 (streams w2) -> slot (streams w2) p us k1 -> live_run ls2 w2 w3 k2 us2) ->
  live_run ls w1 w3 k2 (us1 ++ us2).
Proof.
  intros Hs Hev (l1 & Hr1 & Hs1 & Hi1) Hnext.
  destruct (Hnext (ls ++ l1)) as (l2 & Hr2 & Hs2 & Hi2); [by eapply steps_app|done|].
  exists (l1 ++ l2). split; [by eapply steps_app|]. split; [done|].
  rewrite app_assoc. intros u [Hu|Hu]%elem_of_app Ha Hne; [|by apply Hi2].
  eapply informed_later; [exact Hev|]. by apply Hi1.
Qed.

Lemma live_run_weaken ls w w' k us1 us2 : (forall u, u ∈ us2 -> u ∈ us1) -> live_run ls w w' k us1 -> live_run ls w w' k us2.
Proof. intros Hsub (l & Hr & Hsl & Hi). exists l. split_and!; [done..|]. intros u Hu. apply Hi. by apply Hsub. Qed.

Lemma notify_channels_live u kinds : forall res w ls k, store_inv w ->
  steps (serve_step h) no_streams ls (streams w) -> slot (streams w) p us (length kinds + k) ->
  live_run ls w (notify_channels n req u kinds res w).1 k (if decide (ChannelInApp ∈ kinds) then [u] else []).
Proof.
  induction kinds as [|kind kinds IH]; intros res w ls k Hi Hs Hsl; cbn [notify_channels]; unfold_M.
  { rewrite decide_False by apply not_elem_of_nil. by apply live_run_refl. }
  pose proof (notify_one_live u kind res w ls (length kinds + k) Hi Hs Hsl) as H1.
  destruct (notify_one_spec n req u kind res w Hi) as (w1 & res1 & id & r & r' & ms & sends & He & _ & _ & _ & Hst & _).
  rewrite He in *. cbn in H1. destruct (notify_channels_stage n req u kinds res1 w1) as (w2 & res2 & He2 & Hst2 & _); [apply Hst|].
  assert (H2 : forall ls2, steps (serve_step h) no_streams ls2 (streams w1) -> slot (streams w1) p us (length kinds + k) ->
    live_run ls2 w1 w2 k (if decide (ChannelInApp ∈ kinds) then [u] else [])).
  { intros ls2 Hs2 Hsl2. pose proof (IH res1 w1 ls2 k (st_inv _ _ _ _ _ _ _ Hst) Hs2 Hsl2) as Hx. by rewrite He2 in Hx. }
  pose proof (live_run_trans ls w w1 w2 _ k _ _ _ Hs (st_rows _ _ _ _ _ _ _ Hst2) H1 H2) as H3. rewrite He2. cbn.
  eapply live_run_weaken; [|exact H3]. intros v. destruct (decide (ChannelInApp ∈ kind :: kinds)) as [Hin|]; [|by intros ?%not_elem_of_nil].
  intros ->%list_elem_of_singleton. apply elem_of_app.
  apply elem_of_cons in Hin as [<-|Hin]; [left; rewrite decide_True by done|right; rewrite decide_True by done]; by left.
Qed.

Lemma notify_users_live users kinds : forall res w ls k, store_inv w ->
  steps (serve_step h) no_streams ls (streams w) -> slot (streams w) p us (length users * length kinds + k) ->
  live_run ls w (notify_users n req users kinds res w).1 k (if decide (ChannelInApp ∈ kinds) then users else []).
Proof.
  induction users as [|u users IH]; intros res w ls k Hi Hs Hsl; cbn [notify_users]; unfold_M.
  { eapply live_run_weaken; [|by apply live_run_refl]. intros u. by case_decide. }
  cbn [length] in Hsl. replace (S (length users) * length kinds + k)%nat
    with (length kinds + (length users * length kinds + k))%nat in Hsl by lia.
  pose proof (notify_channels_live u kinds res w ls _ Hi Hs Hsl) as H1.
  destruct (notify_channels_stage n req u kinds res w Hi) as (w1 & res1 & He & Hst & _).
  rewrite He in *. cbn in H1. destruct (notify_users_stage n req users kinds res1 w1) as (w2 & res2 & He2 & Hst2 & _); [apply Hst|].
  assert (H2 : forall ls2, steps (serve_step h) no_streams ls2 (streams w1) -> slot (streams w1) p us (length users * length kinds + k) ->
    live_run ls2 w1 w2 k (if decide (ChannelInApp ∈ kinds) then users else [])).
  { intros ls2 Hs2 Hsl2. pose proof (IH res1 w1 ls2 k (st_inv _ _ _ _ _ _ _ Hst) Hs2 Hsl2) as Hx. by rewrite He2 in Hx. }
  pose proof (live_run_trans ls w w1 w2 _ k _ _ _ Hs (st_rows _ _ _ _ _ _ _ Hst2) H1 H2) as H3. rewrite He2. cbn.
  eapply live_run_weaken; [|exact H3]. intros v. case_decide; [|done]. by rewrite elem_of_cons, elem_of_app, list_elem_of_singleton.
Qed.
End notify.

(** ** The event on the client's stream *)

(** What [p] accepted is on its wire after the goroutine's own steps. *)
Lemma carried_delivered `{MapOrder} (h : streamHandler) ls s p us k e n :
  steps (serve_step h) no_streams ls s -> slot s p us k -> carries ls p e n ->
  exists m s' (ev : StreamEvent), steps (serve_step h) s (replicate m (SHandler p)) s' /\ (Some e, ev) ∈ delivered_to s' p /\
    Event ev = Some (StreamEvent_Notification (mkNotificationEvent (Some (notification_view n)))).
Proof.
  intros Hs [Hp _] [Ha Hpub]. destruct (streams_reachable h ls s Hs) as (Hr & Ho & He).
  destruct (work_run h p (work p s) s ls eq_refl Hr Ho He Hp) as (s' & Hs' & Hp' & Hw').
  destruct (serve_run h _ _ _ Hs' ls Hr Ho He) as (_ & Ho' & He').
  destruct (Ho' p) as [_ Hgot]. rewrite Hp', accepted_app, accepted_own, app_nil_r in Hgot.
  assert (Hidle : inflight s' p = [] /\ pending (live s') p = []).
  { unfold pumping, work, inflight in *. destruct (handlers s' !! p) as [[| |e'|e'|]|]; try (done || lia).
    destruct (pending (live s') p); [done|cbn in Hw'; lia]. }
  destruct Hidle as [Hin Hpe]. rewrite Hin, Hpe, !app_nil_r in Hgot. rewrite Hgot in Ha.
  apply list_elem_of_omap in Ha as ([o ev] & Hev & Ho1). cbn in Ho1. subst o.
  exists (work p s), s', ev. split_and!; [done..|].
  destruct (ev_wire s' _ He' p _ _ Hev) as (_ & Hpub' & _). rewrite <- Hpub'. by rewrite published_app, Hpub.
Qed.

(** C9: A notification reaches the recipient who is connected.  An admitted, valid Notify with the in-app
    channel among its channels, for a user whose destination has an open stream with room for
    the request's sends, leaves the live engine in a reachable state in which steps of that
    stream's goroutine alone put on the client's wire the event that carries the notification,
    under the id of the row that Notify stored for the user, whatever the other users, channels
    and connections of the request did in between. *)
Theorem notify_reaches_stream {X : Type} `{MapOrder} (s : Server X) {HL : LawfulServer s}
    {HF : LiveFrame (srvNotifier s)} (h : streamHandler) (ls : list StreamLabel) (w : Process X)
    (token : string) (req : option NotifyRequestPB) (u us : string) (p : nat) :
  store_inv w -> steps (serve_step h) no_streams ls (streams w) -> admitted s token -> notify_valid req ->
  let r := notifyRequestFromProto req in
  ChannelInApp ∈ channels_of (srvNotifier s) r -> u ∈ rUserIDs r ->
  addressFor r u ChannelInApp = us -> us <> "" ->
  slot (streams w) p us (length (rUserIDs r) * length (channels_of (srvNotifier s) r)) ->
  let w' := (rpc_Notify s token req w).1 in
  exists ls' m s' e (ev : StreamEvent) id ms row, steps (serve_step h) (streams w) ls' (streams w') /\
    steps (serve_step h) (streams w') (replicate m (SHandler p)) s' /\ (Some e, ev) ∈ delivered_to s' p /\
    Event ev = Some (StreamEvent_Notification (mkNotificationEvent
      (Some (notification_view (set_nID id (new_row r u ChannelInApp ms)))))) /\
    rows w' !! id = Some row /\ key_of row = mkNotifKey (rTenantID r) u (rNotificationID r).
Proof.
  intros Hi Hs Hadm Hv r Hch Hu Ha Hne Hsl w'.
  assert (Hw' : w' = (Notify (srvNotifier s) r w).1).
  { unfold w', rpc_Notify, internal_rpc. rewrite recovery_fst.
    rewrite (admitted_runs s token (internal_Notify (srvNotifier s) req) w Hadm).
    pose proof (internal_Notify_spec (srvNotifier s) req w Hi) as Hn.
    destruct (internal_Notify (srvNotifier s) req w) as [w1 res]. by destruct (proj2 Hn Hv) as [-> _]. }
  rewrite <- (Nat.add_0_r (_ * _)) in Hsl.
  destruct (notify_users_live (srvNotifier s) h p us r (rUserIDs r) (channels_of (srvNotifier s) r)
    (mkNotifyResult 0 0 0) w ls 0 Hi Hs Hsl) as (ls' & Hrun & Hsl' & Hinf).
  change (notify_users _ _ _ _ _ w) with (Notify (srvNotifier s) r w) in *. rewrite <- Hw' in *.
  rewrite decide_True in Hinf by done. destruct (Hinf u Hu Ha Hne) as (e & id & ms & row & Hc & Hrow & Hk).
  destruct (carried_delivered h (ls ++ ls') (streams w') p us 0 e _ (steps_app _ _ _ _ _ _ Hs Hrun) Hsl' Hc)
    as (m & s' & ev & Hs' & Hev & Hpay).
  exists ls', m, s', e, ev, id, ms, row. split_and!; done.
Qed.

(** Every server that NewWithDeps wires with live connections enabled, over a
    driver that does not touch the live engine, is such a server. *)
Section wired_frame.
Context {X P : Type} (timeNow : M (Process X) Z) (cfg : Config)
  (get : Process X -> P) (put : P -> Process X -> Process X) (S : Store P)
  (providers : ProviderRegistry (Process X)) (auth : AuthValidator)
  (closer : option (M (Process X) (option error))) (clock : M (Process X) Z)
  (Hput : forall x w, streams (put x w) = streams w)
  (Hclock : forall w, streams (clock w).1 = streams w)
  (Hlive : lcEnabled (LiveConnections cfg) = true) (Hnone : Get providers ChannelInApp = None)
  (Hproviders : forall kind p m w, Get providers kind = Some p -> streams (Send p m w).1 = streams w).

Lemma wired_live_frame :
  LiveFrame (srvNotifier (wired timeNow cfg (lift_store get put S) (wired_providers cfg providers) auth closer clock)).
Proof.
  assert (Hlift : forall A (m : M P A) w, streams (lift get put m w).1 = streams w)
    by (intros A m w; unfold lift; destruct (m (get w)); apply Hput).
  split; cbn.
  - done.
  - intros r w. apply Hlift.
  - intros t id st ms w. apply Hlift.
  - unfold wired_providers. rewrite Hlive, Hnone. unfold Get, Register. cbn. by rewrite lookup_insert_eq.
  - intros kind p m w Hp Hk. apply wired_provider in Hp as [Hp|[-> _]]; [by eapply Hproviders|done].
Qed.
End wired_frame.

#[export] Instance demo_live : LiveFrame (srvNotifier demo).
Proof.
  apply wired_live_frame; try done.
Qed.

(** The development deployment with a stream of u1 open. *)
Definition one_stream : Streams := do_heartbeat 0 5 (do_open "u1" "acme" "browser" "a" no_streams).

Lemma one_stream_steps `{MapOrder} : steps (serve_step sample_handler) no_streams
  [SOpen 0 "u1" "acme"; SHandler 0] one_stream.
Proof.
  unfold one_stream. next_step (step_open no_streams "u1" "acme" "browser" "a").
  next_step (fun s => step_handshake s 0 5).
  apply steps_nil.
Qed.

Lemma notify_reaches_stream_witness :
  let req := Some (mkNotifyRequestPB "acme" "order-1" ["u2"; "u1"] [] "order" "order" "Shipped" "On its way" ∅) in
  let w' := (rpc_Notify (H := sample_order) demo "" req (set_streams one_stream sample_process)).1 in
  exists m s' e (ev : StreamEvent) id row, steps (serve_step (H := sample_order) sample_handler) (streams w') (replicate m (SHandler 0)) s' /\
    (Some e, ev) ∈ delivered_to s' 0 /\ rows w' !! id = Some row /\ key_of row = mkNotifKey "acme" "u1" "order-1".
Proof.
  intros req w'.
  assert (Hi : store_inv (StoreLaws := srv_laws (s := demo)) (set_streams one_stream sample_process))
    by exact (mem_inv_New sample_uuid).
  destruct (notify_reaches_stream (H := sample_order) demo sample_handler [SOpen 0 "u1" "acme"; SHandler 0]
    (set_streams one_stream sample_process) "" req "u1" "u1" 0 Hi (one_stream_steps (H := sample_order)))
    as (ls' & m & s' & e & ev & id & ms & row & _ & Hs & Hev & _ & Hrow & Hk).
  - right. split; vm_compute; reflexivity.
  - split_and!; by vm_compute.
  - vm_compute. apply list_elem_of_here.
  - cbn. right. left.
  - vm_compute. reflexivity.
  - done.
  - split; [vm_compute; reflexivity|]. eexists. split; [vm_compute; reflexivity|]. split; [reflexivity|]. by vm_compute.
  - exists m, s', e, ev, id, row. split_and!; [exact Hs|exact Hev|exact Hrow|exact Hk].
Defined.
