(* ===== verification/Prog.v ===== *)
(** * Programs of calls, and what a schedule makes of them

    A [Prog] is a tree whose nodes are calls that act on the world in one step;
    [run] performs it alone, [interleave] performs several under a schedule that
    picks who makes the next call.  [StoreP] is notify.Store with operations that
    are programs: the memory driver's are one call each ([atomic]), those of the
    database drivers (Drivers.v) one call per round trip. *)

From S2P Require Import Prelude GoErrors GoStrings Model StoreSpec StoreOps.

(** ** Programs *)

Inductive Prog (W A : Type) : Type :=
| Ret (a : A)
| Do {B : Type} (m : M W B) (k : B -> Prog W A).
Arguments Ret {W A}.
Arguments Do {W A B}.

#[global] Instance Prog_ret {W} : MRet (Prog W) := fun A a => Ret a.
#[global] Instance Prog_bind {W} : MBind (Prog W) := fun A B f =>
  fix bind p := match p with Ret a => f a | Do m k => Do m (fun b => bind (k b)) end.

Definition call {W B} (m : M W B) : Prog W B := Do m Ret.

(** A program alone. *)
Fixpoint run {W A} (p : Prog W A) : M W A :=
  match p with
  | Ret a => mret a
  | Do m k => fun w => let '(w', b) := m w in run (k b) w'
  end.

Fixpoint run_all {W A} (ps : list (Prog W A)) : M W (list A) :=
  match ps with
  | [] => mret []
  | p :: ps => a ← run p; l ← run_all ps; mret (a :: l)
  end.

(** The schedule names whose call is next; when it is used up the programs that
    are left run to their end in turn. *)
Fixpoint interleave {W A} (sched : list nat) (ps : list (Prog W A)) : M W (list A) :=
  match sched with
  | [] => run_all ps
  | i :: sched =>
      match ps !! i with
      | Some (Do m k) => fun w => let '(w', b) := m w in interleave sched (<[i := k b]> ps) w'
      | _ => interleave sched ps
      end
  end.

Lemma run_bind {W A B} (p : Prog W A) (f : A -> Prog W B) w :
  run (p ≫= f) w = let '(w', a) := run p w in run (f a) w'.
Proof.
  revert w. induction p as [a|C m k IH]; intros w; [done|]. cbn. destruct (m w) as [w' b]. apply IH.
Qed.

(** ** The store, call by call *)

(** notify.Store, its operations as programs of the round trips that they make. *)
Record StoreP (W : Type) := mkStoreP {
  CreateNotification_p : Notification -> Prog W (Notification * result error bool);
  GetNotification_p : string -> string -> string -> Prog W (result error Notification);
  UpdateStatus_p : string -> string -> DeliveryStatus -> Z -> Prog W (option error);
  QueryUserNotifications_p : Query -> Prog W (result error (list Notification * string * Z));
  UpsertDevice_p : Device -> Prog W (Device * result error Device);
  ListDevices_p : string -> string -> Prog W (result error (list Device));
}.
Arguments mkStoreP {W}.
Arguments CreateNotification_p {W}.
Arguments GetNotification_p {W}.
Arguments UpdateStatus_p {W}.
Arguments QueryUserNotifications_p {W}.
Arguments UpsertDevice_p {W}.
Arguments ListDevices_p {W}.

(** A driver whose operations are one step each. *)
Definition atomic {W} (S : Store W) : StoreP W :=
  mkStoreP (fun n => call (CreateNotification S n)) (fun t u id => call (GetNotification S t u id))
    (fun t id st ms => call (UpdateStatus S t id st ms)) (fun q => call (QueryUserNotifications S q))
    (fun d => call (UpsertDevice S d)) (fun t u => call (ListDevices S t u)).

Definition op_p {W} (P : StoreP W) (op : StoreOp) : Prog W StoreOut :=
  match op with
  | OpCreate n => '(n', r) ← CreateNotification_p P n; mret (OutCreate (nID n') r)
  | OpGet t u id => r ← GetNotification_p P t u id; mret (OutGet r)
  | OpUpdate t id st ms => e ← UpdateStatus_p P t id st ms; mret (OutUpdate e)
  | OpQuery q => r ← QueryUserNotifications_p P q; mret (OutQuery r)
  | OpUpsert d => '(_, r) ← UpsertDevice_p P d; mret (OutUpsert r)
  | OpList t u => r ← ListDevices_p P t u; mret (OutList r)
  end.

(** [run_bind] once the notations are unfolded. *)
Lemma run_Prog_bind {W A B} (p : Prog W A) (f : A -> Prog W B) w :
  run (Prog_bind A B f p) w = let '(w', a) := run p w in run (f a) w'.
Proof. exact (run_bind p f w). Qed.

Lemma run_call {W B} (m : M W B) w : run (call m) w = m w.
Proof. cbn. by destruct (m w). Qed.

(** A store whose programs, alone, are the operations of another. *)
Class Granular {W} (P : StoreP W) (S : Store W) : Prop := {
  gr_create : forall n w, run (CreateNotification_p P n) w = CreateNotification S n w;
  gr_get : forall t u id w, run (GetNotification_p P t u id) w = GetNotification S t u id w;
  gr_update : forall t id st ms w, run (UpdateStatus_p P t id st ms) w = UpdateStatus S t id st ms w;
  gr_query : forall q w, run (QueryUserNotifications_p P q) w = QueryUserNotifications S q w;
  gr_upsert : forall d w, run (UpsertDevice_p P d) w = UpsertDevice S d w;
  gr_list : forall t u w, run (ListDevices_p P t u) w = ListDevices S t u w;
}.

#[export] Instance atomic_granular {W} (S : Store W) : Granular (atomic S) S.
Proof. split; intros; apply run_call. Qed.

Lemma granular_op {W} (P : StoreP W) (S : Store W) {HG : Granular P S} op w :
  run (op_p P op) w = run_op S op w.
Proof.
  destruct op; cbn [op_p run_op]; rewrite run_bind; unfold_M;
    rewrite ?(gr_create (S := S)), ?(gr_get (S := S)), ?(gr_update (S := S)), ?(gr_query (S := S)),
      ?(gr_upsert (S := S)), ?(gr_list (S := S));
    match goal with |- context [let '(_, _) := ?m in _] => destruct m as [w' r] end; by try destruct r.
Qed.

(** ** A driver whose state is one part of the world *)

Section lift.
Context {W P : Type} (get : W -> P) (put : P -> W -> W).

Fixpoint lift_p {A} (p : Prog P A) : Prog W A :=
  match p with
  | Ret a => Ret a
  | Do m k => Do (lift get put m) (fun b => lift_p (k b))
  end.

Definition lift_store_p (S : StoreP P) : StoreP W :=
  mkStoreP (fun n => lift_p (CreateNotification_p S n)) (fun t u id => lift_p (GetNotification_p S t u id))
    (fun t id st ms => lift_p (UpdateStatus_p S t id st ms)) (fun q => lift_p (QueryUserNotifications_p S q))
    (fun d => lift_p (UpsertDevice_p S d)) (fun t u => lift_p (ListDevices_p S t u)).

Context (get_put : forall p w, get (put p w) = p) (put_put : forall p p' w, put p (put p' w) = put p w)
  (put_get : forall w, put (get w) w = w).

Lemma run_lift {A} (p : Prog P A) : forall w, run (lift_p p) w = lift get put (run p) w.
Proof.
  unfold lift. induction p as [a|B m k IH]; intros w; cbn; unfold_M; [by rewrite put_get|].
  destruct (m (get w)) as [p' b]. rewrite IH, get_put. destruct (run (k b) p'). by rewrite put_put.
Qed.

#[export] Instance lift_granular (SP : StoreP P) (S : Store P) {HG : Granular SP S} :
  Granular (lift_store_p SP) (lift_store get put S).
Proof.
  split; intros; cbn; rewrite run_lift; unfold lift;
    by rewrite ?(gr_create (S := S)), ?(gr_get (S := S)), ?(gr_update (S := S)), ?(gr_query (S := S)),
      ?(gr_upsert (S := S)), ?(gr_list (S := S)).
Qed.
End lift.
