(* ===== verification/Linear.v ===== *)
(** * What concurrent clients of a driver may observe

    A client is any program of store calls, each of which may depend on the
    earlier answers.  Clients run in parallel, their calls broken into round trips
    that a schedule interleaves.  [emits] is a simulation: every round trip is a
    run of zero, one or more calls of the abstract machine of StoreOps.v, and what
    a client is answered is a function of the abstract calls made for it.  [play]
    shows the invocations, round trips and returns in the order of time, and
    [linearized] places every abstract call between the invocation and the return
    of the call it is made for; when an operation makes exactly one abstract call,
    with its own answer, it is linearizable. *)

From S2P Require Import Prelude GoErrors GoStrings Model StoreSpec StoreOps Prog.

Definition Event : Type := StoreOp * StoreOut.

(** ** A rule for pools: what every step keeps holds of the results *)

(** The next call of a program. *)
Definition prog_step {W A} (p : Prog W A) (w : W) : option (W * Prog W A) :=
  match p with
  | Ret _ => None
  | Do m k => let '(w', b) := m w in Some (w', k b)
  end.

Section pool.
Context {W A : Type} (R : W -> list (Prog W A) -> Prop).
Hypothesis Hstep : forall w ps i p w' p',
  R w ps -> ps !! i = Some p -> prog_step p w = Some (w', p') -> R w' (<[i := p']> ps).

Lemma run_rule p : forall w ps i, R w ps -> ps !! i = Some p ->
  let '(w', a) := run p w in R w' (<[i := Ret a]> ps).
Proof.
  induction p as [a|B m k IH]; intros w ps i HR Hp; cbn [run].
  - unfold mret, M_ret. by rewrite list_insert_id.
  - pose proof (Hstep w ps i (Do m k)) as Hs. unfold prog_step in Hs. destruct (m w) as [w1 b].
    pose proof (Hs _ _ HR Hp eq_refl) as HR1. specialize (IH b w1 (<[i := k b]> ps) i HR1).
    destruct (run (k b) w1) as [w2 a]. rewrite list_insert_insert_eq in IH. apply IH.
    apply list_lookup_insert_eq. by eapply lookup_lt_Some.
Qed.

Lemma run_all_rule rest : forall w (done : list A), R w ((Ret <$> done) ++ rest) ->
  let '(w', l) := run_all rest w in R w' (Ret <$> done ++ l).
Proof.
  induction rest as [|p rest IH]; intros w done HR; cbn [run_all]; unfold_M; [by rewrite app_nil_r in *|].
  pose proof (run_rule p w _ (length done) HR) as H1. rewrite lookup_app_r in H1 by (by rewrite length_fmap).
  rewrite length_fmap, Nat.sub_diag in H1. specialize (H1 eq_refl). destruct (run p w) as [w1 a].
  rewrite insert_app_r_alt in H1 by (by rewrite length_fmap). rewrite length_fmap, Nat.sub_diag in H1. cbn in H1.
  specialize (IH w1 (done ++ [a])). rewrite fmap_app, <- app_assoc in IH. specialize (IH H1).
  destruct (run_all rest w1) as [w2 l]. by rewrite <- app_assoc in IH.
Qed.

Lemma interleave_rule sched : forall ps w, R w ps ->
  let '(w', l) := interleave sched ps w in R w' (Ret <$> l).
Proof.
  induction sched as [|i sched IH]; intros ps w HR; cbn [interleave].
  - exact (run_all_rule ps w [] HR).
  - destruct (ps !! i) as [[a|B m k]|] eqn:Hp; [by apply IH| |by apply IH].
    pose proof (Hstep w ps i (Do m k)) as Hs. unfold prog_step in Hs. destruct (m w) as [w1 b]. apply IH. by eapply Hs.
Qed.
End pool.

(** ** What abstract calls keep *)

Definition keeps {R K : Type} (key : R -> K) (m m' : gmap string R) : Prop :=
  forall id r, m !! id = Some r -> exists r', m' !! id = Some r' /\ key r' = key r.

(** No row and no device ever goes away or changes its key. *)
Definition grows (a a' : AbsStore) : Prop :=
  keeps key_of (abs_rows a) (abs_rows a') /\ keeps dkey_of (abs_devs a) (abs_devs a').

Lemma keeps_refl {R K} (key : R -> K) m : keeps key m m.
Proof. intros id r Hr. by exists r. Qed.

Lemma keeps_trans {R K} (key : R -> K) m1 m2 m3 : keeps key m1 m2 -> keeps key m2 m3 -> keeps key m1 m3.
Proof.
  intros H1 H2 id r Hr. destruct (H1 id r Hr) as (r1 & Hr1 & Hk1). destruct (H2 id r1 Hr1) as (r2 & Hr2 & Hk2).
  exists r2. split; [done|congruence].
Qed.

Lemma keeps_new {R K} (key : R -> K) m id r : m !! id = None -> keeps key m (<[id := r]> m).
Proof. intros Hn i x Hx. exists x. split; [|done]. rewrite lookup_insert_ne; congruence. Qed.

Lemma keeps_same {R K} (key : R -> K) m id r r' : m !! id = Some r -> key r' = key r -> keeps key m (<[id := r']> m).
Proof.
  intros Hr Hk i x Hx. destruct (decide (id = i)) as [<-|Hne].
  - exists r'. rewrite lookup_insert_eq. split; congruence.
  - exists x. by rewrite lookup_insert_ne.
Qed.

#[export] Hint Resolve keeps_refl keeps_new keeps_same : notify.

#[global] Instance grows_preorder : PreOrder grows.
Proof.
  split; [split; apply keeps_refl|]. intros a1 a2 a3 [? ?] [? ?]. split; by eapply keeps_trans.
Qed.

Lemma spec_step_grows a l a' : spec_step a l a' -> grows a a'.
Proof. intros Hs. unfold grows. destruct Hs; cbn [abs_rows abs_devs]; split; eauto with notify. Qed.

Lemma spec_steps_grow a ls a' : steps spec_step a ls a' -> grows a a'.
Proof. induction 1 as [|a l a1 ls a2 Hs _ IH]; [done|]. etrans; [by eapply spec_step_grows|done]. Qed.

(** ** The simulation *)

Section emits.
Context {W : Type} (view : W -> AbsStore) (inv : W -> Prop).
Implicit Types w : W.

(** What other clients may do in between. *)
Definition rely w w' : Prop := inv w' /\ grows (view w) (view w').

Lemma rely_refl w : inv w -> rely w w.
Proof. by split. Qed.

Lemma rely_trans w1 w2 w3 : rely w1 w2 -> rely w2 w3 -> rely w1 w3.
Proof. intros [_ H1] [? H2]. split; [done|by etrans]. Qed.

(** From [w], and whatever others do in between, [p] makes abstract calls [h] and
    answers [a] with [Q h a]. *)
Fixpoint emits {A} (p : Prog W A) (Q : list Event -> A -> Prop) w : Prop :=
  match p with
  | Ret a => Q [] a
  | Do m k => forall w0, rely w w0 ->
      let '(w', b) := m w0 in
      inv w' /\ exists h, steps spec_step (view w0) h (view w') /\ emits (k b) (fun h' a => Q (h ++ h') a) w'
  end.

Lemma emits_rely {A} (p : Prog W A) Q w w' : emits p Q w -> rely w w' -> emits p Q w'.
Proof. destruct p as [a|B m k]; [done|]. intros He Hr w0 Hw0. apply He. by eapply rely_trans. Qed.

Lemma emits_mono {A} (p : Prog W A) : forall (Q Q' : list Event -> A -> Prop) w,
  emits p Q w -> (forall h a, Q h a -> Q' h a) -> emits p Q' w.
Proof.
  induction p as [a|B m k IH]; intros Q Q' w He HQ; [by apply HQ|]. intros w0 Hw0. specialize (He w0 Hw0).
  destruct (m w0) as [w' b]. destruct He as [Hi (h & Hs & He)]. split; [done|]. exists h. split; [done|].
  eapply IH; [exact He|]. intros h' a. apply HQ.
Qed.

Lemma emits_bind {A B} (p : Prog W A) (f : A -> Prog W B) : forall Q Q' w,
  inv w -> emits p Q w ->
  (forall h a w', rely w w' -> Q h a -> emits (f a) (fun h' b => Q' (h ++ h') b) w') ->
  emits (p ≫= f) Q' w.
Proof.
  induction p as [a|C m k IH]; intros Q Q' w Hi He Hf; [by apply (Hf [] a w), He; apply rely_refl|].
  intros w0 Hw0. specialize (He w0 Hw0). destruct (m w0) as [w1 c]. destruct He as [Hi1 (h & Hs & He)].
  split; [done|]. exists h. split; [done|]. eapply IH; [done|exact He|]. intros h' a w2 Hw2 HQ.
  eapply emits_mono; [apply (Hf (h ++ h') a w2); [|done]|].
  - eapply rely_trans; [exact Hw0|]. eapply rely_trans; [|exact Hw2]. split; [done|by eapply spec_steps_grow].
  - intros h2 b. cbn. by rewrite <- app_assoc.
Qed.

(** The rule for a round trip. *)
Lemma emits_do {A B} (m : M W B) (k : B -> Prog W A) Q w :
  (forall w0, rely w w0 -> exists w' b h, m w0 = (w', b) /\ steps spec_step (view w0) h (view w') /\ inv w' /\
     (rely w0 w' -> emits (k b) (fun h' a => Q (h ++ h') a) w')) ->
  emits (Do m k) Q w.
Proof.
  intros Hm w0 Hw0. destruct (Hm w0 Hw0) as (w' & b & h & -> & Hs & Hi & Hk). split; [done|]. exists h. split; [done|].
  apply Hk. split; [done|by eapply spec_steps_grow].
Qed.

(** A round trip that makes no abstract call. *)
Lemma emits_silent {A B} (m : M W B) (k : B -> Prog W A) Q w :
  (forall w0, rely w w0 -> exists w' b, m w0 = (w', b) /\ view w' = view w0 /\ inv w' /\
     (rely w0 w' -> emits (k b) Q w')) ->
  emits (Do m k) Q w.
Proof.
  intros Hm. apply emits_do. intros w0 Hw0. destruct (Hm w0 Hw0) as (w' & b & He & Hv & Hi & Hk).
  exists w', b, []. split_and!; [done|rewrite Hv; constructor|done|]. exact Hk.
Qed.

(** The last round trip of an operation. *)
Lemma emits_last {A B} (m : M W B) (f : B -> A) (Q : list Event -> A -> Prop) w :
  (forall w0, rely w w0 -> exists w' b h, m w0 = (w', b) /\ steps spec_step (view w0) h (view w') /\ inv w' /\
     Q h (f b)) ->
  emits (Do m (fun b => Ret (f b))) Q w.
Proof.
  intros Hm. apply emits_do. intros w0 Hw0. destruct (Hm w0 Hw0) as (w' & b & h & He & Hs & Hi & HQ).
  exists w', b, h. split_and!; [done..|]. intros _. cbn. by rewrite app_nil_r.
Qed.

(** Of a program that is one round trip. *)
Lemma emits_one {B} (m : M W B) (k : B -> Prog W StoreOut) op w :
  (forall b, exists a, k b = Ret a) ->
  (forall w0, rely w w0 -> exists w' out, run (Do m k) w0 = (w', out) /\
     spec_step (view w0) (op, out) (view w') /\ inv w') ->
  emits (Do m k) (fun h out => h = [(op, out)] /\ exists a a', spec_step a (op, out) a') w.
Proof.
  intros Hk Hm w0 Hw0. destruct (Hm w0 Hw0) as (w' & out & He & Hs & Hi). cbn in He.
  destruct (m w0) as [w1 b]. destruct (Hk b) as [a Ha]. rewrite Ha in He |- *. injection He as -> ->.
  split; [done|]. exists [(op, out)]. split; [by econstructor; [|constructor]|]. split; [done|]. by exists (view w0), (view w').
Qed.

(** ** Pools *)

(** The abstract calls made for the program [i]. *)
Definition calls_of (i : nat) (hist : list (nat * Event)) : list Event := (filter (fun c => c.1 = i) hist).*2.

Lemma calls_of_app i h1 h2 : calls_of i (h1 ++ h2) = calls_of i h1 ++ calls_of i h2.
Proof. unfold calls_of. by rewrite filter_app, fmap_app. Qed.

Lemma calls_of_own i h : calls_of i ((pair i) <$> h) = h.
Proof.
  unfold calls_of. induction h as [|e h IH]; [done|]. rewrite fmap_cons, filter_cons_True by done.
  by rewrite fmap_cons, IH.
Qed.

Lemma calls_of_other i j h : i <> j -> calls_of j ((pair i) <$> h) = [].
Proof.
  intros Hne. unfold calls_of. induction h as [|e h IH]; [done|]. rewrite fmap_cons, filter_cons_False by done. exact IH.
Qed.

Section pools.
Context {A : Type} (Q : nat -> list Event -> A -> Prop) (w0 : W).

Definition simulated w (ps : list (Prog W A)) : Prop :=
  inv w /\ exists hist, steps spec_step (view w0) hist.*2 (view w) /\ Forall (fun c => c.1 < length ps)%nat hist /\
    forall i p, ps !! i = Some p -> emits p (fun h a => Q i (calls_of i hist ++ h) a) w.

Lemma simulated_step w ps i p w' p' : simulated w ps -> ps !! i = Some p -> prog_step p w = Some (w', p') ->
  simulated w' (<[i := p']> ps).
Proof.
  intros [Hi (hist & Hs & Hb & Hps)] Hp He. pose proof (Hps i p Hp) as Hm.
  destruct p as [a|B m k]; [done|]. cbn in He. specialize (Hm w (rely_refl w Hi)).
  destruct (m w) as [w1 b]. injection He as -> <-. destruct Hm as [Hi' (h & Hsh & Hk)]. split; [done|].
  exists (hist ++ (pair i <$> h)). split_and!.
  - rewrite fmap_app, <- list_fmap_compose. change (snd ∘ pair i) with (fun e : Event => e). rewrite list_fmap_id.
    by eapply steps_app.
  - rewrite length_insert. apply Forall_app. split; [done|]. apply Forall_fmap, Forall_true. intros e.
    by eapply lookup_lt_Some.
  - intros j q Hq. rewrite calls_of_app. apply list_lookup_insert_Some in Hq as [(<- & <- & _)|[Hne Hq]].
    + rewrite calls_of_own. eapply emits_mono; [exact Hk|]. intros h' a. cbn. by rewrite app_assoc.
    + rewrite (calls_of_other i j) by done. rewrite app_nil_r. eapply emits_rely; [by apply Hps|].
      split; [done|by eapply spec_steps_grow].
Qed.

(** Whatever the schedule, the answers are those of one history of the abstract machine. *)
Lemma interleave_simulated sched ps : inv w0 -> (forall i p, ps !! i = Some p -> emits p (Q i) w0) ->
  let '(w', outs) := interleave sched ps w0 in
  inv w' /\ length outs = length ps /\ exists hist, steps spec_step (view w0) hist.*2 (view w') /\
    Forall (fun c => c.1 < length ps)%nat hist /\ forall i a, outs !! i = Some a -> Q i (calls_of i hist) a.
Proof.
  intros Hi Hps.
  pose proof (interleave_rule (fun w qs => simulated w qs /\ length qs = length ps)) as Hrule.
  assert (Hstart : simulated w0 ps /\ length ps = length ps) by (split; [split; [done|]; exists []; split_and!; [constructor..|done]|done]).
  specialize (Hrule ltac:(intros w qs i p w' p' [Hs Hl] Hp He; split; [by eapply simulated_step|by rewrite length_insert])
    sched ps w0 Hstart).
  destruct (interleave sched ps w0) as [w' outs]. destruct Hrule as [[Hi' (hist & Hs & Hb & Hq)] Hl].
  split; [done|]. split; [by rewrite length_fmap in Hl|]. exists hist. split; [done|].
  rewrite Hl in Hb. split; [done|]. intros i a Ha. specialize (Hq i (Ret a)). rewrite list_lookup_fmap, Ha in Hq. specialize (Hq eq_refl). cbn in Hq. by rewrite app_nil_r in Hq.
Qed.
End pools.
End emits.

(** ** Clients *)

(** A program of store calls. *)
Inductive Client (A : Type) : Type :=
| CRet (a : A)
| CCall (op : StoreOp) (k : StoreOut -> Client A).
Arguments CRet {A}.
Arguments CCall {A}.

Fixpoint client_prog {W A} (P : StoreP W) (c : Client A) : Prog W A :=
  match c with
  | CRet a => mret a
  | CCall op k => out ← op_p P op; client_prog P (k out)
  end.

(** Every call that the client may come to make, when [may] bounds the answers. *)
Fixpoint calls_all {A} (ok : StoreOp -> Prop) (may : StoreOut -> Prop) (c : Client A) : Prop :=
  match c with
  | CRet _ => True
  | CCall op k => ok op /\ forall out, may out -> calls_all ok may (k out)
  end.

(** The client answers [a] after the abstract calls [h], when a store call may
    answer [out] after abstract calls that [answers] relates to it. *)
Inductive follows {A} (answers : StoreOp -> list Event -> StoreOut -> Prop) : Client A -> list Event -> A -> Prop :=
| follows_ret a : follows answers (CRet a) [] a
| follows_call op k h out h' a :
    answers op h out -> follows answers (k out) h' a -> follows answers (CCall op k) (h ++ h') a.

(** A call that is a single abstract call. *)
Definition exact (op : StoreOp) (h : list Event) (out : StoreOut) : Prop := h = [(op, out)].

(** A driver, and what its calls may answer when others run in between. *)
Class Linear {W : Type} (P : StoreP W) := {
  lin_view : W -> AbsStore;
  lin_inv : W -> Prop;
  lin_ready : StoreOp -> Prop;
  lin_may : StoreOut -> Prop;
  lin_answers : StoreOp -> list Event -> StoreOut -> Prop;
  lin_op : forall op w, lin_inv w -> lin_ready op ->
    emits lin_view lin_inv (op_p P op) (fun h out => lin_answers op h out /\ lin_may out) w;
}.

(** The histories of a pool of clients: one run of the abstract machine whose
    calls each client's answer follows. *)
Definition serializable {A} (answers : StoreOp -> list Event -> StoreOut -> Prop) (a a' : AbsStore)
    (clients : list (Client A)) (outs : list A) : Prop :=
  exists hist, steps spec_step a hist.*2 a' /\ Forall (fun c => c.1 < length clients)%nat hist /\
    Forall2 (fun '(i, c) out => follows answers c (calls_of i hist) out) (imap pair clients) outs.

Section clients.
Context {W : Type} (P : StoreP W) {HP : Linear P}.

Lemma client_emits {A} (c : Client A) : forall w, lin_inv w -> calls_all lin_ready lin_may c ->
  emits lin_view lin_inv (client_prog P c) (follows lin_answers c) w.
Proof.
  induction c as [a|op k IH]; intros w Hi Hc; [constructor|]. destruct Hc as [Hop Hk].
  eapply emits_bind; [done|by apply lin_op|]. intros h out w' [Hi' _] [Ha Hmay].
  eapply emits_mono; [by apply IH; [|apply Hk]|]. intros h' a Hf. by econstructor.
Qed.

Lemma clients_serializable {A} (clients : list (Client A)) sched w :
  lin_inv w -> Forall (calls_all lin_ready lin_may) clients ->
  let '(w', outs) := interleave sched (client_prog P <$> clients) w in
  lin_inv w' /\ serializable lin_answers (lin_view w) (lin_view w') clients outs.
Proof.
  intros Hi Hc.
  pose proof (interleave_simulated lin_view lin_inv
    (fun i h a => forall c, clients !! i = Some c -> follows lin_answers c h a) w sched (client_prog P <$> clients) Hi) as Hs.
  destruct (interleave sched (client_prog P <$> clients) w) as [w' outs]. destruct Hs as (Hi' & Hl & hist & Hh & Hb & Hf).
  { intros i p. rewrite list_lookup_fmap. intros (c & Hi' & ->)%fmap_Some.
    eapply emits_mono; [apply client_emits; [done|by eapply Forall_lookup_1]|]. intros h a Hfol c' Hc'. congruence. }
  split; [done|]. exists hist. rewrite length_fmap in Hb. split_and!; [done..|]. apply Forall2_same_length_lookup_2.
  - by rewrite length_imap, Hl, length_fmap.
  - intros i [j c] out Hj Hout. rewrite list_lookup_imap in Hj. apply fmap_Some in Hj as (c' & Hc' & [= -> ->]). by apply Hf.
Qed.
End clients.

(** ** Clients in real time *)

(** What happens at an instant: a client calls an operation, one of its round trips takes place,
    or the operation returns to it. *)
Inductive Action : Type :=
| Invoke (op : StoreOp)
| Trip
| Return (out : StoreOut).

(** A client between two calls, or inside one with the rest of its round trips. *)
Inductive Phase (W A : Type) : Type :=
| Between (c : Client A)
| Within (op : StoreOp) (p : Prog W StoreOut) (k : StoreOut -> Client A).
Arguments Between {W A}.
Arguments Within {W A}.

(** The next thing a client does, unless it is finished. *)
Definition client_move {W A} (P : StoreP W) (ph : Phase W A) (w : W) : option (W * Action * Phase W A) :=
  match ph with
  | Between (CRet _) => None
  | Between (CCall op k) => Some (w, Invoke op, Within op (op_p P op) k)
  | Within op (Ret out) k => Some (w, Return out, Between (k out))
  | Within op (Do m p) k => let '(w', b) := m w in Some (w', Trip, Within op (p b) k)
  end.

(** The schedule names whose move is next; what happened, in the order of time.  It may stop with
    calls still pending. *)
Fixpoint play {W A} (P : StoreP W) (sched : list nat) (phs : list (Phase W A)) (w : W)
    : W * list (nat * Action) * list (Phase W A) :=
  match sched with
  | [] => (w, [], phs)
  | i :: sched =>
      match phs !! i ≫= fun ph => client_move P ph w with
      | Some (w', act, ph') =>
          let '(w2, trace, phs2) := play P sched (<[i := ph']> phs) w' in (w2, (i, act) :: trace, phs2)
      | None => play P sched phs w
      end
  end.

(** The moves of one client, each with the abstract calls that took effect at it. *)
Definition own (i : nat) (points : list (nat * Action * list Event)) : list (Action * list Event) :=
  (fun x => (x.1.2, x.2)) <$> filter (fun x => x.1.1 = i) points.

(** The client's calls, in its order: each is invoked, takes effect at its round trips and then
    returns an answer that [answers] allows for what took effect; the last may be pending. *)
Inductive obeys {A} (answers : StoreOp -> list Event -> StoreOut -> Prop) : Client A -> list (Action * list Event) -> Prop :=
| obeys_rest c : obeys answers c []
| obeys_pending op k trips : Forall (fun t => t.1 = Trip) trips -> obeys answers (CCall op k) ((Invoke op, []) :: trips)
| obeys_call op k trips out rest :
    Forall (fun t => t.1 = Trip) trips -> answers op (concat trips.*2) out -> obeys answers (k out) rest ->
    obeys answers (CCall op k) ((Invoke op, []) :: trips ++ (Return out, []) :: rest).

(** Every instant of [trace] can be given the abstract calls that take effect at it, so that in the
    order of time they are one run of the abstract machine from [a] to [a'], and every client's
    calls take effect between their invocation and their return. *)
Definition linearized {A} (answers : StoreOp -> list Event -> StoreOut -> Prop) (clients : list (Client A))
    (a : AbsStore) (trace : list (nat * Action)) (a' : AbsStore) : Prop :=
  exists points : list (nat * Action * list Event), points.*1 = trace /\
    steps spec_step a (concat points.*2) a' /\
    forall i c, clients !! i = Some c -> obeys answers c (own i points).

Section realtime.
Context {W : Type} (P : StoreP W) {HP : Linear P}.
Notation rely := (rely lin_view lin_inv).
Notation emits := (emits lin_view lin_inv).

(** Where a client stands: the calls that it completed and the one it is in. *)
Inductive at_phase {A} (w : W) : Client A -> list (Action * list Event) -> Phase W A -> Prop :=
| at_between c : calls_all lin_ready lin_may c -> at_phase w c [] (Between c)
| at_within op k trips p :
    (forall out, lin_may out -> calls_all lin_ready lin_may (k out)) -> Forall (fun t => t.1 = Trip) trips ->
    emits p (fun h out => lin_answers op (concat trips.*2 ++ h) out /\ lin_may out) w ->
    at_phase w (CCall op k) ((Invoke op, []) :: trips) (Within op p k)
| at_later op k trips out rest ph :
    Forall (fun t => t.1 = Trip) trips -> lin_answers op (concat trips.*2) out -> at_phase w (k out) rest ph ->
    at_phase w (CCall op k) ((Invoke op, []) :: trips ++ (Return out, []) :: rest) ph.

Lemma at_phase_obeys {A} w (c : Client A) ms ph : at_phase w c ms ph -> obeys lin_answers c ms.
Proof. induction 1; by constructor. Qed.

Lemma at_phase_rely {A} w w' (c : Client A) ms ph : at_phase w c ms ph -> rely w w' -> at_phase w' c ms ph.
Proof. intros Hat Hr. induction Hat; constructor; auto. by eapply emits_rely. Qed.

(** One move: what took effect at it, if anything. *)
Lemma at_phase_move {A} w (c : Client A) ms ph w' act ph' : lin_inv w -> at_phase w c ms ph ->
  client_move P ph w = Some (w', act, ph') ->
  lin_inv w' /\ exists h, steps spec_step (lin_view w) h (lin_view w') /\ at_phase w' c (ms ++ [(act, h)]) ph'.
Proof.
  intros Hi Hat Hm.
  induction Hat as [c Hc|op k trips p Hk Ht He|op k trips out rest ph Ht Ha Hat IH]; cbn [client_move] in Hm.
  - destruct c as [a|op k]; [done|]. injection Hm as <- <- <-. destruct Hc as [Hop Hk]. split; [done|].
    exists []. split; [constructor|]. cbn. constructor; [done|constructor|]. by apply lin_op.
  - destruct p as [out|B m p].
    + injection Hm as <- <- <-. cbn in He. rewrite app_nil_r in He. destruct He as [Ha Hmay]. split; [done|].
      exists []. split; [constructor|]. constructor; [done..|]. constructor. by apply Hk.
    + specialize (He w (rely_refl _ _ w Hi)). destruct (m w) as [w1 b]. injection Hm as <- <- <-.
      destruct He as [Hi1 (h & Hs & He)]. split; [done|]. exists h. split; [done|]. cbn. constructor.
      * done.
      * apply Forall_app. split; [done|by repeat constructor].
      * eapply emits_mono; [exact He|]. intros h' a. rewrite fmap_app, concat_app. cbn. by rewrite app_nil_r, <- app_assoc.
  - destruct (IH Hm) as [Hi' (h & Hs & Hat')]. split; [done|]. exists h. split; [done|].
    cbn [app]. rewrite <- app_assoc. by constructor.
Qed.

Lemma own_app i l1 l2 : own i (l1 ++ l2) = own i l1 ++ own i l2.
Proof. unfold own. by rewrite filter_app, fmap_app. Qed.

Section pool.
Context {A : Type} (clients : list (Client A)) (w0 : W).

(** The trace so far has been given its abstract calls, and every client stands where it says. *)
Definition traced w (phs : list (Phase W A)) (points : list (nat * Action * list Event)) : Prop :=
  lin_inv w /\ steps spec_step (lin_view w0) (concat points.*2) (lin_view w) /\
  forall i c ph, clients !! i = Some c -> phs !! i = Some ph -> at_phase w c (own i points) ph.

Lemma traced_move w phs points i ph w' act ph' : length phs = length clients -> traced w phs points ->
  phs !! i = Some ph -> client_move P ph w = Some (w', act, ph') ->
  exists h, traced w' (<[i := ph']> phs) (points ++ [((i, act), h)]).
Proof.
  intros Hl (Hi & Hs & Hat) Hph Hm.
  destruct (lookup_lt_is_Some_2 clients i) as [c Hc]; [rewrite <- Hl; by eapply lookup_lt_Some|].
  destruct (at_phase_move w c _ ph w' act ph' Hi (Hat i c ph Hc Hph) Hm) as [Hi' (h & Hh & Hc')].
  exists h. split; [done|]. split.
  - rewrite fmap_app, concat_app. cbn. rewrite app_nil_r. by eapply steps_app.
  - intros j c2 ph2 Hc2 Hph2. rewrite own_app. unfold own at 2.
    apply list_lookup_insert_Some in Hph2 as [(<- & <- & _)|[Hne Hph2]].
    + rewrite filter_cons_True by done. assert (c2 = c) as -> by congruence. exact Hc'.
    + rewrite filter_cons_False by done. cbn. rewrite app_nil_r. eapply at_phase_rely; [by apply Hat|].
      split; [done|by eapply spec_steps_grow].
Qed.

Lemma play_traced sched : forall phs w points, length phs = length clients -> traced w phs points ->
  let '(w', trace, phs') := play P sched phs w in
  exists more, more.*1 = trace /\ traced w' phs' (points ++ more).
Proof.
  induction sched as [|i sched IH]; intros phs w points Hl Ht; cbn [play].
  { exists []. by rewrite app_nil_r. }
  destruct (phs !! i ≫= fun ph => client_move P ph w) as [[[w1 act] ph']|] eqn:Hm; [|by apply IH].
  apply bind_Some in Hm as (ph & Hph & Hm). destruct (traced_move w phs points i ph w1 act ph' Hl Ht Hph Hm) as [h Ht1].
  specialize (IH (<[i := ph']> phs) w1 _ ltac:(by rewrite length_insert) Ht1).
  destruct (play P sched _ w1) as [[w2 trace] phs2]. destruct IH as (more & <- & Ht2).
  exists (((i, act), h) :: more). split; [done|]. by rewrite <- app_assoc in Ht2.
Qed.

Lemma play_linearized sched : lin_inv w0 -> Forall (calls_all lin_ready lin_may) clients ->
  let '(w', trace, _) := play P sched (Between <$> clients) w0 in
  lin_inv w' /\ linearized lin_answers clients (lin_view w0) trace (lin_view w').
Proof.
  intros Hi Hc. pose proof (play_traced sched (Between <$> clients) w0 []) as Hp.
  destruct (play P sched (Between <$> clients) w0) as [[w' trace] phs'] eqn:He.
  destruct Hp as (points & Htr & Hi' & Hs & Hat).
  - apply length_fmap.
  - split; [done|]. split; [constructor|]. intros i c ph Hic Hph. rewrite list_lookup_fmap, Hic in Hph.
    injection Hph as <-. constructor. by eapply Forall_lookup_1.
  - split; [done|]. exists points. split_and!; [done|done|]. intros i c Hic.
    assert (Hl : length phs' = length clients).
    { clear -He. apply (f_equal (fun o => length o.2)) in He. cbn in He. rewrite <- He.
      assert (Hlen : forall sched (phs : list (Phase W A)) w, length (play P sched phs w).2 = length phs).
      { clear. induction sched as [|i sched IH]; intros phs w; [done|]. cbn [play].
        destruct (phs !! i ≫= _) as [[[w1 act] ph']|]; [|apply IH]. specialize (IH (<[i := ph']> phs) w1).
        destruct (play P sched _ w1) as [[w2 trace] phs2]. cbn in *. by rewrite IH, length_insert. }
      by rewrite Hlen, length_fmap. }
    destruct (lookup_lt_is_Some_2 phs' i) as [ph Hph]; [rewrite Hl; by eapply lookup_lt_Some|].
    eapply at_phase_obeys. by eapply Hat.
Qed.
End pool.
End realtime.

(** A driver with one step per operation is linearizable. *)

#[export] Instance atomic_linear {W} (S : Store W) {HS : StoreLaws S} : Linear (atomic S).
Proof.
  refine {| lin_view := abs S; lin_inv := store_inv; lin_ready := plain; lin_may := fun _ => True;
            lin_answers := exact |}.
  intros op w Hi Hp. pose proof (fun w0 Hi0 => run_op_refines S w0 op Hi0 Hp) as Hop.
  setoid_rewrite <- (granular_op (atomic S) S) in Hop.
  destruct op; (eapply emits_mono;
    [apply emits_one; [by intros b; try destruct b; eexists|intros w0 [Hi0 _]; by apply Hop]
    |intros h out [Ha _]; by split]).
Defined.

(** ** Stores whose operations are several steps *)

(** An abstract call that only only_reads. *)
Definition only_reads (e : Event) : Prop :=
  match e.1 with OpGet _ _ _ | OpQuery _ | OpList _ _ => True | _ => False end.

(** The call showed its caller the row [n] of the query [q]. *)
Definition shows (q : Query) (n : Notification) (e : Event) : Prop :=
  (exists items cursor unread, e = (OpQuery q, OutQuery (Ok (items, cursor, unread))) /\ n ∈ items) \/
  e = (OpGet (qTenantID q) (qUserID q) (nID n), OutGet (Ok n)).

(** The abstract calls that an operation is made of. *)
Definition consists (op : StoreOp) (h : list Event) (out : StoreOut) : Prop :=
  match op with
  | OpQuery q => exists items cursor unread, out = OutQuery (Ok (items, cursor, unread)) /\ Forall only_reads h /\
      forall n, n ∈ items -> Exists (shows q n) h
  | OpUpsert d => exists d1 d2 hs, h = (op, OutUpsert (Ok d1)) :: hs /\ Forall only_reads hs /\ out = OutUpsert (Ok d2)
  | OpList t u => Forall only_reads h
  | _ => h = [(op, out)]
  end.

(** The id of a created row is one that the driver takes as it is written. *)
Definition id_legible (legible : string -> Prop) (out : StoreOut) : Prop :=
  match out with OutCreate id (Ok _) => legible id | _ => True end.

(** What RPCs need of a driver: its calls consist of abstract calls, when it can
    hold their texts. *)
Class Driver {W} (P : StoreP W) := {
  view : W -> AbsStore;
  whole : W -> Prop;
  fits : string -> Prop;
  legible : string -> Prop;
  driver_ok : forall w, whole w -> abs_ok (view w);
  driver_op : forall op w, whole w -> op_fits fits legible op ->
    emits view whole (op_p P op) (fun h out => consists op h out /\ id_legible legible out) w;
}.

Lemma emits_total {W A} (view : W -> AbsStore) inv (p : Prog W A) : forall Q w,
  inv w -> emits view inv p Q w -> exists h a, Q h a.
Proof.
  induction p as [a|B m k IH]; intros Q w Hi He; [by exists [], a|]. specialize (He w (rely_refl view inv w Hi)).
  destruct (m w) as [w' b]. destruct He as [Hi' (h & _ & He)]. destruct (IH b _ w' Hi' He) as (h' & a & HQ). by exists (h ++ h'), a.
Qed.

(** Alone. *)
Lemma emits_run {W A} (view : W -> AbsStore) inv (p : Prog W A) : forall Q w, inv w -> emits view inv p Q w ->
  let '(w', a) := run p w in inv w' /\ exists h, steps spec_step (view w) h (view w') /\ Q h a.
Proof.
  induction p as [a|B m k IH]; intros Q w Hi He; cbn [run].
  { split; [done|]. exists []. split; [constructor|done]. }
  specialize (He w (rely_refl view inv w Hi)). destruct (m w) as [w1 b]. destruct He as [Hi1 (h & Hs & He)].
  specialize (IH b _ w1 Hi1 He). destruct (run (k b) w1) as [w2 a]. destruct IH as [Hi2 (h' & Hs' & HQ)].
  split; [done|]. exists (h ++ h'). split; [by eapply steps_app|done].
Qed.

(** A linearizable call consists of itself. *)
Lemma exact_consists a op out a' : spec_step a (op, out) a' -> consists op [(op, out)] out.
Proof.
  intros Hs. destruct op; cbn; try done.
  - inversion Hs as [ | | | | | |a0 q' items cursor unread Hq| | | ]; subst. exists items, cursor, unread.
    split_and!; [done|by repeat constructor|]. intros n Hn. apply Exists_cons. left. left. by exists items, cursor, unread.
  - by inversion Hs; subst; eexists _, _, [].
  - by repeat constructor.
Qed.

(** A driver with one step per operation, which holds every text. *)
#[export] Instance atomic_driver {W} (S : Store W) {HS : StoreLaws S} : Driver (atomic S).
Proof.
  refine {| view := abs S; whole := store_inv; fits := fun _ => True; legible := fun _ => True; driver_ok := law_rows |}.
  intros op w Hi Hp%op_fits_plain. pose proof (fun w0 Hi0 => run_op_refines S w0 op Hi0 Hp) as Hop.
  setoid_rewrite <- (granular_op (atomic S) S) in Hop.
  destruct op; (eapply emits_mono;
    [apply emits_one; [by intros b; try destruct b; eexists|intros w0 [Hi0 _]; by apply Hop]
    |intros h out [-> (a & a' & Hs)]; split; [by eapply exact_consists|by destruct out as [? []| | | | |]]]).
Defined.

(** ** A driver whose state is one part of the world *)

Section lift.
Context {W P : Type} (get : W -> P) (put : P -> W -> W) (get_put : forall p w, get (put p w) = p).
Context (view : P -> AbsStore) (inv : P -> Prop).

(** The steps of a lifted program are those of the program on its part of the world. *)
Lemma emits_lift {A B} (p : Prog P A) (f : A -> Prog P B) (f' : A -> Prog W B) (g : A -> B) :
  (forall x, f x = Ret (g x)) -> (forall x, f' x = Ret (g x)) -> forall Q w,
  emits view inv (p ≫= f) Q (get w) -> emits (fun w => view (get w)) (fun w => inv (get w)) (lift_p get put p ≫= f') Q w.
Proof.
  intros Hf Hf'. induction p as [x|C m k IH]; intros Q w He.
  - cbn in He |- *. rewrite Hf in He. by rewrite Hf'.
  - intros w0 [Hi0 Hg0]. specialize (He (get w0) (conj Hi0 Hg0)). unfold lift. destruct (m (get w0)) as [p1 c].
    rewrite get_put. destruct He as [Hi1 (h & Hs & He)]. split; [done|]. exists h. split; [done|].
    apply IH. by rewrite get_put.
Qed.
End lift.

#[export] Instance lift_driver {W P} (get : W -> P) (put : P -> W -> W) (get_put : forall p w, get (put p w) = p)
    (SP : StoreP P) {HD : Driver SP} : Driver (lift_store_p get put SP).
Proof.
  refine {| view := fun w => view (get w); whole := fun w => whole (get w); fits := fits; legible := legible;
            driver_ok := fun w => driver_ok (get w) |}.
  assert (Hlift : forall op B (p : Prog P B) f f' (g : B -> StoreOut) w,
    (forall x, f x = Ret (g x)) -> (forall x, f' x = Ret (g x)) ->
    emits view whole (p ≫= f) (fun h out => consists op h out /\ id_legible legible out) (get w) ->
    emits (fun w => view (get w)) (fun w => whole (get w)) (lift_p get put p ≫= f')
      (fun h out => consists op h out /\ id_legible legible out) w).
  { intros op B p f f' g w Hf Hf'. by apply (emits_lift get put get_put view whole p f f' g). }
  intros op w Hi Hp. pose proof (driver_op op (get w) Hi Hp) as He. destruct op; revert He.
  - apply (Hlift _ _ _ _ _ (fun x => OutCreate (nID x.1) x.2)); by intros [].
  - by apply (Hlift _ _ _ _ _ OutGet).
  - by apply (Hlift _ _ _ _ _ OutUpdate).
  - by apply (Hlift _ _ _ _ _ OutQuery).
  - apply (Hlift _ _ _ _ _ (fun x => OutUpsert x.2)); by intros [].
  - by apply (Hlift _ _ _ _ _ OutList).
Defined.
