(* ===== verification/Concurrent.v ===== *)
(** * RPCs in parallel

    net/http serves every request on a goroutine of its own, so the calls that a
    handler makes to the store, the clock and the providers interleave with those
    of other handlers.  Here every handler is a [Prog] whose calls are the round
    trips of its store and those to the clock and the providers; alone it is the
    handler of Handlers.v and Notifier.v. *)

From S2P Require Import Prelude GoErrors GoStrings Model StoreSpec Memory Notifier NotifierProps.
From S2P Require Import Wire Realtime Retry Stream Auth Handlers HandlersProps Config Server System Surface Prog.

(** ** notifier.go *)

Section notify.
Context {W : Type} (n : NotifierT W) (P : StoreP W).

Definition notify_one_p (req : NotifyRequest) (userID : string) (kind : ChannelKind)
    (res : NotifyResult) : Prog W (NotifyResult * option error) :=
  ms ← call (nNow n);
  '(row, created) ← CreateNotification_p P (new_row req userID kind ms);
  match created with
  | Err err => mret (res, Some err)
  | Ok _ =>
      let pending := mret (mkNotifyResult (Delivered res) (Pending res + 1) (Failed res), None) in
      let to := addressFor req userID kind in
      match Get (nProviders n) kind with
      | None => pending
      | Some provider =>
          if (to =? "")%string then pending else
          '(receipt, err) ← call (Send provider (message_for req row to));
          match err with
          | Some _ =>
              ms ← call (nNow n);
              _ ← UpdateStatus_p P (rTenantID req) (nID row) StatusFailed ms;
              mret (mkNotifyResult (Delivered res) (Pending res) (Failed res + 1), None)
          | None =>
              let status := if (rStatus receipt =? "")%string then StatusDelivered
                            else rStatus receipt in
              ms ← call (nNow n);
              err ← UpdateStatus_p P (rTenantID req) (nID row) status ms;
              match err with
              | Some err => mret (res, Some err)
              | None => mret (mkNotifyResult (Delivered res + 1) (Pending res) (Failed res), None)
              end
          end
      end
  end.

Fixpoint notify_channels_p (req : NotifyRequest) (userID : string) (kinds : list ChannelKind)
    (res : NotifyResult) : Prog W (NotifyResult * option error) :=
  match kinds with
  | [] => mret (res, None)
  | kind :: kinds =>
      '(res, err) ← notify_one_p req userID kind res;
      match err with
      | Some err => mret (res, Some err)
      | None => notify_channels_p req userID kinds res
      end
  end.

Fixpoint notify_users_p (req : NotifyRequest) (users : list string) (kinds : list ChannelKind)
    (res : NotifyResult) : Prog W (NotifyResult * option error) :=
  match users with
  | [] => mret (res, None)
  | userID :: users =>
      '(res, err) ← notify_channels_p req userID kinds res;
      match err with
      | Some err => mret (res, Some err)
      | None => notify_users_p req users kinds res
      end
  end.

Definition Notify_p `{MapOrder} (req : NotifyRequest) : Prog W (NotifyResult * option error) :=
  notify_users_p req (rUserIDs req) (channels_of n req) (mkNotifyResult 0 0 0).

(** ** handlers.go *)

Definition internal_Notify_p `{MapOrder} (req : option NotifyRequestPB) : Prog W (result error NotifyResponse) :=
  match req with
  | None => mret (Err (CodeError CodeInvalidArgument "notify: nil request"))
  | Some _ =>
      match validateNotifyRequest req with
      | Some err => mret (Err (ConnectError CodeInvalidArgument err))
      | None =>
          '(res, err) ← Notify_p (notifyRequestFromProto req);
          mret (match err with
                | Some err => Err (ConnectError CodeInternal (ErrorfW "notify: %w" [] err))
                | None => Ok (mkNotifyResponse (int32_of (Delivered res)) (int32_of (Pending res))
                                (int32_of (Failed res)))
                end)
      end
  end.
End notify.

Section client.
Context {W : Type} (h : clientHandler W) (P : StoreP W).

Definition GetNotifications_p (claims : Claims) (req : option GetNotificationsRequest)
    : Prog W (result error GetNotificationsResponse) :=
  match page_query claims req with
  | Err err => mret (Err err)
  | Ok q =>
      r ← QueryUserNotifications_p P q;
      mret (match r with
            | Err err => Err (ConnectError CodeInternal (ErrorfW "notify: query: %w" [] err))
            | Ok (items, next, unread) =>
                Ok (mkGetNotificationsResponse (notification_view <$> items) next (int32_of unread))
            end)
  end.

Definition AckNotification_p (claims : Claims) (req : option AckNotificationRequest)
    : Prog W (result error AckNotificationResponse) :=
  let id := TrimSpace (GetId req) in
  if (id =? "")%string then mret (Err (CodeError CodeInvalidArgument "id is required")) else
  r ← GetNotification_p P (TenantID claims) (UserID claims) id;
  match r with
  | Err err => mret (Err (ack_error "notify: ack lookup: %w" err))
  | Ok _ =>
      ms ← call (chNow h);
      e ← UpdateStatus_p P (TenantID claims) id StatusRead ms;
      mret (match e with
            | Some err => Err (ack_error "notify: ack: %w" err)
            | None => Ok mkAckNotificationResponse
            end)
  end.

Definition AckDataChange_p (claims : Claims) (req : option AckDataChangeRequest)
    : Prog W (result error AckDataChangeResponse) :=
  call (AckDataChange h (Some claims) req).

Definition RegisterPushToken_p (claims : Claims) (req : option RegisterPushTokenRequest)
    : Prog W (result error RegisterPushTokenResponse) :=
  let dt := deviceTypeFromProto (GetTokenDeviceType req) in
  if (dt =? "")%string then mret (Err (CodeError CodeInvalidArgument "device_type must be set")) else
  let token := TrimSpace (GetToken req) in
  if (token =? "")%string then mret (Err (CodeError CodeInvalidArgument "token is required")) else
  ms ← call (chNow h);
  '(_, r) ← UpsertDevice_p P (mkDevice "" (TenantID claims) (UserID claims) dt token 0 ms);
  mret (match r with
        | Err err => Err (ConnectError CodeInternal (ErrorfW "notify: upsert device: %w" [] err))
        | Ok _ => Ok mkRegisterPushTokenResponse
        end).
End client.

(** ** The RPCs with their interceptors *)

Section rpcs.
Context {X : Type} `{MapOrder} (s : Server X) (P : StoreP (Process X)).

Definition recovery_p {W A} (p : Prog W (result error A)) : Prog W (result error A) :=
  r ← p; mret (recovered r).

Definition client_p {A} (authz : string) (handler : Claims -> Prog (Process X) (result error A))
    : Prog (Process X) (result error A) :=
  recovery_p (match srvAuth s authz with
              | Err err => mret (Err err)
              | Ok claims => handler claims
              end).

(** What the internal interceptor answers itself. *)
Definition internal_refusal (header : string) : option error :=
  let token := acInternalToken (cfgAuth (srvCfg s)) in
  if (token =? "")%string then
    if acDevMode (cfgAuth (srvCfg s)) then None
    else Some (unauthenticated (ErrorsNew "internal token not configured"))
  else if (header =? "")%string then Some (unauthenticated (ErrorsNew "missing X-Notify-Internal-Token header"))
  else if negb (header =? token)%string then Some (unauthenticated (ErrorsNew "internal token mismatch"))
  else None.

Definition rpc_p (c : Rpc) : Prog (Process X) Reply :=
  match c with
  | RNotify token req =>
      r ← recovery_p (match internal_refusal token with
                      | Some err => mret (Err err)
                      | None => internal_Notify_p (srvNotifier s) P req
                      end);
      mret (ANotify r)
  | RGetNotifications authz req =>
      r ← client_p authz (fun claims => GetNotifications_p P claims req); mret (AGetNotifications r)
  | RAckNotification authz req =>
      r ← client_p authz (fun claims => AckNotification_p (srvHandler s) P claims req); mret (AAckNotification r)
  | RAckDataChange authz req =>
      r ← client_p authz (fun claims => AckDataChange_p (srvHandler s) claims req); mret (AAckDataChange r)
  | RRegisterPushToken authz req =>
      r ← client_p authz (fun claims => RegisterPushToken_p (srvHandler s) P claims req); mret (ARegisterPushToken r)
  end.
End rpcs.
