(* ===== verification/Rely.v ===== *)
(** * Rely-guarantee for programs that share a store

    [rel] is what every call of every RPC does to the store and what every RPC
    relies on: rows keep their content, and those of users that the running RPCs
    do not concern stay as they are.  [ok] is a postcondition that holds under such
    interference.  The store is any [Driver] of Linear.v: what its operations do
    under interference follows from the simulation there. *)

From S2P Require Import Prelude GoErrors GoStrings Model StoreSpec StoreOps Notifier Prog Linear.

(** ** Rely-guarantee *)

Section rely.
Context {W : Type} (P : StoreP W) {HD : Driver P} (allowed : string -> string -> Prop).
Implicit Types (w : W).

Local Notation rows w := (abs_rows (view (P := P) w)).
Local Notation devs w := (abs_devs (view (P := P) w)).
Local Notation whole := (whole (P := P)).
Local Notation view := (view (P := P)).

(** Devices are never lost, those of users that are not allowed are untouched,
    new ones belong to allowed users. *)
Definition dev_evolves (m m' : gmap string Device) : Prop :=
  (forall id d, m !! id = Some d -> exists d', m' !! id = Some d' /\ dkey_of d' = dkey_of d /\
     (~ allowed (dTenantID d) (dUserID d) -> d' = d)) /\
  (forall id d', m' !! id = Some d' -> m !! id = None -> allowed (dTenantID d') (dUserID d')).

Definition allowed_key (k : notifKey) : Prop := allowed (Tenant k) (User k).

(** What every call of every RPC does, and what every RPC relies on. *)
Record rel w w' : Prop := {
  rel_inv : whole w';
  rel_rows : evolves allowed_key (rows w) (rows w');
  rel_devs : dev_evolves (devs w) (devs w');
}.

Lemma dev_evolves_refl m : dev_evolves m m.
Proof. split; [eauto|]. intros id d' H1 H2. congruence. Qed.

Lemma dev_evolves_trans m1 m2 m3 : dev_evolves m1 m2 -> dev_evolves m2 m3 -> dev_evolves m1 m3.
Proof.
  intros [H1 H1'] [H2 H2']. split.
  - intros id d Hd. destruct (H1 id d Hd) as (d' & Hd' & Hk & Hs). destruct (H2 id d' Hd') as (d'' & Hd'' & Hk' & Hs').
    exists d''. split_and!; [done|congruence|]. intros Hn. rewrite Hs'; [by apply Hs|]. by rewrite Hs.
  - intros id d'' Hd'' Hd. destruct (m2 !! id) as [d'|] eqn:Hd'; [|by eapply H2'].
    destruct (H2 id d' Hd') as (d3 & Hd3 & Hk & _). assert (d3 = d'') as -> by congruence.
    injection Hk as -> -> _. by eapply H1'.
Qed.

Lemma rel_refl w : whole w -> rel w w.
Proof. intros Hi. split; [done|apply evolves_refl|apply dev_evolves_refl]. Qed.

Lemma rel_trans w1 w2 w3 : rel w1 w2 -> rel w2 w3 -> rel w1 w3.
Proof. intros [_ ? ?] [? ? ?]. split; [done|by eapply evolves_trans|by eapply dev_evolves_trans]. Qed.

(** A call that leaves the store alone. *)
Definition quiet {A} (m : M W A) : Prop := forall w, whole w -> let w' := (m w).1 in view w' = view w /\ whole w'.

Lemma rel_quiet w w' : view w' = view w -> whole w' -> rel w w'.
Proof. intros Hv Hi. split; [done|rewrite Hv; apply evolves_refl|rewrite Hv; apply dev_evolves_refl]. Qed.

(** From [w], and under interference, [p] does what it may and returns [Q]. *)
Fixpoint ok {A} (Q : A -> W -> Prop) (p : Prog W A) w : Prop :=
  match p with
  | Ret a => forall w0, rel w w0 -> Q a w0
  | Do m k => forall w0, rel w w0 -> let '(w', b) := m w0 in rel w0 w' /\ ok Q (k b) w'
  end.

Lemma ok_rel {A} (Q : A -> W -> Prop) p w w' : rel w w' -> ok Q p w -> ok Q p w'.
Proof.
  intros Hr. destruct p as [a|B m k]; cbn; intros Hok w0 Hw0; apply Hok; by eapply rel_trans.
Qed.

Lemma ok_mono {A} (Q Q' : A -> W -> Prop) p : forall w,
  ok Q p w -> (forall a w', rel w w' -> Q a w' -> Q' a w') -> ok Q' p w.
Proof.
  induction p as [a|B m k IH]; intros w Hok HQ; cbn in *; intros w0 Hw0; [by apply HQ, Hok|].
  specialize (Hok w0 Hw0). destruct (m w0) as [w' b]. destruct Hok as [Hr Hok]. split; [done|].
  apply IH; [done|]. intros a w2 Hr2. apply HQ. eapply rel_trans; [exact Hw0|]. by eapply rel_trans.
Qed.

Lemma ok_stable {A} (Q : A -> W -> Prop) p : forall w,
  ok Q p w -> ok (fun a w' => forall w0, rel w' w0 -> Q a w0) p w.
Proof.
  induction p as [a|B m k IH]; intros w Hok; cbn in *; intros w0 Hw0; [intros w1 Hw1; apply Hok; by eapply rel_trans|].
  specialize (Hok w0 Hw0). destruct (m w0) as [w' b]. destruct Hok as [Hr Hok]. split; [done|]. by apply IH.
Qed.

Lemma ok_bind {A B} (Q : B -> W -> Prop) p (f : A -> Prog W B) : forall w, whole w ->
  ok (fun a w => ok Q (f a) w) p w -> ok Q (p ≫= f) w.
Proof.
  induction p as [a|C m k IH]; intros w Hi Hok; cbn in *; [by apply Hok, rel_refl|].
  intros w0 Hw0. specialize (Hok w0 Hw0). destruct (m w0) as [w' b]. destruct Hok as [Hr Hok].
  split; [done|]. apply IH; [apply Hr|done].
Qed.

Lemma ok_ret {A} (Q : A -> W -> Prop) a w : (forall w0, rel w w0 -> Q a w0) -> ok Q (Ret a) w.
Proof. done. Qed.

(** A call, and what follows under further interference. *)
Lemma ok_do {A B} (Q : A -> W -> Prop) (m : M W B) (k : B -> Prog W A) w :
  (forall w0, rel w w0 -> let '(w', b) := m w0 in rel w0 w' /\ ok Q (k b) w') -> ok Q (Do m k) w.
Proof. done. Qed.

Lemma ok_quiet {A B} (Q : A -> W -> Prop) (m : M W B) (k : B -> Prog W A) w :
  quiet m -> (forall b w', rel w w' -> ok Q (k b) w') -> ok Q (Do m k) w.
Proof.
  intros Hm Hk w0 Hw0. specialize (Hm w0 (rel_inv _ _ Hw0)). destruct (m w0) as [w' b]. destruct Hm as (Hv & Hi).
  assert (rel w0 w') by (by apply rel_quiet). split; [done|]. apply Hk. by eapply rel_trans.
Qed.

(** ** The pool *)

Lemma run_ok {A} (Q : A -> W -> Prop) p : forall w, whole w -> ok Q p w ->
  let '(w', a) := run p w in rel w w' /\ forall w0, rel w' w0 -> Q a w0.
Proof.
  induction p as [a|B m k IH]; intros w Hi Hok; cbn; [by split; [apply rel_refl|]|].
  specialize (Hok w (rel_refl w Hi)). destruct (m w) as [w1 b]. destruct Hok as [Hr Hok].
  specialize (IH b w1 (rel_inv _ _ Hr) Hok). destruct (run (k b) w1) as [w2 a]. destruct IH as [Hr2 HQ].
  split; [by eapply rel_trans|done].
Qed.

(** Every program of the pool is fine, each with its own postcondition. *)
Definition pool_ok {A C} (Q : C -> A -> W -> Prop) (cs : list C) (ps : list (Prog W A)) w : Prop :=
  Forall2 (fun c p => ok (Q c) p w) cs ps.

Lemma pool_rel {A C} (Q : C -> A -> W -> Prop) cs ps w w' : rel w w' -> pool_ok Q cs ps w -> pool_ok Q cs ps w'.
Proof. intros Hr Hp. eapply Forall2_impl; [exact Hp|]. intros c p. by apply ok_rel. Qed.

Lemma run_all_ok {A C} (Q : C -> A -> W -> Prop) cs : forall ps w, whole w -> pool_ok Q cs ps w ->
  let '(w', l) := run_all ps w in rel w w' /\ forall w0, rel w' w0 -> Forall2 (fun c a => Q c a w0) cs l.
Proof.
  induction cs as [|c cs IH]; intros ps w Hi Hp.
  { apply Forall2_nil_inv_l in Hp as ->. split; [by apply rel_refl|]. intros w0 _. apply Forall2_nil_2. }
  apply Forall2_cons_inv_l in Hp as (p & ps' & Hok & Hrest & ->). cbn [run_all]. unfold_M.
  pose proof (run_ok _ p w Hi Hok) as H1. destruct (run p w) as [w1 a]. destruct H1 as [Hr1 HQ].
  specialize (IH ps' w1 (rel_inv _ _ Hr1) (pool_rel _ _ _ _ _ Hr1 Hrest)). destruct (run_all ps' w1) as [w2 as_].
  destruct IH as [Hr2 HQs]. split; [by eapply rel_trans|]. intros w0 Hw0. apply Forall2_cons_2; [|by apply HQs].
  apply HQ. by eapply rel_trans.
Qed.

Lemma interleave_ok {A C} (Q : C -> A -> W -> Prop) cs sched : forall ps w, whole w -> pool_ok Q cs ps w ->
  let '(w', l) := interleave sched ps w in rel w w' /\ Forall2 (fun c a => Q c a w') cs l.
Proof.
  induction sched as [|i sched IH]; intros ps w Hi Hp; cbn [interleave].
  { pose proof (run_all_ok Q cs ps w Hi Hp) as H1. destruct (run_all ps w) as [w' l]. destruct H1 as [Hr HQ].
    split; [done|]. apply HQ, rel_refl, Hr. }
  destruct (ps !! i) as [[a|B m k]|] eqn:Hpi; [by apply IH| |by apply IH].
  destruct (Forall2_lookup_r _ _ _ _ _ Hp Hpi) as (c & Hci & Hok).
  specialize (Hok w (rel_refl w Hi)). destruct (m w) as [w1 b]. destruct Hok as [Hr Hok].
  specialize (IH (<[i := k b]> ps) w1 (rel_inv _ _ Hr)).
  destruct (interleave sched (<[i := k b]> ps) w1) as [w2 l]. destruct IH as [Hr2 HQ].
  - rewrite <- (list_insert_id cs i c) by done. apply Forall2_insert; [|exact Hok]. by apply (pool_rel _ _ _ w).
  - split; [by eapply rel_trans|done].
Qed.

#[local] Arguments ok : simpl never.

(** ** What the operations of a driver do *)

Implicit Types (a : AbsStore).

Definition arel a a' : Prop :=
  evolves allowed_key (abs_rows a) (abs_rows a') /\ dev_evolves (abs_devs a) (abs_devs a').

Lemma arel_refl a : arel a a.
Proof. split; [apply evolves_refl|apply dev_evolves_refl]. Qed.

Lemma arel_trans a1 a2 a3 : arel a1 a2 -> arel a2 a3 -> arel a1 a3.
Proof. intros [? ?] [? ?]. split; [by eapply evolves_trans|by eapply dev_evolves_trans]. Qed.

Lemma rel_arel w w' : rel w w' <-> whole w' /\ arel (view w) (view w').
Proof. split; [by intros [? ? ?]|by intros [? [? ?]]]. Qed.

Lemma rel_rely w w' : rel w w' -> rely view whole w w'.
Proof.
  intros [Hi [Hr _] [Hd _]]. split; [done|]. split.
  - intros id r Hrow. destruct (Hr id r Hrow) as (r' & Hr' & Hc & _). exists r'. split; [done|]. by apply key_of_content.
  - intros id d Hdev. destruct (Hd id d Hdev) as (d' & Hd' & Hk & _). by exists d'.
Qed.

(** The abstract calls that a caller may make: writes of allowed users only. *)
Definition permitted a0 (e : Event) : Prop :=
  match e.1 with
  | OpCreate n => allowed (nTenantID n) (nUserID n)
  | OpUpdate _ id _ _ => exists r, abs_rows a0 !! id = Some r /\ allowed_key (key_of r)
  | OpUpsert d => allowed (dTenantID d) (dUserID d)
  | _ => True
  end.

Lemma dev_evolves_insert (m : gmap string Device) id d : allowed (dTenantID d) (dUserID d) ->
  (forall d0, m !! id = Some d0 -> dkey_of d = dkey_of d0) -> dev_evolves m (<[id := d]> m).
Proof.
  intros Ha Hold. split.
  - intros i y Hy. destruct (decide (i = id)) as [->|Hne]; [|exists y; by rewrite lookup_insert_ne].
    exists d. rewrite lookup_insert_eq. pose proof (Hold y Hy) as Hk. split_and!; [done|done|]. intros Hna. exfalso.
    apply Hna. injection Hk as Ht Hu _. by rewrite <- Ht, <- Hu.
  - intros i y. rewrite lookup_insert_Some. intros [[<- <-]|[_ Hy]] Hnone; [done|congruence].
Qed.

Lemma permitted_step a0 a e a' : arel a0 a -> permitted a0 e -> spec_step a e a' -> arel a a'.
Proof.
  intros Hr Hp Hs. destruct Hs as [a n id Habs Hnew Hne|a n id r Hrow Hk|a t u id r Hrow Ho|a t u id Hno
    |a t id r st ms Hrow Ht|a t id st ms Hno|a q items cursor unread Hq|a d id Habs Hnew Hne|a d id d0 Hd Hk|a t u out Hl];
    try apply arel_refl; cbn in Hp.
  - split; cbn; [by apply evolves_insert_new|apply dev_evolves_refl].
  - split; cbn; [|apply dev_evolves_refl]. apply evolves_insert_same; [done|]. destruct Hp as (r0 & Hr0 & Ha).
    destruct Hr as [[Hev _] _]. destruct (Hev id r0 Hr0) as (r1 & Hr1 & Hc & _). assert (r1 = r) as -> by congruence.
    by rewrite (key_of_content r r0).
  - split; cbn; [apply evolves_refl|]. apply dev_evolves_insert; [done|]. intros d0 Hd0. congruence.
  - split; cbn; [apply evolves_refl|]. injection Hk as Ht Hu Hty. apply dev_evolves_insert; [cbn; by rewrite Ht, Hu|].
    intros d1 Hd1. assert (d1 = d0) as -> by congruence. done.
Qed.

(** The call [e] was made after the store was [a0] and before it is [a']. *)
Definition happened a0 a' (e : Event) : Prop :=
  exists a1 a2, abs_ok a1 /\ arel a0 a1 /\ spec_step a1 e a2 /\ arel a2 a'.

Lemma happened_later a0 w w' h : rel w w' -> Forall (happened a0 (view w)) h -> Forall (happened a0 (view w')) h.
Proof.
  intros [_ Hr]%rel_arel Hh. eapply Forall_impl; [exact Hh|]. intros e (a1 & a2 & Hok & H0 & Hs & Ha).
  exists a1, a2. split_and!; [done..|]. by eapply arel_trans.
Qed.

Lemma permitted_steps a0 a h a' : abs_ok a -> arel a0 a -> Forall (permitted a0) h -> steps spec_step a h a' ->
  arel a a' /\ Forall (happened a0 a') h.
Proof.
  intros Hok Hr Hp Hs. induction Hs as [a|a e a1 h a2 Hs _ IH]; [split; [apply arel_refl|constructor]|].
  apply Forall_cons in Hp as [Hp Hps]. pose proof (permitted_step a0 a e a1 Hr Hp Hs) as Hr1.
  destruct IH as [Hr2 Hh]; [by eapply spec_step_ok|by eapply arel_trans|done|]. split; [by eapply arel_trans|].
  constructor; [|done]. by exists a, a1.
Qed.

(** A simulated program of permitted calls is fine. *)
Lemma emits_ok {A} (p : Prog W A) a0 : forall Q w, whole w -> emits view whole p Q w ->
  arel a0 (view w) -> (forall h x, Q h x -> Forall (permitted a0) h) ->
  ok (fun x w' => exists h, Q h x /\ Forall (happened a0 (view w')) h) p w.
Proof.
  induction p as [x|B m k IH]; intros Q w Hi He Ha Hperm; [intros w0 _; by exists []|].
  intros w0 Hw0. specialize (He w0 (rel_rely _ _ Hw0)). apply rel_arel in Hw0 as [Hi0 Hw0].
  destruct (m w0) as [w1 b]. destruct He as [Hi1 (h & Hs & He)].
  destruct (emits_total _ _ _ _ _ Hi1 He) as (h' & x & HQ). apply Hperm, Forall_app in HQ as [Hp _].
  pose proof (arel_trans _ _ _ Ha Hw0) as Ha0.
  destruct (permitted_steps a0 (view w0) h (view w1) (driver_ok w0 Hi0) Ha0 Hp Hs) as [Hr Hh].
  split; [by apply rel_arel|]. eapply ok_mono; [apply IH; [done|exact He|by eapply arel_trans|]|].
  - intros h2 y Hy. apply Hperm, Forall_app in Hy as [_ Hy]. exact Hy.
  - intros y w2 Hr2 (h2 & Hy & Hh2). exists (h ++ h2). split; [done|]. apply Forall_app. split; [by eapply happened_later|done].
Qed.

(** *** One by one *)

Lemma consists_permitted a0 op h out : permitted a0 (op, out) -> consists op h out -> Forall (permitted a0) h.
Proof.
  assert (Hreads : forall hs, Forall only_reads hs -> Forall (permitted a0) hs).
  { intros hs Hr. eapply Forall_impl; [exact Hr|]. intros [o x]. unfold only_reads, permitted. cbn. by destruct o. }
  intros Hp Hc. destruct op; cbn in Hc.
  - subst. by constructor.
  - subst. by constructor.
  - subst. by constructor.
  - destruct Hc as (? & ? & ? & _ & Hr & _). by apply Hreads.
  - destruct Hc as (? & ? & hs & -> & Hr & _). constructor; [exact Hp|by apply Hreads].
  - by apply Hreads.
Qed.

Lemma op_ok op w : whole w -> op_fits fits legible op -> permitted (view w) (op, OutUpdate None) ->
  ok (fun out w' => exists h, (consists op h out /\ id_legible legible out) /\ Forall (happened (view w) (view w')) h) (op_p P op) w.
Proof.
  intros Hi Hp Hperm. eapply emits_ok; [done|by apply driver_op|apply arel_refl|].
  intros h out [Hc _]. eapply consists_permitted; [|exact Hc]. exact Hperm.
Qed.

(** Drops the wrapping of an answer. *)
Lemma ok_unwrap {A B} (p : Prog W A) (g : A -> Prog W B) (f : A -> B) Q :
  (forall x, g x = Ret (f x)) -> forall w, ok Q (p ≫= g) w -> ok (fun x w' => Q (f x) w') p w.
Proof.
  intros Hg. induction p as [x|C m k IH]; intros w Hok.
  - intros w0 Hw0. cbn in Hok. rewrite Hg in Hok. by apply Hok.
  - intros w0 Hw0. specialize (Hok w0 Hw0). destruct (m w0) as [w1 c]. destruct Hok as [Hr Hok]. split; [done|by apply IH].
Qed.

Definition has_row (id : string) (k : notifKey) w : Prop := exists r, rows w !! id = Some r /\ key_of r = k.

Lemma has_row_rel id k w w' : rel w w' -> has_row id k w -> has_row id k w'.
Proof.
  intros [_ [Hev _] _] (r & Hr & Hk). destruct (Hev id r Hr) as (r' & Hr' & Hc & _). exists r'.
  split; [done|]. by rewrite (key_of_content r' r).
Qed.

Lemma has_row_present id k w : has_row id k w -> present (rows w) k.
Proof. intros (r & Hr & Hk). by exists id, r. Qed.

(** A row that the abstract store had is there. *)
Lemma arel_row a w id r : arel a (view w) -> abs_rows a !! id = Some r ->
  exists r', rows w !! id = Some r' /\ content r' = content r.
Proof. intros [[Hev _] _] Hr. destruct (Hev id r Hr) as (r' & Hr' & Hc & _). by exists r'. Qed.

Lemma rely_create n w : whole w -> op_fits fits legible (OpCreate n) -> allowed (nTenantID n) (nUserID n) ->
  ok (fun out w' => exists c, out.2 = Ok c /\ legible (nID out.1) /\ has_row (nID out.1) (key_of n) w') (CreateNotification_p P n) w.
Proof.
  intros Hi Hf Ha. pose proof (op_ok (OpCreate n) w Hi Hf Ha) as Hop.
  apply (ok_unwrap _ _ (fun x => OutCreate (nID x.1) x.2)) in Hop; [|by intros []].
  eapply ok_mono; [exact Hop|]. intros [n' r] w' _ (h & [-> Hleg] & Hh).
  apply Forall_singleton in Hh as (a1 & a2 & _ & _ & Hs & Hr).
  assert (Hrow : exists c r0, r = Ok c /\ abs_rows a2 !! nID n' = Some r0 /\ key_of r0 = key_of n).
  { cbn in Hs. inversion Hs; subst; [exists true, (set_nID (nID n') n)|exists false, r0]; (split; [done|]); cbn;
      by rewrite ?lookup_insert_eq. }
  destruct Hrow as (c & r0 & -> & Hr0 & Hk). exists c. split_and!; [done|done|].
  destruct (arel_row a2 w' _ r0 Hr Hr0) as (r' & Hr' & Hc). exists r'. split; [done|]. by rewrite (key_of_content r' r0).
Qed.

(** Writing the status of a row that is there never fails. *)
Lemma rely_update t id st ms k w : whole w -> op_fits fits legible (OpUpdate t id st ms) -> has_row id k w -> Tenant k = t -> allowed_key k ->
  ok (fun e w' => e = None) (UpdateStatus_p P t id st ms) w.
Proof.
  intros Hi Hf (r & Hr & Hk) Ht Ha.
  pose proof (op_ok (OpUpdate t id st ms) w Hi Hf ltac:(exists r; split; [done|by rewrite Hk])) as Hop.
  apply (ok_unwrap _ _ OutUpdate) in Hop; [|done].
  eapply ok_mono; [exact Hop|]. intros e w' _ (h & [-> _] & Hh).
  apply Forall_singleton in Hh as (a1 & a2 & _ & [[Hev _] _] & Hs & _).
  destruct (Hev id r Hr) as (r1 & Hr1 & Hc & _). inversion Hs as [| | | | |a t' id' st' ms' Hno| | | |]; subst; [done|].
  destruct (Hno r1 Hr1). exact (f_equal Tenant (key_of_content r1 r Hc)).
Qed.

(** Looking a row up. *)
Lemma rely_get t u id w : whole w -> op_fits fits legible (OpGet t u id) ->
  ok (fun r w' => match r with
                  | Ok row => has_row id (key_of row) w' /\ owned t u row
                  | Err _ => r = Err ErrNotFound /\ forall row, rows w !! id = Some row -> ~ owned t u row
                  end) (GetNotification_p P t u id) w.
Proof.
  intros Hi Hf. pose proof (op_ok (OpGet t u id) w Hi Hf I) as Hop. apply (ok_unwrap _ _ OutGet) in Hop; [|done].
  eapply ok_mono; [exact Hop|]. intros r w' _ (h & [-> _] & Hh).
  apply Forall_singleton in Hh as (a1 & a2 & _ & [[Hev _] _] & Hs & Hr).
  inversion Hs as [| |a t' u' id' row Hrow Ho|a t' u' id' Hno| | | | | |]; subst.
  - split; [|done]. destruct (arel_row a2 w' id row Hr Hrow) as (r' & Hr' & Hc). exists r'. split; [done|]. by apply key_of_content.
  - split; [done|]. intros row Hrow Ho. destruct (Hev id row Hrow) as (r1 & Hr1 & Hc & _). apply (Hno r1 Hr1).
    pose proof (key_of_content r1 row Hc) as Hk. injection Hk as Ht Hu _. destruct Ho. split; congruence.
Qed.

(** A page shows rows of the user that are there. *)
Lemma rely_query q w : whole w -> op_fits fits legible (OpQuery q) ->
  ok (fun r w' => exists items cursor unread, r = Ok (items, cursor, unread) /\
        forall n, n ∈ items -> exists row, rows w' !! nID n = Some row /\ owned (qTenantID q) (qUserID q) row)
    (QueryUserNotifications_p P q) w.
Proof.
  intros Hi Hf. pose proof (op_ok (OpQuery q) w Hi Hf I) as Hop. apply (ok_unwrap _ _ OutQuery) in Hop; [|done].
  eapply ok_mono; [exact Hop|]. intros r w' _ (h & [(items & cursor & unread & Hout & _ & Hshow) _] & Hh).
  injection Hout as ->. exists items, cursor, unread. split; [done|]. intros n Hn.
  specialize (Hshow n Hn). apply Exists_exists in Hshow as (e & He & Hshow).
  rewrite Forall_forall in Hh. destruct (Hh e He) as (a1 & a2 & Hok & _ & Hs & Hr).
  assert (Hrow : abs_rows a2 !! nID n = Some n /\ owned (qTenantID q) (qUserID q) n).
  { destruct Hshow as [(items' & c' & u' & -> & Hn')| -> ].
    - assert (Hpage : is_page q (abs_rows a2) items' c' u') by by inversion Hs.
      assert (a2 = a1) as -> by by inversion Hs. destruct (is_page_elem _ _ _ _ _ _ Hpage Hn') as ([id Hid] & Ho & _). split; [|done].
      by rewrite (proj1 Hok id n Hid).
    - by inversion Hs. }
  destruct Hrow as [Hrow Ho]. destruct (arel_row a2 w' _ n Hr Hrow) as (r' & Hr' & Hc). exists r'. split; [done|].
  pose proof (key_of_content r' n Hc) as Hk. injection Hk as Ht Hu _. destruct Ho. split; congruence.
Qed.

Lemma rely_upsert d w : whole w -> op_fits fits legible (OpUpsert d) -> allowed (dTenantID d) (dUserID d) ->
  ok (fun out w' => exists d', out.2 = Ok d' /\ exists id x, devs w' !! id = Some x /\ dkey_of x = dkey_of d)
    (UpsertDevice_p P d) w.
Proof.
  intros Hi Hf Ha. pose proof (op_ok (OpUpsert d) w Hi Hf Ha) as Hop.
  apply (ok_unwrap _ _ (fun x => OutUpsert x.2)) in Hop; [|by intros []].
  eapply ok_mono; [exact Hop|]. intros [d' r] w' _ (h & [(d1 & d2 & hs & -> & _ & Hout) _] & Hh).
  injection Hout as ->. exists d2. split; [done|].
  apply Forall_cons in Hh as [(a1 & a2 & _ & _ & Hs & [_ [Hev _]]) _].
  assert (Hdev : exists id x, abs_devs a2 !! id = Some x /\ dkey_of x = dkey_of d).
  { inversion Hs as [ | | | | | | |a d3 id Habs Hnew Hne|a d3 id d0 Hd0 Hk| ]; subst; cbn;
      [exists id, (set_dID id d)|exists id, (rotate d0 d)]; by rewrite lookup_insert_eq. }
  destruct Hdev as (id & x & Hx & Hk). destruct (Hev id x Hx) as (x' & Hx' & Hk' & _). exists id, x'. split; [done|congruence].
Qed.
End rely.
Arguments ok : simpl never.
