(* ===== verification/Drivers.v ===== *)
(** * The database drivers, round trip by round trip

    An operation of the EntDB and Postgres drivers is one or more round trips, and
    those of other callers fall in between.  Here every operation is a [Prog] whose
    nodes are its round trips; alone it is the operation of Entdb.v or Postgres.v. *)

From S2P Require Import Prelude GoErrors GoStrings Model StoreSpec StoreOps Memory Entdb Postgres Prog.

(** ** store/entdb *)

Section entdb.
Context {E : Type} (sdk : SDK E) (tenant : string).

Definition ent_CreateNotification_p (n : Notification) : Prog E (Notification * result error bool) :=
  let actor := notifActor (nUserID n) in
  r ← call (commitCreate sdk tenant actor (MNotification (notificationToProto n)));
  match r with
  | Ok canonicalID => mret (set_nID canonicalID n, Ok true)
  | Err err =>
      if negb (is_unique_constraint err) then mret (n, Err err) else
      let key := notificationCompositeKey (nTenantID n) (nUserID n) (nNotificationID n) in
      f ← call (findNotificationByKey sdk tenant actor key);
      mret (match f with
            | Err ferr => (n, Err ferr)
            | Ok existingID =>
                if (existingID =? "")%string
                then (n, Err (Errorf "entdb: unique constraint hit but key %q not resolvable" [FStr key]))
                else (set_nID existingID n, Ok false)
            end)
  end.

Definition ent_GetNotification_p (tenantID userID id : string) : Prog E (result error Notification) :=
  let check got :=
    if negb (unTenantId got =? tenantID)%string || negb (unUserId got =? userID)%string
    then Err ErrNotFound else Ok (notificationFromProto id got) in
  r ← call (getUserNotification sdk tenant (notifActor userID) id);
  match r with
  | Err err => mret (Err err)
  | Ok (Some got) => mret (check got)
  | Ok None =>
      r ← call (getUserNotification sdk tenant systemActor id);
      mret (match r with
            | Err err => Err err
            | Ok None => Err ErrNotFound
            | Ok (Some got) => check got
            end)
  end.

Definition ent_UpdateStatus_p (tenantID id : string) (status : DeliveryStatus) (atMS : Z)
    : Prog E (option error) :=
  r ← call (getUserNotification sdk tenant systemActor id);
  match r with
  | Err err => mret (Some err)
  | Ok None => mret (Some ErrNotFound)
  | Ok (Some got) =>
      if negb (unTenantId got =? tenantID)%string then mret (Some ErrNotFound) else
      let '(patch, fields) := status_patch status atMS in
      call (commitUpdateFields sdk tenant (notifActor (unUserId got)) id (MNotification patch) fields)
  end.

Fixpoint node_loop_p {N A : Type} (read : option string -> Prog E (result error N)) (f : A -> N -> A)
    (nodes : list (option string)) (acc : A) : Prog E (result error A) :=
  match nodes with
  | [] => mret (Ok acc)
  | node :: nodes =>
      r ← read node;
      match r with
      | Err err => mret (Err err)
      | Ok msg => node_loop_p read f nodes (f acc msg)
      end
  end.

(** The re-read of one node of a query. *)
Definition unmarshalNotification_p (actor : string) (node : option string)
    : Prog E (result error (string * option UserNotification)) :=
  match node with
  | None => mret (Ok ("", None))
  | Some nodeID =>
      r ← call (getUserNotification sdk tenant actor nodeID);
      mret (match r with Err err => Err err | Ok msg => Ok (nodeID, msg) end)
  end.

Definition unmarshalDevice_p (actor : string) (node : option string)
    : Prog E (result error (string * option DeviceRegistration)) :=
  match node with
  | None => mret (Ok ("", None))
  | Some nodeID =>
      r ← call (getDevice sdk tenant actor nodeID);
      mret (match r with Err err => Err err | Ok msg => Ok (nodeID, msg) end)
  end.

Definition ent_QueryUserNotifications_p (q : Query) : Prog E (result error (list Notification * string * Z)) :=
  let limit := ClampLimit (qLimit q) in
  r ← call (queryUserNotifications sdk tenant systemActor (qTenantID q) (qUserID q));
  match r with
  | Err err => mret (Err err)
  | Ok nodes =>
      r ← node_loop_p (unmarshalNotification_p systemActor) (ent_query_step q) nodes ([], 0);
      mret (match r with
            | Err err => Err err
            | Ok (rows, unread) =>
                let rows := sort_slice newer (rev rows) in
                if limit <? Z.of_nat (length rows) then
                  let page := take (Z.to_nat limit) rows in
                  Ok (page, match last page with Some n => FormatInt (nCreatedAtMS n) | None => "" end, unread)
                else Ok (rows, "", unread)
            end)
  end.

Definition readDeviceBack_p (actor id : string) (fallback : Device) : Prog E (result error Device) :=
  r ← call (getDevice sdk tenant actor id);
  mret (match r with
        | Err err => Err err
        | Ok None => Ok (set_dID id fallback)
        | Ok (Some got) => Ok (deviceFromProto id got)
        end).

Definition ent_UpsertDevice_p (d : Device) : Prog E (Device * result error Device) :=
  let actor := notifActor (dUserID d) in
  r ← call (commitCreate sdk tenant actor (MDevice (deviceToProto d)));
  match r with
  | Ok canonicalID =>
      let d := set_dID canonicalID d in
      r ← readDeviceBack_p actor canonicalID d;
      mret (d, r)
  | Err err =>
      if negb (is_unique_constraint err) then mret (d, Err err) else
      let key := deviceCompositeKey (dTenantID d) (dUserID d) (dDeviceType d) in
      f ← call (findDeviceByKey sdk tenant actor key);
      match f with
      | Err ferr => mret (d, Err ferr)
      | Ok existingID =>
          if (existingID =? "")%string
          then mret (d, Err (Errorf "entdb: UpsertDevice: unique constraint hit but key %q not resolvable"
                               [FStr key]))
          else
            let patch := mkDeviceRegistration "" "" "" (dToken d) 0 (dLastActiveMS d) "" in
            e ← call (commitUpdateFields sdk tenant actor existingID (MDevice patch) ["token"; "last_active_ms"]);
            match e with
            | Some err => mret (d, Err err)
            | None => r ← readDeviceBack_p actor existingID d; mret (d, r)
            end
      end
  end.

Definition ent_ListDevices_p (tenantID userID : string) : Prog E (result error (list Device)) :=
  r ← call (queryDevices sdk tenant systemActor tenantID userID);
  match r with
  | Err err => mret (Err err)
  | Ok nodes =>
      r ← node_loop_p (unmarshalDevice_p systemActor) (ent_list_step tenantID userID) nodes [];
      mret (match r with Err err => Err err | Ok out => Ok (sort_slice dev_before out) end)
  end.

Definition EntdbStoreP : StoreP E :=
  mkStoreP ent_CreateNotification_p ent_GetNotification_p ent_UpdateStatus_p ent_QueryUserNotifications_p
    ent_UpsertDevice_p ent_ListDevices_p.
End entdb.

(** ** store/postgres

    One statement is one round trip; the uuid is drawn in the process and belongs
    to the statement that carries it. *)

Section postgres.
Context {D : Type} (pool : Pool D) (newUUID : M D string).

Definition pg_CreateNotification_p (n : Notification) : Prog D (Notification * result error bool) :=
  '(n, r) ← call (id ← assign_id newUUID (nID n);
                  let n := set_nID id n in
                  r ← query_scan pool (scan_text pool) insertSQL (notification_args n); mret (n, r));
  match r with
  | Ok insertedID => mret (set_nID insertedID n, Ok true)
  | Err err =>
      if bool_decide (err.1 = ExtNoRows) then
        e ← call (query_scan pool (scan_text pool) existingSQL
                    [PText (nTenantID n); PText (nUserID n); PText (nNotificationID n)]);
        mret (match e with
              | Err err => (n, Err (ErrorfW "postgres: select existing notification: %w" [] (pg_error err)))
              | Ok existingID => (set_nID existingID n, Ok false)
              end)
      else if isUniqueViolation (pg_error err)
      then mret (n, Err (ErrorfW "postgres: insert notification: %w" [] ErrConflict))
      else mret (n, Err (ErrorfW "postgres: insert notification: %w" [] (pg_error err)))
  end.

(** The page and the unread count are two statements. *)
Definition pg_QueryUserNotifications_p (q : Query) : Prog D (result error (list Notification * string * Z)) :=
  let limit := ClampLimit (qLimit q) in
  let '(sel, args) := page_query q limit in
  r ← call (pgQuery pool sel args);
  match r with
  | Err err => mret (Err (ErrorfW "postgres: query notifications: %w" [] (pg_error err)))
  | Ok (rows, rows_err) =>
      match scan_rows (scanNotification pool) rows [] with
      | Err err => mret (Err (ErrorfW "postgres: scan notification: %w" [] (pg_error err)))
      | Ok items =>
          match rows_err with
          | Some err => mret (Err (ErrorfW "postgres: iterate notifications: %w" [] (pg_error err)))
          | None =>
              let '(items, nextCursor) :=
                if limit <? Z.of_nat (length items) then
                  let page := take (Z.to_nat limit) items in
                  (page, match last page with Some n => FormatInt (nCreatedAtMS n) | None => "" end)
                else (items, "") in
              c ← call (query_scan pool (scan_int pool) countSQL [PText (qTenantID q); PText (qUserID q)]);
              mret (match c with
                    | Err err => Err (ErrorfW "postgres: count unread: %w" [] (pg_error err))
                    | Ok unread => Ok (items, nextCursor, unread)
                    end)
          end
      end
  end.

(** The other operations are one statement each. *)
Definition PostgresStoreP : StoreP D :=
  mkStoreP pg_CreateNotification_p
    (fun t u id => call (pg_GetNotification pool t u id))
    (fun t id st ms => call (pg_UpdateStatus pool t id st ms))
    pg_QueryUserNotifications_p
    (fun d => call (pg_UpsertDevice pool newUUID d))
    (fun t u => call (pg_ListDevices pool t u)).
End postgres.

(** ** Alone, they are the operations *)

Section ent_alone.
Context {E : Type} (sdk : SDK E) (tenant : string).

Lemma run_ent_create n e : run (ent_CreateNotification_p sdk tenant n) e = ent_CreateNotification sdk tenant n e.
Proof.
  unfold ent_CreateNotification_p, ent_CreateNotification, call. unfold_M. cbn.
  destruct (commitCreate _ _ _ _ e) as [e1 [id|err]]; cbn; [done|]. destruct (is_unique_constraint err); cbn; [|done].
  by destruct (findNotificationByKey _ _ _ _ e1).
Qed.

Lemma run_ent_get t u id e : run (ent_GetNotification_p sdk tenant t u id) e = ent_GetNotification sdk tenant t u id e.
Proof.
  unfold ent_GetNotification_p, ent_GetNotification, call. unfold_M. cbn -[getUserNotification].
  destruct (getUserNotification _ _ _ id e) as [e1 [[got|]|err]]; done.
Qed.

Lemma run_ent_update t id st ms e : run (ent_UpdateStatus_p sdk tenant t id st ms) e = ent_UpdateStatus sdk tenant t id st ms e.
Proof.
  unfold ent_UpdateStatus_p, ent_UpdateStatus, call. unfold_M. cbn -[getUserNotification commitUpdateFields].
  destruct (getUserNotification _ _ _ id e) as [e1 [[got|]|err]]; try done. cbn -[commitUpdateFields].
  destruct (_ =? _)%string; [|done]. cbn -[commitUpdateFields]. destruct (status_patch st ms) as [patch fields].
  cbn -[commitUpdateFields]. by destruct (commitUpdateFields _ _ _ _ _ _ e1).
Qed.

Lemma run_node_loop {N A} (read_p : option string -> Prog E (result error N)) read (f : A -> N -> A) nodes :
  (forall node e, run (read_p node) e = read node e) ->
  forall acc e, run (node_loop_p read_p f nodes acc) e = node_loop read f nodes acc e.
Proof.
  intros Hread. induction nodes as [|node nodes IH]; intros acc e; [done|]. cbn [node_loop_p node_loop].
  rewrite run_bind, Hread. unfold_M. destruct (read node e) as [e1 [msg|err]]; [apply IH|done].
Qed.

Lemma run_unmarshalNotification actor node e :
  run (unmarshalNotification_p sdk tenant actor node) e = unmarshalNotification sdk tenant actor node e.
Proof.
  destruct node as [id|]; [|done]. cbn -[getUserNotification]. unfold_M.
  by destruct (getUserNotification _ _ _ id e).
Qed.

Lemma run_unmarshalDevice actor node e :
  run (unmarshalDevice_p sdk tenant actor node) e = unmarshalDevice sdk tenant actor node e.
Proof. destruct node as [id|]; [|done]. cbn -[getDevice]. unfold_M. by destruct (getDevice _ _ _ id e). Qed.

Lemma run_ent_query q e : run (ent_QueryUserNotifications_p sdk tenant q) e = ent_QueryUserNotifications sdk tenant q e.
Proof.
  unfold ent_QueryUserNotifications_p, ent_QueryUserNotifications. rewrite run_bind, run_call. unfold_M.
  destruct (queryUserNotifications _ _ _ _ _ e) as [e1 [nodes|err]]; [|done].
  rewrite run_Prog_bind, (run_node_loop _ _ _ _ (run_unmarshalNotification systemActor)).
  by destruct (node_loop _ _ nodes _ e1).
Qed.

Lemma run_readDeviceBack actor id d e :
  run (readDeviceBack_p sdk tenant actor id d) e = readDeviceBack sdk tenant actor id d e.
Proof. unfold readDeviceBack_p, readDeviceBack, call. unfold_M. cbn -[getDevice]. by destruct (getDevice _ _ _ id e). Qed.

Lemma run_ent_upsert d e : run (ent_UpsertDevice_p sdk tenant d) e = ent_UpsertDevice sdk tenant d e.
Proof.
  unfold ent_UpsertDevice_p, ent_UpsertDevice. rewrite run_bind, run_call. unfold_M.
  destruct (commitCreate _ _ _ _ e) as [e1 [id|err]].
  - rewrite run_Prog_bind, run_readDeviceBack. by destruct (readDeviceBack _ _ _ _ _ e1).
  - destruct (is_unique_constraint err); [|done]. cbn [negb]. rewrite run_Prog_bind, run_call.
    destruct (findDeviceByKey _ _ _ _ e1) as [e2 [id|ferr]]; [|done]. destruct (_ =? _)%string; [done|].
    rewrite run_Prog_bind, run_call. destruct (commitUpdateFields _ _ _ _ _ _ e2) as [e3 [err'|]]; [done|].
    rewrite run_Prog_bind, run_readDeviceBack. by destruct (readDeviceBack _ _ _ _ _ e3).
Qed.

Lemma run_ent_list t u e : run (ent_ListDevices_p sdk tenant t u) e = ent_ListDevices sdk tenant t u e.
Proof.
  unfold ent_ListDevices_p, ent_ListDevices. rewrite run_bind, run_call. unfold_M.
  destruct (queryDevices _ _ _ _ _ e) as [e1 [nodes|err]]; [|done].
  rewrite run_Prog_bind, (run_node_loop _ _ _ _ (run_unmarshalDevice systemActor)).
  by destruct (node_loop _ _ nodes _ e1).
Qed.

#[export] Instance ent_granular : Granular (EntdbStoreP sdk tenant) (EntdbStore sdk tenant).
Proof.
  split; intros.
  - apply run_ent_create.
  - apply run_ent_get.
  - apply run_ent_update.
  - apply run_ent_query.
  - apply run_ent_upsert.
  - apply run_ent_list.
Qed.
End ent_alone.

Section pg_alone.
Context {D : Type} (pool : Pool D) (newUUID : M D string).

Lemma run_pg_create n w : run (pg_CreateNotification_p pool newUUID n) w = pg_CreateNotification pool newUUID n w.
Proof.
  unfold pg_CreateNotification_p, pg_CreateNotification, call. unfold_M. cbn.
  destruct (assign_id newUUID (nID n) w) as [w1 id]. cbn.
  destruct (query_scan _ _ _ _ w1) as [w2 [a|err]]; cbn; [done|].
  destruct (bool_decide (err.1 = ExtNoRows)); cbn; [by destruct (query_scan _ _ _ _ w2)|].
  by destruct (_ || _).
Qed.

Lemma run_pg_query q w : run (pg_QueryUserNotifications_p pool q) w = pg_QueryUserNotifications pool q w.
Proof.
  unfold pg_QueryUserNotifications_p, pg_QueryUserNotifications. destruct (page_query _ _) as [sel args].
  rewrite run_bind, run_call. unfold_M. destruct (pgQuery pool sel args w) as [w1 [[rows rows_err]|err]]; [|done].
  destruct (scan_rows _ rows []) as [items|err]; [|done]. destruct rows_err; [done|].
  destruct (if ClampLimit (qLimit q) <? _ then _ else _) as [page next]. rewrite run_Prog_bind, run_call. unfold_M.
  by destruct (query_scan _ _ _ _ w1).
Qed.

#[export] Instance pg_granular : Granular (PostgresStoreP pool newUUID) (PostgresStore pool newUUID).
Proof. split; intros; [apply run_pg_create|apply run_call|apply run_call|apply run_pg_query|apply run_call|apply run_call]. Qed.
End pg_alone.
