(* ===== verification/LinearProps.v ===== *)
(** * The database drivers under concurrency

    CreateNotification, GetNotification and UpdateStatus are linearizable in both
    drivers, and so are UpsertDevice and ListDevices in the Postgres driver.  The
    calls that are not are described by the abstract calls they consist of: a
    Postgres query takes its page and its unread count at two moments, an EntDB
    query or listing re-reads every row at a moment of its own, and an EntDB upsert
    answers what it reads back after its write. *)

From S2P Require Import Prelude GoErrors GoStrings Model StoreSpec StoreOps Memory MemoryProps Entdb EntdbProps.
From S2P Require Import Postgres PostgresProps PostgresSample Prog Drivers Linear.

(** ** Lists of rows read one by one *)

Section reads.
Context {R K : Type} (id_of : R -> string) (key : R -> K).

(** The map that a list of rows amounts to. *)
Definition map_of (l : list R) : gmap string R := list_to_map ((fun r => (id_of r, r)) <$> l).

(** A row and what it is later. *)
Definition same (r0 r : R) : Prop := id_of r = id_of r0 /\ key r = key r0.

Lemma same_ids rs0 rs : Forall2 same rs0 rs -> id_of <$> rs = id_of <$> rs0.
Proof. induction 1 as [|r0 r rs0 rs [Hid _] _ IH]; [done|]. by rewrite !fmap_cons, Hid, IH. Qed.

Lemma map_of_lookup l id r : NoDup (id_of <$> l) -> map_of l !! id = Some r <-> r ∈ l /\ id_of r = id.
Proof.
  intros Hnd. unfold map_of. rewrite <- elem_of_list_to_map.
  - rewrite list_elem_of_fmap. split; [by intros (r' & [= -> ->] & Hr)|]. intros [Hr <-]. by exists r.
  - rewrite <- list_fmap_compose. exact Hnd.
Qed.

Lemma map_of_values l : NoDup (id_of <$> l) -> (map_to_list (map_of l)).*2 ≡ₚ l.
Proof.
  intros Hnd. unfold map_of. rewrite map_to_list_to_map.
  - rewrite <- list_fmap_compose. by rewrite list_fmap_id.
  - rewrite <- list_fmap_compose. exact Hnd.
Qed.

(** Ids stand for keys, however long ago the rows were listed. *)
Lemma map_of_ok m rs0 rs : rows_ok id_of key m -> Forall (fun r => m !! id_of r = Some r) rs0 ->
  NoDup (id_of <$> rs0) -> Forall2 same rs0 rs -> rows_ok id_of key (map_of rs).
Proof.
  intros [_ Hkey] Hm Hnd Hall. assert (Hnd' : NoDup (id_of <$> rs)) by by rewrite (same_ids rs0 rs).
  assert (Hback : forall r, r ∈ rs -> exists r0, m !! id_of r = Some r0 /\ key r0 = key r).
  { intros r [i Hi]%list_elem_of_lookup. destruct (Forall2_lookup_r _ _ _ _ _ Hall Hi) as (r0 & Hr0 & [Hid Hk]).
    exists r0. rewrite Hid. split; [by eapply (Forall_lookup_1 _ _ _ _ Hm)|done]. }
  split.
  - by intros id r [_ Hid]%map_of_lookup.
  - intros i j a b [Ha <-]%map_of_lookup [Hb <-]%map_of_lookup He; [|done..].
    destruct (Hback a Ha) as (a0 & Ha0 & Hka), (Hback b Hb) as (b0 & Hb0 & Hkb). eapply Hkey; eauto. congruence.
Qed.

(** The rows with the given ids. *)
Lemma rows_with_ids (m : gmap string R) (P : R -> Prop) ids :
  (forall id r, m !! id = Some r -> id_of r = id) -> (forall id, id ∈ ids -> exists r, m !! id = Some r /\ P r) ->
  exists rs, id_of <$> rs = ids /\ Forall (fun r => m !! id_of r = Some r /\ P r) rs.
Proof.
  intros Hid. induction ids as [|id ids IH]; intros Hin; [by exists []|].
  destruct (Hin id ltac:(by left)) as (r & Hr & HP). destruct IH as (rs & <- & Hrs); [intros i Hi; apply Hin; by right|].
  pose proof (Hid id r Hr) as <-. exists (r :: rs). split; [done|]. by constructor.
Qed.
End reads.

(** ** store/entdb *)

(** What an operation of the EntDB driver answers, given the abstract calls made for it. *)
Definition ent_answers (op : StoreOp) (h : list Event) (out : StoreOut) : Prop :=
  match op with
  | OpQuery q => exists page0 reads items cursor unread,
      h = (op, OutQuery (Ok page0)) ::
          ((fun r => (OpGet (qTenantID q) (qUserID q) (nID r), OutGet (Ok r))) <$> reads) /\
      out = OutQuery (Ok (items, cursor, unread)) /\ is_page q (map_of nID reads) items cursor unread /\
      NoDup (nID <$> reads) /\ forall r, r ∈ page0.1.1 -> nID r ∈ nID <$> reads
  | OpList t u => exists devs0 reads out',
      h = (op, OutList (Ok devs0)) :: ((fun x => (op, OutList (Ok x.2))) <$> reads) /\
      out = OutList (Ok out') /\ is_device_list t u (map_of dID reads.*1) out' /\
      Forall (fun x => x.1 ∈ x.2) reads /\ dID <$> reads.*1 ≡ₚ dID <$> devs0
  | OpUpsert d => exists d1 devs d2,
      h = [(op, OutUpsert (Ok d1)); (OpList (dTenantID d) (dUserID d), OutList (Ok devs))] /\
      out = OutUpsert (Ok d2) /\ d2 ∈ devs /\ dID d2 = dID d1
  | _ => exact op h out
  end.

Section entdb.
Context {E : Type} (sdk : SDK E) (tenant : string) {HL : EntdbLaws sdk tenant}.

Local Notation ent_inv := (ent_inv sdk tenant).
Local Notation ent_rows := (ent_rows sdk tenant).
Local Notation ent_devs := (ent_devs sdk tenant).

Definition ent_view (e : E) : AbsStore := mkAbs (ent_rows e) (ent_devs e).

Local Notation emits := (emits ent_view ent_inv).
Local Notation rely := (rely ent_view ent_inv).

Lemma view_nodes e e' : nodes e' = nodes e -> ent_view e' = ent_view e.
Proof. intros [Hr Hd]%same_nodes. unfold ent_view. by rewrite Hr, Hd. Qed.

Lemma rely_row e e' id r : rely e e' -> ent_rows e !! id = Some r ->
  exists r', ent_rows e' !! id = Some r' /\ key_of r' = key_of r.
Proof. intros [_ [Hr _]]. apply Hr. Qed.

Lemma rely_dev e e' id d : rely e e' -> ent_devs e !! id = Some d ->
  exists d', ent_devs e' !! id = Some d' /\ dkey_of d' = dkey_of d.
Proof. intros [_ [_ Hd]]. apply Hd. Qed.

Lemma one_call e op out e' : spec_step (ent_view e) (op, out) (ent_view e') ->
  steps spec_step (ent_view e) [(op, out)] (ent_view e').
Proof. intros Hs. by econstructor; [|constructor]. Qed.

Lemma own_key_owned (r r' : Notification) : key_of r' = key_of r -> nTenantID r' = nTenantID r /\ nUserID r' = nUserID r.
Proof. intros H. by injection H. Qed.

Lemma emits_create n e : ent_inv e ->
  emits (op_p (EntdbStoreP sdk tenant) (OpCreate n)) (exact (OpCreate n)) e.
Proof.
  intros Hi. apply emits_do. intros e0 [Hi0 _]. change (notifActor _) with systemActor.
  destruct (absent_dec key_of (ent_rows e0) (key_of n)) as [Ha|(id & r & Hr & Hk)].
  - destruct (commitCreate_fresh sdk tenant e0 n Hi0 Ha) as (id & e1 & -> & Hne & Hnew & Hr & Hd & Hi1).
    eexists e1, _, [_]. split_and!; [done| |done|by intros _].
    apply one_call. unfold ent_view. rewrite Hr, Hd. by apply (spec_create_new (ent_view e0)).
  - destruct (commitCreate_taken sdk tenant e0 n id r Hi0 Hr Hk) as (text & e1 & -> & He1 & Hi1).
    exists e1, (Err (External ExtUniqueConstraint text)), []. split_and!; [done| |done|].
    { rewrite (view_nodes e0 e1) by done. constructor. }
    intros Hr1. cbn -[findNotificationByKey notificationCompositeKey].
    change (notifActor _) with systemActor.
    rewrite (bool_decide_eq_true_2 (ExtUniqueConstraint = _)) by done.
    apply emits_do. intros e2 Hr2.
    destruct (rely_row e0 e2 id r) as (r2 & Hrow2 & Hk2); [by eapply rely_trans|done|].
    destruct (findNotification_hit sdk tenant e2 n id r2) as (e3 & -> & Hne & He3 & Hi3); [apply Hr2|done|congruence|].
    exists e3, (Ok id), [(OpCreate n, OutCreate id (Ok false))]. split_and!; [done| |done|].
    + apply one_call. rewrite (view_nodes e2 e3) by done. eapply (spec_create_dup (ent_view e2)); [done|congruence].
    + intros _. cbn. by rewrite (proj2 (String.eqb_neq _ _) Hne).
Qed.

Lemma get_event e t u id :
  spec_step (ent_view e)
    (OpGet t u id, OutGet (match ent_rows e !! id with
       | Some r => if decide (owned t u r) then Ok r else Err ErrNotFound
       | None => Err ErrNotFound end)) (ent_view e).
Proof.
  destruct (ent_rows e !! id) as [r|] eqn:Hr; [case_decide|].
  - by apply (spec_get_hit (ent_view e)).
  - apply (spec_get_miss (ent_view e)). intros r' Hr'. cbn in Hr'. congruence.
  - apply (spec_get_miss (ent_view e)). intros r' Hr'. cbn in Hr'. congruence.
Qed.

(** A typed read is a read of the row. *)
Lemma getUserNotification_row e id : ent_inv e ->
  exists e' o, getUserNotification sdk tenant systemActor id e = (e', Ok o) /\
    ent_view e' = ent_view e /\ ent_inv e' /\ ent_rows e !! id = notificationFromProto id <$> o.
Proof.
  intros Hi. destruct (getUserNotification_ok sdk tenant e id Hi) as (e' & -> & He & Hi').
  eexists e', _. split_and!; [done|by apply view_nodes|done|].
  unfold EntdbProps.ent_rows. rewrite map_lookup_imap. by destruct (nodes e !! id) as [[p|p]|].
Qed.

(** What GetNotification makes of a node. *)
Lemma get_check t u id got :
  (if negb (unTenantId got =? t)%string || negb (unUserId got =? u)%string
   then Err ErrNotFound else Ok (notificationFromProto id got)) =
  (if decide (owned t u (notificationFromProto id got)) then Ok (notificationFromProto id got) else Err ErrNotFound).
Proof.
  pose proof (not_owned_bool t u (notificationFromProto id got)) as Hb. simpl in Hb. rewrite Hb.
  by case_decide; case_bool_decide.
Qed.

Lemma emits_get t u id e : ent_inv e ->
  emits (op_p (EntdbStoreP sdk tenant) (OpGet t u id)) (exact (OpGet t u id)) e.
Proof.
  intros Hi. apply emits_do. intros e0 [Hi0 _]. change (notifActor _) with systemActor.
  destruct (getUserNotification_row e0 id Hi0) as (e1 & o & -> & He1 & Hi1 & Hrow).
  pose proof (get_event e0 t u id) as Hev. rewrite Hrow in Hev.
  destruct o as [got|].
  - eexists e1, _, [_]. split_and!; [done|rewrite He1; by apply one_call|done|]. intros _. cbn -[decide].
    unfold exact. by rewrite get_check.
  - exists e1, (Ok None), []. split_and!; [done|rewrite He1; constructor|done|]. intros _.
    apply emits_do. intros e2 [Hi2 _].
    destruct (getUserNotification_row e2 id Hi2) as (e3 & o & -> & He3 & Hi3 & Hrow3).
    pose proof (get_event e2 t u id) as Hev3. rewrite Hrow3 in Hev3.
    eexists e3, _, [_]. split_and!; [done|rewrite He3; by apply one_call|done|]. intros _. cbn -[decide].
    unfold exact. destruct o as [got|]; [|done]. by rewrite get_check.
Qed.

Lemma emits_update t id st ms e : ent_inv e ->
  emits (op_p (EntdbStoreP sdk tenant) (OpUpdate t id st ms)) (exact (OpUpdate t id st ms)) e.
Proof.
  intros Hi. apply emits_do. intros e0 [Hi0 _].
  destruct (getUserNotification_row e0 id Hi0) as (e1 & o & -> & He1 & Hi1 & Hrow).
  assert (Hmiss : (forall r, ent_rows e0 !! id = Some r -> nTenantID r <> t) ->
    steps spec_step (ent_view e0) [(OpUpdate t id st ms, OutUpdate (Some ErrNotFound))] (ent_view e1)).
  { intros Hm. rewrite He1. by apply one_call, (spec_update_miss (ent_view e0)). }
  destruct o as [got|].
  - destruct (String.eqb_spec (unTenantId got) t) as [Ht|Ht].
    + exists e1, (Ok (Some got)), []. split_and!; [done|rewrite He1; constructor|done|]. intros Hr1.
      cbn -[status_patch commitUpdateFields]. rewrite (proj2 (String.eqb_eq _ _) Ht).
      cbn -[status_patch commitUpdateFields]. rewrite (surjective_pairing (status_patch st ms)).
      change (notifActor _) with systemActor. apply emits_do. intros e2 Hr2.
      destruct (rely_row e0 e2 id _ (rely_trans _ _ _ _ _ Hr1 Hr2) Hrow) as (r2 & Hrow2 & Hk2).
      destruct (commit_status_ok sdk tenant e2 id r2 st ms) as (e3 & -> & Hr3 & Hd3 & Hi3); [apply Hr2|done|].
      eexists e3, None, [_]. split_and!; [done| |done|intros _; reflexivity].
      apply one_call. unfold ent_view. rewrite Hr3, Hd3. apply (spec_update_hit (ent_view e2)); [done|].
      apply own_key_owned in Hk2 as [-> _]. exact Ht.
    + exists e1, (Ok (Some got)), [(OpUpdate t id st ms, OutUpdate (Some ErrNotFound))]. split_and!; [done| |done|].
      * apply Hmiss. intros r Hr. rewrite Hrow in Hr. by injection Hr as <-.
      * intros _. cbn. by rewrite (proj2 (String.eqb_neq _ _) Ht).
  - exists e1, (Ok None), [(OpUpdate t id st ms, OutUpdate (Some ErrNotFound))]. split_and!; [done| |done|].
    + apply Hmiss. intros r Hr. by rewrite Hrow in Hr.
    + intros _. reflexivity.
Qed.

(** ** The calls that are not one abstract call *)

Lemma own_key_dev (d d' : Device) : dkey_of d' = dkey_of d -> dev_owned (dTenantID d) (dUserID d) d'.
Proof. intros H. by injection H. Qed.

Lemma list_event e t u : ent_inv e -> exists ds,
  spec_step (ent_view e) (OpList t u, OutList (Ok ds)) (ent_view e) /\ is_device_list t u (ent_devs e) ds.
Proof.
  intros Hi. pose proof (list_answer t u (ent_devs e) _ (ent_devs_ok sdk tenant e Hi) (Permutation_refl _)) as Hl.
  eexists. split; [by apply (spec_list (ent_view e))|done].
Qed.

Lemma listed_dev t u (m : gmap string Device) ds d : is_device_list t u m ds ->
  d ∈ ds <-> dev_owned t u d /\ exists id, m !! id = Some d.
Proof. intros [Hp _]. by rewrite Hp, list_elem_of_filter, elem_of_all_devices. Qed.

Lemma listed_ids t u (m : gmap string Device) ds id : rows_ok dID dkey_of m -> is_device_list t u m ds ->
  id ∈ dID <$> ds <-> exists d, m !! id = Some d /\ dev_owned t u d.
Proof.
  intros [Hid _] Hl. rewrite list_elem_of_fmap. split.
  - intros (d & -> & (Ho & i & Hd)%(listed_dev _ _ _ _ _ Hl)). exists d. by rewrite (Hid i d Hd).
  - intros (d & Hd & Ho). exists d. split; [by rewrite (Hid id d Hd)|]. apply (listed_dev _ _ _ _ _ Hl). eauto.
Qed.

Lemma listed_NoDup t u (m : gmap string Device) ds : rows_ok dID dkey_of m -> is_device_list t u m ds ->
  NoDup (dID <$> ds).
Proof.
  intros Hok [Hp _]. rewrite Hp. apply NoDup_fmap_filter. by apply (rows_ok_NoDup_ids dID dkey_of).
Qed.

(** The read after the write. *)
Lemma emits_readback (d d1 : Device) id e k :
  (forall p, k (Ok (Some p)) = Ret (OutUpsert (Ok (deviceFromProto id p)))) -> ent_devs e !! id = Some d1 -> dID d1 = id ->
  dkey_of d1 = dkey_of d ->
  emits (Do (getDevice sdk tenant systemActor id) k)
    (fun h out => exists devs d2, h = [(OpList (dTenantID d) (dUserID d), OutList (Ok devs))] /\
       out = OutUpsert (Ok d2) /\ d2 ∈ devs /\ dID d2 = dID d1) e.
Proof.
  intros Hf Hd Hid Hk. apply emits_do. intros e2 Hr2. destruct (rely_dev e e2 id d1 Hr2 Hd) as (d2 & Hd2 & Hk2).
  pose proof Hd2 as (p & Hp & Hpd)%ent_devs_lookup.
  destruct (getDevice_ok sdk tenant e2 id) as (e3 & -> & He3 & Hi3); [apply Hr2|]. rewrite Hp.
  destruct (list_event e2 (dTenantID d) (dUserID d)) as (ds & Hs & Hl); [apply Hr2|].
  eexists e3, _, [_]. split_and!; [done|rewrite (view_nodes e2 e3) by done; by apply one_call|done|]. intros _.
  rewrite Hf. exists ds, d2. split_and!; [done|by subst|apply (listed_dev _ _ _ _ _ Hl); split; [apply own_key_dev; congruence|eauto]|].
  rewrite Hid. by apply (ent_devs_ok sdk tenant e2 (proj1 Hr2)).
Qed.

Lemma emits_upsert d e : ent_inv e -> emits (op_p (EntdbStoreP sdk tenant) (OpUpsert d)) (ent_answers (OpUpsert d)) e.
Proof.
  intros Hi. apply emits_do. intros e0 [Hi0 _]. change (notifActor _) with systemActor.
  destruct (absent_dec dkey_of (ent_devs e0) (dkey_of d)) as [Ha|(id & d0 & Hd0 & Hk)].
  - destruct (commitDevice_fresh sdk tenant e0 d Hi0 Ha) as (id & e1 & -> & Hne & Hnew & Hd & Hr & Hi1).
    eexists e1, (Ok id), [_]. split_and!; [done| |done|].
    { apply one_call. unfold ent_view. rewrite Hr, Hd. by apply (spec_upsert_new (ent_view e0)). }
    intros _. cbn -[Linear.emits getDevice].
    eapply emits_mono; [apply (emits_readback d (set_dID id d)); [done|by rewrite Hd, lookup_insert_eq|done..]|].
    intros h out (ds & d2 & -> & -> & Hin & Hid). by exists (set_dID id d), ds, d2.
  - destruct (commitDevice_taken sdk tenant e0 d id d0 Hi0 Hd0 Hk) as (text & e1 & -> & He1 & Hi1).
    exists e1, (Err (External ExtUniqueConstraint text)), []. split_and!; [done| |done|].
    { rewrite (view_nodes e0 e1) by done. constructor. }
    intros Hr1. cbn -[findDeviceByKey deviceCompositeKey commitUpdateFields getDevice Linear.emits].
    rewrite (bool_decide_eq_true_2 (ExtUniqueConstraint = _)) by done.
    apply emits_do. intros e2 Hr2.
    destruct (rely_dev e0 e2 id d0) as (d2 & Hd2 & Hk2); [by eapply rely_trans|done|].
    destruct (findDevice_hit sdk tenant e2 d id d2) as (e3 & -> & Hne & He3 & Hi3); [apply Hr2|done|congruence|].
    exists e3, (Ok id), []. split_and!; [done| |done|].
    { rewrite (view_nodes e2 e3) by done. constructor. }
    intros Hr3. cbn -[commitUpdateFields getDevice Linear.emits]. rewrite (proj2 (String.eqb_neq _ _) Hne).
    apply emits_do. intros e4 Hr4. destruct (rely_dev e2 e4 id d2) as (d4 & Hd4 & Hk4); [by eapply rely_trans|done|].
    destruct (commit_rotate_ok sdk tenant e4 d id d4) as (e5 & -> & Hd5 & Hrw5 & Hi5); [apply Hr4|done|].
    eexists e5, None, [_]. split_and!; [done| |done|].
    { apply one_call. unfold ent_view. rewrite Hrw5, Hd5. apply (spec_upsert_hit (ent_view e4)); [done|congruence]. }
    intros _. cbn -[Linear.emits getDevice].
    assert (Hid : dID d4 = id) by (by apply (ent_devs_ok sdk tenant e4 (proj1 Hr4))).
    eapply emits_mono; [apply (emits_readback d (rotate d4 d)); [done|by rewrite Hd5, lookup_insert_eq|done|]|].
    { change (dkey_of (rotate d4 d)) with (dkey_of d4). congruence. }
    intros h out (ds & d6 & -> & -> & Hin & Hid6). by exists (rotate d4 d), ds, d6.
Qed.

Lemma query_step_node q acc id got :
  ent_query_step q acc (id, Some got) = query_step q acc (notificationFromProto id got).
Proof. by destruct acc. Qed.

Lemma emits_reads q t u rs0 : forall acc e,
  Forall (fun r0 => owned t u r0 /\ exists r, ent_rows e !! nID r0 = Some r /\ key_of r = key_of r0) rs0 ->
  emits (node_loop_p (unmarshalNotification_p sdk tenant systemActor) (ent_query_step q) (Some <$> (nID <$> rs0)) acc)
    (fun h res => exists reads, h = ((fun r => (OpGet t u (nID r), OutGet (Ok r))) <$> reads) /\
       res = Ok (fold_left (query_step q) reads acc) /\ Forall2 (same nID key_of) rs0 reads) e.
Proof.
  induction rs0 as [|r0 rs0 IH]; intros acc e Hrs; [by exists []|]. apply Forall_cons in Hrs as [[Ho (r & Hr & Hk)] Hrs].
  apply emits_do. intros e1 Hr1. destruct (rely_row e e1 _ r Hr1 Hr) as (r1 & Hrow1 & Hk1).
  destruct (getUserNotification_row e1 (nID r0)) as (e2 & o & -> & He2 & Hi2 & Hrow); [apply Hr1|].
  rewrite Hrow1 in Hrow. destruct o as [got|]; [|done]. cbn in Hrow. injection Hrow as Hgot.
  assert (Hsame : same nID key_of r0 r1) by (split; [by subst|congruence]).
  assert (Ho1 : owned t u r1) by (destruct Hsame as [_ Hks]; injection Hks as Ht Hu _; destruct Ho; split; congruence).
  exists e2, (Ok (Some got)), [(OpGet t u (nID r1), OutGet (Ok r1))]. split_and!; [done| |done|].
  - rewrite He2. apply one_call. apply (spec_get_hit (ent_view e1)); [|done]. by rewrite (proj1 Hsame).
  - intros Hr2. cbn -[Linear.emits ent_query_step]. rewrite query_step_node, <- Hgot.
    eapply emits_mono; [apply IH|].
    + eapply Forall_impl; [exact Hrs|]. intros r2 [Ho2 (r3 & Hr3 & Hk3)]. split; [done|].
      destruct (rely_row e e2 _ r3 (rely_trans _ _ _ _ _ Hr1 Hr2) Hr3) as (r4 & Hr4 & Hk4). exists r4.
      split; [done|congruence].
    + intros h res (reads & -> & -> & Hall). exists (r1 :: reads). split_and!; [done..|]. by constructor.
Qed.

(** What the loop leaves is the page of the rows it read. *)
Lemma reads_page q m rs0 reads : rows_ok nID key_of m -> Forall (fun r => m !! nID r = Some r) rs0 ->
  NoDup (nID <$> rs0) -> Forall2 (same nID key_of) rs0 reads ->
  let limit := ClampLimit (qLimit q) in
  let '(rows, unread) := fold_left (query_step q) reads ([], 0) in
  exists items cursor, is_page q (map_of nID reads) items cursor unread /\
    (if limit <? Z.of_nat (length (sort_slice newer (rev rows))) then
       Ok (take (Z.to_nat limit) (sort_slice newer (rev rows)),
           match last (take (Z.to_nat limit) (sort_slice newer (rev rows))) with
           | Some n => FormatInt (nCreatedAtMS n) | None => "" end, unread)
     else Ok (sort_slice newer (rev rows), "", unread)) = @Ok error _ (items, cursor, unread).
Proof.
  intros Hok Hrs Hnd Hall. cbv zeta. rewrite query_loop_spec, app_nil_r, rev_involutive, Z.add_0_l.
  assert (Hnd' : NoDup (nID <$> reads)) by (by rewrite (same_ids nID key_of rs0 reads)).
  assert (Hu : Z.of_nat (length (filter (fun n => owned (qTenantID q) (qUserID q) n /\ nStatus n <> StatusRead) reads)) =
    unread_count (qTenantID q) (qUserID q) (map_of nID reads)) by (unfold unread_count; by rewrite (map_of_values nID reads)).
  rewrite Hu. destruct (page_answer q (map_of nID reads) reads (unread_count (qTenantID q) (qUserID q) (map_of nID reads)))
    as (items & cursor & He & Hp); [by apply (map_of_ok nID key_of m rs0)|by rewrite (map_of_values nID reads)|done|]. by exists items, cursor.
Qed.

Lemma emits_query q e : ent_inv e -> emits (op_p (EntdbStoreP sdk tenant) (OpQuery q)) (ent_answers (OpQuery q)) e.
Proof.
  intros Hi. apply emits_do. intros e0 [Hi0 _].
  destruct (queryUserNotifications_ok sdk tenant e0 (qTenantID q) (qUserID q) Hi0) as (ids & e1 & -> & He1 & Hi1 & Hnd & Hids).
  pose proof (ent_rows_ok sdk tenant e0 Hi0) as Hok.
  destruct (rows_with_ids nID (ent_rows e0) (owned (qTenantID q) (qUserID q)) ids) as (rs0 & <- & Hrs0);
    [apply Hok|intros id Hid; by apply Hids|].
  destruct (selection_exists q (ent_rows e0) Hok) as [sorted0 Hsel].
  set (page0 := (take (Z.to_nat (ClampLimit (qLimit q))) sorted0, page_cursor (ClampLimit (qLimit q)) sorted0,
                 unread_count (qTenantID q) (qUserID q) (ent_rows e0))).
  exists e1, (Ok (Some <$> (nID <$> rs0))), [(OpQuery q, OutQuery (Ok page0))]. split_and!; [done| |done|].
  { rewrite (view_nodes e0 e1) by done. apply one_call, (spec_query (ent_view e0)). by exists sorted0. }
  intros Hr1. cbn -[Linear.emits node_loop_p].
  eapply (emits_bind _ _ _ _ (fun h r => exists reads items cursor unread,
    h = ((fun r => (OpGet (qTenantID q) (qUserID q) (nID r), OutGet (Ok r))) <$> reads) /\
    r = Ok (items, cursor, unread) /\ is_page q (map_of nID reads) items cursor unread /\
    nID <$> reads = nID <$> rs0)); [done| |].
  - eapply emits_bind; [done| |].
    + apply (emits_reads q (qTenantID q) (qUserID q)). eapply Forall_impl; [exact Hrs0|]. intros r [Hr Ho].
      split; [done|]. by apply (rely_row e0 e1 _ r Hr1).
    + intros h res e2 _ (reads & -> & -> & Hall).
      pose proof (reads_page q (ent_rows e0) rs0 reads Hok ltac:(eapply Forall_impl; [exact Hrs0|by intros r [Hr _]]) Hnd Hall) as Hpage.
      cbv zeta in Hpage. destruct (fold_left (query_step q) reads ([], 0)) as [rows unread].
      destruct Hpage as (items & cursor & Hp & He).
      exists reads, items, cursor, unread. split_and!; [by rewrite app_nil_r|exact He|done|by apply (same_ids nID key_of)].
  - intros h r e2 _ (reads & items & cursor & unread & -> & -> & Hp & Hsame). cbn -[map_of].
    exists page0, reads, items, cursor, unread. split_and!; [by rewrite app_nil_r|done|done|by rewrite Hsame|].
    intros r Hr. rewrite Hsame, Hids. destruct Hsel as [Hperm _].
    assert (Hin : r ∈ filter (selected q) (all_rows (ent_rows e0))).
    { rewrite <- Hperm. cbn in Hr. apply elem_of_take in Hr as (i & Hi' & _). by apply list_elem_of_lookup_2 in Hi'. }
    apply list_elem_of_filter in Hin as [[Ho _] [i Hi']%elem_of_all_rows]. exists r. split; [|done].
    pose proof (proj1 Hok i r Hi') as <-. exact Hi'.
Qed.

Lemma list_step_dev t u acc id got : dev_owned t u (deviceFromProto id got) ->
  ent_list_step t u acc (id, Some got) = acc ++ [deviceFromProto id got].
Proof. intros [Ht Hu]. simpl in *. by rewrite Ht, Hu, !String.eqb_refl. Qed.

Lemma emits_dev_reads t u ds0 : forall acc e,
  Forall (fun d0 => dev_owned t u d0 /\ exists d, ent_devs e !! dID d0 = Some d /\ dkey_of d = dkey_of d0) ds0 ->
  emits (node_loop_p (unmarshalDevice_p sdk tenant systemActor) (ent_list_step t u) (Some <$> (dID <$> ds0)) acc)
    (fun h res => exists reads : list (Device * list Device),
       h = ((fun x => (OpList t u, OutList (Ok x.2))) <$> reads) /\ Forall (fun x => x.1 ∈ x.2) reads /\
       res = Ok (acc ++ reads.*1) /\ Forall2 (same dID dkey_of) ds0 reads.*1) e.
Proof.
  induction ds0 as [|d0 ds0 IH]; intros acc e Hds.
  { exists []. by rewrite app_nil_r. }
  apply Forall_cons in Hds as [[Ho (d & Hd & Hk)] Hds].
  apply emits_do. intros e1 Hr1. destruct (rely_dev e e1 _ d Hr1 Hd) as (d1 & Hd1 & Hk1).
  assert (Ho1 : dev_owned t u d1).
  { destruct Ho. rewrite Hk in Hk1. injection Hk1 as Ht Hu _. split; congruence. }
  destruct (list_event e1 t u) as (ds & Hs & Hl); [apply Hr1|].
  pose proof Hd1 as (p & Hp & Hpd)%ent_devs_lookup.
  destruct (getDevice_ok sdk tenant e1 (dID d0)) as (e2 & -> & He2 & Hi2); [apply Hr1|]. rewrite Hp.
  exists e2, (Ok (Some p)), [(OpList t u, OutList (Ok ds))]. split_and!; [done| |done|].
  - rewrite (view_nodes e1 e2) by done. by apply one_call.
  - intros Hr2. cbn -[Linear.emits ent_list_step]. rewrite list_step_dev by (by rewrite <- Hpd). rewrite <- Hpd.
    eapply emits_mono; [apply IH|].
    + eapply Forall_impl; [exact Hds|]. intros d2 [Ho2 (d3 & Hd3 & Hk3)]. split; [done|].
      destruct (rely_dev e e2 _ d3 (rely_trans _ _ _ _ _ Hr1 Hr2) Hd3) as (d4 & Hd4 & Hk4). exists d4.
      split; [done|congruence].
    + intros h res (reads & -> & Hreads & -> & Hall). exists ((d1, ds) :: reads). split_and!; [done| | |].
      * constructor; [apply (listed_dev _ _ _ _ _ Hl); eauto|done].
      * by rewrite <- app_assoc.
      * constructor; [|done]. split; [by subst|exact (eq_trans Hk1 Hk)].
Qed.

Lemma same_owned t u ds0 ds : Forall (dev_owned t u) ds0 -> Forall2 (same dID dkey_of) ds0 ds ->
  forall d, d ∈ ds -> dev_owned t u d.
Proof.
  intros Ho Hall d [i Hd]%list_elem_of_lookup. destruct (Forall2_lookup_r _ _ _ _ _ Hall Hd) as (d0 & Hd0 & _ & Hk).
  destruct (Forall_lookup_1 _ _ _ _ Ho Hd0) as [Ht Hu]. injection Hk as Hkt Hku _. split; congruence.
Qed.

Lemma emits_list t u e : ent_inv e -> emits (op_p (EntdbStoreP sdk tenant) (OpList t u)) (ent_answers (OpList t u)) e.
Proof.
  intros Hi. apply emits_do. intros e0 [Hi0 _].
  destruct (queryDevices_ok sdk tenant e0 t u Hi0) as (ids & e1 & -> & He1 & Hi1 & Hnd & Hids).
  pose proof (ent_devs_ok sdk tenant e0 Hi0) as Hok.
  destruct (rows_with_ids dID (ent_devs e0) (dev_owned t u) ids) as (ds0 & <- & Hds0);
    [apply Hok|intros id Hid; by apply Hids|].
  destruct (list_event e0 t u Hi0) as (devs0 & Hs & Hl0).
  exists e1, (Ok (Some <$> (dID <$> ds0))), [(OpList t u, OutList (Ok devs0))]. split_and!; [done| |done|].
  { rewrite (view_nodes e0 e1) by done. by apply one_call. }
  intros Hr1. cbn -[Linear.emits node_loop_p].
  eapply (emits_bind _ _ _ _ (fun h r => exists (reads : list (Device * list Device)) out,
    h = ((fun x => (OpList t u, OutList (Ok x.2))) <$> reads) /\ Forall (fun x => x.1 ∈ x.2) reads /\
    r = Ok out /\ is_device_list t u (map_of dID reads.*1) out /\ dID <$> reads.*1 = dID <$> ds0)); [done| |].
  - eapply emits_bind; [done| |].
    + apply (emits_dev_reads t u). eapply Forall_impl; [exact Hds0|]. intros d [Hd Ho]. split; [done|].
      by apply (rely_dev e0 e1 _ d Hr1).
    + intros h res e2 _ (reads & -> & Hreads & -> & Hall). pose proof (same_ids dID dkey_of _ _ Hall) as Hsame.
      exists reads, (sort_slice dev_before reads.*1). split_and!; [by rewrite app_nil_r|done|done| |done].
      assert (Hnd' : NoDup (dID <$> reads.*1)) by by rewrite Hsame.
      apply list_answer.
      * apply (map_of_ok dID dkey_of (ent_devs e0) ds0); [done| |done..]. eapply Forall_impl; [exact Hds0|by intros d [Hd _]].
      * unfold all_devices. rewrite (map_of_values dID) by done. by rewrite (filter_all _ _ (same_owned t u _ _ (Forall_impl _ _ _ Hds0 (fun d H => proj2 H)) Hall)).
  - intros h r e2 _ (reads & out & -> & Hreads & -> & Hl & Hsame). cbn -[map_of].
    exists devs0, reads, out. split_and!; [by rewrite app_nil_r|done|done|done|]. rewrite Hsame.
    apply NoDup_Permutation; [done|by eapply listed_NoDup|]. intros id. rewrite Hids. symmetry. by eapply listed_ids.
Qed.
End entdb.

#[export] Instance ent_linear {E} (sdk : SDK E) (tenant : string) {HL : EntdbLaws sdk tenant} :
  Linear (EntdbStoreP sdk tenant).
Proof.
  refine {| lin_view := ent_view sdk tenant; lin_inv := ent_inv sdk tenant; lin_ready := fun _ => True;
            lin_may := fun _ => True; lin_answers := ent_answers |}.
  intros op e Hi _. eapply emits_mono; [|by intros h out Ha; split]. destruct op.
  - by apply emits_create.
  - by apply emits_get.
  - by apply emits_update.
  - by apply emits_query.
  - by apply emits_upsert.
  - by apply emits_list.
Defined.

(** What the RPCs need of the driver. *)
Lemma ent_consists op h out : ent_answers op h out -> consists op h out.
Proof.
  destruct op as [n|t u id|t id st ms|q|d|t u]; cbn; try done.
  - intros (page0 & rs & items & cursor & unread & -> & -> & Hpage & Hnd & _).
    exists items, cursor, unread. split_and!; [done| |].
    + constructor; [done|]. apply Forall_fmap, Forall_true. done.
    + intros n Hn. apply Exists_cons. right. apply Exists_fmap, Exists_exists. exists n.
      destruct (is_page_elem _ _ _ _ _ _ Hpage Hn) as ([id Hid] & _). apply (map_of_lookup nID) in Hid as [Hr _]; [|done].
      split; [done|by right].
  - intros (d1 & ds & d2 & -> & -> & _). eexists d1, d2, _. split_and!; [done|by repeat constructor|done].
  - intros (devs0 & rs & out' & -> & _). constructor; [done|]. by apply Forall_fmap, Forall_true.
Qed.

#[export] Instance ent_driver {E} (sdk : SDK E) (tenant : string) {HL : EntdbLaws sdk tenant} :
  Driver (EntdbStoreP sdk tenant).
Proof.
  refine {| view := ent_view sdk tenant; whole := ent_inv sdk tenant; fits := fun _ => True; legible := fun _ => True;
            driver_ok := fun e => ent_rows_ok sdk tenant e |}.
  intros op e Hi _. eapply emits_mono; [exact (lin_op (Linear := ent_linear sdk tenant) op e Hi I)|].
  intros h out [Ha _]. split; [by apply ent_consists|by destruct out as [? []| | | | |]].
Defined.

(** ** store/postgres *)

(** The page is that of one moment, the unread count that of a later one. *)
Definition pg_answers (op : StoreOp) (h : list Event) (out : StoreOut) : Prop :=
  match op with
  | OpQuery q => exists items cursor unread0 items1 cursor1 unread,
      h = [(op, OutQuery (Ok (items, cursor, unread0))); (op, OutQuery (Ok (items1, cursor1, unread)))] /\
      out = OutQuery (Ok (items, cursor, unread))
  | _ => exact op h out
  end.

Section postgres.
Context {D : Type} (pool : Pool D) (newUUID : M D string) {HP : PgLaws pool newUUID}.
Local Notation emits := (emits (pg_abs pool newUUID) pg_inv).

(** The listing order is bytewise when the database's collation is. *)
Definition pg_lin_ready (op : StoreOp) : Prop :=
  pg_ready pool newUUID op /\ match op with OpList _ _ => forall a b, collate a b <-> str_lt a b | _ => True end.

Lemma pg_lin_refines w op : pg_inv w -> pg_lin_ready op -> refines pool newUUID w op.
Proof.
  intros Hi [Hr Hc]. destruct op; eauto using pg_create_refines, pg_get_refines, pg_update_refines, pg_query_refines,
    pg_upsert_refines, pg_list_refines.
Qed.

(** The ids that a client learns are canonical uuids. *)
Definition pg_may (out : StoreOut) : Prop :=
  match out with
  | OutCreate id (Ok _) => canonical_id pool newUUID id
  | OutQuery (Ok (items, _, _)) => Forall (fun n => canonical_id pool newUUID (nID n)) items
  | _ => True
  end.

Lemma row_canonical w id n : pg_inv w -> nrows w !! id = Some n -> canonical_id pool newUUID id.
Proof. intros Hi Hn. left. by eapply pg_ids. Qed.

Lemma pg_emits_create n w : pg_inv w -> pg_ready pool newUUID (OpCreate n) ->
  emits (op_p (PostgresStoreP pool newUUID) (OpCreate n)) (fun h out => exact (OpCreate n) h out /\ pg_may out) w.
Proof.
  intros Hi [He Ht]. apply emits_do. intros w0 [Hi0 _]. unfold assign_id, query_scan. rewrite He. unfold_M. cbn -[Linear.emits].
  destruct (pg_new_uuid w0 Hi0) as (w1 & id & -> & Hne & Hu & Hn & Hd & Hr1 & Hd1 & Hi1).
  destruct (absent_dec key_of (nrows w0) (key_of n)) as [Ha|(id0 & r & Hr & Hk)].
  - destruct (pg_insert_new w1 (set_nID id n) Hi1 Hu) as (w2 & -> & Hr2 & Hd2 & Hi2); [done|done|by rewrite Hr1|].
    eexists w2, _, [(OpCreate n, OutCreate id (Ok true))]. split_and!; [reflexivity| |done|].
    2: { intros _. split; [done|]. apply (row_canonical w2 id (set_nID id n) Hi2). rewrite Hr2. apply lookup_insert_eq. }
    econstructor; [|constructor]. unfold pg_abs. rewrite Hr2, Hd2, Hr1, Hd1.
    apply (spec_create_new (mkAbs (nrows w0) (drows w0))); cbn; [done| |done]. by rewrite <- Hr1.
  - destruct (pg_insert_dup w1 (set_nID id n) id0 r Hi1 Hu) as (w2 & text & -> & Hr2 & Hd2 & Hi2);
      [done|by rewrite Hr1|done|].
    eexists w2, _, []. split_and!; [reflexivity|rewrite (pg_abs_eq pool newUUID w0 w2) by congruence; constructor|done|].
    intros Hrel. cbn -[Linear.emits]. rewrite (bool_decide_eq_true_2 (ExtNoRows = _)) by done.
    apply emits_do. intros w3 [Hi3 [Hg _]]. destruct (proj1 (proj2 Hrel) id0 r Hr) as (r2 & Hr2' & Hk2).
    destruct (Hg id0 r2 Hr2') as (r3 & Hr3 & Hk3).
    destruct (pg_existing w3 id0 r3 Hi3 Hr3) as (w4 & Hq & Hr4 & Hd4 & Hi4).
    assert (Hkey : key_of r3 = key_of n) by congruence. injection Hkey as K1 K2 K3. rewrite K1, K2, K3 in Hq.
    unfold query_scan. unfold_M. cbn -[Linear.emits]. rewrite Hq.
    eexists w4, _, [(OpCreate n, OutCreate id0 (Ok false))]. split_and!; [reflexivity| |done|].
    2: { intros _. split; [done|]. by apply (row_canonical w3 id0 r3). }
    econstructor; [|constructor]. rewrite (pg_abs_eq pool newUUID w3 w4) by done.
    eapply (spec_create_dup (pg_abs pool newUUID w3)); [done|congruence].
Qed.

Lemma pg_emits_query q w : pg_inv w -> pg_ready pool newUUID (OpQuery q) ->
  emits (op_p (PostgresStoreP pool newUUID) (OpQuery q)) (fun h out => pg_answers (OpQuery q) h out /\ pg_may out) w.
Proof.
  intros Hi Hready. assert (Hp : forall w0, pg_inv w0 -> _) by (intros w0 Hi0; exact (pg_page_ok pool newUUID w0 q Hi0 Hready)).
  cbn -[Linear.emits]. unfold pg_QueryUserNotifications_p. cbv zeta in *. destruct (page_query q _) as [sel args].
  apply emits_do. intros w0 [Hi0 _].
  destruct (Hp w0 Hi0) as (w1 & rows & page & items & cursor & -> & Hscan & Hpage & Hpg & Hr1 & Hd1 & Hi1).
  eexists w1, _, [(OpQuery q, OutQuery (Ok (items, cursor, _)))]. split_and!; [reflexivity| |done|].
  { rewrite (pg_abs_eq pool newUUID w0 w1) by done. econstructor; [|constructor]. by apply (spec_query (pg_abs pool newUUID w0)). }
  intros _. cbn -[Linear.emits]. rewrite Hscan, Hpage. apply emits_do. intros w2 [Hi2 _].
  destruct Hready as [Ht Hu]. destruct (pg_count_ok pool newUUID w2 (qTenantID q) (qUserID q) Hi2 Ht Hu) as (w3 & -> & Hr3 & Hd3 & Hi3).
  destruct (Hp w2 Hi2) as (_ & _ & _ & items1 & cursor1 & _ & _ & _ & Hpg1 & _).
  eexists w3, _, [(OpQuery q, OutQuery (Ok (items1, cursor1, _)))]. split_and!; [reflexivity| |done|].
  { rewrite (pg_abs_eq pool newUUID w2 w3) by done. econstructor; [|constructor]. by apply (spec_query (pg_abs pool newUUID w2)). }
  intros _. split; [by eexists items, cursor, _, items1, cursor1, _|]. apply Forall_forall. intros n Hn.
  destruct (is_page_elem _ _ _ _ _ _ Hpg Hn) as [[id Hid] _].
  pose proof (proj1 (pg_rows_ok w0 Hi0) id n Hid) as <-. by apply (row_canonical w0 (nID n) n).
Qed.

(** The calls that are one statement. *)
Definition one_statement (op : StoreOp) : bool :=
  match op with OpCreate _ | OpQuery _ => false | _ => true end.

Lemma pg_emits_one op w : pg_inv w -> pg_lin_ready op -> one_statement op = true ->
  emits (op_p (PostgresStoreP pool newUUID) op)
    (fun h out => h = [(op, out)] /\ exists a a', spec_step a (op, out) a') w.
Proof.
  intros Hi Hready Hone. pose proof (fun w0 Hi0 => pg_lin_refines w0 op Hi0 Hready) as Hop. unfold refines in Hop.
  setoid_rewrite <- (granular_op (PostgresStoreP pool newUUID) (PostgresStore pool newUUID)) in Hop.
  destruct op; try done; (apply emits_one; [by intros b; try destruct b; eexists|intros w0 [Hi0 _]; by apply Hop]).
Qed.

#[export] Instance pg_linear : Linear (PostgresStoreP pool newUUID).
Proof.
  refine {| lin_view := pg_abs pool newUUID; lin_inv := pg_inv; lin_ready := pg_lin_ready;
            lin_may := pg_may; lin_answers := pg_answers |}.
  intros op w Hi Hready. pose proof (pg_emits_one op w Hi Hready) as Hone. destruct Hready as [Hready _].
  destruct op; [by apply pg_emits_create| | |by apply pg_emits_query| |];
    (eapply emits_mono; [by apply Hone|intros h out [Ha (a & a' & Hs)]; split; [exact Ha|by inversion Hs]]).
Defined.

(** A listing in whatever order the database has. *)
Lemma pg_emits_list t u w : pg_ready pool newUUID (OpList t u) ->
  emits (op_p (PostgresStoreP pool newUUID) (OpList t u)) (fun h out => h = [] /\ id_legible (fun _ => False) out) w.
Proof.
  intros [Ht Hu]. apply emits_last. intros w0 [Hi0 _]. unfold pg_ListDevices. unfold_M.
  destruct (pg_list w0 t u Hi0 Ht Hu) as (w' & out & -> & _ & _ & Hr & Hd & Hi).
  rewrite (scan_rows_ok _ device_args) by apply scan_device.
  eexists w', _, []. split_and!; [reflexivity|rewrite (pg_abs_eq pool newUUID w0 w') by done; constructor|done..].
Qed.

(** What the RPCs need of the driver. *)
#[export] Instance pg_driver : Driver (PostgresStoreP pool newUUID).
Proof.
  refine {| view := pg_abs pool newUUID; whole := pg_inv; fits := storable; legible := canonical_id pool newUUID;
            driver_ok := pg_rows_ok |}.
  intros op w Hi Hready. pose proof (fun Hc => pg_emits_one op w Hi (conj Hready Hc)) as Hone.
  destruct op as [n|t u id|t id st ms|q|d|t u]; cbn [one_statement] in Hone;
    try (eapply emits_mono; [by apply Hone|intros h out [-> (a & a' & Hs)]; split; [by eapply exact_consists|by inversion Hs]]).
  - eapply emits_mono; [by apply pg_emits_create|]. intros h out [Ha Hm]. split; [done|by destruct out as [? []| | | | |]].
  - eapply emits_mono; [by apply pg_emits_query|]. intros h out [(items & cursor & unread0 & items1 & cursor1 & unread & -> & ->) _].
    split; [|done]. exists items, cursor, unread. split_and!; [done|by repeat constructor|]. intros n Hn.
    apply Exists_cons. left. left. by exists items, cursor, unread0.
  - eapply emits_mono; [by apply pg_emits_list|]. intros h out [-> Hout]. split; [constructor|by destruct out as [? []| | | | |]].
Defined.
End postgres.

(** ** The property *)

(** C6: Clients (programs of store calls) in parallel on a database driver cannot tell it from the
    abstract store, whatever the schedule of their round trips.  Every instant of what happens,
    invocations, round trips and returns, pending calls included, can be given abstract calls
    that, in the order of time, are one run of the abstract machine; those of a store call lie
    between its invocation and its return, so a call that returned before another was invoked
    took effect first, and decide its answer.  Create, Get and UpdateStatus are one abstract call
    with its answer, on Postgres UpsertDevice and ListDevices too: these are linearizable.  A
    Postgres query is one query's page with a later one's unread count; an EntDB query or listing
    reads each row in a call of its own, an EntDB upsert answers what a later listing has.  All
    calls return.  Postgres: storable texts, ids canonical or no uuids, new ones left to the
    driver, for listings a bytewise collation. *)
Theorem drivers_linearizable {E D A : Type} (sdk : SDK E) (tenant : string) {HL : EntdbLaws sdk tenant}
    (pool : Pool D) (newUUID : M D string) {HP : PgLaws pool newUUID} (clients : list (Client A)) (sched : list nat) :
  (forall e, ent_inv sdk tenant e ->
    (let '(e', trace, _) := play (EntdbStoreP sdk tenant) sched (Between <$> clients) e in
     ent_inv sdk tenant e' /\ linearized ent_answers clients (ent_view sdk tenant e) trace (ent_view sdk tenant e')) /\
    let '(e', outs) := interleave sched (client_prog (EntdbStoreP sdk tenant) <$> clients) e in
    ent_inv sdk tenant e' /\
    serializable ent_answers (ent_view sdk tenant e) (ent_view sdk tenant e') clients outs) /\
  (forall w, pg_inv w -> Forall (calls_all (pg_lin_ready pool newUUID) (pg_may pool newUUID)) clients ->
    (let '(w', trace, _) := play (PostgresStoreP pool newUUID) sched (Between <$> clients) w in
     pg_inv w' /\ linearized pg_answers clients (pg_abs pool newUUID w) trace (pg_abs pool newUUID w')) /\
    let '(w', outs) := interleave sched (client_prog (PostgresStoreP pool newUUID) <$> clients) w in
    pg_inv w' /\ serializable pg_answers (pg_abs pool newUUID w) (pg_abs pool newUUID w') clients outs).
Proof.
  split.
  - intros e Hi. assert (Hr : Forall (calls_all (lin_ready (Linear := ent_linear sdk tenant))
      (lin_may (Linear := ent_linear sdk tenant))) clients).
    { apply Forall_true. intros c. induction c as [a|op k IH]; [done|]. by split. }
    split; [exact (play_linearized (HP := ent_linear sdk tenant) _ clients e sched Hi Hr)|].
    exact (clients_serializable (HP := ent_linear sdk tenant) _ clients sched e Hi Hr).
  - intros w Hi Hr. split; [exact (play_linearized (HP := pg_linear pool newUUID) _ clients w sched Hi Hr)|].
    exact (clients_serializable (HP := pg_linear pool newUUID) _ clients sched w Hi Hr).
Qed.

(** A client that creates a notification, marks what it got as read and reads it back. *)
Definition reader (n : Notification) : Client (list StoreOut) :=
  CCall (OpCreate n) (fun out1 =>
    let id := match out1 with OutCreate id (Ok _) => id | _ => "" end in
    CCall (OpUpdate (nTenantID n) id StatusRead 99) (fun out2 =>
      CCall (OpGet (nTenantID n) (nUserID n) id) (fun out3 => CRet [out1; out2; out3]))).

Definition page_reader : Client (list StoreOut) :=
  CCall (OpQuery (mkQuery "acme" "u1" None 10 true)) (fun out => CRet [out]).

Definition sample_clients : list (Client (list StoreOut)) :=
  [reader (sample_notif "acme" "u1" "n1" 10); reader (sample_notif "acme" "u1" "n1" 20); page_reader].

Lemma reader_ready ms : calls_all (@pg_lin_ready _ sample_pool draw sample_pool_laws) (@pg_may _ sample_pool draw sample_pool_laws)
  (reader (sample_notif "acme" "u1" "n1" ms)).
Proof.
  split; [split; [split; [reflexivity|repeat (constructor; [exact I|]); constructor]|exact I]|]. intros out1 Hmay.
  assert (Hid : @canonical_id _ sample_pool draw sample_pool_laws match out1 with OutCreate id (Ok _) => id | _ => "" end).
  { destruct out1 as [id [b|err]| | | | |]; first [exact Hmay|by right]. }
  split; [by split_and!|]. intros out2 _. split; [by split_and!|]. intros out3 _. exact I.
Qed.

(** Two readers race and the third looks on: after these moves some calls have returned, others
    are pending. *)
Definition sample_moves : list nat := [1; 0; 2; 2; 0; 1; 1; 1; 0; 0; 1; 2; 2; 0]%nat.

Lemma drivers_linearizable_witness :
  (let '(e', trace, _) := play (EntdbStoreP mem_sdk "main") sample_moves (Between <$> sample_clients) empty_ent in
   @ent_inv _ mem_sdk "main" (mem_sdk_laws "main") e' /\
   linearized ent_answers sample_clients (@ent_view _ mem_sdk "main" (mem_sdk_laws "main") empty_ent) trace
     (@ent_view _ mem_sdk "main" (mem_sdk_laws "main") e')) /\
  (let '(w', trace, _) := play (PostgresStoreP sample_pool draw) sample_moves (Between <$> sample_clients) empty_tables in
   @pg_inv _ sample_pool draw sample_pool_laws w' /\
   linearized pg_answers sample_clients (@pg_abs _ sample_pool draw sample_pool_laws empty_tables) trace
     (@pg_abs _ sample_pool draw sample_pool_laws w')).
Proof.
  assert (Hr : Forall (calls_all (@pg_lin_ready _ sample_pool draw sample_pool_laws) (@pg_may _ sample_pool draw sample_pool_laws))
    sample_clients).
  { repeat (apply Forall_cons; split); [apply reader_ready..| |constructor]. split; [by split_and!|]. intros out _. exact I. }
  destruct (@drivers_linearizable _ _ _ mem_sdk "main" (mem_sdk_laws "main") sample_pool draw sample_pool_laws
    sample_clients sample_moves) as [He Hp].
  destruct (He empty_ent empty_ent_inv) as [He1 _]. destruct (Hp empty_tables empty_tables_inv Hr) as [Hp1 _].
  exact (conj He1 Hp1).
Defined.

(** Whose calls returned what, in time: the first reader takes the key, and the third client's
    page is from before and its count from after. *)
Example sample_trace :
  omap (fun x => match x.2 with Return out => Some (x.1, out) | _ => None end)
    (play (PostgresStoreP sample_pool draw) sample_moves (Between <$> sample_clients) empty_tables).1.2 =
  [(1%nat, OutCreate "uuid-0" (Ok false)); (0%nat, OutCreate "uuid-0" (Ok true)); (2%nat, OutQuery (Ok ([], "", 1)))].
Proof. vm_compute. reflexivity. Qed.

(** ** What is not linearizable *)

(** Two callers rotate the token of one device; the first is answered the second's. *)
Definition rotator (token : string) (ms : Z) : Client StoreOut :=
  CCall (OpUpsert (mkDevice "" "acme" "u1" "web" token ms ms)) CRet.

Lemma upsert_answers_later_token :
  (interleave [0; 1; 1; 1]%nat (client_prog (EntdbStoreP mem_sdk "main") <$> [rotator "old" 1; rotator "new" 2]) empty_ent).2 =
  [OutUpsert (Ok (mkDevice "uuid-0" "acme" "u1" "web" "new" 1 2));
   OutUpsert (Ok (mkDevice "uuid-0" "acme" "u1" "web" "new" 1 2))].
Proof. vm_compute. reflexivity. Qed.

(** A page with an unread notification and an unread count of zero. *)
Definition marker : Client (list StoreOut) :=
  CCall (OpUpdate "acme" "uuid-0" StatusRead 99) (fun out => CRet [out]).

Lemma query_counts_later :
  (interleave [0; 1]%nat (client_prog (PostgresStoreP sample_pool draw) <$> [page_reader; marker]) one_table).2 =
  [[OutQuery (Ok ([one_row], "", 0))]; [OutUpdate None]].
Proof. vm_compute. reflexivity. Qed.
