(* ===== verification/ConcurrentProps.v ===== *)
(** * What holds when RPCs run in parallel

    Alone, a program is its handler.  In a pool, under every schedule: nobody
    touches anyone else's rows and devices, every Notify stores its rows, none of
    them twice, and answers counters that add up, and acknowledgements and
    registrations of one's own succeed, whatever happens between their calls and
    the round trips of these.  The proof is the rely-guarantee of Rely.v. *)

From S2P Require Import Prelude GoErrors GoStrings Model StoreSpec StoreOps Memory MemoryProps Notifier NotifierProps.
From S2P Require Import Wire Realtime Retry Stream Auth Handlers HandlersProps Config ConfigProps Server ServerProps.
From S2P Require Import System Surface SystemProps Deployment Entdb EntdbProps Main Prog.
From S2P Require Import Http Postgres PostgresProps PostgresSample Linear Concurrent Rely Drivers LinearProps.

(** ** Alone *)

(** Runs two equal computations side by side, call by call. *)
Ltac run_calls S :=
  unfold_M; cbn beta iota;
  repeat first
  [ rewrite run_Prog_bind | rewrite run_call
  | rewrite (gr_create (S := S)) | rewrite (gr_get (S := S)) | rewrite (gr_update (S := S))
  | rewrite (gr_query (S := S)) | rewrite (gr_upsert (S := S))
  | match goal with
    | |- context [let '(_, _) := ?m ?w in _] => destruct (m w) as [? ?]; cbn beta iota
    | |- context [match ?r with _ => _ end] => destruct r; cbn beta iota
    end ];
  try done.

Section alone_notify.
Context {W : Type} `{MapOrder} (n : NotifierT W) (P : StoreP W) {HG : Granular P (nStore n)}.

Lemma run_notify_one req u kind res w :
  run (notify_one_p n P req u kind res) w = notify_one n req u kind res w.
Proof. unfold notify_one_p, notify_one. run_calls (nStore n). Qed.

Lemma run_notify_channels req u kinds : forall res w,
  run (notify_channels_p n P req u kinds res) w = notify_channels n req u kinds res w.
Proof.
  induction kinds as [|kind kinds IH]; intros res w; [done|]. cbn [notify_channels_p notify_channels].
  rewrite run_bind, run_notify_one. unfold_M. destruct (notify_one n req u kind res w) as [w' [res' [err|]]]; [done|apply IH].
Qed.

Lemma run_Notify req w : run (Notify_p n P req) w = Notify n req w.
Proof.
  unfold Notify_p, Notify. generalize (channels_of n req), (mkNotifyResult 0 0 0). intros kinds.
  revert w. induction (rUserIDs req) as [|u users IH]; intros w res; [done|]. cbn [notify_users_p notify_users].
  rewrite run_bind, run_notify_channels. unfold_M.
  destruct (notify_channels n req u kinds res w) as [w' [res' [err|]]]; [done|apply IH].
Qed.

Lemma run_internal_Notify req w : run (internal_Notify_p n P req) w = internal_Notify n req w.
Proof.
  unfold internal_Notify_p, internal_Notify. destruct req as [i|]; [|done].
  destruct (validateNotifyRequest (Some i)); [done|]. rewrite run_bind, run_Notify. unfold_M.
  by destruct (Notify n (notifyRequestFromProto (Some i)) w) as [w' [res err]].
Qed.
End alone_notify.

Section alone.
Context {X : Type} `{MapOrder} (s : Server X) (P : StoreP (Process X)) {HG : Granular P (nStore (srvNotifier s))}.
Context (same_store : chStore (srvHandler s) = nStore (srvNotifier s)).

Lemma run_recovery {W A} (p : Prog W (result error A)) (m : M W (result error A)) w :
  run p w = m w -> run (recovery_p p) w = recovery m w.
Proof.
  intros He. unfold recovery_p, recovery. rewrite run_bind, He. unfold_M.
  destruct (m w) as [w' [a|err]]; [done|]. by destruct err.
Qed.

Lemma run_client {A} authz (p : Claims -> Prog (Process X) (result error A)) (m : option Claims -> M (Process X) (result error A)) w :
  (forall c, run (p c) w = m (Some c) w) -> run (client_p s authz p) w = client_rpc (srvAuth s) authz m w.
Proof.
  intros He. unfold client_p, client_rpc. apply run_recovery. unfold NewClientAuthInterceptor.
  by destruct (srvAuth s authz).
Qed.

(** A program that runs alone is the RPC. *)
Lemma run_rpc (c : Rpc) w : run (rpc_p s P c) w = serve_rpc s c w.
Proof.
  destruct c as [token req|authz req|authz req|authz req|authz req]; cbn [rpc_p serve_rpc]; rewrite run_bind; unfold_M.
  - unfold rpc_Notify, internal_rpc. erewrite run_recovery; [reflexivity|].
    unfold internal_refusal, NewInternalAuthInterceptor.
    repeat (destruct (_ =? _)%string; [|]); try destruct (acDevMode _); cbn [negb]; done || apply (run_internal_Notify (srvNotifier s) P).
  - unfold rpc_GetNotifications. erewrite run_client; [reflexivity|]. intros c. unfold GetNotifications_p, GetNotifications.
    rewrite same_store. destruct (Handlers.page_query c req) as [q|err]; [|done]. run_calls (nStore (srvNotifier s)).
  - unfold rpc_AckNotification. erewrite run_client; [reflexivity|]. intros c. unfold AckNotification_p, AckNotification.
    rewrite same_store. destruct (_ =? _)%string; [done|]. run_calls (nStore (srvNotifier s)).
  - unfold rpc_AckDataChange. erewrite run_client; [reflexivity|]. intros c. apply run_call.
  - unfold rpc_RegisterPushToken. erewrite run_client; [reflexivity|]. intros c. unfold RegisterPushToken_p, RegisterPushToken.
    rewrite same_store. destruct (_ =? _)%string; [done|]. destruct (_ =? _)%string; [done|].
    run_calls (nStore (srvNotifier s)).
Qed.

(** One after the other, in the order of a history. *)
Lemma run_all_rpcs cs : forall w, run_all (rpc_p s P <$> cs) w = serve_all s cs w.
Proof.
  induction cs as [|c cs IH]; intros w; [done|]. rewrite fmap_cons. cbn [run_all serve_all]. unfold_M. rewrite run_rpc.
  destruct (serve_rpc s c w) as [w1 a]. by rewrite IH.
Qed.
End alone.

(** ** What they need of the server *)

(** One store, [P] round trip by round trip, is behind the orchestrator and the
    handlers; the clocks, the providers and the retry tracker leave it alone, and it
    can hold the statuses. *)
Class ParallelServer {X} (s : Server X) (P : StoreP (Process X)) {HD : Driver P} : Prop := {
  par_store : Granular P (nStore (srvNotifier s));
  par_same : chStore (srvHandler s) = nStore (srvNotifier s);
  par_now : quiet P (nNow (srvNotifier s));
  par_send : forall kind p m, Get (nProviders (srvNotifier s)) kind = Some p -> mTo m <> "" -> quiet P (Send p m);
  par_receipt : forall kind p m w w' r, Get (nProviders (srvNotifier s)) kind = Some p ->
    Send p m w = (w', (r, None)) -> rStatus r = "" \/ fits (rStatus r);
  par_statuses : Forall fits [StatusPending; StatusDelivered; StatusFailed; StatusRead];
  par_clock : quiet P (chNow (srvHandler s));
  par_ack : forall ack key sess, chStream (srvHandler s) = Some ack -> quiet P (ack key sess);
}.

(** ** The handlers under interference *)

Section handlers.
Context {X : Type} `{MapOrder} (s : Server X) (P : StoreP (Process X)) {HD : Driver P} {HS : ParallelServer s P}.
Context (allowed : string -> string -> Prop).
Implicit Types (w : Process X).
Notation rel := (rel P allowed).
Notation ok := (ok P allowed).
Notation n := (srvNotifier s).
Notation rows w := (abs_rows (view (P := P) w)).
Notation devs w := (abs_devs (view (P := P) w)).
Notation whole := (whole (P := P)).
Notation has_row := (has_row P).

(** The texts of a request, and those of a caller. *)
Definition request_texts (r : NotifyRequest) : list string :=
  [rTenantID r; rNotificationID r; rSubjectRef r; rSubjectType r; rTitle r; rBody r].

Definition request_fits (r : NotifyRequest) : Prop :=
  Forall fits (request_texts r) /\ Forall fits (rUserIDs r) /\ Forall fits (channels_of n r).

Definition caller_fits (authz : string) : Prop := forall t u, caller s authz t u -> fits t /\ fits u.

(** The store can hold the texts of the RPC and takes its id as it is written. *)
Definition rpc_fits (c : Rpc) : Prop :=
  match c with
  | RNotify _ req => request_fits (notifyRequestFromProto req)
  | RGetNotifications authz _ => caller_fits authz
  | RAckNotification authz req => caller_fits authz /\ legible (TrimSpace (GetId req))
  | RAckDataChange _ _ => True
  | RRegisterPushToken authz req =>
      caller_fits authz /\ fits (deviceTypeFromProto (GetTokenDeviceType req)) /\ fits (TrimSpace (GetToken req))
  end.

Lemma status_fits st : st ∈ [StatusPending; StatusDelivered; StatusFailed; StatusRead] -> fits st.
Proof. apply Forall_forall, par_statuses. Qed.

Lemma row_fits req u kind ms : Forall fits (request_texts req) -> fits u -> fits kind ->
  op_fits fits legible (OpCreate (new_row req u kind ms)).
Proof.
  intros Hr Hu Hk. split; [done|]. unfold request_texts in Hr. unfold notification_texts.
  repeat match goal with H : Forall _ (_ :: _) |- _ => apply Forall_cons in H as [? H] end.
  repeat (apply Forall_cons_2; [done|]). apply Forall_singleton. apply status_fits. by left.
Qed.

(** What a stage of the fan-out returns. *)
Definition counted (k : Z) (res : NotifyResult) (out : NotifyResult * option error) : Prop :=
  out.2 = None /\ total out.1 = total res + k /\ counts_le res out.1.

Lemma counted_one res d p f : d + p + f = total res + 1 ->
  Delivered res <= d -> Pending res <= p -> Failed res <= f -> counted 1 res (mkNotifyResult d p f, None).
Proof. intros. unfold counted, total, counts_le in *. cbn. by split_and!. Qed.

Lemma notify_one_ok req u kind res w : whole w -> Forall fits (request_texts req) -> fits u -> fits kind ->
  allowed (rTenantID req) u ->
  ok (fun out w' => counted 1 res out /\ present (rows w') (key_for req u)) (notify_one_p n P req u kind res) w.
Proof.
  intros Hi Hreq Hfu Hfk Hu. unfold notify_one_p, call. cbn.
  pose proof (par_now (s := s) (P := P)) as Hnow. apply ok_quiet; [exact Hnow|]. intros ms w1 Hr1. apply ok_bind; [apply Hr1|].
  eapply ok_mono; [apply rely_create; [apply Hr1|by apply row_fits|exact Hu]|].
  intros [row created] w2 Hr2 (c & Hc & Hleg & Hrow). cbn in Hc, Hleg, Hrow. subst created. change (key_of (new_row req u kind ms)) with (key_for req u) in Hrow.
  assert (Hend : forall w' res', rel w2 w' -> counted 1 res (res', None) ->
    ok (fun out w' => counted 1 res out /\ present (rows w') (key_for req u)) (Ret (res', None)) w').
  { intros w' res' Hr' Hcnt. apply ok_ret. intros w0 Hw0. split; [done|]. eapply has_row_present, has_row_rel; [exact Hw0|].
    by eapply has_row_rel. }
  assert (Hpending : counted 1 res (mkNotifyResult (Delivered res) (Pending res + 1) (Failed res), None))
    by (apply counted_one; unfold total; lia).
  pose proof (rel_refl P allowed w2 (rel_inv _ _ _ _ Hr2)) as Hrefl.
  destruct (Get (nProviders n) kind) as [p|] eqn:Hp; [|by apply Hend].
  destruct (String.eqb_spec (addressFor req u kind) "") as [Hto|Hto]; [by apply Hend|]. cbn.
  apply ok_do. intros w3 Hr3. pose proof (par_send (P := P) kind p (message_for req row (addressFor req u kind)) Hp Hto w3 (rel_inv _ _ _ _ Hr3)) as Hq.
  pose proof (par_receipt (P := P) kind p (message_for req row (addressFor req u kind)) w3) as Hst.
  destruct (Send p _ w3) as [w4 [receipt err]]. cbn in Hq. specialize (Hst w4 receipt Hp).
  assert (Hr34 : rel w3 w4) by (destruct Hq; by apply rel_quiet). split; [exact Hr34|]. assert (Hr4 : rel w2 w4) by (by eapply rel_trans).
  assert (Hupdate : forall st ms w5 res' (f : option error -> Prog (Process X) (NotifyResult * option error)), fits st -> rel w4 w5 ->
    f None = Ret (res', None) -> counted 1 res (res', None) ->
    ok (fun out w' => counted 1 res out /\ present (rows w') (key_for req u))
      (UpdateStatus_p P (rTenantID req) (nID row) st ms ≫= f) w5).
  { intros st ms5 w5 res' f Hfs Hr5 Hf Hcnt. apply ok_bind; [apply Hr5|]. eapply ok_mono.
    - apply (rely_update P allowed _ _ _ _ (key_for req u)); [apply Hr5|split; [by inversion Hreq|by split]| |done|done].
      eapply has_row_rel; [|exact Hrow]. by eapply rel_trans.
    - intros e w6 Hr6 ->. rewrite Hf. apply Hend; [|done]. eapply rel_trans; [exact Hr4|]. by eapply rel_trans. }
  destruct err as [err|]; cbn; (apply ok_quiet; [exact Hnow|]); intros ms5 w5 Hr5;
    (eapply Hupdate; [|exact Hr5|reflexivity|apply counted_one; unfold total; lia]).
  - apply status_fits. do 2 right. by left.
  - destruct (String.eqb_spec (rStatus receipt) "") as [He|He]; [apply status_fits; right; by left|]. by destruct (Hst eq_refl).
Qed.

Lemma present_rel k w w' : rel w w' -> present (rows w) k -> present (rows w') k.
Proof. intros [_ Hev _]. by apply evolves_present with (allowed_key allowed). Qed.

Lemma counted_trans k1 k2 r1 r2 out : counted k1 r1 (r2, None) -> counted k2 r2 out -> counted (k1 + k2) r1 out.
Proof. unfold counted, counts_le. cbn. intros (_ & H1 & ?) (H2 & H3 & ?). split_and!; [done|lia..]. Qed.

Lemma notify_channels_ok req u kinds : forall res w, whole w -> Forall fits (request_texts req) -> fits u -> Forall fits kinds ->
  allowed (rTenantID req) u ->
  ok (fun out w' => counted (Z.of_nat (length kinds)) res out /\ (kinds <> [] -> present (rows w') (key_for req u)))
    (notify_channels_p n P req u kinds res) w.
Proof.
  induction kinds as [|kind kinds IH]; intros res w Hi Hreq Hfu Hfk Hu; cbn [notify_channels_p].
  { apply ok_ret. intros w0 _. split; [|done]. unfold counted, counts_le; cbn; split_and!; lia || done. }
  apply Forall_cons in Hfk as [Hfk Hfks]. apply ok_bind; [done|]. eapply ok_mono; [by apply notify_one_ok|].
  intros [res1 err] w1 Hr1 [Hc Hpres]. pose proof (proj1 Hc) as He; cbn in He; subst err.
  eapply ok_mono; [by apply IH; [apply Hr1|..]|]. intros out w2 Hr2 [Hc2 _]. split.
  - replace (Z.of_nat (length (kind :: kinds))) with (1 + Z.of_nat (length kinds)) by (cbn; lia). by eapply counted_trans.
  - intros _. by eapply present_rel.
Qed.

Lemma notify_users_ok req users kinds : forall res w, whole w -> Forall fits (request_texts req) -> Forall fits users -> Forall fits kinds ->
  (forall u, u ∈ users -> allowed (rTenantID req) u) ->
  ok (fun out w' => counted (Z.of_nat (length users) * Z.of_nat (length kinds)) res out /\
        (kinds <> [] -> forall u, u ∈ users -> present (rows w') (key_for req u)))
    (notify_users_p n P req users kinds res) w.
Proof.
  induction users as [|u users IH]; intros res w Hi Hreq Hfu Hfk Hu; cbn [notify_users_p].
  { apply ok_ret. intros w0 _. split; [|intros _ u Hin; by apply not_elem_of_nil in Hin].
    unfold counted, counts_le; cbn; split_and!; lia || done. }
  apply Forall_cons in Hfu as [Hfu Hfus]. apply ok_bind; [done|].
  eapply ok_mono; [apply notify_channels_ok; [done..|apply Hu; by left]|].
  intros [res1 err] w1 Hr1 [Hc Hpres]. pose proof (proj1 Hc) as He; cbn in He; subst err.
  eapply ok_mono; [apply IH; [apply Hr1|done..|intros v Hv; apply Hu; by right]|]. intros out w2 Hr2 [Hc2 Hpres2]. split.
  - replace (Z.of_nat (length (u :: users)) * Z.of_nat (length kinds))
      with (Z.of_nat (length kinds) + Z.of_nat (length users) * Z.of_nat (length kinds)) by (cbn; lia).
    by eapply counted_trans.
  - intros Hk v [->|Hv]%elem_of_cons; [|by apply Hpres2]. eapply present_rel; [exact Hr2|]. by apply Hpres.
Qed.

Lemma ack_ok claims req w : whole w -> fits (TenantID claims) -> fits (UserID claims) -> legible (TrimSpace (GetId req)) ->
  allowed (TenantID claims) (UserID claims) ->
  ok (fun r _ => TrimSpace (GetId req) <> "" ->
        (exists row, rows w !! TrimSpace (GetId req) = Some row /\ owned (TenantID claims) (UserID claims) row) ->
        r = Ok mkAckNotificationResponse)
    (AckNotification_p (srvHandler s) P claims req) w.
Proof.
  intros Hi Hft Hfu Hleg Ha. unfold AckNotification_p, call. set (id := TrimSpace (GetId req)).
  destruct (String.eqb_spec id "") as [Hid|Hid]; [by apply ok_ret|].
  apply ok_bind; [done|]. eapply ok_mono; [by apply rely_get|]. intros [row|err] w1 Hr1 Hget.
  - destruct Hget as [Hrow [Ho1 Ho2]]. cbn. apply ok_quiet; [apply par_clock|]. intros ms w2 Hr2.
    apply ok_bind; [apply Hr2|]. eapply ok_mono.
    + apply (rely_update P allowed _ _ _ _ (key_of row)); [apply Hr2| |by eapply has_row_rel|done|].
      { split; [done|]. split; [apply status_fits; do 3 right; by left|done]. }
      unfold allowed_key. cbn. by rewrite Ho1, Ho2.
    + intros e w3 _ ->. by apply ok_ret.
  - destruct Hget as [_ Hno]. apply ok_ret. intros w2 _ _ (row & Hrow & Ho). by destruct (Hno row Hrow).
Qed.

Lemma read_page_ok claims req w : whole w -> fits (TenantID claims) -> fits (UserID claims) ->
  ok (fun r w' => GetCursor req = "" -> exists page, r = Ok page /\
        forall v, v ∈ gnNotifications page -> exists row, rows w' !! pbId v = Some row /\ owned (TenantID claims) (UserID claims) row)
    (GetNotifications_p P claims req) w.
Proof.
  intros Hi Hft Hfu. unfold GetNotifications_p. destruct (Handlers.page_query claims req) as [q|err] eqn:Hq.
  2:{ apply ok_ret. intros w0 _ Hc. unfold Handlers.page_query in Hq. by rewrite Hc in Hq. }
  assert (Hown : qTenantID q = TenantID claims /\ qUserID q = UserID claims).
  { unfold Handlers.page_query in Hq. destruct (negb _); [destruct (decodeCursor _)|]; by simplify_eq/=. }
  destruct Hown as [Ht Hu]. rewrite <- Ht in Hft |- *. rewrite <- Hu in Hfu |- *.
  apply ok_bind; [done|]. eapply ok_mono; [apply ok_stable, rely_query; [done|by split]|].
  intros r w1 _ Hquery. apply ok_ret. intros w2 Hw2 _.
  destruct (Hquery w2 Hw2) as (items & cursor & unread & -> & Hitems). eexists. split; [done|]. cbn.
  intros v (nn & -> & Hn)%list_elem_of_fmap. cbn. by apply Hitems.
Qed.

Definition device_stored (claims : Claims) (req : option RegisterPushTokenRequest)
    (r : result error RegisterPushTokenResponse) w' : Prop :=
  let dt := deviceTypeFromProto (GetTokenDeviceType req) in
  dt <> "" -> TrimSpace (GetToken req) <> "" -> r = Ok mkRegisterPushTokenResponse /\
  exists id d, devs w' !! id = Some d /\ dkey_of d = mkDevKey (TenantID claims) (UserID claims) dt.

Lemma register_ok claims req w : whole w -> fits (TenantID claims) -> fits (UserID claims) ->
  fits (deviceTypeFromProto (GetTokenDeviceType req)) -> fits (TrimSpace (GetToken req)) -> allowed (TenantID claims) (UserID claims) ->
  ok (device_stored claims req) (RegisterPushToken_p (srvHandler s) P claims req) w.
Proof.
  intros Hi Hft Hfu Hfd Hftok Ha. unfold RegisterPushToken_p, call. set (dt := deviceTypeFromProto (GetTokenDeviceType req)).
  destruct (String.eqb_spec dt ""); [by apply ok_ret|]. destruct (String.eqb_spec (TrimSpace (GetToken req)) ""); [by apply ok_ret|].
  cbn. apply ok_quiet; [apply par_clock|]. intros ms w1 Hr1.
  apply ok_bind; [apply Hr1|]. eapply ok_mono; [apply ok_stable, rely_upsert; [apply Hr1|split; [done|by repeat (constructor; [done|])]|exact Ha]|].
  intros [d r] w2 _ Hstored. apply ok_ret. intros w3 Hw3 _ _.
  destruct (Hstored w3 Hw3) as (d' & Hr & id & x & Hx & Hk). cbn in Hr. subst r. split; [done|]. by exists id, x.
Qed.

(** What the answer to an RPC says, and what is in the store when all are done. *)
Definition served (w : Process X) (c : Rpc) (a : Reply) (w' : Process X) : Prop :=
  match c with
  | RNotify token req =>
      admitted s token -> notify_valid req ->
      let r := notifyRequestFromProto req in
      let pairs := Z.of_nat (length (rUserIDs r)) * Z.of_nat (length (channels_of n r)) in
      exists rsp, a = ANotify (Ok rsp) /\
        (pairs < 2 ^ 31 -> pDelivered rsp + pPending rsp + pFailed rsp = pairs) /\
        (channels_of n r <> [] -> forall u, u ∈ rUserIDs r ->
           present (rows w') (mkNotifKey (rTenantID r) u (rNotificationID r)))
  | RGetNotifications authz req =>
      forall t u, caller s authz t u -> GetCursor req = "" ->
      exists page, a = AGetNotifications (Ok page) /\
        forall v, v ∈ gnNotifications page -> exists row, rows w' !! pbId v = Some row /\ owned t u row
  | RAckNotification authz req =>
      forall t u row, caller s authz t u -> TrimSpace (GetId req) <> "" ->
      rows w !! TrimSpace (GetId req) = Some row -> owned t u row ->
      a = AAckNotification (Ok mkAckNotificationResponse)
  | RAckDataChange authz req => True
  | RRegisterPushToken authz req =>
      forall t u, caller s authz t u ->
      let dt := deviceTypeFromProto (GetTokenDeviceType req) in
      dt <> "" -> TrimSpace (GetToken req) <> "" ->
      a = ARegisterPushToken (Ok mkRegisterPushTokenResponse) /\
      exists id d, devs w' !! id = Some d /\ dkey_of d = mkDevKey t u dt
  end.

(** A client RPC, given what its handler does. *)
Lemma client_ok {A} (Q : Reply -> Process X -> Prop) authz (handler : Claims -> Prog (Process X) (result error A))
    (wrap : result error A -> Reply) w : whole w ->
  ((forall claims, srvAuth s authz <> Ok claims) -> forall r w', Q (wrap r) w') ->
  (forall claims, srvAuth s authz = Ok claims ->
     ok (fun r w' => Q (wrap (recovered r)) w') (handler claims) w) ->
  ok Q (r ← client_p s authz handler; mret (wrap r)) w.
Proof.
  intros Hi Hrefused Hrun. unfold client_p, recovery_p. destruct (srvAuth s authz) as [claims|err] eqn:Ha.
  - apply ok_bind; [done|]. apply ok_bind; [done|]. eapply ok_mono; [by apply ok_stable, Hrun|].
    intros r w1 Hr1 HQ. apply ok_ret. intros w2 Hw2. apply ok_ret. intros w3 Hw3. apply HQ. by eapply rel_trans.
  - apply ok_ret. intros w0 _. apply Hrefused. congruence.
Qed.

Lemma caller_claims authz claims t u : srvAuth s authz = Ok claims -> caller s authz t u ->
  TenantID claims = t /\ UserID claims = u.
Proof. intros Ha (c & Hc & Ht & Hu). assert (c = claims) as -> by congruence. done. Qed.

Lemma claims_caller authz claims : srvAuth s authz = Ok claims -> caller s authz (TenantID claims) (UserID claims).
Proof. by exists claims. Qed.

Lemma refusal_admitted token : match internal_refusal s token with
  | None => admitted s token
  | Some _ => ~ admitted s token
  end.
Proof.
  unfold internal_refusal, admitted. set (e := acInternalToken (cfgAuth (srvCfg s))).
  destruct (String.eqb_spec e "") as [He|He]; [destruct (acDevMode _); [by right|intros [[? _]|[_ ?]]; done]|].
  destruct (String.eqb_spec token ""); [intros [[_ ?]|[? _]]; congruence|].
  destruct (String.eqb_spec token e); cbn [negb]; [by left|intros [[_ ?]|[? _]]; congruence].
Qed.

(** What Notify answers. *)
Definition notified (req : option NotifyRequestPB) (r : result error NotifyResponse) w' : Prop :=
  notify_valid req ->
  let rq := notifyRequestFromProto req in
  let pairs := Z.of_nat (length (rUserIDs rq)) * Z.of_nat (length (channels_of n rq)) in
  exists rsp, r = Ok rsp /\ (pairs < 2 ^ 31 -> pDelivered rsp + pPending rsp + pFailed rsp = pairs) /\
    (channels_of n rq <> [] -> forall u, u ∈ rUserIDs rq -> present (rows w') (key_for rq u)).

Lemma internal_Notify_ok req w : whole w -> request_fits (notifyRequestFromProto req) ->
  (forall u, u ∈ GetUserIds req -> allowed (GetTenantId req) u) ->
  ok (notified req) (internal_Notify_p n P req) w.
Proof.
  intros Hi (Hft & Hfu & Hfc) Hu. unfold internal_Notify_p. destruct req as [i|]; [|apply ok_ret; by intros w0 _ [? _]].
  pose proof (validate_spec (Some i)) as Hv. destruct (validateNotifyRequest (Some i)); [apply ok_ret; by intros w0 _ ?|].
  apply ok_bind; [done|]. eapply ok_mono; [apply ok_stable, notify_users_ok; [done..|exact Hu]|].
  intros [res err] w1 Hr1 HQ. destruct (HQ w1 (rel_refl _ _ _ (rel_inv _ _ _ _ Hr1))) as [(He & Htot & Hle) _]. cbn [fst snd] in He, Htot, Hle. subst err.
  apply ok_ret. intros w2 Hw2 _. eexists. split; [done|]. split.
  - intros Hsmall. unfold total, counts_le in *. cbn [pDelivered pPending pFailed Delivered Pending Failed] in *. apply int32_sum_small; [tauto..|by rewrite Htot|done].
  - destruct (HQ w2 Hw2) as [_ Hp]. exact Hp.
Qed.

(** Each RPC in the pool. *)
Lemma rpc_ok c w : whole w -> rpc_fits c -> (forall t u, touches s t u c -> allowed t u) -> ok (served w c) (rpc_p s P c) w.
Proof.
  intros Hi Hf Hall. destruct c as [token req|authz req|authz req|authz req|authz req]; cbn [rpc_p].
  - pose proof (refusal_admitted token) as Ha. unfold recovery_p. destruct (internal_refusal s token).
    { apply ok_ret. by intros w0 _ ?. }
    apply ok_bind; [done|]. apply ok_bind; [done|].
    eapply ok_mono; [apply ok_stable, internal_Notify_ok; [done..|intros u Hu; by apply Hall]|].
    intros r w1 Hr1 HQ. apply ok_ret. intros w2 Hw2. apply ok_ret. intros w3 Hw3 _ Hv.
    destruct (HQ w3 (rel_trans _ _ _ _ _ Hw2 Hw3) Hv) as (rsp & -> & Hsum & Hp). exists rsp. done.
  - apply client_ok; [done|intros Hno r w' t u (c & Hc & _); by destruct (Hno c)|]. intros claims Ha.
    destruct (Hf _ _ (claims_caller _ _ Ha)) as [Hft Hfu]. eapply ok_mono; [by apply read_page_ok|]. intros r w1 _ HQ t u Hc Hcur.
    destruct (caller_claims _ _ _ _ Ha Hc) as [<- <-]. destruct (HQ Hcur) as (page & -> & Hp). by exists page.
  - apply client_ok; [done|intros Hno r w' t u row (c & Hc & _); by destruct (Hno c)|]. intros claims Ha.
    destruct Hf as [Hf Hleg]. destruct (Hf _ _ (claims_caller _ _ Ha)) as [Hft Hfu].
    eapply ok_mono; [apply ack_ok; [done..|apply Hall; by apply claims_caller]|]. intros r w1 _ HQ t u row Hc Hid Hrow Ho.
    destruct (caller_claims _ _ _ _ Ha Hc) as [<- <-]. rewrite HQ; [done|done|by exists row].
  - apply client_ok; [done|done|]. intros claims Ha. unfold AckDataChange_p, call. apply ok_quiet.
    + intros v Hv. unfold AckDataChange. destruct (_ || _); [done|]. pose proof (par_ack (s := s) (P := P)) as Hl.
      destruct (chStream (srvHandler s)) as [ack|]; [|done]. unfold_M.
      specialize (Hl ack (TrimSpace (GetIdempotencyKey req)) (TrimSpace (GetSessionId req)) eq_refl v Hv).
      by destruct (ack _ _ v).
    + intros r w' _. by apply ok_ret.
  - apply client_ok; [done|intros Hno r w' t u (c & Hc & _); by destruct (Hno c)|]. intros claims Ha.
    destruct Hf as (Hf & Hfd & Hftok). destruct (Hf _ _ (claims_caller _ _ Ha)) as [Hft Hfu].
    eapply ok_mono; [apply register_ok; [done..|apply Hall; by apply claims_caller]|]. intros r w1 _ HQ t u Hc dt Hdt Htok.
    destruct (caller_claims _ _ _ _ Ha Hc) as [<- <-]. by destruct (HQ Hdt Htok) as [-> ?].
Qed.
End handlers.

Lemma same_on_dev_evolves (allowed : string -> string -> Prop) t u m m' :
  dev_evolves allowed m m' -> ~ allowed t u -> same_on (dev_owned t u) m m'.
Proof.
  intros [H1 H2] Hna id d [<- <-]. split.
  - intros Hd. destruct (H1 id d Hd) as (d' & Hd' & _ & Hsame). by rewrite Hsame in Hd'.
  - intros Hd'. destruct (m !! id) as [d0|] eqn:Hd; [|by destruct (Hna (H2 id d Hd' Hd))].
    destruct (H1 id d0 Hd) as (d1 & Hd1' & Hk & Hsame). assert (d1 = d) as -> by congruence.
    injection Hk as Ht Hu _. rewrite Hsame; [done|]. by rewrite <- Ht, <- Hu.
Qed.

(** On a store that can hold every text. *)
Lemma rpc_fits_all {X} `{MapOrder} (s : Server X) (P : StoreP (Process X)) {HD : Driver P} c :
  (forall text, fits text) -> match c with RAckNotification _ req => legible (TrimSpace (GetId req)) | _ => True end ->
  rpc_fits s P c.
Proof.
  intros Hf Hl. assert (Hall : forall l, Forall fits l) by (intros l; by apply Forall_forall).
  destruct c; cbn in *; unfold request_fits, caller_fits; auto 10.
Qed.

(** C10: RPCs in parallel are as good as RPCs one after the other.  For every set of RPCs and every schedule
    of their round trips to the store and their calls to the clock and the providers, on each of
    the three drivers (whose operations are made, round trip by round trip, of calls of the
    abstract store), when the driver can hold the texts of the RPCs: all RPCs return; every
    admitted, valid Notify answers counters that add up to recipients times channels and has stored
    its rows, no key twice even when equal requests race; acknowledging a row of one's own that was
    there, registering a device and reading the inbox succeed and answer only rows of the
    caller; and the rows and devices of a user whom none of the RPCs concerns are untouched.
    Histories are the case in which every RPC runs to its end before the next starts. *)
Theorem rpcs_in_parallel {X : Type} `{MapOrder} (s : Server X) (P : StoreP (Process X)) {HD : Driver P}
    {HS : ParallelServer s P} (cs : list Rpc) (sched : list nat) (w : Process X) :
  whole (P := P) w -> Forall (rpc_fits s P) cs ->
  let '(w', answers) := interleave sched (rpc_p s P <$> cs) w in
  Forall2 (fun c a => served s P w c a w') cs answers /\ abs_ok (view (P := P) w') /\
  (forall t u, Forall (fun c => ~ touches s t u c) cs ->
     same_on (owned t u) (abs_rows (view (P := P) w)) (abs_rows (view (P := P) w')) /\
     same_on (dev_owned t u) (abs_devs (view (P := P) w)) (abs_devs (view (P := P) w'))) /\
  (sched = [] -> serve_all s cs w = (w', answers)).
Proof.
  intros Hi Hf. set (allowed := fun t u => Exists (touches s t u) cs).
  pose proof (interleave_ok P allowed (served s P w) cs sched (rpc_p s P <$> cs) w Hi) as Hpool.
  pose proof (run_all_rpcs (HG := par_store) s P par_same cs w) as Hseq.
  destruct (interleave sched _ w) as [w' answers] eqn:Hrun. destruct Hpool as [Hr Hs].
  { apply Forall2_fmap_r, Forall_Forall2_diag, Forall_forall. intros c Hc. apply (rpc_ok s P allowed); [done|by eapply Forall_forall|].
    intros t u Ht. apply Exists_exists. by exists c. }
  split; [done|]. split; [apply driver_ok, Hr|]. split; [|by intros ->; rewrite <- Hseq]. intros t u Hno.
  assert (Hna : ~ allowed t u) by (intros Hex; by apply (Forall_not_Exists _ _ Hno)).
  destruct Hr as [_ Hrows Hdevs]. split; [eapply same_on_evolves; [exact Hrows|]; intros r [<- <-]; exact Hna|].
  by eapply same_on_dev_evolves.
Qed.

(** ** The drivers behind a wired server *)

(** What NewWithDeps builds on a driver whose state is one part of the process. *)
Section wired.
Context {X Q : Type} `{MapOrder} (get : Process X -> Q) (put : Q -> Process X -> Process X)
  (get_put : forall q w, get (put q w) = q) (put_put : forall q q' w, put q (put q' w) = put q w)
  (put_get : forall w, put (get w) w = w)
  (off_streams : forall st w, get (set_streams st w) = get w) (off_tracker : forall tr w, get (set_tracker tr w) = get w).
Context (SP : StoreP Q) (S : Store Q) {HG : Granular SP S} {HD : Driver SP}
  (statuses : Forall fits [StatusPending; StatusDelivered; StatusFailed; StatusRead]).
Context (timeNow : M (Process X) Z) (cfg : Config) (providers : ProviderRegistry (Process X)) (auth : AuthValidator)
  (closer : option (M (Process X) (option error))) (clock : M (Process X) Z)
  (Hclock : off_storage get clock)
  (Hproviders : forall kind p, Get providers kind = Some p -> ProviderContract p /\ forall m, off_storage get (Send p m)).

Lemma off_storage_quiet {A} (m : M (Process X) A) : off_storage get m ->
  quiet (lift_store_p get put SP) (HD := lift_driver get put get_put SP) m.
Proof. intros Hm w Hi. specialize (Hm w). cbn in *. by rewrite Hm. Qed.

Lemma wired_parallel : ParallelServer (wired timeNow cfg (lift_store get put S) (wired_providers cfg providers) auth closer clock)
  (lift_store_p get put SP) (HD := lift_driver get put get_put SP).
Proof.
  assert (Hwired : forall kind p, Get (wired_providers cfg providers) kind = Some p ->
    ProviderContract p /\ forall m, off_storage get (Send p m)).
  { intros kind p [Hp|[-> ->]]%wired_provider; [by eapply Hproviders|]. split; [apply inapp_provider_contract|].
    intros m w. unfold inapp_provider, lift. cbn [Send]. destruct (Send newInAppProvider m (streams w)). apply off_streams. }
  split.
  - by apply lift_granular.
  - done.
  - by apply off_storage_quiet.
  - intros kind p m Hp _. apply off_storage_quiet. by apply (Hwired kind p Hp).
  - intros kind p m w w' r Hp Hs. right. destruct (Hwired kind p Hp) as [Hc _].
    assert (Hst : rStatus r ∈ [StatusPending; StatusDelivered; StatusFailed; StatusRead]).
    { destruct (send_accepted (p := p) m w w' r Hs) as [-> | ->]; [right; by left|by left]. }
    by eapply Forall_forall in Hst.
  - done.
  - by apply off_storage_quiet.
  - intros ack key sess Hack. apply off_storage_quiet. intros w. cbn in Hack.
    destruct (lcEnabled (LiveConnections cfg)); [|done]. injection Hack as <-. apply off_tracker.
Qed.
End wired.

(** The development deployment on EntDB and on Postgres, as cmd/notifyd wires them. *)
Definition deployed : Type := Tables * MemEnt.

Definition noon : M (Process deployed) Z := mret 1700000000000.

Definition deployment (store : Store (Process deployed)) : Server deployed :=
  wired noon dev_config store (wired_providers dev_config NewProviderRegistry) dev_Validate None noon.

Definition ent_demo := deployment (lift_store entdb set_entdb (EntdbStore mem_sdk "main")).
Definition pg_demo := deployment (lift_store database set_database (PostgresStore sample_pool draw)).

Definition ent_demo_p : StoreP (Process deployed) := lift_store_p entdb set_entdb (EntdbStoreP mem_sdk "main").
Definition pg_demo_p : StoreP (Process deployed) := lift_store_p database set_database (PostgresStoreP sample_pool draw).

Definition ent_demo_driver : Driver ent_demo_p :=
  lift_driver entdb set_entdb (fun _ _ => eq_refl) (EntdbStoreP mem_sdk "main")
    (HD := @ent_driver _ mem_sdk "main" (mem_sdk_laws "main")).
Definition pg_demo_driver : Driver pg_demo_p :=
  lift_driver database set_database (fun _ _ => eq_refl) (PostgresStoreP sample_pool draw)
    (HD := @pg_driver _ sample_pool draw sample_pool_laws).

Lemma ent_demo_parallel : ParallelServer ent_demo ent_demo_p (HD := ent_demo_driver).
Proof.
  apply wired_parallel; try done.
  - by intros [? ? ? ? ? ? ? []].
  - apply ent_granular.
  - by repeat constructor.
Qed.

Lemma pg_demo_parallel : ParallelServer pg_demo pg_demo_p (HD := pg_demo_driver).
Proof.
  apply wired_parallel; try done.
  - by intros [? ? ? ? ? ? ? []].
  - apply pg_granular.
  - by repeat constructor.
Qed.

(** The memory driver of buildStore, one step per operation. *)
Definition mem_demo_p : StoreP (Process deployed) := lift_store_p mem set_mem (atomic (MemoryStore (H := sample_order) sample_uuid)).

Definition mem_demo_driver : Driver mem_demo_p :=
  lift_driver mem set_mem (fun _ _ => eq_refl) (atomic (MemoryStore (H := sample_order) sample_uuid))
    (HD := @atomic_driver _ _ (memory_laws (H := sample_order) sample_uuid sample_uuid_inj sample_uuid_nonempty)).

Lemma mem_demo_parallel :
  ParallelServer (deployment (process_store (H := sample_order) sample_uuid)) mem_demo_p (HD := mem_demo_driver).
Proof.
  apply wired_parallel; try done.
  - by intros [? ? ? ? ? ? ? []].
  - apply atomic_granular.
  - by repeat constructor.
Qed.

Definition demo_process : Process deployed :=
  mkProcess New no_streams (NewRetryTracker 3) true ∅ 0 ∅ (empty_tables, empty_ent).

Definition demo_rpcs : list Rpc := [order_shipped; order_shipped; ack_by "u1" "uuid-0"; inbox_of "u2"].
Definition demo_schedule : list nat := [0; 1; 0; 1; 0; 1; 2; 3; 1; 0; 2; 1; 1; 0; 3]%nat.

Lemma demo_rpcs_fit `{MapOrder} {X} (s : Server X) (P : StoreP (Process X)) {HD : Driver P} :
  (forall text, fits text) -> legible "uuid-0" -> Forall (rpc_fits s P) demo_rpcs.
Proof.
  intros Hf Hl. unfold demo_rpcs. repeat (apply Forall_cons; split); [by apply rpc_fits_all..| | |constructor].
  - split; [done|]. replace (TrimSpace _) with "uuid-0" by (vm_compute; reflexivity). exact Hl.
  - done.
Qed.

(** Two equal requests, an acknowledgement and a read, on EntDB and on Postgres. *)
Lemma rpcs_in_parallel_witness :
  (let '(w', answers) := interleave demo_schedule (rpc_p (H := sample_order) ent_demo ent_demo_p <$> demo_rpcs) demo_process in
   length (map_to_list (meNodes (entdb w'))) = 2%nat /\
   Forall2 (fun c a => served (H := sample_order) ent_demo ent_demo_p (HD := ent_demo_driver) demo_process c a w') demo_rpcs answers) /\
  (let '(w', answers) := interleave demo_schedule (rpc_p (H := sample_order) pg_demo pg_demo_p <$> demo_rpcs) demo_process in
   length (map_to_list (tnotifs (database w'))) = 2%nat /\
   Forall2 (fun c a => served (H := sample_order) pg_demo pg_demo_p (HD := pg_demo_driver) demo_process c a w') demo_rpcs answers).
Proof.
  split.
  - pose proof (rpcs_in_parallel (H := sample_order) ent_demo ent_demo_p (HD := ent_demo_driver) (HS := ent_demo_parallel)
      demo_rpcs demo_schedule demo_process empty_ent_inv) as Hp.
    destruct (interleave _ _ _) as [w' answers] eqn:He. destruct Hp as [Hs _].
    { by apply demo_rpcs_fit. }
    split; [|exact Hs]. apply (f_equal (fun o => length (map_to_list (meNodes (entdb o.1))))) in He.
    etransitivity; [symmetry; exact He|]. vm_compute. reflexivity.
  - pose proof (rpcs_in_parallel (H := sample_order) pg_demo pg_demo_p (HD := pg_demo_driver) (HS := pg_demo_parallel)
      demo_rpcs demo_schedule demo_process empty_tables_inv) as Hp.
    destruct (interleave _ _ _) as [w' answers] eqn:He. destruct Hp as [Hs _].
    { apply demo_rpcs_fit; [done|]. left. reflexivity. }
    split; [|exact Hs]. apply (f_equal (fun o => length (map_to_list (tnotifs (database o.1))))) in He.
    etransitivity; [symmetry; exact He|]. vm_compute. reflexivity.
Defined.
