(* ===== verification/Service.v ===== *)
(** * What cmd/notifyd serves

    The server that main.go builds from a configuration, whichever driver it names,
    is one on which RPCs run in parallel as ConcurrentProps.v says: the store that
    buildDependencies opens is the one behind the orchestrator and the handlers, it
    is whole once it is open, and nothing that the wiring adds around it touches it.
    The channels of that server are none but the in-app one. *)

From S2P Require Import Prelude GoErrors GoStrings Model StoreSpec StoreOps Memory MemoryProps Notifier NotifierProps.
From S2P Require Import Wire Realtime Retry Stream Auth Handlers HandlersProps Duration Config ConfigProps ConfigExact Server ServerProps.
From S2P Require Import Http System Deployment Entdb EntdbProps Postgres PostgresProps PostgresSample Main MainProps.
From S2P Require Import Prog Linear Concurrent Rely Drivers LinearProps ConcurrentProps.

(** ** Opening the store *)

(** A database on the way to being opened, with migrations recorded in [applied]: [sound] says
    that its tables, where they are, are consistent and that only migrations that ran are
    recorded.  Opening a pool, the advisory lock and the schema table keep it, a bundled
    migration keeps it, and so does recording one that ran; once every bundled migration is
    recorded, a sound database is one that the driver can work on. *)
Class DatabaseLaws {D : Type} (cycle : PoolCycle D) (pool : Pool D) (newUUID : M D string)
    {HP : PgLaws pool newUUID} {HM : MigrationLaws cycle migrations} := {
  sound : D -> Prop;
  sound_whole : forall d, sound d -> list_to_set (version <$> migrations) ⊆ applied d -> pg_inv d;
  sound_new : forall cfg d, sound d -> let d' := (NewWithConfig cycle cfg d).1 in sound d' /\ applied d' = applied d;
  sound_ping : forall d, sound d -> let d' := (Ping cycle d).1 in sound d' /\ applied d' = applied d;
  sound_acquire : forall d, sound d -> sound (Acquire cycle d).1;
  sound_release : forall d, sound d -> sound (Release cycle d).1;
  sound_aux : forall sql args d, sql ∈ [lockSQL; unlockSQL; ensureSQL] -> sound d -> sound (Exec (conn cycle) sql args d).1;
  sound_versions : forall d, sound d -> sound (pgQuery (conn cycle) versionsSQL [] d).1;
  sound_run : forall m d, m ∈ migrations -> sound d -> sound (Exec (conn cycle) (mig_sql m) [] d).1;
  sound_record : forall m d, m ∈ migrations -> mig_sql m ∈ ran d -> sound d ->
    sound (Exec (conn cycle) recordSQL [PInt (version m); PText (mig_name m)] d).1;
}.

(** Creating and connecting the EntDB client leave the tenant's nodes alone. *)
Class ClientLaws {E : Type} (client : DbClient E) (tenant : string) {HEnt : EntdbLaws (dbSDK client) tenant} : Prop := {
  client_new : forall addr e, ent_inv (dbSDK client) tenant e ->
    ent_inv (dbSDK client) tenant (NewDbClient client addr SchemaMessages e).1;
  client_connect : forall e, ent_inv (dbSDK client) tenant e -> ent_inv (dbSDK client) tenant (Connect client e).1;
}.

Section opening.
Context {D : Type} (cycle : PoolCycle D) (pool : Pool D) (newUUID : M D string)
  {HP : PgLaws pool newUUID} {HM : MigrationLaws cycle migrations} {HD : DatabaseLaws cycle pool newUUID}.
Notation sound := (sound (DatabaseLaws := HD)).

Lemma migrate_loop_sound done l : l ⊆ migrations -> forall d, sound d -> sound (migrate_loop cycle l done d).1.
Proof.
  induction l as [|m l IH]; intros Hl d Hs; [exact Hs|]. cbn [migrate_loop].
  assert (Hm : m ∈ migrations) by set_solver. assert (Hl' : l ⊆ migrations) by set_solver.
  case_decide; [by apply IH|]. unfold_M.
  pose proof (sound_run m d Hm Hs) as Hs1. pose proof (mig_run m d Hm) as Hran.
  destruct (Exec (conn cycle) (mig_sql m) [] d) as [d1 [n|err]]; cbn in Hs1, Hran; [|exact Hs1].
  destruct Hran as [_ Hran]. assert (Hin : mig_sql m ∈ ran d1) by (rewrite Hran; set_solver).
  pose proof (sound_record m d1 Hm Hin Hs1) as Hs2.
  destruct (Exec (conn cycle) recordSQL _ d1) as [d2 [n2|err]]; [by apply IH|exact Hs2].
Qed.

Lemma applyMigrations_sound d : sound d -> sound (applyMigrations cycle migrations d).1.
Proof.
  intros Hs. unfold applyMigrations, migrate_locked. unfold_M.
  pose proof (sound_acquire d Hs) as H1. destruct (Acquire cycle d) as [d1 [err|]]; [exact H1|].
  pose proof (sound_aux lockSQL [PInt migrationAdvisoryLockKey] d1 ltac:(set_solver) H1) as H2.
  destruct (Exec (conn cycle) lockSQL _ d1) as [d2 [n|err]]; cbn in H2.
  2:{ pose proof (sound_release d2 H2) as H3. by destruct (Release cycle d2). }
  pose proof (sound_aux ensureSQL [] d2 ltac:(set_solver) H2) as H3.
  assert (Hend : forall d3 (e : option error), sound d3 ->
    sound (let '(w', _) := Exec (conn cycle) unlockSQL [PInt migrationAdvisoryLockKey] d3 in
           let '(w'0, _) := Release cycle w' in (w'0, e)).1).
  { intros d3 e Hs3. pose proof (sound_aux unlockSQL [PInt migrationAdvisoryLockKey] d3 ltac:(set_solver) Hs3) as H4.
    destruct (Exec (conn cycle) unlockSQL _ d3) as [d4 ?]. pose proof (sound_release d4 H4) as H5.
    by destruct (Release cycle d4). }
  destruct (Exec (conn cycle) ensureSQL [] d2) as [d3 [n3|err]]; cbn in H3; [|by apply Hend].
  pose proof (sound_versions d3 H3) as H4. destruct (pgQuery (conn cycle) versionsSQL [] d3) as [d4 [[rows rows_err]|err]]; cbn in H4; [|by apply Hend].
  destruct (scan_rows _ rows []) as [vs|err]; [|by apply Hend]. destruct rows_err; [by apply Hend|].
  pose proof (migrate_loop_sound (list_to_set vs) migrations ltac:(done) d4 H4) as H5.
  destruct (migrate_loop cycle migrations _ d4) as [d5 e]. by apply Hend.
Qed.

(** A pool that could be opened is on a whole database: with AutoMigrate whatever was recorded
    before, without when every migration was. *)
Lemma pg_New_whole cfg d d' : pg_New cycle cfg d = (d', None) -> sound d ->
  AutoMigrate cfg = true \/ list_to_set (version <$> migrations) ⊆ applied d -> pg_inv d'.
Proof.
  unfold pg_New. cbv zeta. unfold_M. destruct (validate _); [done|]. destruct (ParseConfig _ _); [done|].
  intros Hn Hs Hauto. pose proof (sound_new (applyDefaults cfg) d Hs) as [H1 Ha1].
  destruct (NewWithConfig cycle _ d) as [d1 [e|]]; cbn in H1, Ha1; [done|].
  pose proof (sound_ping d1 H1) as [H2 Ha2]. destruct (Ping cycle d1) as [d2 [e|]]; cbn in H2, Ha2.
  { by destruct (PoolClose cycle d2). }
  change (AutoMigrate (applyDefaults cfg)) with (AutoMigrate cfg) in Hn. destruct (AutoMigrate cfg).
  - pose proof (applyMigrations_sound d2 H2) as H3. pose proof (applyMigrations_progress cycle migrations d2) as Hk.
    destruct (applyMigrations cycle migrations d2) as [d3 [e|]]; [by destruct (PoolClose cycle d3)|]. destruct Hk as [k Hk].
    injection Hn as <-. apply sound_whole; [exact H3|by eapply progress_all].
  - injection Hn as <-. destruct Hauto as [?|Hall]; [done|]. apply sound_whole; [done|by rewrite Ha2, Ha1].
Qed.
End opening.

(** ** Rows that are filed and nothing else *)

(** From the rows [m] to [m']: those of before are as they were, every new one is a pending
    notification of one of the pairs, and each pair's recipient has a row of the request. *)
Definition filed (req : NotifyRequest) (pairs : list (string * ChannelKind)) (m m' : gmap string Notification) : Prop :=
  m ⊆ m' /\
  (forall id r, m' !! id = Some r -> m !! id = None ->
     exists u kind ms, (u, kind) ∈ pairs /\ r = set_nID id (new_row req u kind ms)) /\
  forall u kind, (u, kind) ∈ pairs -> present m' (key_for req u).

Lemma filed_nil req m : filed req [] m m.
Proof. split_and!; [done|intros; congruence|by intros u kind ?%not_elem_of_nil]. Qed.

Lemma present_subseteq m m' k : m ⊆ m' -> present m k -> present m' k.
Proof. intros Hsub (id & r & Hr & Hk). exists id, r. split; [by eapply lookup_weaken|done]. Qed.

Lemma filed_cons req u kind pairs m1 m2 m3 :
  filed req [(u, kind)] m1 m2 -> filed req pairs m2 m3 -> filed req ((u, kind) :: pairs) m1 m3.
Proof.
  intros (Hs1 & Hn1 & Hp1) (Hs2 & Hn2 & Hp2). split_and!; [by etrans| |].
  - intros id r Hr Hno. destruct (m2 !! id) as [r2|] eqn:Hr2.
    + assert (r2 = r) as -> by (eapply lookup_weaken in Hs2; [|exact Hr2]; congruence).
      destruct (Hn1 id r Hr2 Hno) as (u' & kind' & ms & Hin & ->). exists u', kind', ms. split; [set_solver|done].
    + destruct (Hn2 id r Hr Hr2) as (u' & kind' & ms & Hin & ->). exists u', kind', ms. split; [set_solver|done].
  - intros u' kind' [[= -> ->]|Hin]%elem_of_cons; [|by eapply Hp2]. eapply present_subseteq; [exact Hs2|].
    eapply Hp1. by left.
Qed.

Section filing.
Context {X : Type} `{MapOrder} (s : Server X) (P : StoreP (Process X)) {HD : Driver P} {HS : ParallelServer s P}.
Notation n := (srvNotifier s).

Lemma create_files req u kind ms w : whole (P := P) w -> Forall fits (request_texts req) -> fits u -> fits kind ->
  exists w' row created, CreateNotification (nStore n) (new_row req u kind ms) w = (w', (row, Ok created)) /\
    whole (P := P) w' /\ abs_devs (view (P := P) w') = abs_devs (view (P := P) w) /\
    filed req [(u, kind)] (abs_rows (view (P := P) w)) (abs_rows (view (P := P) w')).
Proof.
  intros Hi Hreq Hu Hk. set (row := new_row req u kind ms).
  pose proof (driver_op (OpCreate row) w Hi (row_fits s P req u kind ms Hreq Hu Hk)) as He.
  apply (emits_run view whole _ _ w Hi) in He. cbn [op_p] in He. rewrite run_bind in He.
  rewrite (gr_create (Granular := par_store (s := s) (P := P)) row w) in He.
  destruct (CreateNotification (nStore n) row w) as [w' [row' r]]. cbn in He.
  destruct He as [Hi' (h & Hs & [-> _])].
  inversion Hs as [|? ? ? ? ? Hstep Hnil]; subst. inversion Hnil; subst. clear Hs Hnil.
  inversion Hstep as [a n0 id Habs Hnew Hne|a n0 id r0 Hr0 Hk0| | | | | | | |]; subst;
    eexists w', row', _; (split; [done|]; split; [done|]).
  - match goal with H : mkAbs _ _ = _ |- _ => rewrite <- H end. cbn [abs_rows abs_devs]. split; [done|]. split_and!.
    + by apply insert_subseteq.
    + intros i x. rewrite lookup_insert_Some. intros [[<- <-]|[_ Hx]] Hno; [|congruence].
      exists u, kind, ms. split; [by left|done].
    + intros u' kind' [[= -> ->]|?%not_elem_of_nil]%elem_of_cons; [|done].
      eexists _, (set_nID (nID row') row). rewrite lookup_insert_eq. done.
  - match goal with H : view w = _ |- _ => rewrite <- H | H : _ = view w' |- _ => rewrite <- H end. split; [done|]. split_and!.
    + done.
    + intros; congruence.
    + intros u' kind' [[= -> ->]|?%not_elem_of_nil]%elem_of_cons; [|done]. eexists _, r0. split; [exact Hr0|exact Hk0].
Qed.

Lemma pairs_files req pairs : Forall fits (request_texts req) ->
  Forall (fun '(u, kind) => fits u /\ fits kind /\ Get (nProviders n) kind = None) pairs ->
  forall res w, whole (P := P) w ->
  exists w', notify_pairs n req pairs res w =
      (w', (mkNotifyResult (Delivered res) (Pending res + Z.of_nat (length pairs)) (Failed res), None)) /\
    whole (P := P) w' /\ abs_devs (view (P := P) w') = abs_devs (view (P := P) w) /\
    filed req pairs (abs_rows (view (P := P) w)) (abs_rows (view (P := P) w')).
Proof.
  intros Hreq. induction 1 as [|[u kind] pairs (Hu & Hk & Hget) _ IH]; intros res w Hi.
  { exists w. cbn [notify_pairs length]. rewrite Z.add_0_r. split_and!; [by destruct res|done|done|apply filed_nil]. }
  cbn [notify_pairs]. unfold_M. rewrite notify_one_unwired by done.
  pose proof (par_now (s := s) (P := P) w Hi) as Hnow. destruct (nNow n w) as [w1 ms]. cbn in Hnow. destruct Hnow as [Hv Hi1].
  destruct (create_files req u kind ms w1 Hi1 Hreq Hu Hk) as (w2 & row & created & -> & Hi2 & Hd2 & Hf2).
  destruct (IH (mkNotifyResult (Delivered res) (Pending res + 1) (Failed res)) w2 Hi2) as (w3 & -> & Hi3 & Hd3 & Hf3).
  rewrite Hv in *. exists w3. cbn [Delivered Pending Failed length]. split_and!; [|done|congruence|by eapply filed_cons].
  do 3 f_equal. lia.
Qed.
End filing.

(** ** The server *)

Section service.
Context {D E : Type} `{MapOrder} (newUUID : nat -> string)
  (parse : ParserOptions -> string -> result error (gmap string JSONValue))
  (timeNow : M (Process (D * E)) Z)
  (cycle : PoolCycle D) (pool : Pool D) (pgUUID : M D string) (client : DbClient E).
Context (newUUID_inj : forall i j, newUUID i = newUUID j -> i = j) (newUUID_nonempty : forall i, newUUID i <> "")
  {HPg : PgLaws pool pgUUID} (statuses : Forall storable [StatusPending; StatusDelivered; StatusFailed; StatusRead])
  {HM : MigrationLaws cycle migrations} {HD : DatabaseLaws cycle pool pgUUID}
  (Hclock : forall w, let w' := (timeNow w).1 in mem w' = mem w /\ ext w' = ext w).
Implicit Types (w : Process (D * E)) (cfg : Config).

(** The store that a configuration names, round trip by round trip. *)
Definition store_of cfg : StoreP (Process (D * E)) :=
  if (scDriver (cfgStore cfg) =? "postgres")%string then lift_store_p database set_database (PostgresStoreP pool pgUUID)
  else if (scDriver (cfgStore cfg) =? "entdb")%string
  then lift_store_p entdb set_entdb (EntdbStoreP (dbSDK client) (scTenantID (cfgStore cfg)))
  else lift_store_p mem set_mem (atomic (MemoryStore newUUID)).

#[export] Instance driver_of cfg {HEnt : EntdbLaws (dbSDK client) (scTenantID (cfgStore cfg))} : Driver (store_of cfg).
Proof.
  unfold store_of. destruct (_ =? "postgres")%string; [|destruct (_ =? "entdb")%string].
  - exact (lift_driver database set_database (fun _ _ => eq_refl) (PostgresStoreP pool pgUUID)).
  - exact (lift_driver entdb set_entdb (fun _ _ => eq_refl) (EntdbStoreP (dbSDK client) (scTenantID (cfgStore cfg)))).
  - exact (lift_driver mem set_mem (fun _ _ => eq_refl) (atomic (MemoryStore newUUID))
      (HD := @atomic_driver _ _ (memory_laws newUUID newUUID_inj newUUID_nonempty))).
Defined.

(** The store of the dependencies is the one the configuration names. *)
Lemma built_store cfg w0 w deps cleanup : buildDependencies cycle pool pgUUID client cfg w0 = (w, (deps, cleanup, None)) ->
  let driver := scDriver (cfgStore cfg) in
  depProviders deps = None /\ depClock deps = None /\
  (driver = "memory" /\ depStore deps = None \/
   driver = "postgres" /\ depStore deps = Some (lift_store database set_database (PostgresStore pool pgUUID)) \/
   driver = "entdb" /\
     depStore deps = Some (lift_store entdb set_entdb (EntdbStore (dbSDK client) (scTenantID (cfgStore cfg))))).
Proof.
  unfold buildDependencies, on_database, on_entdb, lift. unfold_M.
  destruct (String.eqb_spec (scDriver (cfgStore cfg)) "memory") as [Hm|Hm]; [intros [= <- <- <-]; cbn; tauto|].
  destruct (String.eqb_spec (scDriver (cfgStore cfg)) "postgres") as [Hp|Hp].
  { destruct (pg_New _ _ _) as [d [err|]]; intros [= <- <- <-]. cbn. tauto. }
  destruct (String.eqb_spec (scDriver (cfgStore cfg)) "entdb") as [He|He]; [|done].
  destruct (NewDbClient _ _ _ _) as [e1 [err|]]; [done|]. destruct (Connect _ _) as [e2 [err|]].
  { by destruct (ClientClose _ _). }
  intros [= <- <- <-]. cbn. tauto.
Qed.

Lemma clock_off {Q} (get : Process (D * E) -> Q) : (forall w w', mem w' = mem w -> ext w' = ext w -> get w' = get w) ->
  off_storage get timeNow.
Proof. intros Hg w. destruct (Hclock w). by apply Hg. Qed.

Lemma bare_provider {Q} (get : Process (D * E) -> Q) kind p : Get NewProviderRegistry kind = Some p ->
  ProviderContract p /\ forall m, off_storage get (Send p m).
Proof. unfold Get. cbn. by rewrite lookup_empty. Qed.

(** Putting a part of a process back. *)
Lemma put_part : (forall w, set_mem (mem w) w = w) /\ (forall w, set_database (database w) w = w) /\
  (forall w, set_entdb (entdb w) w = w).
Proof. split_and!; by intros [? ? ? ? ? ? ? []]. Qed.

Ltac wire_up :=
  apply wired_parallel; eauto using atomic_granular, pg_granular, ent_granular, bare_provider;
  first [apply put_part|by repeat constructor|apply clock_off; intros; unfold database, entdb; congruence].

Section start.
Context (cfg : Config) {HEnt : EntdbLaws (dbSDK client) (scTenantID (cfgStore cfg))}
  {HC : ClientLaws client (scTenantID (cfgStore cfg))}.

(** Only Postgres refuses texts, and reads ids as uuids. *)
Lemma store_takes s cs : scDriver (cfgStore cfg) <> "postgres" -> Forall (rpc_fits s (store_of cfg)) cs.
Proof.
  intros Hd. apply Forall_true. intros c. apply rpc_fits_all; unfold driver_of, store_of;
    rewrite (proj2 (String.eqb_neq _ _) Hd); destruct (_ =? "entdb")%string; by destruct c.
Qed.

(** The database before the process starts: consistent, and migrated already when the process is
    told not to migrate it; the EntDB tenant's nodes are consistent. *)
Definition in_order w : Prop :=
  let store := cfgStore cfg in
  (scDriver store = "postgres" -> sound (DatabaseLaws := HD) (database w) /\
     (scPostgresAutoMigrate store = true \/ list_to_set (version <$> migrations) ⊆ applied (database w))) /\
  (scDriver store = "entdb" -> ent_inv (dbSDK client) (scTenantID store) (entdb w)).

Lemma opened_whole w0 w deps cleanup : in_order w0 ->
  buildDependencies cycle pool pgUUID client cfg w0 = (w, (deps, cleanup, None)) ->
  (scDriver (cfgStore cfg) = "postgres" -> pg_inv (database w)) /\
  (scDriver (cfgStore cfg) = "entdb" -> ent_inv (dbSDK client) (scTenantID (cfgStore cfg)) (entdb w)).
Proof.
  intros [Hpg Hent] Hb. split; intros Hd.
  - destruct (Hpg Hd) as [Hs Hauto]. revert Hb. unfold buildDependencies, on_database, lift. unfold_M.
    rewrite Hd. cbn [String.eqb Ascii.eqb Bool.eqb]. destruct (pg_New _ _ _) as [d [err|]] eqn:Hn; [done|].
    intros [= <- _ _]. by eapply pg_New_whole.
  - specialize (Hent Hd). revert Hb. unfold buildDependencies, on_entdb, lift. unfold_M.
    rewrite Hd. cbn [String.eqb Ascii.eqb Bool.eqb].
    pose proof (client_new (scEntDBAddress (cfgStore cfg)) (entdb w0) Hent) as H1.
    destruct (NewDbClient _ _ _ _) as [e1 [err|]]; [done|]. cbn in H1.
    pose proof (client_connect e1 H1) as H2. cbn [entdb ext set_entdb set_ext fst snd].
    destruct (Connect _ _) as [e2 [err|]]; [by destruct (ClientClose _ _)|]. intros [= <- _ _]. exact H2.
Qed.

(** The server that is built on what was opened. *)
Lemma started_server w0 w deps cleanup auth :
  buildDependencies cycle pool pgUUID client cfg w0 = (w, (deps, cleanup, None)) ->
  resolve_auth parse cfg deps = Ok auth ->
  exists w1 s, NewWithDeps newUUID parse timeNow cfg deps w = (w1, Ok s) /\
    ParallelServer s (store_of cfg) /\
    ((scDriver (cfgStore cfg) = "postgres" -> pg_inv (database w)) /\
     (scDriver (cfgStore cfg) = "entdb" -> ent_inv (dbSDK client) (scTenantID (cfgStore cfg)) (entdb w)) ->
     whole (P := store_of cfg) w1).
Proof.
  intros Hb Ha. pose proof (NewWithDeps_wired newUUID parse timeNow cfg deps w auth Ha) as [Hmem Hstore].
  apply built_store in Hb as (Hpr & Hcl & Hdep). rewrite Hpr, Hcl in Hmem, Hstore. cbn [default] in Hmem, Hstore.
  unfold driver_of, store_of in *.
  destruct Hdep as [[Hd Hs]|[[Hd Hs]|[Hd Hs]]]; rewrite Hd in *; cbn -[wired rpc_fits] in *.
  - destruct (Hmem Hs eq_refl) as (w1 & -> & Hw1). eexists w1, _. split; [done|]. split; [wire_up|].
    intros _. rewrite Hw1. apply mem_inv_New.
  - destruct (Hstore _ Hs) as (w1 & -> & _ & Hw1). eexists w1, _. split; [done|]. split; [wire_up|].
    intros [Hpg _]. unfold database. rewrite Hw1. by apply Hpg.
  - destruct (Hstore _ Hs) as (w1 & -> & _ & Hw1). eexists w1, _. split; [done|]. split; [wire_up|].
    intros [_ Hent]. unfold entdb. rewrite Hw1. by apply Hent.
Qed.

Lemma store_takes_texts : scDriver (cfgStore cfg) = "postgres" ->
  (forall text, fits (P := store_of cfg) text <-> storable text) /\
  forall id, legible (P := store_of cfg) id <-> canonical_id pool pgUUID id.
Proof. intros Hd. unfold driver_of, store_of. rewrite Hd. done. Qed.

(** C39: No channel but the in-app one is ever served.  In the server that cmd/notifyd builds,
    whatever the e-mail, SMS, WhatsApp, web-push and mobile-push blocks of the configuration say,
    the enabled channels are the in-app one when live connections are on and none otherwise, and
    for every other channel Notify reads the clock, creates the row and counts it pending: no
    provider is called and no status is written.  A Notify whose channels are all of that kind,
    with texts that the driver can hold, therefore succeeds with every pair pending and none
    delivered or failed; it leaves the devices and every row from before as they were, each row
    it adds is a pending one made from the request for one of its pairs, and every recipient has
    a row of it. *)
Theorem only_in_app_wired w0 w deps cleanup w1 s :
  buildDependencies cycle pool pgUUID client cfg w0 = (w, (deps, cleanup, None)) ->
  NewWithDeps newUUID parse timeNow cfg deps w = (w1, Ok s) ->
  Enabled (nProviders (srvNotifier s)) = (if lcEnabled (LiveConnections cfg) then [ChannelInApp] else []) /\
  (forall req userID kind res w, kind <> ChannelInApp ->
     notify_one (srvNotifier s) req userID kind res w =
       let '(w2, ms) := nNow (srvNotifier s) w in
       let '(w3, (_, created)) := CreateNotification (nStore (srvNotifier s)) (new_row req userID kind ms) w2 in
       (w3, match created with
            | Err err => (res, Some err)
            | Ok _ => (mkNotifyResult (Delivered res) (Pending res + 1) (Failed res), None)
            end)) /\
  (forall req w, whole (P := store_of cfg) w -> request_fits s (store_of cfg) req ->
     rChannels req <> [] -> ChannelInApp ∉ rChannels req ->
     let pairs := pairs_of (rUserIDs req) (rChannels req) in
     exists w', Notify (srvNotifier s) req w = (w', (mkNotifyResult 0 (Z.of_nat (length pairs)) 0, None)) /\
       abs_devs (view (P := store_of cfg) w') = abs_devs (view (P := store_of cfg) w) /\
       filed req pairs (abs_rows (view (P := store_of cfg) w)) (abs_rows (view (P := store_of cfg) w'))).
Proof.
  intros Hb Hn. destruct (built_store _ _ _ _ _ Hb) as (Hpr & _).
  pose proof (unwired_kind newUUID parse timeNow cfg deps w w1 s) as Hget. split_and!.
  - by apply (enabled_channels newUUID parse timeNow cfg deps w w1).
  - intros req u kind res w' Hk. apply notify_one_unwired. by apply Hget.
  - intros req w' Hi (Hft & Hfu & Hfc) Hne Hno pairs.
    destruct (built_server newUUID parse timeNow cfg deps w w1 s Hn) as (_ & Ha & _).
    destruct (started_server w0 w deps cleanup _ Hb Ha) as (w1' & s' & Hn' & Hp & _).
    rewrite Hn in Hn'. injection Hn' as <- <-.
    assert (Hch : channels_of (srvNotifier s) req = rChannels req) by (unfold channels_of; by destruct (rChannels req)).
    rewrite Hch in Hfc.
    assert (Hpairs : Forall (fun '(u, kind) => fits (P := store_of cfg) u /\ fits (P := store_of cfg) kind /\
      Get (nProviders (srvNotifier s)) kind = None) pairs).
    { apply Forall_forall. intros [u kind] (u' & (kind' & [= <- <-] & Hk)%list_elem_of_fmap & Hu)%list_elem_of_bind.
      rewrite Forall_forall in Hfu, Hfc. split_and!; [by apply Hfu|by apply Hfc|]. apply Hget; [done..|]. by intros ->. }
    destruct (pairs_files s (store_of cfg) req pairs Hft Hpairs (mkNotifyResult 0 0 0) w' Hi) as (w2 & He & _ & Hd & Hf).
    exists w2. split_and!; [|done|done]. unfold Notify. by rewrite Hch, notify_users_pairs.
Qed.

(** C11: What cmd/notifyd starts can serve RPCs in parallel.  For every configuration that loads and
    every store, whichever of the three drivers it names, that main.go could open, NewWithDeps
    builds a server on which the theorem on RPCs in parallel holds: the store that was opened is
    the one behind the orchestrator and the handlers, and the clock, the in-app provider and the
    retry tracker, which the wiring adds around it, leave it alone.  And that store is whole: the
    memory driver starts empty; a Postgres database of which every recorded migration has run,
    an empty one included, is brought to the full schema when NOTIFY_POSTGRES_AUTO_MIGRATE is on,
    and has to have it already when it is off; an EntDB tenant whose nodes were consistent before
    stays so.  On the memory and EntDB drivers every RPC can be served; on Postgres those whose
    texts a text column can hold and whose id is a canonical uuid or none at all. *)
Theorem notifyd_serves get w0 w deps cleanup :
  loadConfig get = Ok cfg -> in_order w0 ->
  buildDependencies cycle pool pgUUID client cfg w0 = (w, (deps, cleanup, None)) ->
  exists w1 s, NewWithDeps newUUID parse timeNow cfg deps w = (w1, Ok s) /\
    whole (P := store_of cfg) w1 /\ ParallelServer s (store_of cfg) /\
    (scDriver (cfgStore cfg) <> "postgres" -> forall cs, Forall (rpc_fits s (store_of cfg)) cs) /\
    (scDriver (cfgStore cfg) = "postgres" ->
       (forall text, fits (P := store_of cfg) text <-> storable text) /\
       forall id, legible (P := store_of cfg) id <-> canonical_id pool pgUUID id).
Proof.
  intros Hg Hin Hb. destruct (resolve_auth_valid parse cfg deps (loaded_valid get cfg Hg)) as [auth Ha].
  destruct (started_server w0 w deps cleanup auth Hb Ha) as (w1 & s & Hn & Hp & Hw). exists w1, s.
  split_and!; [done|by apply Hw; eapply opened_whole|done| |apply store_takes_texts].
  intros Hd cs. by apply store_takes.
Qed.
End start.
End service.

(** ** The three drivers, started *)

Definition running : Type := Database * MemEnt.

Definition config_for (driver : string) : Config :=
  mkConfig DefaultClientPort DefaultInternalPort DefaultMetricsPort DefaultLogLevel DefaultShutdownTimeout
    (if (driver =? "postgres")%string then mkStoreConfig driver "" "" "postgres://notify" true
     else if (driver =? "entdb")%string then mkStoreConfig driver "entdb:50051" "main" "" false
     else mkStoreConfig driver "" "" "" false)
    (cfgEmail dev_config) (cfgSMS memory_config) (cfgWhatsApp dev_config) (cfgWebPush dev_config) (cfgMobilePush dev_config)
    (LiveConnections dev_config) (cfgAuth dev_config).

Definition mem_client : DbClient MemEnt := mkDbClient (fun _ _ => mret None) (mret None) (mret None) mem_sdk.

(** An empty Postgres database and an empty EntDB tenant. *)
Definition cold_start : Process running :=
  mkProcess New no_streams (NewRetryTracker 3) false ∅ 0 ∅ ((empty_tables, fresh_schema), empty_ent).

Definition eleven : M (Process running) Z := mret 1699996400000.

Definition start (driver : string) : Process running * result error (Server running) :=
  let cfg := config_for driver in
  let '(w, (deps, _, _)) := buildDependencies database_cycle database_pool (in_tables draw) mem_client cfg cold_start in
  NewWithDeps (H := sample_order) sample_uuid refuse_all eleven cfg deps w.

Definition served_store (driver : string) : StoreP (Process running) :=
  store_of (H := sample_order) sample_uuid database_pool (in_tables draw) mem_client (config_for driver).

Definition tenant_laws (driver : string) : EntdbLaws mem_sdk (scTenantID (cfgStore (config_for driver))) :=
  mem_sdk_laws (scTenantID (cfgStore (config_for driver))).

Definition served_driver (driver : string) : Driver (served_store driver) :=
  driver_of (H := sample_order) sample_uuid database_pool (in_tables draw) mem_client sample_uuid_inj sample_uuid_nonempty
    (HPg := database_pool_laws) (config_for driver) (HEnt := tenant_laws driver).

Lemma database_laws : DatabaseLaws database_cycle database_pool (in_tables draw)
  (HP := database_pool_laws) (HM := database_migrations).
Proof.
  refine {| sound := fun d : Database => tables_inv d.1 : Prop |}; cbn [database_cycle NewWithConfig Ping Acquire Release conn pgQuery Exec];
    unfold in_schema, lift; try done.
  - intros sql args [t w] _ Ht. by destruct (Exec (conn schema_cycle) sql args _).
  - intros m [t w] _ Ht. by destruct (Exec (conn schema_cycle) (mig_sql m) [] _).
Defined.

Lemma mem_client_laws tenant : ClientLaws mem_client tenant (HEnt := mem_sdk_laws tenant).
Proof. by split. Qed.

Lemma cold_in_order driver : in_order database_cycle database_pool (in_tables draw) mem_client (HPg := database_pool_laws)
  (HM := database_migrations) (HD := database_laws) (config_for driver) (HEnt := tenant_laws driver) cold_start.
Proof.
  split; intros Hd; [split; [exact empty_tables_inv|]|exact empty_ent_inv]. left.
  unfold config_for in *. cbn [cfgStore] in *. destruct (driver =? "postgres")%string eqn:Hp; [reflexivity|].
  apply String.eqb_neq in Hp. by destruct (driver =? "entdb")%string.
Qed.

Lemma notifyd_serves_witness :
  Forall (fun driver => exists w1 s, start driver = (w1, Ok s) /\ whole (P := served_store driver) (Driver := served_driver driver) w1 /\
    ParallelServer s (served_store driver) (HD := served_driver driver)) ["memory"; "postgres"; "entdb"].
Proof.
  repeat apply Forall_cons_2; [..|apply Forall_nil_2].
  all: match goal with |- exists w1 s, start ?driver = _ /\ _ =>
    destruct (notifyd_serves (H := sample_order) sample_uuid refuse_all eleven database_cycle database_pool (in_tables draw) mem_client
      sample_uuid_inj sample_uuid_nonempty (HPg := database_pool_laws) ltac:(by repeat constructor)
      (HM := database_migrations) (HD := database_laws) ltac:(done) (config_for driver)
      (HEnt := tenant_laws driver) (HC := mem_client_laws (scTenantID (cfgStore (config_for driver))))
      (table_get (environment (config_for driver))) cold_start _ _ _ ltac:(vm_compute; reflexivity) (cold_in_order driver) eq_refl)
      as (w1 & s & Hs & Hw & Hp & _)
  end.
  all: by exists w1, s.
Defined.

(** A request for SMS on Postgres, with Twilio configured: filed, pending, sent by nobody. *)
Definition text_request : NotifyRequest :=
  mkNotifyRequest "acme" "order-1" ["u1"; "u2"] [ChannelSMS] "order" "order" "Shipped" "On its way"
    (<["u1" := {[ ChannelSMS := "+15550002" ]}]> ∅).

Lemma only_in_app_wired_witness :
  exists w1 s w', start "postgres" = (w1, Ok s) /\ tcProvider (cfgSMS (srvCfg s)) = "twilio" /\
    Enabled (H := sample_order) (nProviders (srvNotifier s)) = [ChannelInApp] /\
    Notify (H := sample_order) (srvNotifier s) text_request w1 = (w', (mkNotifyResult 0 2 0, None)) /\
    filed text_request [("u1", ChannelSMS); ("u2", ChannelSMS)] ∅ (tnotifs (database w').1).
Proof.
  assert (Hst : (database (start "postgres").1).1 = empty_tables /\ migrated (database (start "postgres").1) /\
    match (start "postgres").2 with Ok s => tcProvider (cfgSMS (srvCfg s)) = "twilio" | Err _ => False end).
  { split_and!; [vm_compute; reflexivity|unfold migrated; apply (bool_decide_unpack _); vm_compute; exact I|vm_compute; reflexivity]. }
  destruct (start "postgres") as [w1 [s|err]] eqn:Hs; [|by destruct Hst as (_ & _ & ?)].
  cbn [fst snd] in Hst. destruct Hst as (Hdb & Hmig & Hprov).
  assert (Hrows : tnotifs (database w1).1 = ∅) by (rewrite Hdb; reflexivity).
  assert (Hinv : tables_inv (database w1).1) by (rewrite Hdb; exact empty_tables_inv).
  destruct (only_in_app_wired (H := sample_order) sample_uuid refuse_all eleven database_cycle database_pool (in_tables draw) mem_client
    sample_uuid_inj sample_uuid_nonempty (HPg := database_pool_laws) ltac:(by repeat constructor) ltac:(done) (config_for "postgres")
    (HEnt := tenant_laws "postgres") cold_start _ _ _ w1 s eq_refl Hs) as (He & _ & Hn).
  destruct (Hn text_request w1) as (w' & Hrun & _ & Hf); [by split|..|].
  - split; [|split]; repeat (constructor; try exact I).
  - discriminate.
  - intros ?%list_elem_of_singleton. discriminate.
  - exists w1, s, w'. split_and!; [reflexivity|exact Hprov|exact He|exact Hrun|]. rewrite <- Hrows. exact Hf.
Defined.
