(* ===== verification/DriverRace.v ===== *)
(** * Concurrent creators, inside the database drivers

    A CreateNotification of the EntDB and Postgres drivers is two round trips: it
    tries to insert, and looks the stored row up when the key is taken.  What
    racing creators are told follows from LinearProps.v: their calls are one run
    of the abstract machine, which creates a key once. *)

From S2P Require Import Prelude GoErrors GoStrings Model StoreSpec StoreOps Memory MemoryProps Notifier Entdb EntdbProps.
From S2P Require Import Postgres PostgresProps PostgresSample Prog Drivers Linear LinearProps.

Definition creator (n : Notification) : Client StoreOut := CCall (OpCreate n) CRet.

(** What is true of a race when it is over: from the rows [m], the creators of
    [ns] answered [outs] and left the rows [m']. *)
Definition raced (ns : list Notification) (m m' : gmap string Notification) (outs : list StoreOut) : Prop :=
  m ⊆ m' /\
  Forall2 (fun n out => exists id b r, out = OutCreate id (Ok b) /\ m' !! id = Some r /\ key_of r = key_of n) ns outs /\
  (forall id r, m' !! id = Some r ->
     m !! id = Some r \/ exists n, (n, OutCreate id (Ok true)) ∈ zip ns outs /\ r = set_nID id n) /\
  forall k, let winning := count (created_true k) (zip (OpCreate <$> ns) outs) in
    (present m k -> winning = 0%nat) /\ (absent key_of m k -> k ∈ key_of <$> ns -> winning = 1%nat).

(** ** One call per client *)

(** A history is, up to the order, its clients' calls. *)
Lemma history_perm (hist : list (nat * Event)) n : Forall (fun c => c.1 < n)%nat hist ->
  hist.*2 ≡ₚ mjoin ((fun i => calls_of i hist) <$> seq 0 n).
Proof.
  revert hist. induction n as [|n IH]; intros hist Hb.
  - destruct hist as [|c hist]; [done|]. apply Forall_cons in Hb as [Hc _]. lia.
  - rewrite seq_S, fmap_app, join_app. cbn. rewrite app_nil_r.
    rewrite <- (filter_app_complement (fun c : nat * Event => c.1 = n) hist) at 1.
    rewrite fmap_app, Permutation_app_comm. apply Permutation_app; [|done].
    rewrite (IH (filter (fun c => ~ c.1 = n) hist)).
    + erewrite list_fmap_ext; [reflexivity|]. intros j i Hi. apply lookup_seq in Hi as [-> Hi].
      unfold calls_of. f_equal. rewrite list_filter_filter. apply list_filter_iff. intros [i e]. cbn. lia.
    + apply Forall_forall. intros c [Hne Hc]%list_elem_of_filter. rewrite Forall_forall in Hb. specialize (Hb c Hc). lia.
Qed.

Lemma creators_history hist ns outs : length outs = length ns -> Forall (fun c => c.1 < length ns)%nat hist ->
  (forall i n out, ns !! i = Some n -> outs !! i = Some out -> calls_of i hist = [(OpCreate n, out)]) ->
  hist.*2 ≡ₚ zip (OpCreate <$> ns) outs.
Proof.
  intros Hl Hb Hcalls. rewrite (history_perm hist (length ns) Hb). clear Hb.
  assert (Hgen : forall k, (forall i n out, ns !! i = Some n -> outs !! i = Some out -> calls_of (k + i) hist = [(OpCreate n, out)]) ->
    mjoin ((fun i => calls_of i hist) <$> seq k (length ns)) ≡ₚ zip (OpCreate <$> ns) outs).
  { clear Hcalls. revert outs Hl. induction ns as [|n ns IH]; intros [|out outs] Hl k Hc; try done. cbn [length seq fmap list_fmap].
    cbn. rewrite <- (Nat.add_0_r k) at 1. rewrite (Hc 0%nat n out eq_refl eq_refl). cbn. constructor.
    apply IH; [by injection Hl|]. intros i n' out' Hn Ho. rewrite Nat.add_succ_comm. by apply Hc. }
  by apply Hgen.
Qed.

Lemma follows_creator answers n h out : follows answers (creator n) h out -> answers (OpCreate n) h out.
Proof.
  intros Hf. inversion Hf as [|op k h1 out1 h' a Ha Hk]; subst. inversion Hk; subst. by rewrite app_nil_r.
Qed.

(** ** Runs that only create *)

Definition is_create (e : Event) : Prop := exists n, e.1 = OpCreate n.

Lemma create_step a e a' : is_create e -> spec_step a e a' ->
  exists n id, (e = (OpCreate n, OutCreate id (Ok true)) /\ abs_rows a !! id = None /\
                  abs_rows a' = <[id := set_nID id n]> (abs_rows a) \/
                e = (OpCreate n, OutCreate id (Ok false)) /\ abs_rows a' = abs_rows a) /\
    exists r, abs_rows a' !! id = Some r /\ key_of r = key_of n.
Proof.
  intros [n He] Hs. inversion Hs; subst; try done; cbn in He; injection He as ->.
  - exists n, id. split; [by left|]. exists (set_nID id n). cbn. by rewrite lookup_insert_eq.
  - exists n, id. split; [by right|]. by exists r.
Qed.

Lemma creates_run a h a' : steps spec_step a h a' -> Forall is_create h ->
  abs_rows a ⊆ abs_rows a' /\
  (forall op out, (op, out) ∈ h -> exists n id b r, op = OpCreate n /\ out = OutCreate id (Ok b) /\
     abs_rows a' !! id = Some r /\ key_of r = key_of n) /\
  forall id r, abs_rows a' !! id = Some r -> abs_rows a !! id = Some r \/
    exists n, (OpCreate n, OutCreate id (Ok true)) ∈ h /\ r = set_nID id n.
Proof.
  induction 1 as [a|a e a1 h a2 Hs _ IH]; intros Hc.
  { split_and!; [done|by intros op out ?%not_elem_of_nil|by left]. }
  apply Forall_cons in Hc as [Hc Hcs]. destruct (IH Hcs) as (Hsub & Hout & Hsrc).
  destruct (create_step a e a1 Hc Hs) as (n & id & Hcase & r & Hr & Hk). split_and!.
  - etrans; [|exact Hsub]. destruct Hcase as [(_ & Hnew & ->)|[_ ->]]; [by apply insert_subseteq|done].
  - intros op out [He|Hin]%elem_of_cons; [|by apply Hout].
    pose proof (lookup_weaken _ _ _ _ Hr Hsub) as Hr2.
    destruct Hcase as [(-> & _)|[-> _]]; injection He as -> ->; by eexists n, id, _, r.
  - intros i x [Hx|(n' & Hin & ->)]%Hsrc; [|right; exists n'; split; [by right|done]].
    destruct Hcase as [(-> & Hnew & Hrows)|[_ Hrows]]; rewrite Hrows in Hx; [|by left].
    apply lookup_insert_Some in Hx as [[<- <-]|[_ Hx]]; [|by left]. right. exists n. split; [by left|done].
Qed.

Lemma zip_creates (ns : list Notification) (outs : list StoreOut) (e : Event) : e ∈ zip (OpCreate <$> ns) outs -> exists n, e.1 = OpCreate n /\ (n, e.2) ∈ zip ns outs.
Proof.
  revert outs. induction ns as [|n ns IH]; intros [|out outs]; try by intros ?%not_elem_of_nil.
  intros [->|Hin]%elem_of_cons; [exists n; split; [done|by left]|].
  destruct (IH outs Hin) as (n' & Hn & Hz). exists n'. split; [done|by right].
Qed.

Lemma zip_lookup_creates (ns : list Notification) (outs : list StoreOut) i n out :
  ns !! i = Some n -> outs !! i = Some out -> (OpCreate n, out) ∈ zip (OpCreate <$> ns) outs.
Proof.
  intros Hn Ho. apply list_elem_of_lookup. exists i. rewrite lookup_zip_with. by rewrite list_lookup_fmap, Hn, Ho.
Qed.

(** What a history of creators says about them. *)
Lemma creators_raced a a' (hist : list (nat * Event)) (ns : list Notification) outs : abs_ok a -> length outs = length ns ->
  steps spec_step a hist.*2 a' -> hist.*2 ≡ₚ zip (OpCreate <$> ns) outs ->
  raced ns (abs_rows a) (abs_rows a') outs.
Proof.
  intros Hok Hl Hs Hp.
  assert (Hc : Forall is_create hist.*2).
  { rewrite Hp. apply Forall_forall. intros e (n & He & _)%zip_creates. by exists n. }
  destruct (creates_run _ _ _ Hs Hc) as (Hsub & Hout & Hsrc). split; [done|]. split_and!.
  - apply Forall2_same_length_lookup_2; [done|]. intros i n out Hn Ho.
    destruct (Hout (OpCreate n) out) as (n' & id & b & r & [= <-] & -> & Hr & Hk); [|by exists id, b, r].
    rewrite Hp. by eapply zip_lookup_creates.
  - intros id r [Hr|(n & Hin & ->)]%Hsrc; [by left|]. right. exists n. split; [|done].
    rewrite Hp in Hin. by apply zip_creates in Hin as (n' & [= <-] & Hz).
  - intros k. cbv zeta. rewrite <- (count_perm _ _ _ Hp). split.
    + intros (id & r & Hr & Hk). apply (spec_present_count k a _ a' Hs). intros Ha. by apply (Ha id r).
    + intros Ha (n & -> & [i Hi]%list_elem_of_lookup)%list_elem_of_fmap.
      destruct (lookup_lt_is_Some_2 outs i) as [out Ho]; [rewrite Hl; by eapply lookup_lt_Some|].
      assert (He : existsb (creates_key (key_of n)) hist.*2 = true).
      2: { etrans; [exact (spec_created_count _ _ _ _ Hs Ha)|]. exact (f_equal (fun b : bool => if b then 1 else 0)%nat He). }
      apply existsb_exists. exists (OpCreate n, out). split; [|by apply bool_decide_eq_true_2].
      apply list_elem_of_In. rewrite Hp. by eapply zip_lookup_creates.
Qed.

Lemma serializable_raced answers a a' ns outs : abs_ok a ->
  (forall n, answers (OpCreate n) = exact (OpCreate n)) ->
  serializable answers a a' (creator <$> ns) outs -> raced ns (abs_rows a) (abs_rows a') outs.
Proof.
  intros Hok Hans (hist & Hs & Hb & Hf). rewrite length_fmap in Hb.
  assert (Hl : length outs = length ns) by (apply Forall2_length in Hf; by rewrite length_imap, length_fmap in Hf).
  apply (creators_raced a a' hist); [done..|]. apply creators_history; [done..|]. intros i n out Hn Ho.
  assert (Hi : imap pair (creator <$> ns) !! i = Some (i, creator n)) by (by rewrite list_lookup_imap, list_lookup_fmap, Hn).
  pose proof (follows_creator _ _ _ _ (Forall2_lookup_lr _ _ _ _ _ _ Hf Hi Ho)) as Ha. by rewrite Hans in Ha.
Qed.

(** ** The property *)

(** C25: When any number of CreateNotification calls race on one EntDB tenant, or, with texts
    that a Postgres text column can hold and ids left to the driver, on one Postgres database,
    their round trips (the insert, and the look-up after a conflict) interleaved by any schedule,
    then every call succeeds and answers the id of a stored row of its (tenant, user,
    notification id); of the calls that want a key that was not stored exactly one is told that it
    created the row, of those that want a stored key none; the rows from before are kept, and every
    new row is the notification of a call that was told it created it. *)
Theorem drivers_one_creator {E D : Type} (sdk : SDK E) (tenant : string) {HL : EntdbLaws sdk tenant}
    (pool : Pool D) (newUUID : M D string) {HP : PgLaws pool newUUID} (ns : list Notification) (sched : list nat) :
  (forall e, ent_inv sdk tenant e ->
    let '(e', outs) := interleave sched (client_prog (EntdbStoreP sdk tenant) <$> (creator <$> ns)) e in
    ent_inv sdk tenant e' /\ raced ns (ent_rows sdk tenant e) (ent_rows sdk tenant e') outs) /\
  (forall w, pg_inv w -> Forall (fun n => pg_ready pool newUUID (OpCreate n)) ns ->
    let '(w', outs) := interleave sched (client_prog (PostgresStoreP pool newUUID) <$> (creator <$> ns)) w in
    pg_inv w' /\ raced ns (nrows w) (nrows w') outs).
Proof.
  split.
  - intros e Hi. pose proof (clients_serializable (HP := ent_linear sdk tenant) _ (creator <$> ns) sched e Hi) as Hs.
    destruct (interleave _ _ e) as [e' outs]. destruct Hs as [Hi' Hs]; [by apply Forall_fmap, Forall_true|].
    split; [done|].
    exact (serializable_raced ent_answers (ent_view sdk tenant e) (ent_view sdk tenant e') ns outs
      (ent_rows_ok sdk tenant e Hi) (fun _ => eq_refl) Hs).
  - intros w Hi Hr. pose proof (clients_serializable (HP := pg_linear pool newUUID) _ (creator <$> ns) sched w Hi) as Hs.
    destruct (interleave _ _ w) as [w' outs]. destruct Hs as [Hi' Hs].
    { apply Forall_fmap. eapply Forall_impl; [exact Hr|]. by split. }
    split; [done|].
    exact (serializable_raced pg_answers (pg_abs pool newUUID w) (pg_abs pool newUUID w') ns outs
      (pg_rows_ok w Hi) (fun _ => eq_refl) Hs).
Qed.

(** Two creators of one key and a third of another; both rivals try to insert
    before the loser looks the winner's row up. *)
Definition rivals : list Notification :=
  [sample_notif "acme" "u1" "n1" 10; sample_notif "acme" "u1" "n1" 20; sample_notif "acme" "u1" "n2" 30].

Lemma drivers_one_creator_witness :
  (let '(e', outs) := interleave [1; 0; 2; 0]%nat (client_prog (EntdbStoreP mem_sdk "main") <$> (creator <$> rivals)) empty_ent in
   @ent_inv _ mem_sdk "main" (mem_sdk_laws "main") e' /\
   raced rivals ∅ (@ent_rows _ mem_sdk "main" (mem_sdk_laws "main") e') outs) /\
  (interleave [1; 0; 2; 0]%nat (client_prog (EntdbStoreP mem_sdk "main") <$> (creator <$> rivals)) empty_ent).2 =
    [OutCreate "uuid-0" (Ok false); OutCreate "uuid-0" (Ok true); OutCreate "uuid-1" (Ok true)] /\
  (let '(w', outs) := interleave [1; 0; 2; 0]%nat (client_prog (PostgresStoreP sample_pool draw) <$> (creator <$> rivals)) empty_tables in
   tables_inv w' /\ raced rivals ∅ (tnotifs w') outs) /\
  (interleave [1; 0; 2; 0]%nat (client_prog (PostgresStoreP sample_pool draw) <$> (creator <$> rivals)) empty_tables).2 =
    [OutCreate "uuid-0" (Ok false); OutCreate "uuid-0" (Ok true); OutCreate "uuid-2" (Ok true)].
Proof.
  destruct (@drivers_one_creator _ _ mem_sdk "main" (mem_sdk_laws "main") sample_pool draw sample_pool_laws
    rivals [1; 0; 2; 0]%nat) as [He Hp].
  split; [exact (He empty_ent empty_ent_inv)|]. split; [vm_compute; reflexivity|].
  split; [|vm_compute; reflexivity]. apply (Hp empty_tables empty_tables_inv).
  repeat (constructor; [split; [reflexivity|repeat (constructor; [exact I|]); constructor]|]). constructor.
Defined.
